(* ===== verification/_CoqProject ===== *)
-Q . S2P
Prelude.v
RadUtil.v
Topsort.v
CheckStyle.v
GridData.v
PyNum.v
RadFloat.v
GridDraw.v
GridWindow.v
TestJobs.v
TestReport.v
TestConfig.v
TestMain.v
TestFinish.v
ModuleTemplates.v
CreateModule.v
ModuleFiles.v
FlowMon.v
PyStr.v
Ns3Args.v
Ns3Programs.v
Ns3Main.v
Ns3Runs.v
VizThreads.v
VizSvg.v
VizScene.v
VizStats.v
VizHud.v
VizMoves.v
BindScan.v
BindGen.v
VizConsole.v
