(* ===== verification/Prelude.v ===== *)
(** * Verification of the Python tools of the ns-3 tree

    This library verifies the hand-written Python programs that the repository keeps beside the simulator: the
    wrapper script [ns3] that configures, builds and runs everything, the test runner [test.py] with its helper
    [utils.py], the module generator [utils/create-module.py], the style checker [utils/check-style.py], the
    timeline viewer [utils/grid.py], the summary of flow monitor results
    [src/flow-monitor/examples/flowmon-parse-results.py], the visualizer of running simulations
    [src/visualizer/visualizer] with its Python console, and of the binding generator [bindings/python] the scan
    of the API, the customizations of the generated code and the two algorithm modules [topsort.py] and
    [rad_util.py].  All paths in the comments are relative to the root of the repository.

    ** The parts and how they interact

    - [ns3] parses its arguments, reads the build status file that CMake has left, configures and builds by
      calling CMake, resolves the name of a program to a target, and runs the program; it can also remove what a
      build has made, show what is configured, build the documentation and check.  It works in a dry-run mode
      that prints the commands instead.  [test.py] calls it to build.
    - [test.py] reads the build status file, builds, collects the examples to run (reading lists with
      [utils.py]), builds [Job]s for suites and examples, runs them in a pool of threads, collects the results
      into a summary, an exit status and a results file, translates that file to text and HTML, and removes its
      temporary directory.
    - The visualizer runs the simulator in a thread of its own, one sample period at a time, while a timer of
      the main thread updates the view; a lock, an event and two flags coordinate them.  The view keeps a node,
      channel or link object for every item of the network, draws transmissions and drops from samples, and can
      be zoomed, scrolled and dragged.  A console gives the user a Python shell, whose output appears when the
      main loop is idle.
    - The scan of the API walks over the declarations of a module and decides through a hook what is wrapped and
      where it comes from; the older script sorts all modules by their dependencies with [topsort.py].  The
      generator registers handlers for smart pointers and callbacks, runs the generated scripts in phases and
      writes the classes that the handlers use.  [topsort.py] calls [is_rotated] of [rad_util.py] to recognise a
      cycle it has already reported; the rest of [rad_util.py] is a collection of pure helpers.
    - [check-style.py] runs [uncrustify] on a copy of a file, computes a unified diff, drops from it the changes
      that only remove a trailing blank, applies the rest with [patch] and compares the result with the
      original, or copies it back.
    - [create-module.py] checks the names of the modules asked for, fills nine templates and writes the
      directory of each module; when something fails it removes the directory again.
    - [grid.py] reads a file of ranges, events and colors into timelines and sorts them; four renderers lay out
      and draw a legend, the timelines and two scales; a GTK widget keeps the visible range and changes it by
      clicks, drags and zooms.
    - [flowmon-parse-results.py] reads the XML file of a simulation, computes rates, delays and losses per flow,
      joins them with the addresses and the probes, and prints a summary.

    ** The files

    - [Prelude] (this file): what the components share of Python itself: exceptions as values ([py]), a state
      and exception monad ([stx]) with an invariant and a termination judgement ([inv_run], [runs]), subscripts
      and slices with negative indices, strings, decimal numbers, the stable [list.sort], and the class
      [DictIter], the interface for the iteration order of a dictionary: an arbitrary permutation of the keys,
      which may change from one iteration to the next, so a theorem over [DictIter] holds for every order.
    - [RadUtil]: the functions of [rad_util.py] on integers, strings, sequences and dictionaries, one definition
      per function.
    - [Topsort]: [topsort], [topsort_levels], [topsort_levels_core], [find_cycles]; the two dictionaries are the
      record [state], the search stack the record [search] (C10, C11, C34).
    - [CheckStyle]: the patch classes, [parse_patchset], the white-space filter, the configuration file, and the
      driver [indent], [indent_files], [run_as_main] as programs over a file system; chunks live in a store and
      patches hold addresses, because the filter changes lines through shared objects.  The external programs
      are the class [Tools]; a program may also not be installed (C17, C18, C36).
    - [GridData]: the classes of [grid.py] up to [Colors], [read_data] and the legend loop of [main]; modules
      [RangeLine] and [EventLine] for the two kinds of lines (C20).
    - [PyNum]: the numbers of Python 2, integers and floats in one type; floats are rationals and the rounding
      of every operation is the class [Rounding].
    - [RadFloat]: the functions of [rad_util.py] on floats, and [getmodule].
    - [GridDraw]: the four renderers of [grid.py]; drawing is a list of cairo commands, the extents of a text
      are the class [Cairo].
    - [GridWindow]: [GtkGraphicRenderer] as the record [gui] with one definition per handler, [main], and the
      event loop [main_loop] over the type [event]; an exception in a handler leaves the state that it has
      reached (C12).
    - [TestJobs]: [Job], [run_job_synchronously], [worker_thread], the parts of [run_tests] that select suites,
      build jobs, start the pool, collect the results and compute the exit status; [Path] and [Fnmatch] are the
      parts of [os.path] and [fnmatch] they use (C2-C4).  The pool is the step relation [step] on [pool].
    - [TestReport]: [read_test], [node_to_text], [translate_to_text], [translate_to_html] on element trees, and
      the results file as one text.
    - [TestConfig]: [utils.py], [make_paths], [parse_examples_to_run_file] and the loops that call it.
    - [TestMain]: [read_ns3_config], the build step, [--kinds] and [--list], and [run_tests] and [main] as a
      whole: the relation [main_runs] composes the phases with the pool of [TestJobs].  The surroundings are the
      class [System] (C1, C28, C29).
    - [TestFinish]: the temporary directory of a run, the results file and the reports as files, and what is
      removed at the end; opening a file, making and removing a directory may be refused (class [Refusals])
      (C22).
    - [ModuleTemplates]: the nine templates of [create-module.py], and [str.format] as a list of tokens.
    - [CreateModule]: the functions of [create-module.py] over a file system that may refuse any operation
      (class [Faults]), and the specification [creates] of what creating a module may do (C9, C13).
    - [ModuleFiles]: what the generated files contain and which of them the build files name (C39).
    - [FlowMon]: [flowmon-parse-results.py] on the element trees of [TestReport]; the list of flows is the store
      of the [Flow] objects and [flow_map] holds positions in it (C40).
    - [PyStr]: the string methods [replace], [split], [rpartition], [lower] and [int] as the wrapper uses them.
    - [Ns3Args]: the tables of arguments of [parse_args] of the script [ns3], the completion of the namespace
      that argparse returns, and the CMake options of [configure_cmake].  argparse is the class [Argparse],
      whose law is that it fills the declared destinations with values of the declared kind (C35).
    - [Ns3Programs]: the tables of programs: [search_cmake_cache], [get_program_shortcuts],
      [get_target_to_build], [remove_overlapping_path], [check_ambiguous_target], and the settings of a run that
      are kept (C19).
    - [Ns3Main]: the rest of the script as programs over the record [world] (the files, the environment, the
      output and the commands run); class [System] is what the script finds outside: other programs, [exec] of
      the lock file, the order of a directory.
    - [Ns3Runs]: theorems on whole runs of the script (C5, C6, C16, C32) and a concrete [System] (module [Demo])
      on which they are tried.
    - [VizThreads]: [SimulationThread] and the handlers of [Visualizer] that touch the lock, the event and the
      timer ([core.py]) as a step relation over the two threads; the view thread is a stack of frames, because a
      dialog runs the main loop again (C7, C8, C15).
    - [VizSvg], [VizScene]: the coordinates and traits of [base.py], [svgitem.py], and the nodes, channels,
      wired and wireless links of [core.py] and [wifi_intrastructure_link.py]: scanning the network, positions,
      selection.  Objects are numbers into maps, since links and nodes refer to each other (C14, C30).
    - [VizStats]: the samples, arrows and drops of [core.py] and the collector of [interface_statistics.py]
      (C31).
    - [VizHud]: the axes of [hud.py] (C37).
    - [VizMoves]: scrolling, zooming, autoscaling, following and dragging of [core.py] (C38).
    - [VizConsole]: the text buffer, the color codes, the history, the completion and the keys of
      [ipython_view.py]; the buffer is the record [console], the calls given to [idle_add] are a list in [view],
      IPython is the class [Shell] and what GTK does with a key that the handler leaves to it is the class
      [TextView] (C27, C33).
    - [BindScan]: [get_ns3_relative_path], [PreScanHook] and the list of callbacks of
      [ns3modulescan-modular.py], the table of annotations and the sections of [ns3modulescan.py], for both
      versions of Python; pygccxml is the class [Templates], and the table is part of the state, because the
      hook changes it (C21, C23, C24).
    - [BindGen]: [SmartPointerTransformation], the callback handlers and classes and the customizations of
      [ns3modulegen_core_customizations.py], and the error handler and [main] of [ns3modulegen-modular.py] as a
      sequence of phases; pybindgen is the class [TypeHandlers] (C25, C26).

    ** What the theorems show

    - Test runner (C1-C4, C22, C28, C29): status 0 means that the build and every job that the lists and the
      options plan succeeded; an uninterrupted run gives 0 only then; the checks before the pool stop the run;
      the pool terminates under every interleaving, every job comes back exactly once, and the summary and the
      exit status do not depend on the interleaving; the whole program can always finish; the reports are made
      of the closed results, only the directory of the run is removed, and what is left when a file operation is
      refused.
    - Wrapper script (C5, C6, C16, C19, C32, C35): how the script ends in every case, and that the status of a
      command run with sudo is not looked at; a dry run changes no file and asks only for the version of CMake,
      apart from the cases listed with C6; what cleaning removes; when a failing configuration is tried again;
      where a program is, and when two programs clash; what the parsed arguments mean.
    - Visualizer (C7, C8, C14, C15, C30, C31, C37, C38): the threads exclude each other, the simulator is ahead
      of the view by at most the sample period in force, no handler waits for ever, no message is lost and each
      is shown by the next update; the view shows the network, the links and the transmissions that the
      simulator has; the loop over the ticks ends, and autoscaling makes all nodes of a network visible that is
      not too wide for the smallest zoom, both with the rounding of doubles (class [Precise] of [VizSvg]).
    - Console (C27, C33): a command is read, run and its output shown after it; text protected by the tag that
      makes it not editable stays, whatever keys are pressed.
    - Module generator (C9, C13, C39): for every pattern of failures [make_module] refines the specification (a
      complete module, or nothing, or an error while cleaning up); the script never touches what exists; every
      file named in the generated build files is in the module, and every C++ file of the module is named.
    - Dependency sorting (C10, C11, C34): for every dictionary order the sort terminates, never fails with
      KeyError, returns a permutation of the nodes in dependency order or reports exactly the part of the graph
      that cycles keep alive; the levels are the sets of nodes at each depth; the cycles listed are exactly the
      simple cycles of the graph, each once up to rotation, which rests on the rotation test of [RadUtil].
    - Binding generator (C21, C23-C26): the path of a header is the part after the last [ns3]; the hook
      attributes a class to the module that the location of its template arguments and its header say, whatever
      was scanned before, and raises otherwise; under Python 2 the sections of the older script are in the order
      of the dependencies, by the theorem on sorting, under Python 3 it raises AttributeError; a smart pointer
      to a plain type is normalised, one to a template instance is refused; the code generated for a callback
      refers to a class that is written, with the same template arguments.
    - Style checker (C17, C18, C36): files that are not to be changed are never changed; a parsed diff can be
      written and parsed back; the filter changes nothing but trailing blanks.
    - Timelines (C20): the binary search terminates and gives the slice it should.
    - Flow monitor (C40): every flow is listed once with its own addresses and probe counts, and where the
      script stops.
    - Viewer (C12): after any sequence of events, and whatever the rounding, the range of the window, the
      timelines and the scale agree.

    Each file also proves what is known of its other operations, such as the remaining helpers of [rad_util.py],
    the aligned chunks of a diff, [uncrustify_config], [make_paths], the text report, the nesting of the HTML
    report, [lookup_colors], zooming, the ticks of a scale, redrawing, the CMake options, the targets of a name,
    the list reader, the names in generated files, the statistics of an interface, dragging a node, the history
    and the completion of the console, and inputs on which the code does not do what it says, without a number.

    ** Integers, fuel and bounds

    Python integers are unbounded, so [Z] needs no wrap-around.  [rad_util.py], [topsort.py] and [grid.py] are
    Python 2 code ([has_key], [list.sort] with a comparison function): [/] on integers is floor division there.
    Floats are finite rationals; where a theorem needs exact results it is stated for the instance [exact] of
    [Rounding], where it needs a bound on the error, for every [Precise] rounding.  Loops that are not
    structural take a fuel argument and return [None] when it runs out; the theorems show that the fuel the
    definitions pass is enough: [S |min a b|] for [gcf], [2 ^ bits] for [binary_range], the number of nodes for
    the sorts, the length of the list for the binary searches, one more than the length of the path for
    [relative_loop], the length of the text for [ansi_split], 31 for the ticks of an axis.  [float_range] takes
    the fuel as an argument: [float_range_up] says how much is enough, [float_range_diverges] when none is.
    [find_cycles] takes the fuel as an argument, and C11 gives a bound from which on it is enough.  The loop
    [closest_loop] of a scale multiplies by ten until it reaches the distance of the bounds, so its fuel, the
    binary length of the distance, is enough ([closest_spec] in [GridDraw]).  C8 bounds the steps that the
    simulation thread makes alone by 17.

    ** What is not modelled

    Code outside the repository is a parameter: [uncrustify], [patch], [difflib], [stat] (class [Tools], with
    the documented frame conditions as laws), the test runner, the shell and the build ([shell], [System]),
    [eval] and [exec] of a list, a condition or an assignment, the parser of XML, the text extents of cairo, the
    rounding of floats, and the format [%.3f]; for the wrapper script, the splitting of the command line by
    argparse, the programs it starts, [exec] of the lock file, the json reader and the order of a directory
    (classes [Argparse] and [System]); for the visualizer the simulator, graphviz, [math.log] and the like; for
    the bindings pygccxml and pybindgen; IPython; the default handling of a key by GTK ([TextView]).  Left out
    are: the tables of options of [test.py] and [create-module.py], whose results are the records [options] and
    [command_line] and the arguments of [main]; the help texts of [ns3], and file operations of it that the
    system refuses; the output of [--verbose] of [test.py]; the widgets of GTK and their construction,
    screenshots, tooltips, and the plug-in windows that copy a table of the simulator; the configuration of
    IPython; the hook of the older scan script, an earlier version of the one modelled, and the customizations
    of the bindings that only pass fixed texts to pybindgen; in [rad_util.py] the clock; the unit tests of the
    bindings; the generated binding scripts ([modulegen__gcc_*.py]), which are output of the scan; and the copy
    of the tree under [contrib/nr].

    ** Plan

    Done: the programs above.  What is left of the hand-written Python code are the parts named under "What is
    not modelled", which make no decisions of their own. *)

From stdpp Require Import base list strings gmap sorting.
From Stdlib Require Import DecimalString DecimalN Ascii.

(** ** Scope *)

Declare Scope py_scope.
Delimit Scope py_scope with py.
Open Scope py_scope.

(** Lengths and indices are natural numbers, Python integers are [Z]. *)
#[global] Coercion Z.of_nat : nat >-> Z.

(** ** Exceptions and results

    A fallible Python call either returns a value or raises.  The exception type is a
    parameter because [CycleError] carries data of the key type. *)

Inductive py (E A : Type) : Type :=
| Ok (a : A)
| Raise (e : E).
Arguments Ok {E A} a.
Arguments Raise {E A} e.

(** The built-in exceptions the modelled code can raise. *)
Inductive exn : Type :=
| KeyError
| IndexError
| ValueError (msg : string)
| ZeroDivisionError
| AttributeError
| UnboundLocalError
| NameError
| TypeError
| OSError
| Exception_ (msg : string)
| KeyboardInterrupt
| SystemExit (code : Z).

#[global] Instance py_ret {E} : MRet (py E) := λ A a, Ok a.
#[global] Instance py_bind {E} : MBind (py E) :=
  λ A B f m, match m with Ok a => f a | Raise e => Raise e end.
#[global] Instance py_fmap {E} : FMap (py E) :=
  λ A B f m, match m with Ok a => Ok (f a) | Raise e => Raise e end.

#[global] Instance exn_eq_dec : EqDecision exn.
Proof. solve_decision. Defined.

(** A subscript that raises [err] when the key or the index is missing. *)
Definition or_raise {E A} (err : E) (o : option A) : py E A :=
  match o with Some a => Ok a | None => Raise err end.

(** [for x in l: s = f(s, x)] where the body can raise. *)
Fixpoint py_foldl {E A S} (f : S → A → py E S) (s : S) (l : list A) : py E S :=
  match l with
  | [] => Ok s
  | x :: l => s' ← f s x; py_foldl f s' l
  end.

(** Unlike [injection], this does not simplify the values. *)
(** A loop that appends what [f] gives, if anything. *)
Fixpoint py_omap {E A B} (f : A → py E (option B)) (l : list A) : py E (list B) :=
  match l with
  | [] => Ok []
  | x :: l => match f x with
              | Raise e => Raise e
              | Ok y => match py_omap f l with Raise e => Raise e | Ok ys => Ok (option_list y ++ ys) end
              end
  end.

Lemma Ok_inj {E A} (a b : A) : @Ok E A a = Ok b → a = b.
Proof. congruence. Qed.

Lemma py_bind_ok {E A B} (m : py E A) (f : A → py E B) b :
  m ≫= f = Ok b ↔ ∃ a, m = Ok a ∧ f a = Ok b.
Proof. destruct m; cbn; split; [eauto|by intros (?&[= ->]&?)|done|by intros (?&?&?)]. Qed.

Lemma py_foldl_returns {E A S} (f : S → A → py E S) s l :
  Forall (λ x, ∀ s, ∃ s', f s x = Ok s') l → ∃ s', py_foldl f s l = Ok s'.
Proof.
  intros Hl. revert s. induction Hl as [|x l Hx _ IH]; intros s; cbn; [by eexists|].
  destruct (Hx s) as [s' ->]. apply IH.
Qed.
Lemma py_omap_elem {E A B} (f : A → py E (option B)) l ys y :
  py_omap f l = Ok ys → y ∈ ys → ∃ x, x ∈ l ∧ f x = Ok (Some y).
Proof.
  revert ys. induction l as [|x l IH]; intros ys; cbn; [by intros [= <-] ?%elem_of_nil|].
  destruct (f x) as [o|e] eqn:Ef; [|done]. destruct (py_omap f l) as [ys'|e] eqn:El; [|done]. intros [= <-].
  rewrite elem_of_app. intros [Hy|Hy].
  - exists x. destruct o as [y'|]; [|by apply elem_of_nil in Hy]. apply list_elem_of_singleton in Hy as ->.
    split; [left|done].
  - destruct (IH _ eq_refl Hy) as (x' & Hx & Hfx). exists x'. split; [by right|done].
Qed.
Lemma py_foldl_app {E A S} (f : S → A → py E S) s l1 l2 :
  py_foldl f s (l1 ++ l2) = (s' ← py_foldl f s l1; py_foldl f s' l2).
Proof.
  revert s; induction l1 as [|x l1 IH]; intros s; cbn; [done|].
  destruct (f s x); cbn; [apply IH|done].
Qed.

(** Code that also changes a state [S]: the state at the point of an exception is kept. *)
Definition stx (S E A : Type) : Type := S → py E A * S.
#[global] Instance stx_ret {S E} : MRet (stx S E) := λ A a s, (Ok a, s).
#[global] Instance stx_bind {S E} : MBind (stx S E) := λ A B f m s,
  match m s with (Ok a, s) => f a s | (Raise e, s) => (Raise e, s) end.

Definition get_st {S E} : stx S E S := λ s, (Ok s, s).
Definition modify_st {S E} (f : S → S) : stx S E unit := λ s, (Ok tt, f s).
Definition lift_py {S E A} (r : py E A) : stx S E A := λ s, (r, s).
Definition raise_st {S E A} (e : E) : stx S E A := λ s, (Raise e, s).
Fixpoint for_st {S E A} (f : A → stx S E unit) (l : list A) : stx S E unit :=
  match l with [] => mret tt | x :: l => f x ≫= λ _, for_st f l end.
Fixpoint fold_st {S E A B} (f : B → A → stx S E B) (b : B) (l : list A) : stx S E B :=
  match l with [] => mret b | x :: l => f b x ≫= λ b, fold_st f b l end.
Fixpoint map_st {S E A B} (f : A → stx S E B) (l : list A) : stx S E (list B) :=
  match l with
  | [] => mret []
  | x :: l => f x ≫= λ y, map_st f l ≫= λ ys, mret (y :: ys)
  end.

(** The first element that raises ends the loop. *)
Lemma map_st_raise {S E A B} (f : A → stx S E B) l1 x l2 s ys s1 e s2 :
  map_st f l1 s = (Ok ys, s1) → f x s1 = (Raise e, s2) → map_st f (l1 ++ x :: l2) s = (Raise e, s2).
Proof.
  intros H1 H2. revert s ys H1. induction l1 as [|y l1 IH]; intros s ys; cbn; unfold mbind, stx_bind.
  - intros [= _ ->]. by rewrite H2.
  - destruct (f y s) as [[z|e'] s']; [|done]. destruct (map_st f l1 s') as [[zs|e'] s''] eqn:Em; [|done].
    cbn. intros [= _ ->]. unfold mbind, stx_bind in IH. by rewrite (IH _ _ Em).
Qed.

(** Every run of [m] from a state with [Inv] ends, by returning or by raising, in a state with
    [Inv], and a returned value has [Q]. *)
Definition inv_run {S E A} (Inv : S → Prop) (m : stx S E A) (Q : A → Prop) : Prop :=
  ∀ s r s', Inv s → m s = (r, s') → Inv s' ∧ ∀ a, r = Ok a → Q a.

Section inv_run.
Context {S E : Type} (Inv : S → Prop).

Lemma inv_ret {A} (a : A) (Q : A → Prop) : Q a → inv_run Inv (mret a : stx S E A) Q.
Proof. intros HQ s r s' Hs [= <- <-]. split; [done|]. by intros ? [= <-]. Qed.
Lemma inv_get : inv_run Inv (get_st : stx S E S) (λ _, True).
Proof. by intros s r s' Hs [= <- <-]. Qed.
Lemma inv_lift {A} (r0 : py E A) (Q : A → Prop) :
  (∀ a, r0 = Ok a → Q a) → inv_run Inv (lift_py r0 : stx S E A) Q.
Proof. by intros HQ s r s' Hs [= <- <-]. Qed.
Lemma inv_raise {A} (e : E) (Q : A → Prop) : inv_run Inv (raise_st e : stx S E A) Q.
Proof. by intros s r s' Hs [= <- <-]. Qed.
Lemma inv_modify (f : S → S) (Q : unit → Prop) :
  (∀ s, Inv s → Inv (f s)) → Q tt → inv_run Inv (modify_st f : stx S E unit) Q.
Proof. intros Hf HQ s r s' Hs [= <- <-]. split; [by apply Hf|]. by intros [] _. Qed.
Lemma inv_bind {A B} (m : stx S E A) (f : A → stx S E B) (Q : A → Prop) (R : B → Prop) :
  inv_run Inv m Q → (∀ a, Q a → inv_run Inv (f a) R) → inv_run Inv (m ≫= f) R.
Proof.
  intros Hm Hf s r s' Hs. unfold mbind, stx_bind. destruct (m s) as [[a|e] s1] eqn:Em.
  - destruct (Hm _ _ _ Hs Em) as [Hs1 HQ]. apply Hf; [by apply HQ|done].
  - destruct (Hm _ _ _ Hs Em) as [Hs1 _]. by intros [= <- <-].
Qed.
Lemma inv_weaken {A} (m : stx S E A) (Q R : A → Prop) :
  inv_run Inv m Q → (∀ a, Q a → R a) → inv_run Inv m R.
Proof. intros Hm HQR s r s' Hs Hr. destruct (Hm _ _ _ Hs Hr). eauto. Qed.
Lemma inv_for {A} (f : A → stx S E unit) l :
  (∀ x, x ∈ l → inv_run Inv (f x) (λ _, True)) → inv_run Inv (for_st f l) (λ _, True).
Proof.
  induction l as [|x l IH]; intros Hf; cbn; [by apply inv_ret|].
  eapply inv_bind; [apply Hf; left|]. intros _ _. apply IH. intros y Hy. apply Hf. by right.
Qed.
Lemma inv_map {A B} (f : A → stx S E B) l (Q : A → B → Prop) :
  (∀ x, x ∈ l → inv_run Inv (f x) (Q x)) → inv_run Inv (map_st f l) (Forall2 Q l).
Proof.
  induction l as [|x l IH]; intros Hf; cbn; [by apply inv_ret; constructor|].
  eapply inv_bind; [apply Hf; left|]. intros y Hy.
  eapply inv_bind; [apply IH; intros z Hz; apply Hf; by right|]. intros ys Hys.
  apply inv_ret. by constructor.
Qed.
End inv_run.

(** The run of [m] from [s] returns, with a value and a state that have [Q]. *)
Definition runs {S E A} (m : stx S E A) (s : S) (Q : A → S → Prop) : Prop :=
  ∃ a s', m s = (Ok a, s') ∧ Q a s'.

Lemma runs_bind {S E A B} (m : stx S E A) (f : A → stx S E B) s Q R :
  runs m s Q → (∀ a s', Q a s' → runs (f a) s' R) → runs (m ≫= f) s R.
Proof.
  intros (a & s1 & Hm & HQ) Hf. destruct (Hf a s1 HQ) as (b & s2 & Hf' & HR).
  exists b, s2. split; [|done]. unfold mbind, stx_bind. by rewrite Hm.
Qed.
Lemma runs_ret {S E A} (a : A) s (Q : A → S → Prop) : Q a s → runs (mret a : stx S E A) s Q.
Proof. intros HQ. by exists a, s. Qed.
Lemma runs_modify {S E} (f : S → S) s (Q : unit → S → Prop) :
  Q tt (f s) → runs (modify_st f : stx S E unit) s Q.
Proof. intros HQ. by exists tt, (f s). Qed.
Lemma runs_weaken {S E A} (m : stx S E A) s (Q R : A → S → Prop) :
  runs m s Q → (∀ a s', Q a s' → R a s') → runs m s R.
Proof. intros (a & s' & ? & ?) HQR. exists a, s'. eauto. Qed.

(** ** Sequences: subscripts and slices with Python's negative indices *)

(** [l[i]]: a negative [i] counts from the end; out of range is [None] (IndexError). *)
Definition py_nth {A} (l : list A) (i : Z) : option A :=
  let j := (if i <? 0 then i + length l else i)%Z in
  if (j <? 0)%Z then None else l !! Z.to_nat j.

(** The position a slice bound denotes, clamped into [0, n]. *)
Definition py_bound (n : nat) (i : Z) : nat :=
  Z.to_nat (Z.max 0 (Z.min n (if i <? 0 then i + n else i)))%Z.

(** [l[lo:hi]], [l[lo:]] and [l[:hi]]. *)
Definition py_slice {A} (l : list A) (lo hi : Z) : list A :=
  let a := py_bound (length l) lo in
  let b := py_bound (length l) hi in
  take (b - a) (drop a l).
Definition py_slice_from {A} (l : list A) (lo : Z) : list A :=
  drop (py_bound (length l) lo) l.
Definition py_slice_to {A} (l : list A) (hi : Z) : list A :=
  take (py_bound (length l) hi) l.

Lemma py_nth_nat {A} (l : list A) (i : nat) : py_nth l i = l !! i.
Proof.
  unfold py_nth. destruct (Z.ltb_spec (Z.of_nat i) 0); [lia|].
  destruct (Z.ltb_spec (Z.of_nat i) 0); [lia|]. by rewrite Nat2Z.id.
Qed.

Lemma py_bound_nat n (i : nat) : py_bound n i = i `min` n.
Proof. unfold py_bound. destruct (Z.ltb_spec (Z.of_nat i) 0); lia. Qed.

Lemma py_bound_neg n (i : nat) : (0 < i)%nat → py_bound n (- i) = n - i.
Proof. intros. unfold py_bound. destruct (Z.ltb_spec (- Z.of_nat i) 0); lia. Qed.

Lemma py_slice_nat {A} (l : list A) (a b : nat) :
  a ≤ b → b ≤ length l → py_slice l a b = take (b - a) (drop a l).
Proof. intros. unfold py_slice. rewrite !py_bound_nat. by rewrite !Nat.min_l by lia. Qed.

(** ** Strings *)

(** stdpp blocks the reduction of [+:+]; the proofs here compute with it. *)
#[global] Arguments String.append : simpl nomatch.

(** The characters a Python literal writes as backslash-n, backslash-t and a double quote. *)
Definition nl_char : ascii := "010"%char.
Definition tab_char : ascii := "009"%char.
Definition dq_char : ascii := "034"%char.
Definition nl : string := String nl_char "".

(** [esc] decodes the escapes of a Python literal: [\n], [\t] and [\q] (for the double
    quote, which Rocq literals cannot hold), so that text reads here as in the source. *)
Fixpoint esc (s : string) : string :=
  match s with
  | String "\" (String "n" r) => String nl_char (esc r)
  | String "\" (String "t" r) => String tab_char (esc r)
  | String "\" (String "q" r) => String dq_char (esc r)
  | String c r => String c (esc r)
  | EmptyString => ""
  end.

(** The characters of a string, and back. *)
Fixpoint chars (s : string) : list ascii :=
  match s with EmptyString => [] | String c s => c :: chars s end.
Fixpoint implode (l : list ascii) : string :=
  match l with [] => "" | c :: l => String c (implode l) end.

(** [''.join(ls)] and [sep.join(ls)]. *)
Fixpoint concat_str (ls : list string) : string :=
  match ls with [] => "" | s :: ls => s +:+ concat_str ls end.
Fixpoint join (sep : string) (ls : list string) : string :=
  match ls with
  | [] => ""
  | [s] => s
  | s :: ls => s +:+ sep +:+ join sep ls
  end.

(** [s.startswith(p)], returning what follows the prefix. *)
Fixpoint strip_prefix (p s : string) : option string :=
  match p, s with
  | EmptyString, _ => Some s
  | String a p, String b s => if decide (a = b) then strip_prefix p s else None
  | _, _ => None
  end.
Definition startswith (s p : string) : bool := bool_decide (is_Some (strip_prefix p s)).

(** [c in s] for one character and [sub in s] for a string. *)
Fixpoint has_char (c : ascii) (s : string) : bool :=
  match s with
  | EmptyString => false
  | String d s => bool_decide (c = d) || has_char c s
  end.
Fixpoint has_sub (sub s : string) : bool :=
  startswith s sub ||
  match s with EmptyString => false | String _ s => has_sub sub s end.

(** [s.split(c, 1)]: [None] when [c] does not occur (Python returns the one part [s]). *)
Fixpoint split_once (c : ascii) (s : string) : option (string * string) :=
  match s with
  | EmptyString => None
  | String d r =>
      if decide (c = d) then Some ("", r)
      else match split_once c r with
           | Some (a, b) => Some (String d a, b)
           | None => None
           end
  end.

(** [s.split(c)]: the pieces between the occurrences of [c]. *)
Fixpoint split_all (c : ascii) (s : string) : list string :=
  match s with
  | EmptyString => [""]
  | String d r =>
      if decide (c = d) then "" :: split_all c r
      else match split_all c r with
           | w :: ws => String d w :: ws
           | [] => [String d ""]
           end
  end.

(** [s.strip()] removes the ASCII white space at both ends. *)
Definition is_space (c : ascii) : bool :=
  bool_decide (c ∈ [" "; "009"; "010"; "011"; "012"; "013"]%char).
Fixpoint drop_spaces (l : list ascii) : list ascii :=
  match l with c :: r => if is_space c then drop_spaces r else l | [] => [] end.
Definition strip (s : string) : string :=
  implode (reverse (drop_spaces (reverse (drop_spaces (chars s))))).

(** [str(n)] and [%d] for the integers the code prints. *)
Definition str_of_N (n : N) : string := NilZero.string_of_uint (N.to_uint n).
Definition str_of_Z (z : Z) : string :=
  if (z <? 0)%Z then "-" +:+ str_of_N (Z.to_N (- z)) else str_of_N (Z.to_N z).

(** [int(s)] for a string of decimal digits, [None] (ValueError) for anything else.  The
    callers apply it to text a regular expression [[0-9]+] has matched. *)
Definition int_of_str (s : string) : option Z :=
  match NilZero.uint_of_string s with
  | Some u => if decide (s = "") then None else Some (Z.of_N (N.of_uint u))
  | None => None
  end.

Lemma implode_chars s : implode (chars s) = s.
Proof. induction s; cbn; congruence. Qed.

Lemma chars_implode l : chars (implode l) = l.
Proof. induction l; cbn; congruence. Qed.

Lemma chars_app s t : chars (s +:+ t) = chars s ++ chars t.
Proof. induction s; cbn; [done|]. by f_equal. Qed.

Lemma implode_app l k : implode (l ++ k) = implode l +:+ implode k.
Proof. induction l; cbn; [done|]. by f_equal. Qed.

Lemma string_app_assoc (a b c : string) : a +:+ (b +:+ c) = (a +:+ b) +:+ c.
Proof. induction a; cbn; [done|]. by f_equal. Qed.

Lemma string_app_nil_r (a : string) : a +:+ "" = a.
Proof. induction a; cbn; [done|]. by f_equal. Qed.

Lemma concat_str_app l l' : concat_str (l ++ l') = concat_str l +:+ concat_str l'.
Proof. induction l as [|s l IH]; cbn; [done|]. by rewrite IH, string_app_assoc. Qed.

Lemma strip_prefix_Some p s r : strip_prefix p s = Some r ↔ s = p +:+ r.
Proof.
  revert s; induction p as [|a p IH]; intros s; cbn; [naive_solver|].
  destruct s as [|b s]; [naive_solver|].
  case_decide; [|naive_solver]. rewrite IH. naive_solver.
Qed.

Lemma strip_prefix_app p r : strip_prefix p (p +:+ r) = Some r.
Proof. by apply strip_prefix_Some. Qed.

Lemma startswith_spec s p : startswith s p = true ↔ ∃ r, s = p +:+ r.
Proof.
  unfold startswith. rewrite bool_decide_eq_true. unfold is_Some.
  by setoid_rewrite strip_prefix_Some.
Qed.

Lemma has_char_app c s t : has_char c (s +:+ t) = has_char c s || has_char c t.
Proof. induction s; cbn; [done|]. by rewrite IHs, orb_assoc. Qed.

Lemma has_char_spec c s : has_char c s = true ↔ c ∈ chars s.
Proof.
  induction s as [|d s IH]; cbn; [set_solver|].
  rewrite orb_true_iff, bool_decide_eq_true, IH. set_solver.
Qed.

Lemma split_once_Some c s a b :
  split_once c s = Some (a, b) ↔ s = a +:+ String c b ∧ has_char c a = false.
Proof.
  revert a b; induction s as [|d s IH]; intros a b; cbn.
  - split; [done|]. intros [H _]. by destruct a.
  - case_decide as Hc.
    + subst d. split; [naive_solver|]. intros [H Hn]. destruct a as [|e a]; cbn in *; [naive_solver|].
      injection H as <- ->. by rewrite bool_decide_eq_true_2 in Hn.
    + destruct (split_once c s) as [[a' b']|] eqn:E.
      * split.
        -- intros [= <- <-]. destruct (proj1 (IH _ _) eq_refl) as [-> Hn]. cbn.
           by rewrite bool_decide_eq_false_2.
        -- intros [H Hn]. destruct a as [|e a]; cbn in *; [naive_solver|].
           injection H as <- ->. apply orb_false_iff in Hn as [_ Hn].
           by injection (proj2 (IH a b) (conj eq_refl Hn)) as <- <-.
      * split; [done|]. intros [H Hn]. destruct a as [|e a]; cbn in *; [naive_solver|].
        injection H as <- ->. apply orb_false_iff in Hn as [_ Hn].
        discriminate (proj2 (IH a b) (conj eq_refl Hn)).
Qed.

Lemma split_once_None c s : split_once c s = None ↔ has_char c s = false.
Proof.
  induction s as [|d s IH]; cbn; [done|].
  case_decide as Hc; [by rewrite bool_decide_eq_true_2|].
  rewrite bool_decide_eq_false_2 by done; cbn. rewrite <-IH.
  by destruct (split_once c s) as [[]|].
Qed.

Lemma to_uint_nonnil n : N.to_uint n ≠ Decimal.Nil.
Proof.
  rewrite <-(Unsigned.of_to n), Unsigned.to_of. unfold Decimal.unorm.
  by destruct (Decimal.nzhead _).
Qed.

(** Printing an integer and reading it back gives the integer. *)
Lemma int_of_str_of_N n : int_of_str (str_of_N n) = Some (Z.of_N n).
Proof.
  unfold int_of_str, str_of_N.
  rewrite NilZero.usu by apply to_uint_nonnil.
  rewrite Unsigned.of_to. case_decide as H; [|done].
  destruct (N.to_uint n) eqn:E; by cbn in H.
Qed.

(** The text of a decimal number consists of digits. *)
Definition is_digit (c : ascii) : bool :=
  bool_decide (c ∈ ["0"; "1"; "2"; "3"; "4"; "5"; "6"; "7"; "8"; "9"]%char).

Lemma uint_digits u : Forall is_digit (chars (NilEmpty.string_of_uint u)).
Proof. induction u; cbn; repeat constructor; done. Qed.

Lemma str_of_N_digits n : Forall is_digit (chars (str_of_N n)) ∧ str_of_N n ≠ "".
Proof.
  unfold str_of_N. pose proof (to_uint_nonnil n) as Hn.
  destruct (N.to_uint n) eqn:E; cbn; [done|..];
    (split; [constructor; [done|apply uint_digits]|done]).
Qed.

(** The longest run of digits at the start of a string, and the rest. *)
Fixpoint span_digits (s : string) : string * string :=
  match s with
  | String c r => if is_digit c then let '(a, b) := span_digits r in (String c a, b) else ("", s)
  | EmptyString => ("", "")
  end.

Lemma span_digits_app d r :
  Forall is_digit (chars d) → (∀ c r', r = String c r' → is_digit c = false) →
  span_digits (d +:+ r) = (d, r).
Proof.
  intros Hd Hr. induction d as [|c d IH]; cbn in *.
  - destruct r as [|c r]; cbn; [done|]. by rewrite (Hr c r).
  - apply Forall_cons in Hd as [Hc Hd]. destruct (is_digit c); [|done]. by rewrite IH.
Qed.

(** ** Stable sorting: [list.sort] *)

Section stable_sort.
Context {A : Type} (le : A → A → bool).

(** Insert [x] before the first element it does not exceed: equal elements that came
    later in the input stay later. *)
Fixpoint insert_stable (x : A) (l : list A) : list A :=
  match l with
  | [] => [x]
  | y :: l => if le x y then x :: y :: l else y :: insert_stable x l
  end.
Definition stable_sort (l : list A) : list A := foldr insert_stable [] l.

Lemma insert_stable_perm x l : insert_stable x l ≡ₚ x :: l.
Proof.
  induction l as [|y l IH]; cbn; [done|]. destruct (le x y); [done|].
  by rewrite IH, Permutation_swap.
Qed.

Lemma stable_sort_perm l : stable_sort l ≡ₚ l.
Proof. induction l as [|x l IH]; cbn; [done|]. by rewrite insert_stable_perm, IH. Qed.

(** Elements the order does not separate keep their relative order. *)
Lemma insert_stable_filter (P : A → Prop) `{∀ x, Decision (P x)} x l :
  (∀ y, P x → P y → le x y = true) →
  filter P (insert_stable x l) = filter P (x :: l).
Proof.
  intros Hle. induction l as [|y l IH]; cbn; [done|].
  destruct (le x y) eqn:E; [done|].
  rewrite filter_cons, IH, !filter_cons.
  repeat case_decide; try done. by rewrite Hle in E.
Qed.

Lemma stable_sort_filter (P : A → Prop) `{∀ x, Decision (P x)} l :
  (∀ x y, P x → P y → le x y = true) →
  filter P (stable_sort l) = filter P l.
Proof.
  intros Hle. unfold stable_sort. induction l as [|x l IH]; cbn; [done|].
  rewrite insert_stable_filter by auto.
  rewrite !filter_cons. by case_decide; rewrite IH.
Qed.

Context (Htot : ∀ x y, le x y = true ∨ le y x = true).

Lemma insert_stable_sorted x l :
  Sorted (λ a b, le a b = true) l → Sorted (λ a b, le a b = true) (insert_stable x l).
Proof.
  induction 1 as [|y l Hl IH Hhd]; cbn; [by repeat constructor|].
  destruct (le x y) eqn:E; [by repeat constructor|].
  assert (le y x = true) by (destruct (Htot x y); congruence).
  constructor; [done|]. destruct Hhd as [|z l Hyz]; cbn; [by constructor|].
  by destruct (le x z); constructor.
Qed.

Lemma stable_sort_sorted l : Sorted (λ a b, le a b = true) (stable_sort l).
Proof. induction l; cbn; [constructor|]. by apply insert_stable_sorted. Qed.
End stable_sort.

Lemma Sorted_mono {A} (R R' : relation A) l :
  (∀ x y, R x y → R' x y) → Sorted R l → Sorted R' l.
Proof.
  intros HR. induction 1 as [|x l _ IH Hhd]; constructor; [done|]. destruct Hhd; constructor. auto.
Qed.

Lemma stable_sort_length {A} (le : A → A → bool) l :
  length (stable_sort le l) = length l.
Proof. by rewrite stable_sort_perm. Qed.

(** ** Automation *)

(** Rewriting rules that push the string and slice operations through constructors. *)
Create Rewrite HintDb pystr.
#[export] Hint Rewrite implode_chars chars_implode chars_app implode_app
  string_app_nil_r strip_prefix_app has_char_app : pystr.

(** Case analysis on the boolean comparisons of the code. *)
Ltac bool_cases :=
  repeat match goal with
  | |- context [ if bool_decide ?P then _ else _ ] => case_bool_decide
  | |- context [ (?a <? ?b)%Z ] => destruct (Z.ltb_spec a b)
  | |- context [ (?a <=? ?b)%Z ] => destruct (Z.leb_spec a b)
  | |- context [ (?a =? ?b)%Z ] => destruct (Z.eqb_spec a b)
  | H : context [ (?a <? ?b)%Z ] |- _ => destruct (Z.ltb_spec a b)
  | H : context [ (?a <=? ?b)%Z ] |- _ => destruct (Z.leb_spec a b)
  | H : context [ (?a =? ?b)%Z ] |- _ => destruct (Z.eqb_spec a b)
  end.

(** Split the binds of a computation that is known to return. *)
Ltac py_inv :=
  repeat match goal with
  | H : (_ ≫= _) = Ok _ |- _ => apply py_bind_ok in H as (?&?&?)
  | H : or_raise _ ?o = Ok _ |- _ => destruct o eqn:?; [injection H as <-|discriminate H]
  | H : Ok _ = Ok _ |- _ => injection H as H
  | H : Raise _ = Ok _ |- _ => discriminate H
  end.

(** ** Dictionaries

    A Python 2 dictionary has no promised iteration order, and the order may differ from one
    call to the next.  Code that iterates over one is modelled against this interface: [t]
    numbers the call, and all that is promised is that every key comes exactly once. *)

Class DictIter (K : Type) `{Countable K} := {
  dict_keys : ∀ {V : Type}, nat → gmap K V → list K;
  dict_keys_perm : ∀ V t (m : gmap K V), dict_keys t m ≡ₚ (map_to_list m).*1
}.

Section dict_iter.
Context `{DictIter K}.

Lemma elem_of_dict_keys {V} t (m : gmap K V) k :
  k ∈ dict_keys t m ↔ is_Some (m !! k).
Proof.
  rewrite dict_keys_perm, list_elem_of_fmap. split.
  - intros ([k' v] & -> & Hv%elem_of_map_to_list). by exists v.
  - intros [v Hv]. exists (k, v). by rewrite elem_of_map_to_list.
Qed.

Lemma NoDup_dict_keys {V} t (m : gmap K V) : NoDup (dict_keys t m).
Proof. rewrite dict_keys_perm. apply NoDup_fst_map_to_list. Qed.
End dict_iter.

(** One admissible order, and a second one that reverses it on odd calls: the interface is
    not vacuous and does not fix the order. *)
#[export] Program Instance dict_iter_map_to_list `{Countable K} : DictIter K :=
  {| dict_keys V t m := (map_to_list m).*1 |}.
Next Obligation. done. Qed.

Program Definition dict_iter_alternating `{Countable K} : DictIter K :=
  {| dict_keys V t m :=
       if Nat.even t then (map_to_list m).*1 else reverse (map_to_list m).*1 |}.
Next Obligation.
  intros K ?? V t m. cbn. destruct (Nat.even t); [done|]. apply reverse_Permutation.
Qed.

(** ** Lists *)

Lemma filter_nil_iff {A} (P : A → Prop) `{∀ x, Decision (P x)} (l : list A) :
  filter P l = [] ↔ ∀ x, x ∈ l → ¬ P x.
Proof.
  split.
  - intros Hf x Hx HP. by eapply filter_nil_not_elem_of.
  - intros Hx. induction l as [|y l IH]; [done|]. rewrite filter_cons, decide_False by set_solver.
    apply IH. set_solver.
Qed.
