(* ===== verification/RadUtil.v ===== *)
(** * RadUtil: the helper functions of [bindings/python/rad_util.py]

    The module is Python 2 code: [/] on two integers is the floor division [Z.div], and [%]
    is [Z.modulo] (both languages round towards minus infinity).  The functions that take
    numbers are modelled on integers, the case their doctests and their only client
    ([topsort.py], through [is_rotated]) use. *)

From stdpp Require Import base list strings gmap.
From Stdlib Require Import HexadecimalString HexadecimalN Ascii.
From S2P Require Import Prelude.

(** ** Binary strings *)

(** [hex(i)] without the [L] of a long integer, which the caller removes. *)
Definition hex (i : Z) : string :=
  let digits n := HexadecimalString.NilZero.string_of_uint (N.to_hex_uint n) in
  if (i <? 0)%Z then "-0x" +:+ digits (Z.to_N (- i)) else "0x" +:+ digits (Z.to_N i).

(** The dictionary [hex2bin]: [None] is the KeyError. *)
Definition hex2bin (c : ascii) : option string :=
  match c with
  | "0"%char => Some "0000"
  | "1"%char => Some "0001"
  | "2"%char => Some "0010"
  | "3"%char => Some "0011"
  | "4"%char => Some "0100"
  | "5"%char => Some "0101"
  | "6"%char => Some "0110"
  | "7"%char => Some "0111"
  | "8"%char => Some "1000"
  | "9"%char => Some "1001"
  | "a"%char => Some "1010"
  | "b"%char => Some "1011"
  | "c"%char => Some "1100"
  | "d"%char => Some "1101"
  | "e"%char => Some "1110"
  | "f"%char => Some "1111"
  | _ => None
  end.

Definition too_large : exn := ValueError "Value too large for given number of bits.".

Definition int2bin (i n : Z) : py exn string :=
  parts ← or_raise KeyError (mapM hex2bin (drop 2 (chars (hex i))));
  let result := chars (concat_str parts) in
  if bool_decide ("1"%char ∈ py_slice_to result (- n)) then Raise too_large
  else
    let result := py_slice_from result (- n) in
    Ok (implode (replicate (Z.to_nat (n - length result)) "0"%char ++ result)).

(** The number a string of binary digits denotes, most significant digit first. *)
Definition bit_of (c : ascii) : option Z :=
  if decide (c = "0"%char) then Some 0%Z
  else if decide (c = "1"%char) then Some 1%Z else None.
Fixpoint bin_digits (acc : Z) (l : list ascii) : option Z :=
  match l with
  | [] => Some acc
  | c :: l => b ← bit_of c; bin_digits (2 * acc + b)%Z l
  end.

(** [int(bin_string, 2)]: white space around, a sign and a [0b] prefix are accepted. *)
Definition drop_0b (s : string) : string :=
  match s with
  | String "0" (String "b" r) | String "0" (String "B" r) => r
  | _ => s
  end.
Definition bin2int (bin_string : string) : py exn Z :=
  let err := ValueError "invalid literal for int() with base 2" in
  let unsigned (s : string) :=
    let s := drop_0b s in
    if decide (s = "") then None else bin_digits 0 (chars s) in
  match strip bin_string with
  | String "-" r => Z.opp <$> or_raise err (unsigned r)
  | String "+" r => or_raise err (unsigned r)
  | s => or_raise err (unsigned s)
  end.

Definition reverse_string (input_string : string) : string :=
  implode (reverse (chars input_string)).

(** ** Bits *)

(** [x & ((2 ** n) - 1)]: for a negative [n] the power is a float and [&] raises. *)
Definition lsb (x n : Z) : py exn Z :=
  if (n <? 0)%Z then Raise TypeError else Ok (Z.land x (2 ^ n - 1)).

Definition gray_encode (i : Z) : Z := Z.lxor i (Z.shiftr i 1).

(** [random_vec]: [draw k] is the [k]-th value of [int((2**10) * random.random())], the
    standard library's random source. *)
Definition random_vec (draw : nat → Z) (bits : nat) (max_value : option Z) : py exn string :=
  vector ← py_foldl (λ vector k, s ← int2bin (draw k) 10; Ok (vector +:+ s)) ""
             (seq 0 (bits / 10 + 1));
  let top := (2 ^ bits - 1)%Z in
  vector ← match max_value with
           | Some m =>
               if bool_decide (m ≠ 0 ∧ m < top)%Z then
                 v ← bin2int vector;
                 if bool_decide (top = 0)%Z then Raise ZeroDivisionError
                 else int2bin ((v / top) * m) bits
               else Ok vector
           | None => Ok vector
           end;
  Ok (implode (py_slice (chars vector) 0 bits)).

(** [binary_range]: [v] holds the digits, least significant first.  [ripple] is the inner
    [while i < bits and toggle[i] == 1] loop started at a digit whose toggle is set: it
    returns the digits after the loop and [toggle[bits]]. *)
Fixpoint ripple (v : list ascii) : list ascii * bool :=
  match v with
  | [] => ([], true)
  | c :: v =>
      if decide (c = "0"%char) then ("1"%char :: v, false)
      else let (v', carry) := ripple v in ("0"%char :: v', carry)
  end.
Fixpoint binary_range_loop (fuel : nat) (v : list ascii) (last_toggle : bool) : option (list string) :=
  if last_toggle then Some []
  else match fuel with
  | O => None
  | S fuel =>
      let (v', carry) := ripple v in
      rest ← binary_range_loop fuel v' carry;
      Some (implode (reverse v) :: rest)
  end.
(** [toggle = [1] + [0] * bits]: the initial [toggle[bits]] is 1 exactly when [bits] is 0. *)
Definition binary_range (bits : nat) : option (list string) :=
  binary_range_loop (2 ^ bits) (replicate bits "0"%char) (bool_decide (bits = 0)).

(** ** Numbers *)

(** The [while remainder and abs(remainder) > epsilon] loop of [gcf]; for integers the second
    test holds whenever the first does. *)
Fixpoint gcf_loop (fuel : nat) (result remainder : Z) : option Z :=
  if (remainder =? 0)%Z then Some (Z.abs result)
  else match fuel with
  | O => None
  | S fuel => gcf_loop fuel remainder (result `mod` remainder)
  end.
Definition gcf (a b : Z) : option Z :=
  gcf_loop (S (Z.to_nat (Z.abs (Z.min a b)))) (Z.max a b) (Z.min a b).

Definition lcm (a b : Z) : option Z :=
  denom ← gcf a b;
  Some (if (denom =? 0)%Z then 0 else a * (b / denom))%Z.

Definition reduce_fraction (fraction : Z * Z) : option (py exn (Z * Z)) :=
  let '(numerator, denominator) := fraction in
  g ← gcf numerator denominator;
  let common_factor := Z.abs g in
  Some (if (common_factor =? 0)%Z then Raise ZeroDivisionError
        else Ok (numerator / common_factor, denominator / common_factor)%Z).

(** [off_grid >= grid / 2.0] is decided on integers as [2 * off_grid >= grid].  [add_one] is a
    local variable that two of the branches leave unbound. *)
Definition round_grid (value grid mode : Z) : py exn Z :=
  if (grid =? 0)%Z then Raise ZeroDivisionError
  else
    let off_grid := (value `mod` grid)%Z in
    add_one ← (if (mode =? 0)%Z then Ok (if (grid <=? 2 * off_grid)%Z then 1 else 0)%Z
               else if ((mode =? 1) && negb (off_grid =? 0))%Z then Ok 1%Z
               else if ((mode =? -1) && negb (off_grid =? 0))%Z then Ok 0%Z
               else Raise UnboundLocalError);
    Ok ((value / grid + add_one) * grid)%Z.

(** [polygon_area] on integer points: the list the caller passed is scaled and closed in
    place, so the model returns it too.  The area is the integer [abs(area / 2)], which the
    code divides by [precision**2] as a float. *)
Fixpoint shoelace (points : list (Z * Z)) : Z :=
  match points with
  | (x_i, y_i) :: (((x_i1, y_i1) :: _) as rest) => x_i1 * y_i - y_i1 * x_i + shoelace rest
  | _ => 0
  end%Z.
Definition polygon_area (points_list : list (Z * Z)) (precision : Z) :
    py exn (list (Z * Z) * Z) :=
  let points_list := (λ p, (p.1 * precision, p.2 * precision)%Z) <$> points_list in
  last ← or_raise IndexError (py_nth points_list (-1));
  first ← or_raise IndexError (py_nth points_list 0);
  let points_list := if decide (last = first) then points_list else points_list ++ [first] in
  Ok (points_list, Z.abs (shoelace points_list / 2))%Z.

(** ** Sequences *)

(** [zip( *matrix)] stops at the shortest row; [map(list, ...)] is a list in Python 2. *)
Fixpoint zip_star {A} (n : nat) (matrix : list (list A)) : list (list A) :=
  match n with
  | O => []
  | S n =>
      match mapM head matrix with
      | Some col => col :: zip_star n (tail <$> matrix)
      | None => []
      end
  end.
Definition transpose {A} (matrix : list (list A)) : list (list A) :=
  match matrix with [] => [] | row :: _ => zip_star (length row) matrix end.

(** [new_list.insert(i, item)] for every position [i] in [range(len(input_list))]. *)
Definition insert_at {A} (i : nat) (x : A) (l : list A) : list A := take i l ++ x :: drop i l.
Fixpoint permutations {A} (input_list : list A) : list (list A) :=
  match input_list with
  | item :: ((_ :: _) as rest) =>
      sub_list ← permutations rest;
      (λ i, insert_at i item sub_list) <$> seq 0 (length input_list)
  | _ => [input_list]
  end.

Section eq_items.
Context `{EqDecision A}.

(** The slow path, and (with [d] as the set of keys) the order-preserving fast path. *)
Fixpoint uniq_from (seen : list A) (l : list A) : list A :=
  match l with
  | [] => []
  | x :: l => if decide (x ∈ seen) then uniq_from seen l else x :: uniq_from (seen ++ [x]) l
  end.
Definition uniquify_ordered (s : list A) : list A := uniq_from [] s.

Definition is_rotated (seq1 seq2 : list A) : py exn bool :=
  if decide (length seq1 = length seq2) then
    head_item ← or_raise IndexError (py_nth seq2 0);
    let start_indexes := filter (λ i, seq1 !! i = Some head_item) (seq 0 (length seq1)) in
    let double_seq1 := seq1 ++ seq1 in
    Ok (existsb (λ i : nat, bool_decide (py_slice double_seq1 i (i + length seq1) = seq2))
          start_indexes)
  else Ok false.

(** The forward loop of [find_common_fixes]; the second loop is the same one on the
    reversed strings, its result reversed. *)
Fixpoint common_prefix (s1 s2 : list A) : list A :=
  match s1, s2 with
  | a :: s1, b :: s2 => if decide (a = b) then a :: common_prefix s1 s2 else []
  | _, _ => []
  end.
End eq_items.

(** [uniquify]: hashable items go through a dictionary, whose [keys()] order is arbitrary;
    unhashable ones raise TypeError and take the slow path. *)
Definition uniquify `{DictIter A} (hashable preserve_order : bool) (s : list A) : list A :=
  if hashable then
    if preserve_order then uniquify_ordered s
    else dict_keys 0 (foldl (λ (d : gmap A Z) x, <[x := 0%Z]> d) ∅ s)
  else foldl (λ result x, if decide (x ∈ result) then result else result ++ [x]) [] s.

Definition find_common_fixes (s1 s2 : string) : string * string :=
  (implode (common_prefix (chars s1) (chars s2)),
   implode (reverse (common_prefix (reverse (chars s1)) (reverse (chars s2))))).

(** [reverse_dict]: [d.items()] comes in an arbitrary order, a later item wins. *)
Definition reverse_dict `{DictIter K} `{Countable V} (d : gmap K V) : gmap V K :=
  foldl (λ result key, match d !! key with Some value => <[value := key]> result | None => result end)
    ∅ (dict_keys 0 d).

(** ** Command-line arguments *)

Inductive arg_value := ArgNone | ArgStr (s : string) | ArgList (l : list string).

(** [re.sub(r'^-+', '', arg)]. *)
Fixpoint drop_dashes (s : string) : string :=
  match s with String "-" r => drop_dashes r | _ => s end.
Definition add_arg (st : gmap string arg_value * list string) (arg : string) :=
  let '(d, args) := st in
  if startswith arg "-" then
    match split_all "=" (drop_dashes arg) with
    | [k; v] => (<[k := ArgStr v]> d, args)
    | k :: _ => (<[k := ArgNone]> d, args)
    | [] => (d, args)
    end
  else (d, args ++ [arg]).
Definition get_args (argv : list string) : gmap string arg_value :=
  let '(d, args) := foldl add_arg (∅, []) argv in <["args" := ArgList args]> d.

(** ** Rotations *)

(** [l2] is [l1] rotated: the two halves of [l1] are exchanged. *)
Definition rotation {A} (l1 l2 : list A) : Prop := ∃ a b, l1 = a ++ b ∧ l2 = b ++ a.

#[export] Instance rotation_refl {A} : Reflexive (@rotation A).
Proof. intros l. exists [], l. by rewrite app_nil_r. Qed.
#[export] Instance rotation_sym {A} : Symmetric (@rotation A).
Proof. intros l1 l2 (a & b & -> & ->). by exists b, a. Qed.

Lemma rotation_perm {A} (l1 l2 : list A) : rotation l1 l2 → l1 ≡ₚ l2.
Proof. intros (a & b & -> & ->). apply Permutation_app_comm. Qed.

#[export] Instance rotation_trans {A} : Transitive (@rotation A).
Proof.
  intros l1 l2 l3 (a & b & -> & ->) (c & d & Hcd & ->).
  apply app_eq_inv in Hcd as [(k & -> & ->)|(k & -> & ->)].
  - exists (a ++ c), k. by rewrite !app_assoc.
  - exists k, (d ++ b). by rewrite <-!app_assoc.
Qed.

(** Slicing the doubled sequence at [i] is rotating by [i]. *)
Lemma double_slice {A} (l : list A) (i : nat) :
  i ≤ length l → py_slice (l ++ l) i (i + length l) = drop i l ++ take i l.
Proof.
  intros Hi. rewrite <-Nat2Z.inj_add, py_slice_nat by (rewrite ?length_app; lia).
  replace (i + length l - i) with (length l) by lia.
  rewrite drop_app_le by done. rewrite take_app, length_drop.
  rewrite take_ge by (rewrite length_drop; lia). do 2 f_equal. lia.
Qed.

Lemma is_rotated_rotation `{EqDecision A} (seq1 seq2 : list A) :
  seq1 ≠ [] ∨ seq2 ≠ [] →
  ∃ b, is_rotated seq1 seq2 = Ok b ∧ (b = true ↔ rotation seq1 seq2).
Proof.
  intros Hne. unfold is_rotated. case_decide as Hlen; cycle 1.
  { exists false. split; [done|]. split; [done|]. intros H%rotation_perm. by rewrite H in Hlen. }
  destruct seq2 as [|h t]; [destruct seq1; [tauto|done]|].
  eexists; split; [reflexivity|]. rewrite existsb_exists. split.
  - intros (i & Hi & Hs%bool_decide_eq_true).
    apply list_elem_of_In, list_elem_of_filter in Hi as [Hh Hi%elem_of_seq].
    rewrite double_slice in Hs by lia. rewrite <-Hs.
    exists (take i seq1), (drop i seq1). by rewrite take_drop.
  - intros (a & b & -> & Hba).
    assert (∃ c d, a ++ b = c ++ d ∧ h :: t = d ++ c ∧ d ≠ []) as (c & d & Hcd & Hd & Hdn).
    { destruct b as [|x b]; [|by exists a, (x :: b)].
      exists [], a. rewrite app_nil_r in *. cbn in Hba. by subst a. }
    rewrite Hcd. destruct d as [|x d]; [done|]. injection Hd as -> ->. exists (length c).
    rewrite double_slice by (rewrite length_app; lia).
    rewrite drop_app_length, take_app_length. split; [|by apply bool_decide_eq_true].
    apply list_elem_of_In, list_elem_of_filter. rewrite elem_of_seq.
    rewrite length_app. split; [apply list_lookup_middle; done|cbn; lia].
Qed.

(** ** Euclid's algorithm *)

Lemma gcf_loop_gcd fuel result remainder :
  Z.to_nat (Z.abs remainder) < fuel →
  gcf_loop fuel result remainder = Some (Z.gcd result remainder).
Proof.
  revert result remainder; induction fuel as [|fuel IH]; intros r m Hf; [lia|].
  cbn. destruct (Z.eqb_spec m 0) as [->|Hm]; [by rewrite Z.gcd_0_r|].
  pose proof (Z.mod_bound_or r m Hm).
  rewrite IH by lia. f_equal.
  rewrite (Z.gcd_comm m), Z.gcd_mod by done. apply Z.gcd_comm.
Qed.

Lemma gcf_gcd a b : gcf a b = Some (Z.gcd a b).
Proof.
  unfold gcf. rewrite gcf_loop_gcd by lia. f_equal.
  destruct (Z.max_spec a b) as [[? ->]|[? ->]], (Z.min_spec a b) as [[? ->]|[? ->]];
    try lia; try done; apply Z.gcd_comm.
Qed.

(** ** Values of binary strings *)

Definition binary (l : list ascii) : Prop := Forall (λ c, c = "0"%char ∨ c = "1"%char) l.
Definition bit_val (c : ascii) : Z := if decide (c = "1"%char) then 1 else 0.
(** The value of a list of binary digits, most significant first. *)
Fixpoint bval (l : list ascii) : Z :=
  match l with [] => 0 | c :: l => bit_val c * 2 ^ length l + bval l end%Z.

Lemma bin_digits_bval acc l :
  binary l → bin_digits acc l = Some (acc * 2 ^ length l + bval l)%Z.
Proof.
  intros Hl. revert acc. induction Hl as [|c l Hc Hl IH]; intros acc.
  { cbn [bin_digits bval length]. f_equal. change (2 ^ 0%nat)%Z with 1%Z. lia. }
  trans (bin_digits (2 * acc + bit_val c) l)%Z; [by destruct Hc as [-> | ->]|].
  cbn [bval length]. rewrite IH, Nat2Z.inj_succ, Z.pow_succ_r by lia. f_equal. lia.
Qed.

Lemma bval_app l k : bval (l ++ k) = (bval l * 2 ^ length k + bval k)%Z.
Proof.
  induction l as [|c l IH]; cbn [bval app]; [lia|].
  rewrite IH, length_app, Nat2Z.inj_add, Z.pow_add_r by lia. lia.
Qed.

Lemma bval_bounds l : (0 ≤ bval l < 2 ^ length l)%Z.
Proof.
  induction l as [|c l IH]; cbn [bval length]; [cbn; lia|].
  rewrite Nat2Z.inj_succ, Z.pow_succ_r by lia. unfold bit_val. case_decide; lia.
Qed.

Lemma bval_zero l : binary l → bval l = 0%Z ↔ "1"%char ∉ l.
Proof.
  induction 1 as [|c l Hc Hl IH]; cbn [bval]; [set_solver|].
  pose proof (bval_bounds l). pose proof (Z.pow_pos_nonneg 2 (length l) ltac:(lia) ltac:(lia)).
  rewrite not_elem_of_cons, <-IH. destruct Hc as [-> | ->];
    [change (bit_val "0") with 0%Z|change (bit_val "1") with 1%Z].
  - rewrite Z.mul_0_l, Z.add_0_l. naive_solver.
  - split; [lia|by intros []].
Qed.

Lemma bval_zeros n l : bval (replicate n "0"%char ++ l) = bval l.
Proof.
  induction n as [|n IH]; [done|]. cbn [replicate app bval]. rewrite IH.
  change (bit_val "0") with 0%Z. lia.
Qed.

Lemma binary_strip l : binary l → strip (implode l) = implode l.
Proof.
  intros Hl. unfold strip. rewrite chars_implode.
  assert (∀ l, binary l → drop_spaces l = l) as Hd.
  { intros ? Hk. destruct Hk as [|c k [-> | ->]]; done. }
  rewrite (Hd l) by done.
  rewrite Hd by (unfold binary; by rewrite reverse_Permutation).
  by rewrite reverse_involutive.
Qed.

Lemma bin2int_binary l : l ≠ [] → binary l → bin2int (implode l) = Ok (bval l).
Proof.
  intros Hne Hl. unfold bin2int. rewrite binary_strip by done.
  destruct Hl as [|c l Hc Hl]; [done|]. cbn [implode].
  assert (Hd : drop_0b (String c (implode l)) = String c (implode l)).
  { destruct Hc as [-> | ->]; cbn; [|done].
    by destruct Hl as [|d l [-> | ->] Hl]. }
  destruct Hc as [-> | ->]; rewrite Hd; cbn [or_raise]; rewrite decide_False by done;
    change (chars (String ?c (implode l))) with (c :: chars (implode l));
    cbn [chars]; rewrite chars_implode, bin_digits_bval by (constructor; eauto);
    done.
Qed.

(** ** Hexadecimal to binary *)

Definition nib (c : ascii) : Z :=
  match hex2bin c with Some s => bval (chars s) | None => 0 end.

Lemma hex2bin_spec c s : hex2bin c = Some s → length (chars s) = 4 ∧ binary (chars s).
Proof.
  unfold hex2bin. intros H. repeat case_match; simplify_eq; (split; [done|]);
    repeat (constructor; [by auto|]); constructor.
Qed.

Fixpoint hval (l : list ascii) : Z :=
  match l with [] => 0 | c :: l => nib c * 16 ^ length l + hval l end%Z.

Lemma hex2bin_concat l parts :
  mapM hex2bin l = Some parts →
  binary (chars (concat_str parts)) ∧ bval (chars (concat_str parts)) = hval l ∧
  length (chars (concat_str parts)) = 4 * length l.
Proof.
  intros H%mapM_Some. induction H as [|c s l parts Hc H IH]; cbn [concat_str hval].
  { repeat constructor. }
  destruct IH as (IH1 & IH2 & IH3), (hex2bin_spec _ _ Hc) as [Hs1 Hs2].
  rewrite chars_app, bval_app, length_app, IH2, IH3, Hs1. split_and!.
  - by apply Forall_app.
  - unfold nib. rewrite Hc. rewrite Nat2Z.inj_mul, Z.pow_mul_r by lia. done.
  - cbn. lia.
Qed.

Lemma uint_hex_mapM u :
  ∃ parts, mapM hex2bin (chars (HexadecimalString.NilEmpty.string_of_uint u)) = Some parts.
Proof.
  induction u as [|u [p Hp]|u [p Hp]|u [p Hp]|u [p Hp]|u [p Hp]|u [p Hp]|u [p Hp]|u [p Hp]
    |u [p Hp]|u [p Hp]|u [p Hp]|u [p Hp]|u [p Hp]|u [p Hp]|u [p Hp]|u [p Hp]];
    cbn; try rewrite Hp; cbn; eauto.
Qed.

(** The value of a hexadecimal numeral is what its digits say. *)
Lemma of_hex_uint_acc_hval u acc :
  let l := chars (HexadecimalString.NilEmpty.string_of_uint u) in
  Z.pos (Pos.of_hex_uint_acc u acc) = (Z.pos acc * 16 ^ length l + hval l)%Z.
Proof.
  cbn zeta. revert acc; induction u; intros acc;
    cbn [Pos.of_hex_uint_acc HexadecimalString.NilEmpty.string_of_uint chars hval length];
    [lia|..];
    rewrite IHu, Nat2Z.inj_succ, Z.pow_succ_r by lia;
    match goal with |- context [nib ?c] => let n := eval vm_compute in (nib c) in
      change (nib c) with n end; lia.
Qed.

Lemma of_hex_uint_hval u :
  Z.of_N (N.of_hex_uint u) = hval (chars (HexadecimalString.NilEmpty.string_of_uint u)).
Proof.
  unfold N.of_hex_uint. induction u;
    cbn [Pos.of_hex_uint HexadecimalString.NilEmpty.string_of_uint chars hval]; [done|..];
    match goal with |- context [nib ?c] => let n := eval vm_compute in (nib c) in
      change (nib c) with n end;
    try (rewrite IHu; lia); cbn [Z.of_N]; rewrite of_hex_uint_acc_hval; done.
Qed.

Lemma hex_nonneg i : (0 ≤ i)%Z →
  ∃ l, drop 2 (chars (hex i)) = l ∧ hval l = i ∧ is_Some (mapM hex2bin l) ∧ l ≠ [].
Proof.
  intros Hi. unfold hex. destruct (Z.ltb_spec i 0); [lia|].
  assert (Hv : Z.of_N (N.of_hex_uint (N.to_hex_uint (Z.to_N i))) = i)
    by (rewrite HexadecimalN.Unsigned.of_to; lia).
  rewrite of_hex_uint_hval in Hv.
  pose proof (HexadecimalN.Unsigned.to_of (N.to_hex_uint (Z.to_N i))) as Hn.
  rewrite HexadecimalN.Unsigned.of_to in Hn.
  change (drop 2 (chars ("0x" +:+ ?s))) with (chars s).
  generalize dependent (N.to_hex_uint (Z.to_N i)). intros u Hv Hn.
  eexists; split; [done|]. pose proof (uint_hex_mapM u) as [parts Hp].
  destruct u; [discriminate Hn|..];
    (split_and!; [exact Hv|by exists parts|done]).
Qed.

(** ** [int2bin] *)

Lemma mem_slice_split (l : list ascii) (n : nat) :
  l = py_slice_to l (- n) ++ py_slice_from l (- n).
Proof. unfold py_slice_to, py_slice_from. by rewrite take_drop. Qed.

Lemma slice_from_length (l : list ascii) (n : nat) :
  0 < n → length (py_slice_from l (- n)) = n `min` length l.
Proof. intros. unfold py_slice_from. rewrite py_bound_neg, length_drop by done. lia. Qed.

Lemma int2bin_fits (i : Z) (n : nat) :
  (0 ≤ i)%Z → 0 < n → (i < 2 ^ n)%Z →
  ∃ l, int2bin i n = Ok (implode l) ∧ length l = n ∧ binary l ∧ bval l = i.
Proof.
  intros Hi Hn Hlt. unfold int2bin.
  destruct (hex_nonneg i Hi) as (l & -> & Hv & [parts Hp] & _). rewrite Hp; cbn.
  destruct (hex2bin_concat _ _ Hp) as (Hb & Hbv & _).
  set (r := chars (concat_str parts)) in *. pose proof (mem_slice_split r n) as Hr.
  pose proof (slice_from_length r n Hn) as Hlen.
  set (hi := py_slice_to r _) in *. set (lo := py_slice_from r _) in *.
  rewrite Hr in Hb, Hbv. apply Forall_app in Hb as [Hbhi Hblo]. rewrite bval_app in Hbv.
  pose proof (bval_bounds hi). pose proof (bval_bounds lo).
  assert (bval hi = 0%Z) as Hhi.
  { destruct (decide (length r ≤ n)) as [Hle|Hgt].
    - destruct hi; [done|]. apply (f_equal length) in Hr. rewrite length_app in Hr. cbn in Hr. lia.
    - replace (length lo) with n in * by lia. nia. }
  rewrite bool_decide_eq_false_2 by (by apply bval_zero).
  eexists; split; [reflexivity|]. split_and!.
  - rewrite length_app, length_replicate. lia.
  - apply Forall_app; split; [|done]. apply Forall_replicate. by left.
  - rewrite bval_zeros. lia.
Qed.

Lemma int2bin_too_large (i : Z) (n : nat) :
  (0 ≤ i)%Z → 0 < n → (2 ^ n ≤ i)%Z → int2bin i n = Raise too_large.
Proof.
  intros Hi Hn Hge. unfold int2bin.
  destruct (hex_nonneg i Hi) as (l & -> & Hv & [parts Hp] & _). rewrite Hp; cbn.
  destruct (hex2bin_concat _ _ Hp) as (Hb & Hbv & _).
  set (r := chars (concat_str parts)) in *. pose proof (mem_slice_split r n) as Hr.
  pose proof (slice_from_length r n Hn) as Hlen.
  set (hi := py_slice_to r _) in *. set (lo := py_slice_from r _) in *.
  rewrite Hr in Hb, Hbv. apply Forall_app in Hb as [Hbhi Hblo]. rewrite bval_app in Hbv.
  pose proof (bval_bounds lo) as Hlo.
  assert (2 ^ length lo ≤ 2 ^ n)%Z by (apply Z.pow_le_mono_r; lia).
  rewrite bool_decide_eq_true_2; [done|].
  destruct (decide ("1"%char ∈ hi)) as [|H0%bval_zero]; [done| |done]. nia.
Qed.

(** A negative number has no binary form: its [hex] starts with a sign. *)
Lemma int2bin_negative i n : (i < 0)%Z → int2bin i n = Raise KeyError.
Proof. intros. unfold int2bin, hex. by destruct (Z.ltb_spec i 0); [|lia]. Qed.

(** ** [binary_range] *)

Lemma bit_val_0 : bit_val "0" = 0%Z.
Proof. done. Qed.
Lemma bit_val_1 : bit_val "1" = 1%Z.
Proof. done. Qed.

Lemma bval_inj l k : binary l → binary k → length l = length k → bval l = bval k → l = k.
Proof.
  intros Hl. revert k. induction Hl as [|c l Hc Hl IH]; intros k Hk Hlen Hv.
  { by destruct k. }
  destruct Hk as [|d k Hd Hk]; [done|]. cbn [bval length] in *. injection Hlen as Hlen.
  rewrite Hlen in Hv. pose proof (bval_bounds l). pose proof (bval_bounds k).
  rewrite Hlen in *. destruct Hc as [-> | ->], Hd as [-> | ->];
    rewrite ?bit_val_0, ?bit_val_1 in Hv; try (f_equal; apply IH; [done|done|lia]); lia.
Qed.

Lemma bval_reverse_cons c v : bval (reverse (c :: v)) = (2 * bval (reverse v) + bit_val c)%Z.
Proof. rewrite reverse_cons, bval_app. cbn [bval length]. change (2 ^ 1%nat)%Z with 2%Z. lia. Qed.

Lemma ripple_spec v v' carry :
  binary v → ripple v = (v', carry) →
  binary v' ∧ length v' = length v ∧
  (bval (reverse v) + 1 = bval (reverse v') + (if carry then 2 ^ length v else 0))%Z.
Proof.
  intros Hv. revert v' carry. induction Hv as [|c v Hc Hv IH]; intros v' carry; cbn [ripple].
  { intros [= <- <-]. split_and!; [constructor|done|done]. }
  destruct Hc as [-> | ->]; [rewrite decide_True by done|rewrite decide_False by done].
  - intros [= <- <-]. rewrite !bval_reverse_cons.
    split_and!; [constructor; auto|done|rewrite bit_val_0, bit_val_1; lia].
  - destruct (ripple v) as [w k]. intros [= <- <-].
    destruct (IH _ _ eq_refl) as (Hw & Hlen & IHv). rewrite !bval_reverse_cons. split_and!.
    + constructor; auto.
    + cbn. lia.
    + cbn [length]. rewrite Nat2Z.inj_succ, Z.pow_succ_r by lia.
      rewrite bit_val_0, bit_val_1. destruct k; lia.
Qed.

Lemma int2bin_unique (i : Z) (n : nat) l :
  (0 ≤ i < 2 ^ n)%Z → 0 < n → binary l → length l = n → bval l = i →
  int2bin i n = Ok (implode l).
Proof.
  intros [Hi Hlt] Hn Hl Hlen Hv. destruct (int2bin_fits i n) as (k & -> & ? & ? & ?); [done..|].
  do 2 f_equal. apply bval_inj; [done|done|lia|lia].
Qed.

Lemma binary_range_loop_spec (fuel : nat) v (n : nat) :
  0 < n → binary v → length v = n → (2 ^ n - bval (reverse v) ≤ fuel)%Z →
  ∃ L, binary_range_loop fuel v false = Some L ∧
    Forall2 (λ (i : Z) s, int2bin i n = Ok s)
      (seqZ (bval (reverse v)) (2 ^ n - bval (reverse v))) L.
Proof.
  intros Hn. revert v. induction fuel as [|fuel IH]; intros v Hv Hlen Hf;
    pose proof (bval_bounds (reverse v)) as Hb; rewrite length_reverse, Hlen in Hb; [lia|].
  cbn [binary_range_loop]. destruct (ripple v) as [w carry] eqn:Er.
  destruct (ripple_spec _ _ _ Hv Er) as (Hw & Hwl & Hwv). rewrite Hlen in *.
  assert (Hhd : int2bin (bval (reverse v)) n = Ok (implode (reverse v))).
  { apply int2bin_unique; try done; [unfold binary; by rewrite reverse_Permutation|].
    by rewrite length_reverse. }
  rewrite seqZ_cons by lia.
  pose proof (bval_bounds (reverse w)) as Hb'. rewrite length_reverse, Hwl in Hb'.
  destruct carry.
  - replace (Z.pred (2 ^ n - bval (reverse v)))%Z with 0%Z by lia.
    destruct fuel; cbn; eexists; (split; [done|]); rewrite seqZ_nil by lia; by repeat constructor.
  - destruct (IH w) as (L & -> & HL); [done|done|lia|]. cbn. eexists; split; [done|].
    constructor; [done|].
    replace (Z.pred (2 ^ n - bval (reverse v)))%Z with (2 ^ n - bval (reverse w))%Z by lia.
    replace (Z.succ (bval (reverse v))) with (bval (reverse w)) by lia. done.
Qed.

Lemma bval_replicate n : bval (replicate n "0"%char) = 0%Z.
Proof. rewrite <-(app_nil_r (replicate _ _)). apply bval_zeros. Qed.

Lemma binary_range_int2bin (n : nat) :
  0 < n → ∃ L, binary_range n = Some L ∧
    Forall2 (λ (i : Z) s, int2bin i n = Ok s) (seqZ 0 (2 ^ n)) L.
Proof.
  intros Hn. unfold binary_range. rewrite bool_decide_eq_false_2 by lia.
  destruct (binary_range_loop_spec (2 ^ n) (replicate n "0"%char) n) as (L & HL & HF).
  - done.
  - apply Forall_replicate. by left.
  - apply length_replicate.
  - rewrite reverse_replicate, bval_replicate, Nat2Z.inj_pow. lia.
  - exists L. split; [done|]. by rewrite reverse_replicate, bval_replicate, Z.sub_0_r in HF.
Qed.

(** ** Gray codes *)

(** Incrementing flips a block of low bits. *)
Lemma lxor_succ i : (0 ≤ i)%Z → ∃ k, (0 ≤ k)%Z ∧ Z.lxor i (i + 1) = Z.ones (k + 1).
Proof.
  intros Hi. pattern i. apply Zlt_0_ind; [|done]. clear i Hi. intros i IH Hi.
  destruct (Z.Even_or_Odd i) as [[j ->]|[j ->]].
  - exists 0%Z. split; [lia|]. apply Z.bits_inj'. intros m Hm.
    rewrite Z.lxor_spec. destruct (decide (m = 0)) as [->|].
    + rewrite Z.testbit_even_0, Z.testbit_odd_0. done.
    + replace m with (Z.succ (m - 1))%Z by lia.
      rewrite Z.testbit_even_succ, Z.testbit_odd_succ by lia.
      by rewrite xorb_nilpotent, Z.ones_spec_high by lia.
  - destruct (IH j) as (k & Hk & Hx); [lia|]. exists (k + 1)%Z. split; [lia|].
    replace (2 * j + 1 + 1)%Z with (2 * (j + 1))%Z by lia.
    apply Z.bits_inj'. intros m Hm. rewrite Z.lxor_spec. destruct (decide (m = 0)) as [->|].
    + rewrite Z.testbit_even_0, Z.testbit_odd_0, Z.ones_spec_low by lia. done.
    + replace m with (Z.succ (m - 1))%Z by lia.
      rewrite Z.testbit_even_succ, Z.testbit_odd_succ by lia.
      rewrite <-Z.lxor_spec, Hx. apply eq_true_iff_eq. rewrite !Z.ones_spec_iff by lia. lia.
Qed.

Lemma gray_lxor i j : Z.lxor (gray_encode i) (gray_encode j) = gray_encode (Z.lxor i j).
Proof.
  unfold gray_encode. rewrite Z.shiftr_lxor.
  apply Z.bits_inj'. intros m _. rewrite !Z.lxor_spec. by repeat destruct (Z.testbit _ _).
Qed.

Lemma gray_ones k : (0 ≤ k)%Z → gray_encode (Z.ones (k + 1)) = (2 ^ k)%Z.
Proof.
  intros Hk. apply Z.bits_inj'. intros m Hm. unfold gray_encode.
  rewrite Z.lxor_spec, Z.shiftr_spec, Z.pow2_bits_eqb by lia.
  rewrite !Z.testbit_ones_nonneg by lia.
  destruct (Z.ltb_spec m (k + 1)), (Z.ltb_spec (m + 1) (k + 1)), (Z.eqb_spec k m);
    cbn; lia || done.
Qed.

Lemma gray_inj i j : (0 ≤ i)%Z → (0 ≤ j)%Z → gray_encode i = gray_encode j → i = j.
Proof.
  intros Hi Hj H. apply Z.lxor_eq. assert (0 ≤ Z.lxor i j)%Z as Hx by (by apply Z.lxor_nonneg).
  assert (gray_encode (Z.lxor i j) = 0%Z) as Hg by (rewrite <-gray_lxor, H; apply Z.lxor_nilpotent).
  apply Z.lxor_eq in Hg. rewrite Z.shiftr_div_pow2 in Hg by lia.
  change (2 ^ 1)%Z with 2%Z in Hg. pose proof (Z.div_mod (Z.lxor i j) 2).
  pose proof (Z.mod_pos_bound (Z.lxor i j) 2). lia.
Qed.

(** ** [permutations] *)

Lemma insert_at_perm {A} i (x : A) l : insert_at i x l ≡ₚ x :: l.
Proof. unfold insert_at. by rewrite <-Permutation_middle, take_drop. Qed.

Lemma permutations_cons {A} (x y : A) l :
  permutations (x :: y :: l) =
  permutations (y :: l) ≫= λ k, (λ i, insert_at i x k) <$> seq 0 (length (x :: y :: l)).
Proof. done. Qed.

Lemma elem_of_permutations {A} (l k : list A) : k ∈ permutations l ↔ k ≡ₚ l.
Proof.
  revert k; induction l as [|x [|y l] IH]; intros k.
  - cbn. rewrite list_elem_of_singleton. split; [by intros ->|by intros ->%Permutation_nil_r].
  - cbn. rewrite list_elem_of_singleton. split; [by intros ->|by intros ->%Permutation_singleton_r].
  - rewrite permutations_cons, list_elem_of_bind. split.
    + intros (m & (i & -> & _)%list_elem_of_fmap & Hm%IH). by rewrite insert_at_perm, Hm.
    + intros Hk. assert (x ∈ k) as (k1 & k2 & ->)%list_elem_of_split by (rewrite Hk; left).
      rewrite <-Permutation_middle in Hk. apply (inj (x ::.)) in Hk.
      exists (k1 ++ k2). split; [|by apply IH]. apply list_elem_of_fmap.
      exists (length k1). split.
      * unfold insert_at. by rewrite take_app_length, drop_app_length.
      * apply elem_of_seq. apply Permutation_length in Hk. rewrite length_app in Hk. cbn in *. lia.
Qed.

Lemma length_bind_const {A B} (f : A → list B) (n : nat) l :
  (∀ x, length (f x) = n) → length (l ≫= f) = length l * n.
Proof. intros Hf. induction l; cbn; [done|]. by rewrite length_app, Hf, IHl. Qed.

Lemma length_permutations {A} (l : list A) : length (permutations l) = fact (length l).
Proof.
  induction l as [|x [|y l] IH]; [done..|].
  rewrite permutations_cons, (length_bind_const _ (length (x :: y :: l))), IH.
  - cbn [length fact]. lia.
  - intros k. by rewrite length_fmap, length_seq.
Qed.

(** ** [transpose] *)

Definition rectangular {A} (c : nat) (m : list (list A)) : Prop := Forall (λ row, length row = c) m.

Lemma mapM_head_rect {A} c (m : list (list A)) :
  rectangular (S c) m → ∃ col, mapM head m = Some col ∧ length col = length m ∧
    ∀ i, col !! i = m !! i ≫= λ row, row !! 0.
Proof.
  induction 1 as [|row m Hr Hm (col & Hcol & Hlen & IH)]; cbn; [by eexists|].
  destruct row as [|a row]; [done|]. cbn. rewrite Hcol; cbn. eexists; split; [done|].
  split; [cbn; lia|]. by intros [|i]; cbn.
Qed.

Lemma zip_star_rect {A} c (m : list (list A)) :
  rectangular c m →
  length (zip_star c m) = c ∧ rectangular (length m) (zip_star c m) ∧
  ∀ i j, zip_star c m !! j ≫= (λ col, col !! i) = m !! i ≫= (λ row, row !! j).
Proof.
  revert m; induction c as [|c IH]; intros m Hm.
  - split_and!; [done|constructor|]. intros i j. cbn. destruct (m !! i) as [row|] eqn:E; [|done].
    cbn. eapply Forall_lookup in Hm; [|done]. by destruct row.
  - destruct (mapM_head_rect c m Hm) as (col & Hcol & Hlen & Hc). cbn [zip_star]. rewrite Hcol.
    destruct (IH (tail <$> m)) as (IH1 & IH2 & IH3).
    { apply Forall_fmap. eapply Forall_impl; [exact Hm|]. intros [|a row]; cbn; congruence. }
    split_and!.
    + cbn. by rewrite IH1.
    + constructor; [done|]. by rewrite length_fmap in IH2.
    + intros i [|j]; cbn; [apply Hc|]. rewrite IH3, list_lookup_fmap.
      destruct (m !! i) as [row|] eqn:E; [|done]. cbn.
      eapply Forall_lookup in Hm; [|done]. by destruct row.
Qed.

Lemma transpose_rect {A} c (m : list (list A)) :
  m ≠ [] → rectangular c m →
  length (transpose m) = c ∧ rectangular (length m) (transpose m) ∧
  ∀ i j, transpose m !! j ≫= (λ col, col !! i) = m !! i ≫= (λ row, row !! j).
Proof.
  intros Hne Hm. destruct m as [|row m]; [done|]. unfold transpose.
  assert (length row = c) as -> by (by inversion Hm). by apply zip_star_rect.
Qed.

Lemma rect_ext {A} (m k : list (list A)) :
  length m = length k →
  (∀ i, i < length m → length <$> m !! i = length <$> k !! i) →
  (∀ i j, m !! i ≫= (λ row, row !! j) = k !! i ≫= (λ row, row !! j)) → m = k.
Proof.
  intros Hlen Hr H. apply list_eq. intros i.
  destruct (decide (i < length m)) as [Hi|Hi]; [|rewrite !lookup_ge_None_2 by lia; done].
  destruct (lookup_lt_is_Some_2 m i Hi) as [r Er].
  destruct (lookup_lt_is_Some_2 k i ltac:(lia)) as [q Eq].
  rewrite Er, Eq. f_equal. apply list_eq. intros j.
  specialize (H i j). by rewrite Er, Eq in H.
Qed.

Lemma transpose_transpose {A} c (m : list (list A)) :
  m ≠ [] → 0 < c → rectangular c m → transpose (transpose m) = m.
Proof.
  intros Hne Hc Hm. destruct (transpose_rect c m Hne Hm) as (L1 & R1 & T1).
  assert (transpose m ≠ []) as Hne' by (intros E; rewrite E in L1; cbn in L1; lia).
  destruct (transpose_rect _ _ Hne' R1) as (L2 & R2 & T2).
  apply rect_ext; [done| |].
  - intros i Hi. destruct (lookup_lt_is_Some_2 _ i Hi) as [r Er]. rewrite L2 in Hi.
    destruct (lookup_lt_is_Some_2 m i Hi) as [q Eq]. rewrite Er, Eq. cbn. f_equal.
    eapply Forall_lookup in R2, Hm; [|done..]. cbn in *. lia.
  - intros i j. by rewrite T2, T1.
Qed.

(** ** [uniquify] *)

Section uniquify.
Context `{EqDecision A}.

Lemma elem_of_uniq_from (seen l : list A) x :
  x ∈ uniq_from seen l ↔ x ∈ l ∧ x ∉ seen.
Proof.
  revert seen; induction l as [|y l IH]; intros seen; cbn; [set_solver|].
  case_decide as Hy; rewrite ?elem_of_cons, ?IH.
  - split; [set_solver|]. intros [[->|?] ?]; by auto.
  - rewrite elem_of_app, list_elem_of_singleton. destruct (decide (x = y)); naive_solver.
Qed.

Lemma NoDup_uniq_from (seen l : list A) : NoDup (uniq_from seen l).
Proof.
  revert seen; induction l as [|y l IH]; intros seen; cbn; [constructor|].
  case_decide; [done|]. constructor; [|done]. rewrite elem_of_uniq_from. set_solver.
Qed.

(** Every element comes at its first position: what precedes it in the result are the
    distinct elements that precede its first occurrence in the input. *)
Lemma uniq_from_app (seen l1 l2 : list A) :
  uniq_from seen (l1 ++ l2) = uniq_from seen l1 ++ uniq_from (seen ++ uniq_from seen l1) l2.
Proof.
  revert seen; induction l1 as [|y l1 IH]; intros seen; cbn; [by rewrite app_nil_r|].
  case_decide; [done|]. cbn. rewrite IH. by rewrite <-app_assoc.
Qed.

Lemma slow_uniq_from (acc l : list A) :
  foldl (λ result x, if decide (x ∈ result) then result else result ++ [x]) acc l
  = acc ++ uniq_from acc l.
Proof.
  revert acc; induction l as [|y l IH]; intros acc; cbn; [by rewrite app_nil_r|].
  case_decide; rewrite IH; [done|]. by rewrite <-app_assoc.
Qed.
End uniquify.

Lemma lookup_setitems `{Countable A} (l : list A) (d : gmap A Z) x :
  is_Some (foldl (λ d x, <[x := 0%Z]> d) d l !! x) ↔ x ∈ l ∨ is_Some (d !! x).
Proof.
  revert d; induction l as [|y l IH]; intros d; cbn; [set_solver|].
  rewrite IH, lookup_insert_is_Some', elem_of_cons. naive_solver.
Qed.

(** ** [find_common_fixes] *)

(** [p] is the longest common prefix of [s1] and [s2]. *)
Definition longest_prefix {A} (p s1 s2 : list A) : Prop :=
  p `prefix_of` s1 ∧ p `prefix_of` s2 ∧
  ∀ q, q `prefix_of` s1 → q `prefix_of` s2 → q `prefix_of` p.
Definition longest_suffix {A} (p s1 s2 : list A) : Prop :=
  p `suffix_of` s1 ∧ p `suffix_of` s2 ∧
  ∀ q, q `suffix_of` s1 → q `suffix_of` s2 → q `suffix_of` p.

Lemma common_prefix_longest `{EqDecision A} (s1 s2 : list A) :
  longest_prefix (common_prefix s1 s2) s1 s2.
Proof.
  revert s2; induction s1 as [|a s1 IH]; intros s2; cbn.
  { split_and!; [by apply prefix_nil..|done]. }
  destruct s2 as [|b s2]; [split_and!; [by apply prefix_nil..|done]|].
  case_decide as Hab; subst.
  - destruct (IH s2) as (H1 & H2 & H3). split_and!; [by apply prefix_cons..|].
    intros [|c q] Hq1 Hq2; [by apply prefix_nil|].
    apply prefix_cons_inv_1 in Hq1 as Hc. subst c.
    apply prefix_cons_inv_2 in Hq1, Hq2. apply prefix_cons. by apply H3.
  - split_and!; [by apply prefix_nil..|]. intros [|c q] Hq1 Hq2; [done|].
    apply prefix_cons_inv_1 in Hq1, Hq2. congruence.
Qed.

Lemma common_suffix_longest `{EqDecision A} (s1 s2 : list A) :
  longest_suffix (reverse (common_prefix (reverse s1) (reverse s2))) s1 s2.
Proof.
  destruct (common_prefix_longest (reverse s1) (reverse s2)) as (H1 & H2 & H3).
  unfold longest_suffix. rewrite !suffix_prefix_reverse, !reverse_involutive.
  split_and!; [done..|]. intros q. rewrite !suffix_prefix_reverse, reverse_involutive.
  apply H3.
Qed.

(** ** [reverse_dict] *)

Section reverse_dict.
Context `{DictIter K} `{Countable V}.

Definition rev_step (d : gmap K V) (result : gmap V K) (key : K) : gmap V K :=
  match d !! key with Some value => <[value := key]> result | None => result end.

Lemma rev_fold_inv (d : gmap K V) ks (r : gmap V K) v k :
  foldl (rev_step d) r ks !! v = Some k → (k ∈ ks ∧ d !! k = Some v) ∨ r !! v = Some k.
Proof.
  revert r; induction ks as [|y ks IH]; intros r; cbn; [auto|].
  intros [[??]|Hr]%IH; [left; set_solver|]. unfold rev_step in Hr.
  destruct (d !! y) as [w|] eqn:Ey; [|auto].
  apply lookup_insert_Some in Hr as [[<- <-]|[? ?]]; [left; set_solver|auto].
Qed.

Lemma rev_fold_defined (d : gmap K V) ks (r : gmap V K) v :
  (∃ k, k ∈ ks ∧ d !! k = Some v) ∨ is_Some (r !! v) →
  is_Some (foldl (rev_step d) r ks !! v).
Proof.
  revert r; induction ks as [|y ks IH]; intros r Hv; cbn; [set_solver|].
  apply IH. unfold rev_step. destruct Hv as [(k & Hk & Hd)|Hr].
  - apply elem_of_cons in Hk as [-> | Hk]; [|by eauto].
    right. rewrite Hd. by rewrite lookup_insert_eq.
  - right. destruct (d !! y); [|done]. rewrite lookup_insert_is_Some'. auto.
Qed.

Lemma reverse_dict_sound (d : gmap K V) v k : reverse_dict d !! v = Some k → d !! k = Some v.
Proof. intros [[??]|?]%rev_fold_inv; [done|]. by rewrite lookup_empty in *. Qed.

Lemma reverse_dict_complete (d : gmap K V) v k :
  d !! k = Some v → is_Some (reverse_dict d !! v).
Proof.
  intros Hd. apply (rev_fold_defined d). left. exists k. split; [|done].
  apply elem_of_dict_keys. by exists v.
Qed.
End reverse_dict.

Lemma reverse_dict_involutive `{DictIter K} `{DictIter V} (d : gmap K V) :
  (∀ k1 k2 v, d !! k1 = Some v → d !! k2 = Some v → k1 = k2) →
  reverse_dict (reverse_dict d) = d.
Proof.
  intros Hinj. apply map_eq. intros k. apply option_eq. intros v. split.
  - intros Hr%reverse_dict_sound. by apply reverse_dict_sound in Hr.
  - intros Hd. destruct (reverse_dict_complete d v k Hd) as [k' Hk'].
    assert (k' = k) as -> by (eapply Hinj; [by apply reverse_dict_sound|done]).
    destruct (reverse_dict_complete _ _ _ Hk') as [v' Hv'].
    apply reverse_dict_sound in Hv' as Hv2. apply reverse_dict_sound in Hv2. congruence.
Qed.

(** ** Properties *)

(** [is_rotated] answers whether one sequence is a rotation of the other, for sequences
    of any lengths; only two empty sequences make it raise (IndexError at [seq2[0]]). *)
Theorem is_rotated_spec `{EqDecision A} (seq1 seq2 : list A) :
  (seq1 ≠ [] ∨ seq2 ≠ [] →
     ∃ b, is_rotated seq1 seq2 = Ok b ∧ (b = true ↔ rotation seq1 seq2)) ∧
  (seq1 = [] ∧ seq2 = [] → is_rotated seq1 seq2 = Raise IndexError).
Proof. split; [apply is_rotated_rotation|by intros [-> ->]]. Qed.

Lemma is_rotated_spec_witness :
  is_rotated ["A"; "B"; "C"; "A"] ["A"; "A"; "B"; "C"] = Ok true ∧
  rotation ["A"; "B"; "C"; "A"] ["A"; "A"; "B"; "C"].
Proof.
  destruct (proj1 (is_rotated_spec ["A"; "B"; "C"; "A"] ["A"; "A"; "B"; "C"]))
    as (b & Hb & Hr); [by left|].
  split; [reflexivity|]. apply Hr. vm_compute in Hb. by injection Hb as <-.
Defined.

(** For a positive width, [int2bin] gives the digits of a number that fits (exactly [n]
    of them, and [bin2int] reads the number back), and raises ValueError for one that does
    not; a negative number always raises KeyError. *)
Theorem int2bin_spec (i : Z) (n : nat) :
  0 < n →
  ((0 ≤ i < 2 ^ n)%Z →
     ∃ s, int2bin i n = Ok s ∧ String.length s = n ∧ bin2int s = Ok i) ∧
  ((2 ^ n ≤ i)%Z → int2bin i n = Raise too_large) ∧
  ((i < 0)%Z → int2bin i n = Raise KeyError).
Proof.
  intros Hn. split_and!.
  - intros [Hi Hlt]. destruct (int2bin_fits i n) as (l & Hl & Hlen & Hb & Hv); [done..|].
    exists (implode l). split_and!; [done| |].
    + rewrite <-Hlen. clear. induction l; cbn; congruence.
    + rewrite <-Hv. apply bin2int_binary; [|done]. intros ->. cbn in Hlen. lia.
  - intros Hge. apply int2bin_too_large; [lia|done|done].
  - apply int2bin_negative.
Qed.

Lemma int2bin_spec_witness :
  int2bin 123 8%nat = Ok "01111011" ∧ int2bin 15 2%nat = Raise too_large ∧
  ∃ s, int2bin 123 8%nat = Ok s ∧ String.length s = 8 ∧ bin2int s = Ok 123%Z.
Proof.
  split; [reflexivity|split].
  - apply (int2bin_spec 15 2); [lia|vm_compute; discriminate].
  - apply (int2bin_spec 123 8); [lia|vm_compute; split; [discriminate|done]].
Defined.

(** [binary_range] terminates and lists the [n]-digit binary strings of 0, 1, ...,
    [2^n - 1] in this order (for a positive width; it returns no string for width 0). *)
Theorem binary_range_spec (n : nat) :
  (0 < n → ∃ L, binary_range n = Some L ∧ length L = 2 ^ n ∧
     ∀ (i : nat) s, L !! i = Some s ↔ i < 2 ^ n ∧ int2bin i n = Ok s) ∧
  binary_range 0 = Some [].
Proof.
  split; [|done]. intros Hn. destruct (binary_range_int2bin n Hn) as (L & HL & HF).
  exists L. split; [done|]. assert (length L = 2 ^ n) as Hlen.
  { apply Forall2_length in HF. rewrite <-HF, length_seqZ, <-(Nat2Z.inj_pow 2). lia. }
  split; [done|]. intros i s. rewrite <-Hlen. split.
  - intros Hi. split; [by eapply lookup_lt_Some|].
    eapply Forall2_lookup_r in HF as (z & Hz & Hs); [|done].
    apply lookup_seqZ in Hz as [-> _]. by rewrite Z.add_0_l in Hs.
  - intros [Hi Hs]. destruct (lookup_lt_is_Some_2 L i Hi) as [t Ht]. rewrite Ht. f_equal.
    eapply Forall2_lookup_r in HF as (z & Hz & Hs'); [|done].
    apply lookup_seqZ in Hz as [-> _]. rewrite Z.add_0_l in Hs'. congruence.
Qed.

Lemma binary_range_spec_witness :
  binary_range 2 = Some ["00"; "01"; "10"; "11"] ∧ int2bin 2%nat 2%nat = Ok "10".
Proof.
  destruct (proj1 (binary_range_spec 2)) as (L & HL & _ & HI); [lia|].
  split; [reflexivity|]. apply (proj1 (HI 2 "10")). vm_compute in HL. by injection HL as <-.
Defined.

(** Gray codes of consecutive numbers differ in exactly one bit, and different
    numbers have different codes. *)
Theorem gray_encode_spec (i j : Z) :
  (0 ≤ i)%Z → (0 ≤ j)%Z →
  (∃ k, (0 ≤ k)%Z ∧ Z.lxor (gray_encode i) (gray_encode (i + 1)) = 2 ^ k)%Z ∧
  (gray_encode i = gray_encode j → i = j).
Proof.
  intros Hi Hj. split; [|by apply gray_inj].
  destruct (lxor_succ i Hi) as (k & Hk & Hx). exists k. split; [done|].
  by rewrite gray_lxor, Hx, gray_ones.
Qed.

Lemma gray_encode_spec_witness :
  (∃ k, (0 ≤ k)%Z ∧ Z.lxor (gray_encode 7) (gray_encode (7 + 1)) = 2 ^ k)%Z.
Proof. apply (gray_encode_spec 7 3); lia. Defined.

(** On integers of any sign, [gcf] terminates with the greatest common divisor, [lcm]
    is the least common multiple up to sign, and [reduce_fraction] returns the equal
    fraction in lowest terms, raising ZeroDivisionError exactly for (0, 0). *)
Theorem gcf_lcm_reduce_spec (a b : Z) :
  gcf a b = Some (Z.gcd a b) ∧
  (∃ m, lcm a b = Some m ∧ Z.abs m = Z.lcm a b) ∧
  (∃ r, reduce_fraction (a, b) = Some r ∧
     ((a = 0 ∧ b = 0)%Z → r = Raise ZeroDivisionError) ∧
     (¬ (a = 0 ∧ b = 0)%Z →
        ∃ n d, r = Ok (n, d) ∧ Z.gcd n d = 1%Z ∧ (n * b = a * d)%Z)).
Proof.
  pose proof (Z.gcd_nonneg a b) as Hg. pose proof (Z.gcd_eq_0 a b) as Hg0. split_and!.
  - apply gcf_gcd.
  - unfold lcm. rewrite gcf_gcd; cbn. eexists; split; [done|].
    destruct (Z.eqb_spec (Z.gcd a b) 0) as [E|E]; [|done].
    apply Hg0 in E as [-> ->]. done.
  - unfold reduce_fraction. rewrite gcf_gcd; cbn [mbind option_bind].
    rewrite (Z.abs_eq _ Hg). eexists; split; [done|].
    destruct (Z.eqb_spec (Z.gcd a b) 0) as [E|E]; (split; [naive_solver|]); [naive_solver|].
    intros _. do 2 eexists; split; [done|]. split; [by apply Z.gcd_div_gcd|].
    destruct (Z.gcd_divide_l a b) as [u Hu], (Z.gcd_divide_r a b) as [v Hv].
    set (g := Z.gcd a b) in *. rewrite Hu at 1. rewrite Hv at 2.
    rewrite !Z.div_mul by done. rewrite Hu, Hv. lia.
Qed.

(** [permutations] returns exactly the rearrangements of the list, n! of them. *)
Theorem permutations_spec {A} (l : list A) :
  (∀ k, k ∈ permutations l ↔ k ≡ₚ l) ∧ length (permutations l) = fact (length l).
Proof. split; [intros; apply elem_of_permutations|apply length_permutations]. Qed.

(** For a non-empty rectangular matrix, [transpose] swaps rows and columns, and
    transposing twice gives the matrix back when it has a column. *)
Theorem transpose_spec {A} (c : nat) (m : list (list A)) :
  m ≠ [] → rectangular c m →
  length (transpose m) = c ∧ rectangular (length m) (transpose m) ∧
  (∀ i j, transpose m !! j ≫= (λ col, col !! i) = m !! i ≫= (λ row, row !! j)) ∧
  (0 < c → transpose (transpose m) = m).
Proof.
  intros Hne Hm. destruct (transpose_rect c m Hne Hm) as (?&?&?). split_and!; [done..|].
  intros. by eapply transpose_transpose.
Qed.

Lemma transpose_spec_witness :
  transpose [["a"; "b"; "c"]; ["d"; "e"; "f"]] = [["a"; "d"]; ["b"; "e"]; ["c"; "f"]] ∧
  transpose (transpose [["a"; "b"; "c"]; ["d"; "e"; "f"]]) = [["a"; "b"; "c"]; ["d"; "e"; "f"]].
Proof.
  split; [reflexivity|]. apply (transpose_spec 3); [done|by repeat constructor|lia].
Defined.

(** Whatever the order of the dictionary, [uniquify] returns every item of the sequence
    once; with [preserve_order], or for unhashable items, in order of first occurrence. *)
Theorem uniquify_spec `{DictIter A} (hashable preserve_order : bool) (s : list A) :
  NoDup (uniquify hashable preserve_order s) ∧
  (∀ x, x ∈ uniquify hashable preserve_order s ↔ x ∈ s) ∧
  (preserve_order || negb hashable = true →
     uniquify hashable preserve_order s = uniquify_ordered s ∧
     ∀ s1 x s2, s = s1 ++ x :: s2 → x ∉ s1 →
       ∃ r, uniquify_ordered s = uniquify_ordered s1 ++ x :: r).
Proof.
  assert (uniquify false preserve_order s = uniquify_ordered s) as Hslow
    by apply (slow_uniq_from []).
  assert (∀ x, x ∈ uniquify_ordered s ↔ x ∈ s) as Hord
    by (intros; unfold uniquify_ordered; rewrite elem_of_uniq_from; set_solver).
  split_and!.
  - destruct hashable; [|rewrite Hslow; apply NoDup_uniq_from].
    destruct preserve_order; [apply NoDup_uniq_from|apply NoDup_dict_keys].
  - intros x. destruct hashable; [|by rewrite Hslow].
    destruct preserve_order; [by apply Hord|]. unfold uniquify.
    rewrite elem_of_dict_keys, lookup_setitems, lookup_empty. split; [|by auto].
    by intros [?|[]].
  - intros Hflag. split; [by destruct hashable; [destruct preserve_order|apply Hslow]|].
    intros s1 x s2 -> Hx. unfold uniquify_ordered. rewrite uniq_from_app. cbn.
    rewrite decide_False by (rewrite elem_of_uniq_from; naive_solver). eauto.
Qed.

Lemma uniquify_spec_witness :
  uniquify true true ["z"; "x"; "y"; "z"] = ["z"; "x"; "y"] ∧
  uniquify true true ["z"; "x"; "y"; "z"] = uniquify_ordered ["z"; "x"; "y"; "z"].
Proof. split; [reflexivity|]. by apply (uniquify_spec true true). Defined.

(** On a positive grid, [round_grid] gives the nearest multiple (halves up), or with
    [mode] 1 or -1 the next multiple above or below a value that is not one; a value that
    already is a multiple makes both directed modes raise UnboundLocalError. *)
Theorem round_grid_spec (value grid mode : Z) :
  (0 < grid)%Z →
  (∃ q, round_grid value grid 0 = Ok (q * grid)%Z ∧
     (- grid < 2 * (value - q * grid) ∧ 2 * (value - q * grid) < grid ∨
      2 * (q * grid - value) = grid)%Z) ∧
  (value `mod` grid ≠ 0 →
     ∃ q, (q * grid < value < (q + 1) * grid)%Z ∧
       round_grid value grid 1 = Ok ((q + 1) * grid)%Z ∧
       round_grid value grid (-1) = Ok (q * grid)%Z)%Z ∧
  (value `mod` grid = 0 → mode ≠ 0 → round_grid value grid mode = Raise UnboundLocalError)%Z.
Proof.
  intros Hg. pose proof (Z.div_mod value grid ltac:(lia)) as Hd.
  pose proof (Z.mod_pos_bound value grid Hg) as Hm. unfold round_grid.
  destruct (Z.eqb_spec grid 0); [lia|]. split_and!.
  - cbn. eexists; split; [reflexivity|]. destruct (Z.leb_spec grid (2 * (value `mod` grid))); lia.
  - intros Hne. exists (value / grid)%Z. destruct (Z.eqb_spec (value `mod` grid) 0); [lia|].
    split_and!; [lia|lia|reflexivity|cbn; by rewrite Z.add_0_r].
  - intros Hz Hmode. rewrite Hz. destruct (Z.eqb_spec mode 0); [lia|].
    cbn. by rewrite !andb_false_r.
Qed.

Lemma round_grid_spec_witness :
  round_grid 7 5 1 = Ok 10%Z ∧ round_grid 10 5 1 = Raise UnboundLocalError.
Proof. split; [reflexivity|]. apply (round_grid_spec 10 5 1); [lia|reflexivity|lia]. Defined.

(** [random_vec] does not respect [max_value]: with draws the random source can
    make, it returns a vector above the maximum, and with others it raises ValueError. *)
Theorem random_vec_max_value :
  (∃ draw, (∀ k, 0 ≤ draw k < 2 ^ 10)%Z ∧
     ∃ s v, random_vec draw 8 (Some 100%Z) = Ok s ∧ bin2int s = Ok v ∧ (100 < v)%Z) ∧
  (∃ draw, (∀ k, 0 ≤ draw k < 2 ^ 10)%Z ∧
     random_vec draw 8 (Some 100%Z) = Raise too_large).
Proof.
  split.
  - exists (λ _, 511%Z). split; [by intros; vm_compute|]. exists "11001000", 200%Z.
    by split_and!; vm_compute.
  - exists (λ _, 1023%Z). by split; [intros; vm_compute|vm_compute].
Qed.

(** The remaining helpers. *)

Lemma lsb_mod (x : Z) (n : nat) : lsb x n = Ok (x `mod` 2 ^ n)%Z.
Proof.
  unfold lsb. destruct (Z.ltb_spec (Z.of_nat n) 0); [lia|].
  by rewrite <-Z.land_ones, Z.ones_equiv, Z.sub_1_r by lia.
Qed.

Lemma find_common_fixes_spec s1 s2 p q :
  find_common_fixes s1 s2 = (p, q) →
  longest_prefix (chars p) (chars s1) (chars s2) ∧
  longest_suffix (chars q) (chars s1) (chars s2).
Proof.
  intros [= <- <-]. rewrite !chars_implode.
  split; [apply common_prefix_longest|apply common_suffix_longest].
Qed.

(** A width of 0 is not checked: [result[:-0]] is empty and [result[-0:]] is everything. *)
Lemma int2bin_width_0 : int2bin 5 0 = Ok "0101".
Proof. reflexivity. Qed.

(** [get_args] always stores the positional arguments under ['args'], in order, even when an
    option of that name was given. *)
Lemma get_args_args argv :
  get_args argv !! "args" = Some (ArgList (filter (λ a, startswith a "-" = false) argv)).
Proof.
  unfold get_args. assert (∀ d args,
    (foldl add_arg (d, args) argv).2 = args ++ filter (λ a, startswith a "-" = false) argv) as Hf.
  { induction argv as [|a argv IH]; intros d args; cbn [foldl]; [by rewrite app_nil_r|].
    rewrite filter_cons. unfold add_arg at 2. destruct (startswith a "-") eqn:E.
    - destruct (decide _) as [?|_]; [congruence|]. destruct (split_all "=" (drop_dashes a)) as [|k [|v [|]]];
        apply IH.
    - destruct (decide _) as [_|?]; [|congruence]. rewrite IH. by rewrite <-app_assoc. }
  specialize (Hf ∅ []). destruct (foldl add_arg (∅, []) argv) as [d args]. cbn in Hf. subst.
  by rewrite lookup_insert_eq.
Qed.

(** Traversing a polygon backwards negates the doubled signed area. *)
Lemma shoelace_app l p k : shoelace (l ++ p :: k) = (shoelace (l ++ [p]) + shoelace (p :: k))%Z.
Proof.
  induction l as [|[x y] l IH]; [by destruct p|]. destruct l as [|[x' y'] l].
  - destruct p. cbn [app shoelace]. lia.
  - cbn [app shoelace] in *. rewrite IH. destruct p. lia.
Qed.

Lemma shoelace_reverse l : shoelace (reverse l) = (- shoelace l)%Z.
Proof.
  induction l as [|[x y] [|[x' y'] l] IH]; [done..|].
  rewrite reverse_cons. rewrite reverse_cons in IH |- *.
  rewrite <-app_assoc. cbn [app]. rewrite shoelace_app, IH. cbn [shoelace]. lia.
Qed.
