(* ===== verification/Topsort.v ===== *)
(** * Topsort: [bindings/python/topsort.py]

    Dependency sorting of (parent, child) pairs and cycle enumeration.  The two dictionaries
    of the code, [num_parents] and [children], are the two fields of [state]; iteration over
    a dictionary goes through [DictIter], so every theorem holds for every key order. *)

From stdpp Require Import base list strings gmap relations sorting.
From S2P Require Import Prelude RadUtil.

(** ** Data *)

Record state (K : Type) `{Countable K} := State {
  num_parents : gmap K Z;      (* element -> # of predecessors *)
  children : gmap K (list K)   (* element -> list of successors *)
}.
Arguments State {K _ _} _ _.
Arguments num_parents {K _ _} _.
Arguments children {K _ _} _.

(** What the sorting functions can raise.  [CycleError answer s] carries the nodes sorted so
    far (empty for [topsort_levels]) and what is left of the dictionaries; [KeyErr] is a
    failed dictionary access. *)
Inductive sort_error (K : Type) `{Countable K} :=
| CycleError (answer : list K) (s : state K)
| KeyErr.
Arguments CycleError {K _ _} _ _.
Arguments KeyErr {K _ _}.

Section operations.
Context `{DictIter K}.

(** *** The loop over [pairlist] *)

(** [if not num_parents.has_key(x): num_parents[x] = 0]. *)
Definition ensure_key (x : K) (np : gmap K Z) : gmap K Z :=
  match np !! x with Some _ => np | None => <[x := 0%Z]> np end.

Definition add_pair (s : state K) (pc : K * K) : state K :=
  let '(parent, child) := pc in
  let np := ensure_key child (ensure_key parent (num_parents s)) in
  State (alter (λ n, n + 1)%Z child np)
    (<[parent := default [] (children s !! parent) ++ [child]]> (children s)).

Definition count_pairs (pairlist : list (K * K)) : state K :=
  foldl add_pair (State ∅ ∅) pairlist.

(** *** [topsort] *)

(** The body of [for child in children[parent]]: decrement, and append at zero. *)
Definition visit_child (st : gmap K Z * list K) (child : K) : py (sort_error K) (gmap K Z * list K) :=
  let '(np, answer) := st in
  n ← or_raise KeyErr (np !! child);
  Ok (<[child := (n - 1)%Z]> np, if decide (n - 1 = 0)%Z then answer ++ [child] else answer).

(** The body of [for parent in answer]: [todo] is the part of [answer] the loop has not
    reached, which the body extends. *)
Definition process_parent (s : state K) (todo : list K) (parent : K)
    : py (sort_error K) (state K * list K) :=
  _ ← or_raise KeyErr (num_parents s !! parent);
  let np := delete parent (num_parents s) in
  match children s !! parent with
  | Some cs =>
      '(np, todo) ← py_foldl visit_child (np, todo) cs;
      Ok (State np (delete parent (children s)), todo)
  | None => Ok (State np (children s), todo)
  end.

(** The loop itself; [None] when [fuel] runs out. *)
Fixpoint topsort_loop (fuel : nat) (s : state K) (done_ todo : list K)
    : option (py (sort_error K) (state K * list K)) :=
  match todo with
  | [] => Some (Ok (s, done_))
  | parent :: todo =>
      match fuel with
      | O => None
      | S fuel =>
          match process_parent s todo parent with
          | Ok (s, todo) => topsort_loop fuel s (done_ ++ [parent]) todo
          | Raise e => Some (Raise e)
          end
      end
  end.

Definition topsort (pairlist : list (K * K)) : option (py (sort_error K) (list K)) :=
  let s := count_pairs pairlist in
  let answer := filter (λ x, num_parents s !! x = Some 0%Z) (dict_keys 0 (num_parents s)) in
  r ← topsort_loop (size (num_parents s)) s [] answer;
  Some ('(s, answer) ← r;
        if decide (num_parents s = ∅) then Ok answer else Raise (CycleError answer s)).

(** *** [topsort_levels] *)

(** One pass of [while 1] after the [yield]: remove the nodes of the level. *)
Definition process_level_parent (s : state K) (level_parent : K) : py (sort_error K) (state K) :=
  _ ← or_raise KeyErr (num_parents s !! level_parent);
  let np := delete level_parent (num_parents s) in
  match children s !! level_parent with
  | Some cs =>
      np ← py_foldl (λ np child, n ← or_raise KeyErr (np !! child);
                                 Ok (<[child := (n - 1)%Z]> np)) np cs;
      Ok (State np (delete level_parent (children s)))
  | None => Ok (State np (children s))
  end.

(** The generator: the levels it yields, and how it ends ([raise StopIteration] is the
    normal end of a Python 2 generator).  [t] counts the calls of [num_parents.keys()]. *)
Fixpoint topsort_levels_core (fuel t : nat) (s : state K)
    : option (list (list K) * py (sort_error K) unit) :=
  let level_parents := filter (λ x, num_parents s !! x = Some 0%Z) (dict_keys t (num_parents s)) in
  match level_parents with
  | [] => Some ([], if decide (num_parents s = ∅) then Ok () else Raise (CycleError [] s))
  | _ =>
      match fuel with
      | O => None
      | S fuel =>
          match py_foldl process_level_parent s level_parents with
          | Ok s =>
              '(levels, end_) ← topsort_levels_core fuel (S t) s;
              Some (level_parents :: levels, end_)
          | Raise e => Some ([level_parents], Raise e)
          end
      end
  end.

Definition topsort_levels (pairlist : list (K * K)) : option (list (list K) * py (sort_error K) unit) :=
  let s := count_pairs pairlist in
  topsort_levels_core (size (num_parents s)) 0 s.

(** *** [find_cycles] *)

(** The stack, the cycles found so far (and yielded, in this order) and [visited_nodes]. *)
Record search := Search {
  paths : list (list K);         (* the last element of the code's list comes first *)
  cycles : list (list K);
  visited_nodes : gset K
}.

(** [path[path.index(child):]]. *)
Fixpoint from_index (child : K) (path : list K) : list K :=
  match path with
  | [] => []
  | x :: path' => if decide (x = child) then path else from_index child path'
  end.

(** The body of [for child in children]. *)
Definition follow_child (path : list K) (st : search) (child : K) : py exn search :=
  if decide (child ∈ path) then
    let cycle := from_index child path in
    is_dup ← py_foldl (λ (is_dup : bool) other_cycle,
               if is_dup then Ok true else is_rotated other_cycle cycle) false (cycles st);
    Ok (if is_dup : bool then st
        else Search (paths st) (cycles st ++ [cycle]) (visited_nodes st))
  else Ok (Search ((path ++ [child]) :: paths st) (cycles st) ({[child]} ∪ visited_nodes st)).

(** [while paths: ...]. *)
Fixpoint search_loop (fuel : nat) (parent_children : gmap K (list K)) (st : search)
    : option (py exn search) :=
  match paths st with
  | [] => Some (Ok st)
  | path :: rest =>
      match fuel with
      | O => None
      | S fuel =>
          let st := Search rest (cycles st) (visited_nodes st) in
          match last path ≫= λ parent, parent_children !! parent with
          | None => search_loop fuel parent_children st
          | Some cs =>
              match py_foldl (follow_child path) st cs with
              | Ok st => search_loop fuel parent_children st
              | Raise e => Some (Raise e)
              end
          end
      end
  end.

(** [for parent in parent_children]; [fuel] bounds each [while] loop. *)
Fixpoint find_cycles_from (fuel : nat) (parent_children : gmap K (list K)) (st : search)
    (roots : list K) : option (py exn search) :=
  match roots with
  | [] => Some (Ok st)
  | parent :: roots =>
      if decide (parent ∈ visited_nodes st) then find_cycles_from fuel parent_children st roots
      else
        match search_loop fuel parent_children
                (Search [[parent]] (cycles st) (visited_nodes st)) with
        | Some (Ok st) => find_cycles_from fuel parent_children st roots
        | r => r
        end
  end.

Definition find_cycles (fuel : nat) (parent_children : gmap K (list K)) : option (py exn (list (list K))) :=
  r ← find_cycles_from fuel parent_children (Search [] [] ∅) (dict_keys 0 parent_children);
  Some (st ← r; Ok (cycles st)).
End operations.

(** ** The dependency graph of a list of pairs *)

Section graph.
Context `{Countable K}.
Implicit Types (E : list (K * K)) (D : list K).

Definition edge E (p c : K) : Prop := (p, c) ∈ E.
Definition is_node E (x : K) : Prop := x ∈ E.*1 ∨ x ∈ E.*2.
Definition acyclic E : Prop := ∀ x, ¬ tc (edge E) x x.

(** The number of pairs that make [x] wait for a parent outside [D]. *)
Definition npred E D (x : K) : nat := length (filter (λ e, e.2 = x ∧ e.1 ∉ D) E).
(** The children of [p], with repetitions, in order of the pairs. *)
Definition succs E (p : K) : list K := (filter (λ e, e.1 = p) E).*2.
Definition occ (x : K) (l : list K) : nat := length (filter (x =.) l).

#[global] Instance is_node_dec E x : Decision (is_node E x).
Proof. unfold is_node. apply _. Defined.

Lemma occ_zero x l : occ x l = 0 ↔ x ∉ l.
Proof. unfold occ. rewrite length_zero_iff_nil, filter_nil_iff. naive_solver. Qed.

Lemma occ_cons x y l : occ x (y :: l) = (if decide (x = y) then 1 else 0) + occ x l.
Proof. unfold occ. rewrite filter_cons. by case_decide. Qed.

Lemma npred_zero E D x : npred E D x = 0 ↔ ∀ p, edge E p x → p ∈ D.
Proof.
  unfold npred, edge. rewrite length_zero_iff_nil, filter_nil_iff. split.
  - intros Hf p Hp. destruct (decide (p ∈ D)); [done|]. by destruct (Hf _ Hp).
  - intros Hp [p c] Hin [Hc Hn]. cbn in *. subst c. by apply Hn, Hp.
Qed.

Lemma npred_pos E D x : npred E D x ≠ 0 → ∃ p, edge E p x ∧ p ∉ D.
Proof.
  unfold npred. destruct (filter _ E) as [|[p c] r] eqn:Ef; [done|]. intros _.
  assert ((p, c) ∈ filter (λ e, e.2 = x ∧ e.1 ∉ D) E) as Hin by (rewrite Ef; left).
  apply list_elem_of_filter in Hin as [[Hc Hp] Hin]. cbn in *. subst c. by exists p.
Qed.

(** Finishing [p] takes its occurrences off the count of each of its children. *)
Lemma npred_snoc E D p x : p ∉ D → npred E D x = npred E (D ++ [p]) x + occ x (succs E p).
Proof.
  intros Hp. unfold npred, succs, occ. induction E as [|[a b] E IH]; [done|].
  rewrite !(filter_cons _ (a, b)). cbn [fst snd].
  destruct (decide (a = p)) as [->|Hap].
  - rewrite (decide_False (P := b = x ∧ p ∉ D ++ [p])) by set_solver.
    rewrite fmap_cons, filter_cons. cbn [fst snd].
    destruct (decide (x = b)) as [<-|Hb].
    + rewrite decide_True by done. cbn [length]. lia.
    + rewrite decide_False by naive_solver. lia.
  - destruct (decide (b = x ∧ a ∉ D)) as [[-> Ha]|Hn].
    + rewrite decide_True by set_solver. cbn [length]. lia.
    + rewrite decide_False by set_solver. lia.
Qed.

Lemma elem_of_succs E p c : c ∈ succs E p ↔ edge E p c.
Proof.
  unfold succs, edge. rewrite list_elem_of_fmap. split.
  - intros ([a b] & -> & [<- Hin]%list_elem_of_filter). done.
  - intros Hin. exists (p, c). split; [done|]. by apply list_elem_of_filter.
Qed.

Lemma is_node_l E p c : edge E p c → is_node E p.
Proof. intros Hin. left. apply list_elem_of_fmap. by exists (p, c). Qed.
Lemma is_node_r E p c : edge E p c → is_node E c.
Proof. intros Hin. right. apply list_elem_of_fmap. by exists (p, c). Qed.

(** *** The dictionaries built from the pairs *)

Lemma lookup_ensure_key x y (np : gmap K Z) :
  ensure_key x np !! y = if decide (x = y) then Some (default 0%Z (np !! y)) else np !! y.
Proof.
  unfold ensure_key. case_decide as Hxy; subst.
  - destruct (np !! y) eqn:E; rewrite ?lookup_insert_eq; cbn; by rewrite ?E.
  - destruct (np !! x); by rewrite ?lookup_insert_ne.
Qed.

Lemma count_pairs_num E x :
  num_parents (count_pairs E) !! x =
    if decide (is_node E x) then Some (npred E [] x : Z) else None.
Proof.
  induction E as [|[p c] E IH] using rev_ind; [done|].
  unfold count_pairs in *. rewrite foldl_snoc. unfold add_pair at 1. cbn [num_parents].
  assert (npred (E ++ [(p, c)]) [] x = npred E [] x + (if decide (c = x) then 1 else 0)) as ->.
  { unfold npred. rewrite filter_app, length_app, filter_cons, filter_nil. cbn [fst snd].
    f_equal. destruct (decide (c = x)); [rewrite decide_True by set_solver|
      rewrite decide_False by naive_solver]; done. }
  assert (is_node (E ++ [(p, c)]) x ↔ is_node E x ∨ x = p ∨ x = c) as Hn.
  { unfold is_node. rewrite !fmap_app. cbn. set_solver. }
  assert (¬ is_node E x → npred E [] x = 0) as Hz.
  { intros Hno. apply npred_zero. intros q Hq. destruct Hno. by eapply is_node_r. }
  set (np := num_parents _) in *.
  assert (alter (λ n, n + 1)%Z c (ensure_key c (ensure_key p np)) !! x =
    if decide (c = x) then Some (default 0 (np !! x) + 1)%Z
    else if decide (p = x) then Some (default 0%Z (np !! x)) else np !! x) as ->.
  { rewrite lookup_alter. destruct (decide (c = x)) as [->|]; rewrite !lookup_ensure_key.
    - rewrite (decide_True (P := x = x)) by done. by destruct (decide (p = x)).
    - by rewrite decide_False. }
  rewrite IH. destruct (decide (is_node E x)) as [Hy|Hno].
  - rewrite (decide_True (P := is_node (E ++ _) x)) by (apply Hn; auto). rewrite Nat2Z.inj_add.
    destruct (decide (c = x)), (decide (p = x)); by rewrite ?Z.add_0_r.
  - rewrite (Hz Hno). destruct (decide (c = x)) as [->|]; [|destruct (decide (p = x)) as [->|]].
    + by rewrite decide_True by (apply Hn; auto).
    + by rewrite decide_True by (apply Hn; auto).
    + rewrite decide_False; [done|]. rewrite Hn. by intros [?|[?|?]].
Qed.

Lemma count_pairs_children E p :
  children (count_pairs E) !! p = if decide (succs E p = []) then None else Some (succs E p).
Proof.
  induction E as [|[a c] E IH] using rev_ind; [done|].
  unfold count_pairs in *. rewrite foldl_snoc. unfold add_pair at 1. cbn [children].
  assert (succs (E ++ [(a, c)]) p = succs E p ++ (if decide (a = p) then [c] else [])) as ->.
  { unfold succs. rewrite filter_app, fmap_app, filter_cons, filter_nil. cbn [fst].
    by destruct (decide (a = p)). }
  rewrite lookup_insert. destruct (decide (a = p)) as [->|Hap].
  - rewrite IH. destruct (decide (succs E p ++ [c] = [])) as [Hs|_].
    { by apply app_eq_nil in Hs as [_ ?]. }
    by destruct (decide (succs E p = [])) as [->|].
  - by rewrite app_nil_r, IH.
Qed.
End graph.

(** ** The inner loop: decrementing the counts of the children *)

Section visit.
Context `{Countable K}.

Lemma visit_children (cs : list K) np todo :
  (∀ x, x ∈ cs → ∃ n, np !! x = Some n ∧ (occ x cs ≤ n)%Z) →
  ∃ np' new, py_foldl visit_child (np, todo) cs = Ok (np', todo ++ new) ∧
    (∀ x, np' !! x = (λ n, n - occ x cs)%Z <$> np !! x) ∧ NoDup new ∧
    (∀ x, x ∈ new ↔ x ∈ cs ∧ np !! x = Some (occ x cs : Z)).
Proof.
  revert np todo; induction cs as [|c cs IH]; intros np todo Hcs.
  { exists np, []. rewrite app_nil_r. split_and!; [done| |constructor|set_solver].
    intros x. destruct (np !! x); cbn; [|done]. f_equal. cbn. lia. }
  destruct (Hcs c) as (n & Hn & Hle); [left|]. rewrite occ_cons, decide_True in Hle by done.
  cbn [py_foldl visit_child]. rewrite Hn. cbn [or_raise mbind py_bind].
  set (todo1 := if decide _ then _ else _).
  destruct (IH (<[c := (n - 1)%Z]> np) todo1) as (np' & new & Hrun & Hnp & Hnd & Hnew).
  { intros x Hx. destruct (Hcs x) as (m & Hm & Hlem); [by right|].
    rewrite occ_cons in Hlem. destruct (decide (x = c)) as [->|].
    - exists (n - 1)%Z. rewrite lookup_insert_eq. split; [done|]. lia.
    - exists m. rewrite lookup_insert_ne by done. split; [done|]. lia. }
  assert (∀ x, np' !! x = (λ n, n - occ x (c :: cs))%Z <$> np !! x) as Hnp'.
  { intros x. rewrite Hnp, occ_cons. destruct (decide (x = c)) as [->|].
    - rewrite lookup_insert_eq, Hn. cbn. f_equal. lia.
    - by rewrite lookup_insert_ne by done. }
  unfold todo1 in *. destruct (decide (n - 1 = 0)%Z) as [Hz|Hz].
  - assert (c ∉ cs) as Hc by (apply occ_zero; lia).
    exists np', (c :: new). rewrite Hrun, <-app_assoc. split_and!; [done|done| |].
    + constructor; [|done]. rewrite Hnew. naive_solver.
    + intros x. rewrite !elem_of_cons, Hnew, occ_cons. destruct (decide (x = c)) as [->|Hx].
      * rewrite Hn. apply occ_zero in Hc as ->. split; [|auto]. intros _. split; [auto|f_equal; lia].
      * rewrite lookup_insert_ne by done. cbn. naive_solver.
  - exists np', new. rewrite Hrun. split_and!; [done..|]. intros x.
    rewrite elem_of_cons, Hnew, occ_cons. destruct (decide (x = c)) as [->|Hx].
    + rewrite lookup_insert_eq, Hn. split.
      * intros [? [= ?]]. split; [auto|]. f_equal. lia.
      * intros [_ [= Hq]]. split; [|f_equal; lia].
        destruct (decide (c ∈ cs)) as [|Hc]; [done|]. apply occ_zero in Hc. lia.
    + rewrite lookup_insert_ne by done. cbn. naive_solver.
Qed.

Lemma decrement_children (cs : list K) (np : gmap K Z) :
  (∀ x, x ∈ cs → is_Some (np !! x)) →
  ∃ np', py_foldl (λ np child, n ← or_raise (KeyErr (K:=K)) (np !! child);
                               Ok (<[child := (n - 1)%Z]> np)) np cs = Ok np' ∧
    ∀ x, np' !! x = (λ n, n - occ x cs)%Z <$> np !! x.
Proof.
  revert np; induction cs as [|c cs IH]; intros np Hcs.
  { exists np. split; [done|]. intros x. destruct (np !! x); cbn; [|done]. f_equal. cbn. lia. }
  destruct (Hcs c) as [n Hn]; [left|]. cbn [py_foldl]. rewrite Hn. cbn [or_raise mbind py_bind].
  destruct (IH (<[c := (n - 1)%Z]> np)) as (np' & Hrun & Hnp).
  { intros x Hx. rewrite lookup_insert_is_Some'. right. apply Hcs. by right. }
  exists np'. split; [done|]. intros x. rewrite Hnp, occ_cons.
  destruct (decide (x = c)) as [->|].
  - rewrite lookup_insert_eq, Hn. cbn. f_equal. lia.
  - by rewrite lookup_insert_ne by done.
Qed.
End visit.

(** ** The state after finishing the nodes [D] *)

Section finished.
Context `{DictIter K} (E : list (K * K)).

(** The dictionaries hold exactly what the nodes outside [D] still wait for. *)
Record finished (D : list K) (s : state K) : Prop := {
  fin_num : ∀ x, num_parents s !! x =
    if decide (is_node E x ∧ x ∉ D) then Some (npred E D x : Z) else None;
  fin_children : ∀ p, children s !! p =
    if decide (p ∈ D ∨ succs E p = []) then None else Some (succs E p)
}.

(** Every element of [D] has its parents before it. *)
Definition ordered (D : list K) : Prop :=
  ∀ l1 x l2, D = l1 ++ x :: l2 → ∀ p, edge E p x → p ∈ l1.

Lemma finished_start : finished [] (count_pairs E).
Proof.
  split.
  - intros x. rewrite count_pairs_num. destruct (decide (is_node E x)).
    + by rewrite decide_True by set_solver.
    + by rewrite decide_False by tauto.
  - intros p. rewrite count_pairs_children. destruct (decide (succs E p = [])).
    + by rewrite decide_True by auto.
    + rewrite decide_False; [done|]. set_solver.
Qed.

Lemma ready_iff D s x :
  finished D s →
  num_parents s !! x = Some 0%Z ↔ is_node E x ∧ x ∉ D ∧ ∀ p, edge E p x → p ∈ D.
Proof.
  intros Hs. rewrite (fin_num _ _ Hs), <-npred_zero. case_decide as Hd; [|by split; [|intros (?&?&?); destruct Hd]].
  split; [|by intros (_ & _ & ->)]. intros [= Hz]. split_and!; [by destruct Hd..|lia].
Qed.

Lemma ordered_snoc D p : ordered D → (∀ q, edge E q p → q ∈ D) → ordered (D ++ [p]).
Proof.
  intros HD Hp l1 x l2 Heq q Hq. destruct l2 as [|y l2 _] using rev_ind.
  - apply app_inj_tail in Heq as [<- <-]. by apply Hp.
  - rewrite app_comm_cons, app_assoc in Heq. apply app_inj_tail in Heq as [-> _].
    by eapply HD.
Qed.

(** A child of a node that waits for no one is another node, and waits for it. *)
Lemma ready_child D s p c :
  finished D s → ordered D → num_parents s !! p = Some 0%Z → c ∈ succs E p →
  c ≠ p ∧ c ∉ D ∧ is_node E c.
Proof.
  intros Hs HD Hp Hc%elem_of_succs. apply (ready_iff D s) in Hp as (_ & HpD & Hpre); [|done].
  split_and!.
  - intros ->. by apply HpD, Hpre.
  - intros (l1 & l2 & ->)%list_elem_of_split. apply HpD. apply elem_of_app. left.
    by eapply HD.
  - by eapply is_node_r.
Qed.

(** Deleting [p] and decrementing the counts of its children finishes [p]. *)
Lemma finished_snoc D s p np ch :
  finished D s → p ∉ D →
  (∀ x, np !! x = (λ n, n - occ x (succs E p))%Z <$> delete p (num_parents s) !! x) →
  (∀ q, ch !! q = delete p (children s) !! q) →
  finished (D ++ [p]) (State np ch).
Proof.
  intros Hs Hp Hnp Hch. split; cbn.
  - intros x. rewrite Hnp, lookup_delete, (fin_num _ _ Hs).
    destruct (decide (p = x)) as [->|Hpx]; [rewrite decide_False by set_solver; done|].
    destruct (decide (is_node E x ∧ x ∉ D)) as [[Hx HxD]|Hn].
    + rewrite decide_True by set_solver. cbn. f_equal.
      pose proof (npred_snoc E D p x Hp). lia.
    + rewrite decide_False by set_solver. done.
  - intros q. rewrite Hch, lookup_delete, (fin_children _ _ Hs).
    destruct (decide (p = q)) as [->|Hpq]; [rewrite decide_True by set_solver; done|].
    destruct (decide (q ∈ D ∨ succs E q = [])) as [|Hn].
    + rewrite decide_True by set_solver. done.
    + rewrite decide_False by set_solver. done.
Qed.

(** *** One step of [topsort] *)

Record loop_inv (s : state K) (D T : list K) : Prop := {
  inv_finished : finished D s;
  inv_nodup : NoDup (D ++ T);
  inv_todo : ∀ x, x ∈ T ↔ num_parents s !! x = Some 0%Z;
  inv_ordered : ordered D;
  inv_nodes : ∀ x, x ∈ D → is_node E x
}.

Lemma process_parent_inv s D p T :
  loop_inv s D (p :: T) →
  ∃ s' T', process_parent s T p = Ok (s', T') ∧ loop_inv s' (D ++ [p]) T'.
Proof.
  intros [Hs Hnd HT HD Hnodes].
  assert (num_parents s !! p = Some 0%Z) as Hp by (apply HT; left).
  pose proof (proj1 (ready_iff _ _ _ Hs) Hp) as (Hnode & HpD & Hpre).
  assert (Hcnt : ∀ x, x ∈ succs E p → delete p (num_parents s) !! x = Some (npred E D x : Z)).
  { intros x Hx. destruct (ready_child D s p x) as (? & ? & ?); [done..|].
    rewrite lookup_delete_ne, (fin_num _ _ Hs) by done. by rewrite decide_True. }
  destruct (visit_children (succs E p) (delete p (num_parents s)) T)
    as (np & new & Hrun & Hnp & Hndn & Hnew).
  { intros x Hx. eexists; split; [by apply Hcnt|].
    pose proof (npred_snoc E D p x HpD). lia. }
  set (s' := State np (delete p (children s))).
  assert (Hs' : finished (D ++ [p]) s') by (by eapply finished_snoc).
  exists s', (T ++ new). split.
  { unfold process_parent. rewrite Hp, (fin_children _ _ Hs). cbn [or_raise mbind py_bind].
    destruct (decide (p ∈ D ∨ succs E p = [])) as [[?|He]|Hne]; [done| |].
    - rewrite He in *. cbn in Hrun. injection Hrun as -> HT'. rewrite <-HT'.
      unfold s'. rewrite delete_id; [done|]. rewrite (fin_children _ _ Hs).
      by rewrite decide_True by auto.
    - rewrite Hrun. done. }
  assert (∀ x, x ∈ T ++ new ↔ num_parents s' !! x = Some 0%Z) as HT'.
  { intros x. rewrite elem_of_app, Hnew. cbn. rewrite Hnp, lookup_delete.
    destruct (decide (p = x)) as [->|Hpx]; cbn.
    - split; [|done]. intros [Hx|[_ ?]]; [|done].
      apply NoDup_app in Hnd as (_ & _ & [Hx' _]%NoDup_cons). done.
    - specialize (HT x). rewrite elem_of_cons in HT.
      destruct (decide (x ∈ succs E p)) as [Hx|Hx].
      + specialize (Hcnt x Hx). rewrite lookup_delete_ne in Hcnt by done. rewrite Hcnt in HT |- *.
        cbn. assert (occ x (succs E p) ≠ 0) by (rewrite occ_zero; tauto).
        pose proof (npred_snoc E D p x HpD).
        split; [intros [?|[_ [= ?]]]|intros [= ?]].
        * destruct HT as [HT _]. specialize (HT ltac:(by right)). injection HT as ?. lia.
        * f_equal. lia.
        * right. split; [done|]. f_equal. lia.
      + apply occ_zero in Hx as Hx0. rewrite Hx0.
        destruct (num_parents s !! x) as [n|]; cbn; rewrite ?Z.sub_0_r; naive_solver. }
  split; [done| |done|by apply ordered_snoc|set_solver].
  rewrite <-app_assoc. cbn. rewrite app_comm_cons, app_assoc. apply NoDup_app.
  split_and!; [done| |done].
  intros x Hx Hxn. apply Hnew in Hxn as [Hxs _].
  destruct (ready_child D s p x) as (Hxp & HxD & _); [done..|].
  apply elem_of_app in Hx as [|[->|HxT]%elem_of_cons]; [done|done|].
  assert (num_parents s !! x = Some 0%Z) as (_ & _ & Hq)%(ready_iff D s) by
    (apply HT; by right); [|done].
  apply HpD, Hq. by apply elem_of_succs.
Qed.
End finished.

(** ** [topsort] *)

Section topsort.
Context `{DictIter K} (E : list (K * K)).

Definition nodes : gset K := dom (num_parents (count_pairs E)).

Lemma elem_of_nodes x : x ∈ nodes ↔ is_node E x.
Proof.
  unfold nodes. rewrite elem_of_dom, count_pairs_num. case_decide; [by eauto|].
  split; [by intros []|done].
Qed.

Lemma length_nodes (l : list K) : NoDup l → (∀ x, x ∈ l → is_node E x) → length l ≤ size nodes.
Proof.
  intros Hnd Hl. rewrite <-(size_list_to_set (C := gset K) l) by done.
  apply subseteq_size. intros x Hx%elem_of_list_to_set. by apply elem_of_nodes, Hl.
Qed.

Lemma topsort_loop_inv fuel s D T :
  loop_inv E s D T → size nodes ≤ length D + fuel →
  ∃ s' D', topsort_loop fuel s D T = Some (Ok (s', D')) ∧ loop_inv E s' D' [].
Proof.
  revert s D T; induction fuel as [|fuel IH]; intros s D T Hinv Hf; destruct T as [|p T].
  1,3: by exists s, D.
  - exfalso. destruct Hinv as [Hs Hnd HT HD Hn].
    assert (is_node E p) by (apply (ready_iff E D s); [done|apply HT; left]).
    assert (length (D ++ [p]) ≤ size nodes); [|rewrite length_app in *; cbn in *; lia].
    apply length_nodes; [|set_solver].
    rewrite cons_middle, app_assoc in Hnd. by apply NoDup_app in Hnd as [? _].
  - destruct (process_parent_inv E s D p T Hinv) as (s' & T' & Hrun & Hinv').
    cbn. rewrite Hrun. apply IH; [done|]. rewrite length_app. cbn. lia.
Qed.

Lemma topsort_start :
  loop_inv E (count_pairs E) []
    (filter (λ x, num_parents (count_pairs E) !! x = Some 0%Z)
       (dict_keys 0 (num_parents (count_pairs E)))).
Proof.
  split; [apply finished_start| | |by intros [|? ?]|set_solver].
  - apply NoDup_filter, NoDup_dict_keys.
  - intros x. rewrite list_elem_of_filter, elem_of_dict_keys. naive_solver.
Qed.

(** A complete ordered list rules out cycles. *)
Lemma ordered_tc D a b :
  tc (edge E) a b → ordered E D → ∀ l1 l2, D = l1 ++ b :: l2 → a ∈ l1.
Proof.
  intros Hab HD. induction Hab as [a b Hab|a c b Hac _ IH]; intros l1 l2 ->; [by eapply HD|].
  pose proof (IH l1 l2 eq_refl) as (k1 & k2 & ->)%list_elem_of_split.
  apply elem_of_app. left. eapply (HD k1 c); [|done]. by rewrite <-app_assoc.
Qed.

Lemma ordered_acyclic D :
  ordered E D → NoDup D → (∀ x, is_node E x → x ∈ D) → acyclic E.
Proof.
  intros HD Hnd Hall x Hx.
  assert (is_node E x) as (l1 & l2 & ->)%Hall%list_elem_of_split.
  { inversion Hx; subst; eauto using is_node_l. }
  eapply ordered_tc in Hx; [|done|done].
  apply NoDup_app in Hnd as (_ & Hd & _). apply (Hd x Hx). left.
Qed.

(** A node left over when nothing is ready lies behind a cycle. *)
Lemma stuck_cyclic D s :
  finished E D s → (∀ x, num_parents s !! x ≠ Some 0%Z) → acyclic E →
  ∀ x, is_node E x → x ∈ D.
Proof.
  intros Hs Hnone Hac x. assert (sn (flip (edge E)) x) as Hsn.
  { apply tc_finite_sn.
    - intros y Hy. apply (Hac y). clear -Hy.
      assert (∀ a b, tc (flip (edge E)) a b → tc (edge E) b a) as Hflip; [|by apply Hflip].
      intros a b Hab. induction Hab as [a b Hab|a c b Hac _ IH]; [by apply tc_once|].
      by eapply tc_r.
    - exists (elements nodes). intros y Hy. apply elem_of_elements, elem_of_nodes.
      clear -Hy. induction Hy as [? ? Hz|? ? ? ? ? IH]; [by eapply is_node_l|done]. }
  induction Hsn as [x _ IH]. intros Hx.
  destruct (decide (x ∈ D)) as [|HxD]; [done|]. destruct (Hnone x).
  apply (ready_iff E D s); [done|]. split_and!; [done..|].
  intros p Hp. apply IH; [done|]. by eapply is_node_l.
Qed.

Lemma num_parents_empty D s :
  finished E D s → num_parents s = ∅ ↔ ∀ x, is_node E x → x ∈ D.
Proof.
  intros Hs. split.
  - intros He x Hx. destruct (decide (x ∈ D)) as [|Hn]; [done|].
    pose proof (fin_num _ _ _ Hs x) as Hf. by rewrite He, lookup_empty, decide_True in Hf.
  - intros Hall. apply map_eq. intros x. rewrite (fin_num _ _ _ Hs), lookup_empty.
    apply decide_False. intros [? []]. auto.
Qed.

(** [answer] lists every node once, parents before children. *)
Definition topological (answer : list K) : Prop :=
  NoDup answer ∧ (∀ x, x ∈ answer ↔ is_node E x) ∧ ordered E answer.

(** What [CycleError] reports: the dictionary holds the nodes that could not be sorted,
    each with the positive number of pairs it still waits for. *)
Definition stuck_at (answer : list K) (s : state K) : Prop :=
  NoDup answer ∧ ordered E answer ∧
  (∀ x, is_Some (num_parents s !! x) ↔ is_node E x ∧ x ∉ answer) ∧
  (∀ x n, num_parents s !! x = Some n → (0 < n)%Z ∧ n = npred E answer x).

Lemma stuck_at_finished D s :
  finished E D s → NoDup D → ordered E D → (∀ x, num_parents s !! x ≠ Some 0%Z) → stuck_at D s.
Proof.
  intros Hs Hnd HD Hnone. split_and!; [done..| |].
  - intros x. rewrite (fin_num _ _ _ Hs). case_decide; [by eauto|]. by split; [intros []|].
  - intros x n Hn. pose proof (Hnone x) as Hz. rewrite (fin_num _ _ _ Hs) in Hn, Hz.
    case_decide; [|done]. injection Hn as <-. split; [|done].
    destruct (npred E D x); [done|lia].
Qed.

Lemma topsort_run :
  ∃ s D, topsort E =
      Some (if decide (num_parents s = ∅) then Ok D else Raise (CycleError D s)) ∧
    loop_inv E s D [].
Proof.
  destruct (topsort_loop_inv (size (num_parents (count_pairs E))) _ _ _ topsort_start)
    as (s & D & Hrun & Hinv).
  { unfold nodes. rewrite size_dom. cbn. lia. }
  exists s, D. split; [|done]. unfold topsort. rewrite Hrun. done.
Qed.
(** Without a cycle the pairs are sorted. *)
Lemma topsort_sorts : acyclic E → ∃ answer, topsort E = Some (Ok answer) ∧ topological answer.
Proof.
  intros Hac. destruct topsort_run as (s & D & -> & [Hs Hnd HT HD Hn]). rewrite app_nil_r in Hnd.
  assert (∀ x, num_parents s !! x ≠ Some 0%Z) as Hnone by (intros x ?%HT; set_solver).
  pose proof (stuck_cyclic D s Hs Hnone Hac) as Hall. exists D.
  rewrite decide_True by (by apply (num_parents_empty D)). split; [done|].
  split_and!; [done|naive_solver|done].
Qed.
End topsort.

(** C10: for every iteration order of the dictionaries, [topsort] terminates without a
    KeyError; it returns every element once, parents before children, exactly when the
    pairs have no cycle, and otherwise raises CycleError with the part it could sort and
    the counts of the rest. *)
Theorem topsort_spec `{DictIter K} (E : list (K * K)) :
  (acyclic E → ∃ answer, topsort E = Some (Ok answer) ∧ topological E answer) ∧
  (¬ acyclic E → ∃ answer s, topsort E = Some (Raise (CycleError answer s)) ∧ stuck_at E answer s).
Proof.
  split; [apply topsort_sorts|]. intros Hac.
  destruct (topsort_run E) as (s & D & -> & [Hs Hnd HT HD Hn]). rewrite app_nil_r in Hnd.
  assert (∀ x, num_parents s !! x ≠ Some 0%Z) as Hnone by (intros x ?%HT; set_solver).
  exists D, s. rewrite decide_False; [split; [done|]; by apply stuck_at_finished|].
  intros He. apply Hac. eapply ordered_acyclic; [done..|]. by apply (num_parents_empty E D s).
Qed.

(** Pairs that increase a number have no cycle. *)
Lemma increasing_acyclic (E : list (Z * Z)) : Forall (λ e, e.1 < e.2)%Z E → acyclic E.
Proof.
  intros HE x Hx. assert (∀ a b, tc (edge E) a b → (a < b)%Z) as Hlt.
  { intros a b Hab. induction Hab as [a b Hab|a c b Hab _ IH].
    - by apply (proj1 (Forall_forall _ _) HE (a, b)).
    - assert (a < c)%Z by (by apply (proj1 (Forall_forall _ _) HE (a, c))). lia. }
  specialize (Hlt x x Hx). lia.
Qed.

Lemma topsort_spec_witness :
  let E := [(1, 2); (3, 4); (5, 6); (1, 3); (1, 5); (1, 6); (2, 5)]%Z in
  topsort E = Some (Ok [1; 2; 3; 5; 4; 6]%Z) ∧ topological E [1; 2; 3; 5; 4; 6]%Z ∧
  ∃ answer s, topsort [(1, 2); (2, 3); (3, 2)]%Z = Some (Raise (CycleError answer s)) ∧
    stuck_at [(1, 2); (2, 3); (3, 2)]%Z answer s.
Proof.
  intros E. split; [reflexivity|]. split.
  - destruct (proj1 (topsort_spec E)) as (answer & Hrun & Ht).
    { apply increasing_acyclic. repeat constructor; done. }
    vm_compute in Hrun. by injection Hrun as <-.
  - apply (topsort_spec [(1, 2); (2, 3); (3, 2)]%Z). intros Hac.
    apply (Hac 2%Z). apply tc_l with 3%Z; [by unfold edge; set_solver|].
    apply tc_once. by unfold edge; set_solver.
Defined.

(** ** [topsort_levels] *)

Section levels.
Context `{DictIter K} (E : list (K * K)).

Lemma process_level_parent_inv D s p :
  finished E D s → ordered E D → num_parents s !! p = Some 0%Z →
  ∃ s', process_level_parent s p = Ok s' ∧ finished E (D ++ [p]) s' ∧ ordered E (D ++ [p]).
Proof.
  intros Hs HD Hp. pose proof (proj1 (ready_iff E _ _ _ Hs) Hp) as (Hnode & HpD & Hpre).
  destruct (decrement_children (succs E p) (delete p (num_parents s))) as (np & Hrun & Hnp).
  { intros x Hx. destruct (ready_child E D s p x) as (? & ? & ?); [done..|].
    rewrite lookup_delete_ne, (fin_num _ _ _ Hs) by done. rewrite decide_True by done. eauto. }
  exists (State np (delete p (children s))).
  split_and!; [|by eapply finished_snoc|by apply ordered_snoc].
  unfold process_level_parent. rewrite Hp, (fin_children _ _ _ Hs). cbn [or_raise mbind py_bind].
  destruct (decide (p ∈ D ∨ succs E p = [])) as [[?|He]|Hne]; [done| |].
  - rewrite He in *. cbn in Hrun. injection Hrun as ->. rewrite delete_id; [done|].
    rewrite (fin_children _ _ _ Hs). by rewrite decide_True by auto.
  - by rewrite Hrun.
Qed.

Lemma process_level_inv L D s :
  finished E D s → ordered E D → NoDup L → (∀ x, x ∈ L → num_parents s !! x = Some 0%Z) →
  ∃ s', py_foldl process_level_parent s L = Ok s' ∧ finished E (D ++ L) s' ∧ ordered E (D ++ L).
Proof.
  revert D s; induction L as [|p L IH]; intros D s Hs HD Hnd HL.
  { exists s. by rewrite app_nil_r. }
  apply NoDup_cons in Hnd as [Hp Hnd].
  destruct (process_level_parent_inv D s p) as (s1 & Hrun & Hs1 & HD1); [done..|by apply HL; left|].
  destruct (IH (D ++ [p]) s1) as (s' & Hrun' & Hs' & HD'); [done..| |].
  - intros x Hx. apply (ready_iff E _ _ _ Hs1).
    destruct (proj1 (ready_iff E _ _ _ Hs) (HL x ltac:(by right))) as (? & ? & ?).
    set_solver.
  - exists s'. cbn. rewrite Hrun; cbn. by rewrite cons_middle, app_assoc.
Qed.

(** A level holds exactly the nodes whose parents all come in earlier levels. *)
Definition is_level (D L : list K) : Prop :=
  L ≠ [] ∧ NoDup L ∧ ∀ x, x ∈ L ↔ is_node E x ∧ x ∉ D ∧ ∀ p, edge E p x → p ∈ D.

Lemma topsort_levels_core_inv fuel t D s :
  finished E D s → ordered E D → NoDup D → (∀ x, x ∈ D → is_node E x) →
  size (nodes E) ≤ length D + fuel →
  ∃ levels s',
    topsort_levels_core fuel t s = Some (levels,
      if decide (num_parents s' = ∅) then Ok () else Raise (CycleError [] s')) ∧
    (∀ i L, levels !! i = Some L → is_level (D ++ mjoin (take i levels)) L) ∧
    finished E (D ++ mjoin levels) s' ∧ ordered E (D ++ mjoin levels) ∧
    NoDup (D ++ mjoin levels) ∧ (∀ x, num_parents s' !! x ≠ Some 0%Z).
Proof.
  revert t D s; induction fuel as [|fuel IH]; intros t D s Hs HD Hnd Hn Hf.
  all: cbn [topsort_levels_core].
  all: remember (filter (λ x, num_parents s !! x = Some 0%Z) (dict_keys t (num_parents s))) as L.
  all: assert (∀ x, x ∈ L ↔ num_parents s !! x = Some 0%Z) as HL
    by (intros x; subst L; rewrite list_elem_of_filter, elem_of_dict_keys; naive_solver).
  all: assert (NoDup L) as HLnd by (subst L; apply NoDup_filter, NoDup_dict_keys).
  all: assert (∀ x, x ∈ L ↔ is_node E x ∧ x ∉ D ∧ ∀ p, edge E p x → p ∈ D) as HLr
    by (intros x; by rewrite HL, (ready_iff E D s)).
  all: assert (NoDup (D ++ L)) as Hnd' by (apply NoDup_app; naive_solver).
  all: assert (∀ x, x ∈ D ++ L → is_node E x) as Hn'
    by (intros x [?|?%HLr]%elem_of_app; naive_solver).
  all: pose proof (length_nodes E (D ++ L) Hnd' Hn') as Hlen; rewrite length_app in Hlen.
  all: clear HeqL; destruct L as [|p L'].
  1,3: exists [], s; cbn; rewrite app_nil_r; split_and!; try done; intros x ?%HL; set_solver.
  - exfalso. cbn in Hlen. lia.
  - destruct (process_level_inv (p :: L') D s) as (s1 & -> & Hs1 & HD1); [done..| |].
    { intros x. apply HL. }
    destruct (IH (S t) (D ++ p :: L') s1) as (levels & s' & -> & Hlev & Hrest); [done..| |].
    { rewrite length_app. cbn. lia. }
    exists ((p :: L') :: levels), s'. cbn [mbind option_bind]. split; [done|].
    split; [|by rewrite <-app_assoc in Hrest].
    intros [|i] M HM; cbn in HM.
    + injection HM as <-. cbn. rewrite app_nil_r. split_and!; done.
    + change (mjoin (take (S i) ((p :: L') :: levels)))
        with ((p :: L') ++ mjoin (take i levels)).
      rewrite app_assoc. by apply Hlev.
Qed.
End levels.

Lemma elem_of_mjoin_take {A} (levels : list (list A)) i x :
  x ∈ mjoin (take (S i) levels) → x ∉ mjoin (take i levels) →
  ∃ L, levels !! i = Some L ∧ x ∈ L.
Proof.
  rewrite !list_elem_of_join. intros (L & Hx & HL) Hno.
  apply list_elem_of_lookup in HL as [j Hj]. apply lookup_take_Some in Hj as [Hj Hji].
  destruct (decide (j = i)) as [->|]; [by exists L|]. destruct Hno.
  exists L. split; [done|]. apply list_elem_of_lookup. exists j. apply lookup_take_Some. split; [done|lia].
Qed.

Lemma level_parent `{Countable K} (E : list (K * K)) (levels : list (list K)) :
  (∀ i L, levels !! i = Some L → is_level E (mjoin (take i levels)) L) →
  ∀ i L x, levels !! S i = Some L → x ∈ L →
    ∃ p L', levels !! i = Some L' ∧ p ∈ L' ∧ edge E p x.
Proof.
  intros Hlev i L x HL Hx. destruct (Hlev (S i) L HL) as (_ & _ & Hiff).
  apply Hiff in Hx as (Hnode & Hnew & Hpre).
  destruct (decide (npred E (mjoin (take i levels)) x = 0)) as [Hz|(p & Hp & Hpi)%npred_pos].
  - exfalso. destruct (lookup_lt_is_Some_2 levels i) as [M HM].
    { apply lookup_lt_Some in HL. lia. }
    destruct (Hlev i M HM) as (_ & _ & HiffM). apply Hnew.
    rewrite (take_S_r _ _ M HM), join_app. cbn. rewrite app_nil_r.
    destruct (decide (x ∈ mjoin (take i levels))); apply elem_of_app; [by left|right].
    apply HiffM. split_and!; [done..|]. by apply npred_zero.
  - destruct (elem_of_mjoin_take levels i p) as (L' & HL' & Hp'); [by apply Hpre|done|].
    by exists p, L'.
Qed.

(** C34: [topsort_levels] terminates without a KeyError; level [i] holds, once each,
    exactly the elements whose parents all lie in earlier levels, and for [i > 0] each has
    a parent in level [i - 1] (so levels are longest-path depths).  Without a cycle the
    levels list every element, parents first; with one the generator ends in CycleError. *)
Theorem topsort_levels_spec `{DictIter K} (E : list (K * K)) :
  ∃ levels end_, topsort_levels E = Some (levels, end_) ∧
    (∀ i L, levels !! i = Some L → is_level E (mjoin (take i levels)) L) ∧
    (∀ i L x, levels !! S i = Some L → x ∈ L →
       ∃ p L', levels !! i = Some L' ∧ p ∈ L' ∧ edge E p x) ∧
    (acyclic E → end_ = Ok () ∧ topological E (mjoin levels)) ∧
    (¬ acyclic E → ∃ s, end_ = Raise (CycleError [] s) ∧ stuck_at E (mjoin levels) s).
Proof.
  destruct (topsort_levels_core_inv E (size (num_parents (count_pairs E))) 0 [] (count_pairs E))
    as (levels & s & Hrun & Hlev & Hs & HD & Hnd & Hnone).
  { apply finished_start. } { by intros [|? ?]. } { constructor. } { set_solver. }
  { unfold nodes. rewrite size_dom. cbn. lia. }
  cbn [app] in *. do 2 eexists. split; [exact Hrun|]. split_and!.
  - apply Hlev.
  - by apply level_parent.
  - intros Hac. pose proof (stuck_cyclic E _ s Hs Hnone Hac) as Hall.
    rewrite decide_True by (by apply (num_parents_empty E (mjoin levels))). split; [done|].
    split_and!; [done| |done]. intros x. split; [|by auto].
    intros (L & Hx & (i & HL)%list_elem_of_lookup)%list_elem_of_join.
    destruct (Hlev i L HL) as (_ & _ & Hiff). by apply (Hiff x).
  - intros Hac. exists s. rewrite decide_False; [split; [done|by apply stuck_at_finished]|].
    intros He. apply Hac. eapply ordered_acyclic; [done..|].
    by apply (num_parents_empty E (mjoin levels) s).
Qed.

Lemma topsort_levels_spec_witness :
  let E := [(1, 2); (3, 4); (5, 6); (1, 3); (1, 5); (1, 6); (2, 5)]%Z in
  topsort_levels E = Some ([[1]; [3; 2]; [5; 4]; [6]]%Z, Ok ()) ∧
  topological E [1; 3; 2; 5; 4; 6]%Z.
Proof.
  intros E. split; [reflexivity|].
  destruct (topsort_levels_spec E) as (levels & end_ & Hrun & _ & _ & Hok & _).
  destruct Hok as [_ Ht]; [apply increasing_acyclic; repeat constructor; done|].
  vm_compute in Hrun. by injection Hrun as <- <-.
Defined.

(** ** [find_cycles] *)

Section find_cycles.
Context `{DictIter K} (G : gmap K (list K)).

(** [c] is a child of [p]. *)
Definition child_of (p c : K) : Prop := ∃ cs, G !! p = Some cs ∧ c ∈ cs.

(** A path that visits no node twice, and a cycle written without repeating its start:
    the last item is a parent of the first. *)
Definition simple (l : list K) : Prop := l ≠ [] ∧ NoDup l ∧ Sorted child_of l.
Definition is_cycle (l : list K) : Prop :=
  simple l ∧ ∃ a b, head l = Some a ∧ last l = Some b ∧ child_of b a.

Lemma Sorted_app_inv {A} (R : relation A) l1 l2 :
  Sorted R (l1 ++ l2) → Sorted R l1 ∧ Sorted R l2.
Proof.
  induction l1 as [|x l1 IH]; cbn; [by repeat constructor|].
  intros [Hl Hhd]%Sorted_inv. destruct (IH Hl) as [? ?]. split; [|done].
  constructor; [done|]. destruct l1; [constructor|]. inversion Hhd. by constructor.
Qed.

Lemma Sorted_join {A} (R : relation A) l1 x y l2 :
  Sorted R (l1 ++ [x]) → Sorted R (y :: l2) → R x y → Sorted R ((l1 ++ [x]) ++ y :: l2).
Proof.
  intros H1 H2 Hxy. induction l1 as [|z l1 IH]; cbn in *; [constructor; [done|by constructor]|].
  apply Sorted_inv in H1 as [H1 Hhd]. constructor; [by apply IH|].
  destruct l1; cbn in *; inversion Hhd; by constructor.
Qed.

Lemma last_snoc_inv {A} (l : list A) x : last l = Some x → ∃ l', l = l' ++ [x].
Proof.
  destruct l as [|y l _] using rev_ind; [done|]. rewrite last_snoc. intros [= ->]. by exists l.
Qed.

Lemma simple_extend path p c :
  simple path → last path = Some p → child_of p c → c ∉ path → simple (path ++ [c]).
Proof.
  intros (Hne & Hnd & Hs) Hl Hpc Hc. apply last_snoc_inv in Hl as [l ->]. split_and!.
  - by destruct l.
  - apply NoDup_app. split_and!; [done|set_solver|apply NoDup_singleton].
  - apply Sorted_join; [done|by repeat constructor|done].
Qed.

Lemma from_index_split c (path : list K) :
  c ∈ path → ∃ l1 l2, path = l1 ++ c :: l2 ∧ c ∉ l1 ∧ from_index c path = c :: l2.
Proof.
  induction path as [|x path IH]; cbn; [set_solver|].
  intros Hc. destruct (decide (x = c)) as [->|Hx].
  - exists [], path. by split_and!; [|set_solver|].
  - destruct IH as (l1 & l2 & -> & Hn & ->); [set_solver|].
    exists (x :: l1), l2. by split_and!; [|set_solver|].
Qed.

(** Closing a simple path at one of its nodes gives a cycle. *)
Lemma from_index_cycle path p c :
  simple path → last path = Some p → child_of p c → c ∈ path → is_cycle (from_index c path).
Proof.
  intros (Hne & Hnd & Hs) Hl Hpc Hc.
  destruct (from_index_split c path Hc) as (l1 & l2 & -> & _ & ->).
  apply NoDup_app in Hnd as (_ & _ & Hnd). apply Sorted_app_inv in Hs as [_ Hs].
  split; [by split_and!|]. exists c, p. split_and!; [done| |done].
  by rewrite last_app_cons in Hl.
Qed.

(** *** The search state *)

(** No two of the listed cycles are the same cycle written from different starts. *)
Definition distinct (cs : list (list K)) : Prop :=
  ∀ i j c d, cs !! i = Some c → cs !! j = Some d → rotation c d → i = j.

Record search_ok (st : search) : Prop := {
  ok_paths : Forall simple (paths st);
  ok_cycles : Forall is_cycle (cycles st);
  ok_distinct : distinct (cycles st)
}.

Lemma dup_check cs cycle :
  Forall is_cycle cs → cycle ≠ [] →
  ∃ b, py_foldl (λ (is_dup : bool) other, if is_dup then Ok true else is_rotated other cycle)
         false cs = Ok b ∧ (b = true ↔ ∃ c, c ∈ cs ∧ rotation c cycle).
Proof.
  intros Hcs Hne. assert (∀ cs, py_foldl (λ (is_dup : bool) other,
    if is_dup then Ok true else is_rotated other cycle) true cs = Ok true) as Htrue.
  { intros cs'. by induction cs'. }
  induction Hcs as [|c cs Hc Hcs IH].
  { exists false. split; [done|]. split; [done|]. intros (c & Hc & _). set_solver. }
  cbn. destruct (is_rotated_rotation c cycle) as (b & -> & Hb); [by right|]. cbn.
  destruct b.
  - rewrite Htrue. exists true. split; [done|]. split; [|done]. intros _.
    exists c. split; [left|]. by apply Hb.
  - destruct IH as (b & -> & Hb'). exists b. split; [done|]. rewrite Hb'. split.
    + intros (d & ? & ?). exists d. split; [by right|done].
    + intros (d & [->|Hd]%elem_of_cons & Hr); [apply Hb in Hr; done|by exists d].
Qed.

Lemma distinct_snoc cs c :
  distinct cs → (∀ d, d ∈ cs → ¬ rotation d c) → distinct (cs ++ [c]).
Proof.
  intros Hd Hc i j a b Ha Hb Hr.
  apply lookup_snoc_Some in Ha as [[Hi Ha]|[-> ->]], Hb as [[Hj Hb]|[-> ->]].
  - by eapply Hd.
  - exfalso. eapply (Hc a); [by eapply list_elem_of_lookup_2|done].
  - exfalso. eapply (Hc b); [by eapply list_elem_of_lookup_2|done].
  - done.
Qed.

(** The effect of following one child of the last node of [path]. *)
Lemma follow_child_ok path p c st :
  search_ok st → simple path → last path = Some p → child_of p c →
  ∃ st', follow_child path st c = Ok st' ∧ search_ok st' ∧
    (∃ new, cycles st' = cycles st ++ new) ∧
    (c ∈ path → paths st' = paths st ∧ visited_nodes st' = visited_nodes st ∧
       ∃ d, d ∈ cycles st' ∧ rotation d (from_index c path)) ∧
    (c ∉ path → paths st' = (path ++ [c]) :: paths st ∧ cycles st' = cycles st ∧
       visited_nodes st' = {[c]} ∪ visited_nodes st).
Proof.
  intros [Hp Hc Hd] Hsimple Hlast Hpc. unfold follow_child.
  destruct (decide (c ∈ path)) as [Hin|Hin].
  - pose proof (from_index_cycle path p c Hsimple Hlast Hpc Hin) as Hcyc.
    destruct (dup_check (cycles st) (from_index c path)) as (b & -> & Hb);
      [done|by destruct Hcyc as [(?&?&?) _]|]. cbn. eexists; split; [done|].
    destruct b.
    + split_and!; [done|exists []; by rewrite app_nil_r| |done].
      intros _. split_and!; [done..|]. destruct (proj1 Hb eq_refl) as (d & ? & ?). by exists d.
    + split_and!; [|by eexists| |done].
      * split; cbn; [done|by apply Forall_app; auto|]. apply distinct_snoc; [done|].
        intros d Hdc Hr. assert (false = true); [|done]. apply Hb. by exists d.
      * intros _. split_and!; [done..|]. cbn. eexists; split; [|reflexivity]. set_solver.
  - eexists; split; [done|]. split_and!; [|exists []; by rewrite app_nil_r|done|done].
    split; cbn; [|done|done]. constructor; [|done]. by eapply simple_extend.
Qed.

(** The effect of the loop over all the children. *)
Record followed (path cs : list K) (st st' : search) : Prop := {
  fol_paths : paths st' = ((λ c, path ++ [c]) <$> reverse (filter (.∉ path) cs)) ++ paths st;
  fol_cycles : ∃ new, cycles st' = cycles st ++ new;
  fol_found : ∀ c, c ∈ cs → c ∈ path → ∃ d, d ∈ cycles st' ∧ rotation d (from_index c path);
  fol_visited : visited_nodes st' = list_to_set (filter (.∉ path) cs) ∪ visited_nodes st
}.

Lemma follow_children path p cs st :
  search_ok st → simple path → last path = Some p → (∀ c, c ∈ cs → child_of p c) →
  ∃ st', py_foldl (follow_child path) st cs = Ok st' ∧ search_ok st' ∧ followed path cs st st'.
Proof.
  intros Hst Hsimple Hlast. revert st Hst.
  induction cs as [|c cs IH] using rev_ind; intros st Hst Hcs.
  { exists st. split_and!; [done..|]. split; [done|exists []; by rewrite app_nil_r|set_solver|].
    cbn. by rewrite union_empty_l_L. }
  destruct (IH st) as (st1 & Hrun1 & Hst1 & [F1 [n1 F2] F3 F4]); [done|set_solver|].
  destruct (follow_child_ok path p c st1) as (st2 & Hrun2 & Hst2 & [n2 C2] & Hin & Hout);
    [done..|apply Hcs; set_solver|].
  exists st2. rewrite py_foldl_app, Hrun1. cbn. rewrite Hrun2. split_and!; [done..|].
  assert (filter (.∉ path) (cs ++ [c])
          = filter (.∉ path) cs ++ (if decide (c ∈ path) then [] else [c])) as Hf.
  { rewrite filter_app, filter_cons, filter_nil.
    destruct (decide (c ∉ path)), (decide (c ∈ path)); naive_solver. }
  destruct (decide (c ∈ path)) as [Hc|Hc].
  - destruct (Hin Hc) as (P1 & V1 & d & Hd & Hr). rewrite app_nil_r in Hf. split; rewrite ?Hf.
    + by rewrite P1, F1.
    + exists (n1 ++ n2). by rewrite C2, F2, app_assoc.
    + intros x [Hx|Hx]%elem_of_app Hxp.
      * destruct (F3 x Hx Hxp) as (e & ? & ?). exists e. rewrite C2. set_solver.
      * apply list_elem_of_singleton in Hx as ->. by exists d.
    + by rewrite V1, F4.
  - destruct (Hout Hc) as (P1 & C1 & V1). split; rewrite ?Hf.
    + rewrite P1, F1, reverse_snoc. done.
    + exists n1. by rewrite C1, F2.
    + intros x [Hx|Hx]%elem_of_app Hxp; [|set_solver].
      destruct (F3 x Hx Hxp) as (e & ? & ?). exists e. by rewrite C1.
    + rewrite V1, F4, list_to_set_app_L. cbn. set_solver.
Qed.

(** *** Termination: the weight of the stack *)

Definition all_nodes : gset K := dom G ∪ list_to_set (mjoin (map_to_list G).*2).
Definition max_deg : nat := foldr max 0 (length <$> (map_to_list G).*2).
Definition in_nodes (l : list K) : Prop := ∀ x, x ∈ l → x ∈ all_nodes.

Lemma child_in_nodes p c : child_of p c → c ∈ all_nodes.
Proof.
  intros (cs & Hcs & Hc). unfold all_nodes. apply elem_of_union_r, elem_of_list_to_set.
  apply list_elem_of_join. exists cs. split; [done|]. apply list_elem_of_fmap.
  exists (p, cs). split; [done|]. by apply elem_of_map_to_list.
Qed.

Lemma length_max_deg p cs : G !! p = Some cs → length cs ≤ max_deg.
Proof.
  intros Hp. unfold max_deg.
  assert (length cs ∈ length <$> (map_to_list G).*2) as Hin.
  { apply list_elem_of_fmap. exists cs. split; [done|]. apply list_elem_of_fmap.
    exists (p, cs). split; [done|]. by apply elem_of_map_to_list. }
  induction (length <$> (map_to_list G).*2) as [|n l IH]; [set_solver|]. cbn.
  apply elem_of_cons in Hin as [->|Hin]; [lia|]. specialize (IH Hin). lia.
Qed.

Lemma simple_length l : simple l → in_nodes l → length l ≤ size all_nodes.
Proof.
  intros (_ & Hnd & _) Hin. rewrite <-(size_list_to_set (C := gset K) l) by done.
  apply subseteq_size. intros x Hx%elem_of_list_to_set. auto.
Qed.

Definition weight1 (l : list K) : nat := S max_deg ^ (size all_nodes - length l).
Definition weight (ps : list (list K)) : nat := sum_list_with weight1 ps.

(** The extensions of a path weigh less than the path. *)
Lemma weight_extensions path p cs :
  simple path → in_nodes path → last path = Some p → G !! p = Some cs →
  weight ((λ c, path ++ [c]) <$> reverse (filter (.∉ path) cs)) < weight1 path.
Proof.
  intros Hs Hin Hl Hp. set (new := reverse _).
  assert (length new ≤ max_deg) as Hlen.
  { unfold new. rewrite length_reverse. etrans; [apply length_filter|]. by eapply length_max_deg. }
  assert (weight ((λ c, path ++ [c]) <$> new)
          = length new * S max_deg ^ (size all_nodes - S (length path))) as ->.
  { unfold weight, weight1. clearbody new. clear. induction new as [|c new IH]; [done|].
    cbn. rewrite IH, length_app. cbn. by rewrite Nat.add_1_r. }
  unfold weight1. destruct new as [|c new'] eqn:Enew.
  { cbn. pose proof (Nat.pow_nonzero (S max_deg) (size all_nodes - length path)). lia. }
  assert (S (length path) ≤ size all_nodes) as Hlt.
  { assert (c ∈ cs ∧ c ∉ path) as [Hc Hcp].
    { assert (c ∈ new) as Hc by (rewrite Enew; left). unfold new in Hc.
      apply elem_of_reverse, list_elem_of_filter in Hc as [? ?]. done. }
    assert (child_of p c) as Hpc by (by exists cs).
    pose proof (simple_length (path ++ [c]) (simple_extend _ _ _ Hs Hl Hpc Hcp)) as Hn.
    rewrite length_app in Hn. cbn in Hn. rewrite <-Nat.add_1_r. apply Hn.
    intros x [?|?]%elem_of_app; [auto|]. assert (x = c) as -> by set_solver.
    by eapply child_in_nodes. }
  replace (size all_nodes - length path) with (S (size all_nodes - S (length path))) by lia.
  rewrite Nat.pow_succ_r'. pose proof (Nat.pow_nonzero (S max_deg) (size all_nodes - S (length path))).
  nia.
Qed.

(** *** The [while] loop *)

(** Every cycle that closes a simple extension of a path of the stack has been found. *)
Definition explored (P : list K) (found : list (list K)) : Prop :=
  ∀ Q p c, simple (P ++ Q) → last (P ++ Q) = Some p → child_of p c → c ∈ P ++ Q →
    ∃ d, d ∈ found ∧ rotation d (from_index c (P ++ Q)).

Record searched (st st' : search) : Prop := {
  sea_ok : search_ok st';
  sea_paths : paths st' = [];
  sea_cycles : ∃ new, cycles st' = cycles st ++ new;
  sea_explored : ∀ P, P ∈ paths st → explored P (cycles st');
  sea_visited : ∀ v, v ∈ visited_nodes st' →
    v ∈ visited_nodes st ∨ ∃ P h, P ∈ paths st ∧ head P = Some h ∧ rtc child_of h v
}.

Lemma explored_step path p cs st st' found :
  last path = Some p → G !! p = Some cs → followed path cs st st' →
  (∃ new, found = cycles st' ++ new) →
  (∀ P, P ∈ paths st' → explored P found) → explored path found.
Proof.
  intros Hl Hp [F1 _ F3 _] [new Hnew] Hexp Q q c Hs Hq Hqc Hc. destruct Q as [|x Q].
  - rewrite app_nil_r in *. rewrite Hl in Hq. injection Hq as <-.
    destruct Hqc as (cs' & Hcs' & Hcc). rewrite Hp in Hcs'. injection Hcs' as <-.
    destruct (F3 c Hcc Hc) as (d & Hd & Hr). exists d. split; [|done]. subst. set_solver.
  - rewrite cons_middle, app_assoc in *. apply (Hexp (path ++ [x])) with q; [|done..].
    rewrite F1. apply elem_of_app. left. apply list_elem_of_fmap. exists x. split; [done|].
    apply elem_of_reverse, list_elem_of_filter.
    destruct Hs as (_ & Hnd & Hso). apply last_snoc_inv in Hl as [l ->].
    apply NoDup_app in Hnd as (Hnd & _ & _). apply NoDup_app in Hnd as (_ & Hd & _).
    apply Sorted_app_inv in Hso as [Hso _]. rewrite <-app_assoc in Hso.
    apply Sorted_app_inv in Hso as [_ Hso]. cbn in Hso.
    apply Sorted_inv in Hso as [_ Hhd]. inversion Hhd as [|? ? Hpx]; subst.
    destruct Hpx as (cs' & Hcs' & Hx). rewrite Hp in Hcs'. injection Hcs' as <-.
    split; [|done]. intros Hxl. apply (Hd x Hxl). left.
Qed.

Lemma rtc_sorted h l p : Sorted child_of l → head l = Some h → last l = Some p → rtc child_of h p.
Proof.
  revert h; induction l as [|x l IH]; intros h Hs Hh Hl; [done|]. injection Hh as ->.
  destruct l as [|y l]; [by injection Hl as ->|].
  apply Sorted_inv in Hs as [Hs Hhd]. inversion Hhd; subst.
  eapply rtc_l; [done|]. by apply IH.
Qed.

(** What the loop does after popping [path] it has done from the state before. *)
Lemma searched_node path rest p cs st st1 st' :
  paths st = path :: rest → simple path → last path = Some p → G !! p = Some cs →
  followed path cs (Search rest (cycles st) (visited_nodes st)) st1 →
  searched st1 st' → searched st st'.
Proof.
  intros Ep Hsimple El EG Hfol [S1 S2 [new S3] S4 S5]. split; [done|done| | |].
  - destruct (fol_cycles _ _ _ _ Hfol) as [n1 Hn1]. exists (n1 ++ new).
    by rewrite S3, Hn1, app_assoc.
  - rewrite Ep. intros P [->|HP]%elem_of_cons.
    + eapply explored_step; [done..| |exact S4]. by exists new.
    + apply S4. rewrite (fol_paths _ _ _ _ Hfol). set_solver.
  - intros v Hv. rewrite Ep. destruct path as [|h path]; [by destruct Hsimple|].
    assert (rtc child_of h p) as Hhp by (eapply rtc_sorted; [apply Hsimple|done|done]).
    destruct (S5 v Hv) as [Hv1|(P & h' & HP & Hh' & Hr)].
    + rewrite (fol_visited _ _ _ _ Hfol) in Hv1.
      apply elem_of_union in Hv1 as [Hv1|?]; [|by left].
      apply elem_of_list_to_set, list_elem_of_filter in Hv1 as [_ Hv1].
      right. exists (h :: path), h. split_and!; [left|done|].
      eapply rtc_r; [done|]. by exists cs.
    + right. rewrite (fol_paths _ _ _ _ Hfol) in HP. apply elem_of_app in HP as [HP|HP].
      * apply list_elem_of_fmap in HP as (c & -> & _). exists (h :: path), h'. split; [left|done].
      * exists P, h'. split; [by right|done].
Qed.

Lemma searched_leaf path rest p st st' :
  paths st = path :: rest → last path = Some p → G !! p = None →
  searched (Search rest (cycles st) (visited_nodes st)) st' → searched st st'.
Proof.
  intros Ep El EG [S1 S2 S3 S4 S5]. split; [done..| |].
  - rewrite Ep. intros P [->|HP]%elem_of_cons; [|by apply S4].
    intros Q q c Hs Hq Hqc Hc'. exfalso. destruct Q as [|x Q].
    + rewrite app_nil_r, El in Hq. injection Hq as <-. destruct Hqc as (? & ? & _). congruence.
    + destruct Hs as (_ & _ & Hso). apply last_snoc_inv in El as [l ->].
      rewrite <-app_assoc in Hso. apply Sorted_app_inv in Hso as [_ Hso]. cbn in Hso.
      apply Sorted_inv in Hso as [_ Hhd]. inversion Hhd as [|? ? Hpx]; subst.
      destruct Hpx as (? & ? & _). congruence.
  - intros v Hv. rewrite Ep. destruct (S5 v Hv) as [?|(P & h & HP & ?)]; [by left|].
    right. exists P, h. split; [by right|done].
Qed.

Lemma weight_pos path rest : weight rest < weight (path :: rest).
Proof.
  unfold weight, weight1. cbn [sum_list_with].
  pose proof (Nat.pow_nonzero (S max_deg) (size all_nodes - length path)). lia.
Qed.

Lemma search_loop_ok fuel st :
  search_ok st → Forall in_nodes (paths st) → weight (paths st) ≤ fuel →
  ∃ st', search_loop fuel G st = Some (Ok st') ∧ searched st st'.
Proof.
  revert st; induction fuel as [|fuel IH]; intros st Hst Hin Hw.
  all: destruct (paths st) as [|path rest] eqn:Ep; cbn [search_loop]; rewrite Ep.
  1,3: exists st; split; [done|]; split; [done..|exists []; by rewrite app_nil_r|
         by rewrite Ep; set_solver|auto].
  all: pose proof (weight_pos path rest) as Hpos.
  { lia. }
  apply Forall_cons in Hin as [Hin Hins]. destruct Hst as [Hp Hc Hd]. rewrite Ep in Hp.
  apply Forall_cons in Hp as [Hsimple Hps].
  destruct (last path) as [p|] eqn:El; [|by apply last_None in El as ->; destruct Hsimple].
  cbn [mbind option_bind]. destruct (G !! p) as [cs|] eqn:EG.
  - destruct (follow_children path p cs (Search rest (cycles st) (visited_nodes st)))
      as (st1 & -> & Hst1 & Hfol); [done..| |]. { intros c Hcc. by exists cs. }
    pose proof (weight_extensions path p cs Hsimple Hin El EG) as Hwe.
    destruct (IH st1) as (st' & -> & Hsea); [done| | |].
    { rewrite (fol_paths _ _ _ _ Hfol). apply Forall_app. split; [|done].
      apply Forall_fmap, Forall_forall. intros c Hcc%elem_of_reverse%list_elem_of_filter x.
      cbn. intros [?|?]%elem_of_app; [auto|]. assert (x = c) as -> by set_solver.
      apply (child_in_nodes p). exists cs. naive_solver. }
    { rewrite (fol_paths _ _ _ _ Hfol). unfold weight in *. cbn [sum_list_with] in Hw.
      rewrite sum_list_with_app. cbn [paths]. lia. }
    exists st'. split; [done|]. by eapply searched_node.
  - destruct (IH (Search rest (cycles st) (visited_nodes st))) as (st' & -> & Hsea);
      [done..|cbn [paths]; lia|]. exists st'. split; [done|]. by eapply searched_leaf.
Qed.

(** *** All cycles reachable from a root *)

Lemma is_cycle_rotate a b : is_cycle (a ++ b) → is_cycle (b ++ a).
Proof.
  intros [(Hne & Hnd & Hs) (x & y & Hx & Hy & Hyx)].
  destruct a as [|a0 a]; [rewrite app_nil_r; split; [done|by exists x, y]|].
  destruct b as [|b0 b]; [rewrite app_nil_r in *; split; [done|by exists x, y]|].
  injection Hx as <-. rewrite last_app_cons in Hy.
  apply last_snoc_inv in Hy as [b' Hb]. rewrite Hb in *.
  assert (∃ z, last (a0 :: a) = Some z) as [z Hla].
  { destruct (last (a0 :: a)) as [z|] eqn:E; [by exists z|by apply last_None in E]. }
  apply last_snoc_inv in Hla as [a' Ha].
  split; [split_and!|].
  - by destruct b'.
  - rewrite Permutation_app_comm. done.
  - apply Sorted_join; [by apply Sorted_app_inv in Hs as [_ ?]| |done].
    by apply Sorted_app_inv in Hs as [? _].
  - exists b0, z. split_and!.
    + by rewrite <-Hb.
    + rewrite Ha, app_assoc. apply last_snoc.
    + rewrite Ha, <-Hb, <-app_assoc in Hs. apply Sorted_app_inv in Hs as [_ Hs].
      cbn in Hs. apply Sorted_inv in Hs as [_ Hhd]. by inversion Hhd.
Qed.

(** A cycle reachable from [r] is entered by a simple path that meets it only at its end. *)
Lemma entry_path r v (C : list K) :
  rtc child_of r v → v ∈ C →
  ∃ l u, head (l ++ [u]) = Some r ∧ simple (l ++ [u]) ∧ u ∈ C ∧ ∀ x, x ∈ l → x ∉ C.
Proof.
  intros Hr Hv. induction Hr as [v|r r' v Hrr' _ IH].
  { exists [], v. split_and!; [done| |done|set_solver]. split_and!; [done|apply NoDup_singleton|].
    by repeat constructor. }
  destruct (IH Hv) as (l & u & Hh & (Hne & Hnd & Hs) & Hu & Hl).
  destruct (decide (r ∈ C)) as [HrC|HrC].
  { exists [], r. split_and!; [done| |done|set_solver]. split_and!; [done|apply NoDup_singleton|].
    by repeat constructor. }
  destruct (decide (r ∈ l)) as [(l1 & l2 & ->)%list_elem_of_split|Hrl].
  - exists (r :: l2), u. rewrite <-app_assoc in Hnd, Hs. cbn in Hnd, Hs.
    apply NoDup_app in Hnd as (_ & _ & Hnd). apply Sorted_app_inv in Hs as [_ Hs].
    split_and!; [done| |done|set_solver]. by split_and!.
  - exists (r :: l), u. split_and!; [done| |done|set_solver]. cbn. split_and!.
    + done.
    + constructor; [|done]. intros [?|?]%elem_of_app; [done|]. set_solver.
    + constructor; [done|]. destruct l; injection Hh as ->; by constructor.
Qed.

Lemma from_index_app u (l C : list K) : u ∉ l → from_index u (l ++ u :: C) = u :: C.
Proof.
  intros Hu. induction l as [|x l IH]; cbn; [by rewrite decide_True|].
  rewrite decide_False by set_solver. apply IH. set_solver.
Qed.

(** Every cycle through [v] is listed, up to rotation. *)
Definition covered (found : list (list K)) (v : K) : Prop :=
  ∀ C, is_cycle C → v ∈ C → ∃ d, d ∈ found ∧ rotation d C.

Lemma explored_covered r found v :
  explored [r] found → rtc child_of r v → covered found v.
Proof.
  intros Hexp Hrv C HC Hv. destruct (entry_path r v C Hrv Hv) as (l & u & Hh & Hs & Hu & Hl).
  apply list_elem_of_split in Hu as (a & b & ->).
  assert (rotation (a ++ u :: b) (u :: b ++ a)) as Hrot by (by exists a, (u :: b)).
  assert (is_cycle (u :: b ++ a)) as HC' by (by apply (is_cycle_rotate a (u :: b))).
  destruct HC' as [(_ & HCnd & HCs) (x & y & [= <-] & Hy & Hyx)].
  destruct Hs as (_ & Hnd & Hso).
  assert (u ∉ l) as Hul by (apply NoDup_app in Hnd as (_ & Hd & _); intros Hx; apply (Hd u Hx); left).
  assert (∃ Q, [r] ++ Q = l ++ u :: (b ++ a)) as [Q HQ].
  { destruct l as [|h l]; injection Hh as ->; by eexists. }
  assert (simple (l ++ u :: (b ++ a))) as Hsimple.
  { split_and!; [by destruct l| |].
    - apply NoDup_app. split_and!; [by apply NoDup_app in Hnd as [? _]| |done].
      intros z Hz Hz'. apply (Hl z Hz). rewrite elem_of_cons, elem_of_app in Hz'. set_solver.
    - destruct (b ++ a) as [|c w]; [done|]. rewrite cons_middle, app_assoc.
      apply Sorted_inv in HCs as [HCs Hhd]. inversion Hhd; subst. by apply Sorted_join. }
  destruct (Hexp Q y u) as (d & Hd & Hr); rewrite ?HQ.
  - done.
  - by rewrite last_app_cons.
  - done.
  - set_solver.
  - rewrite HQ, from_index_app in Hr by done. exists d. split; [done|].
    etrans; [exact Hr|]. by symmetry.
Qed.

(** *** The loop over the roots *)

Definition search_fuel : nat := S max_deg ^ size all_nodes.

Lemma covered_mono found new v : covered found v → covered (found ++ new) v.
Proof. intros Hc C HC Hv. destruct (Hc C HC Hv) as (d & ? & ?). exists d. set_solver. Qed.

Lemma find_cycles_from_ok fuel roots st :
  search_fuel ≤ fuel → search_ok st → (∀ r, r ∈ roots → r ∈ all_nodes) →
  (∀ v, v ∈ visited_nodes st → covered (cycles st) v) →
  ∃ st', find_cycles_from fuel G st roots = Some (Ok st') ∧ search_ok st' ∧
    (∃ new, cycles st' = cycles st ++ new) ∧ (∀ v, v ∈ roots → covered (cycles st') v).
Proof.
  intros Hfuel. revert st; induction roots as [|r roots IH]; intros st Hst Hr Hv; cbn.
  { exists st. split_and!; [done..|exists []; by rewrite app_nil_r|set_solver]. }
  destruct (decide (r ∈ visited_nodes st)) as [Hvis|Hvis].
  - destruct (IH st) as (st' & -> & Hst' & [new Hnew] & Hcov); [done|set_solver|done|].
    exists st'. split_and!; [done..|by exists new|]. intros v [->|Hin]%elem_of_cons; [|auto].
    rewrite Hnew. apply covered_mono. auto.
  - destruct (search_loop_ok fuel (Search [[r]] (cycles st) (visited_nodes st)))
      as (st1 & -> & [S1 S2 [n1 S3] S4 S5]).
    + destruct Hst as [_ ? ?]. split; cbn; [|done..]. apply Forall_singleton.
      split_and!; [done|apply NoDup_singleton|by repeat constructor].
    + cbn. apply Forall_singleton. intros x ->%list_elem_of_singleton. apply Hr. left.
    + etrans; [|exact Hfuel]. unfold weight, weight1, search_fuel. cbn [sum_list_with length paths].
      rewrite Nat.add_0_r. apply Nat.pow_le_mono_r; lia.
    + cbn in *. assert (∀ v, rtc child_of r v → covered (cycles st1) v) as Hcov1.
      { intros v Hrv. apply (explored_covered r); [|done]. apply S4. left. }
      destruct (IH st1) as (st' & -> & Hst' & [new Hnew] & Hcov); [done|set_solver| |].
      { intros v Hv1. destruct (S5 v Hv1) as [Hv0|(P & h & HP & Hh & Hrv)].
        - rewrite S3. apply covered_mono. auto.
        - apply list_elem_of_singleton in HP as ->. injection Hh as <-. auto. }
      exists st'. split_and!; [done..|exists (n1 ++ new); by rewrite Hnew, S3, app_assoc|].
      intros v [->|Hin]%elem_of_cons; [|auto]. rewrite Hnew. apply covered_mono, Hcov1, rtc_refl.
Qed.
End find_cycles.

(** C11: [find_cycles] terminates (within the given number of steps per root) and lists
    every cycle of the graph exactly once: each item is a cycle without repeated nodes, no
    two items are rotations of each other, and every such cycle is a rotation of an item. *)
Theorem find_cycles_spec `{DictIter K} (G : gmap K (list K)) (fuel : nat) :
  search_fuel G ≤ fuel →
  ∃ cs, find_cycles fuel G = Some (Ok cs) ∧
    Forall (is_cycle G) cs ∧ distinct cs ∧
    ∀ C, is_cycle G C → ∃ d, d ∈ cs ∧ rotation d C.
Proof.
  intros Hfuel. unfold find_cycles.
  destruct (find_cycles_from_ok G fuel (dict_keys 0 G) (Search [] [] ∅))
    as (st & -> & [_ Hcyc Hdis] & _ & Hcov); [done| | |set_solver|].
  - split; cbn; [constructor..|]. by intros [|i] j c d.
  - intros r [cs Hr]%elem_of_dict_keys. apply elem_of_union_l, elem_of_dom. by exists cs.
  - exists (cycles st). split_and!; [done..|]. intros C HC.
    pose proof HC as [_ (a & b & Ha & Hb & cs & Hcs & _)].
    apply (Hcov b); [|done|].
    + apply elem_of_dict_keys. by exists cs.
    + apply last_snoc_inv in Hb as [l ->]. set_solver.
Qed.

Lemma find_cycles_spec_witness :
  let G : gmap string (list string) :=
    {[ "A" := ["B1"; "B2"]; "B1" := ["C"]; "B2" := ["C"]; "C" := ["A"; "B1"] ]} in
  (∃ cs, find_cycles 100 G = Some (Ok cs) ∧ length cs = 3) ∧
  ∃ cs, find_cycles 100 G = Some (Ok cs) ∧ Forall (is_cycle G) cs ∧ distinct cs ∧
    ∀ C, is_cycle G C → ∃ d, d ∈ cs ∧ rotation d C.
Proof.
  intros G. split; [eexists; split; [vm_compute; reflexivity|reflexivity]|].
  apply (find_cycles_spec G 100). vm_compute. lia.
Defined.
