(* ===== verification/CheckStyle.v ===== *)
(** * CheckStyle: [utils/check-style.py]

    The unified-diff objects ([PatchChunkLine], [PatchChunk], [Patch]), [parse_patchset], the
    filter [remove_trailing_whitespace_changes], the uncrustify configuration writer and the
    driver ([indent], [indent_files], [run_as_main]).  The objects the code shares are kept
    in a store: chunks have addresses, and a line is an index into its chunk, because
    [src()] and [dst()] return the same line object for a context line.  The programs
    [uncrustify], [patch] and [git] and the function [difflib.unified_diff] are the
    parameters of the class [Tools]. *)

From stdpp Require Import base list strings gmap sorting.
From Stdlib Require Import Ascii.
From S2P Require Import Prelude.

(** ** Data *)

(** [PatchChunkLine.__type]: the values 1, 2 and 3, and the 0 of a fresh object. *)
Inductive line_type := NoType | SRC | DST | BOTH.
#[global] Instance line_type_eq_dec : EqDecision line_type.
Proof. solve_decision. Defined.

Record chunk_line := ChunkLine { line_kind : line_type; line_text : string }.
#[global] Instance chunk_line_eq_dec : EqDecision chunk_line.
Proof. solve_decision. Defined.

Definition new_line : chunk_line := ChunkLine NoType "".
Definition set_src (l : chunk_line) (line : string) : chunk_line := ChunkLine SRC line.
Definition set_dst (l : chunk_line) (line : string) : chunk_line := ChunkLine DST line.
Definition set_both (l : chunk_line) (line : string) : chunk_line := ChunkLine BOTH line.
Definition append_to_line (l : chunk_line) (s : string) : chunk_line :=
  ChunkLine (line_kind l) (line_text l +:+ s).
Definition is_src (l : chunk_line) : bool :=
  bool_decide (line_kind l = SRC) || bool_decide (line_kind l = BOTH).
Definition is_dst (l : chunk_line) : bool :=
  bool_decide (line_kind l = DST) || bool_decide (line_kind l = BOTH).
Definition write_line (l : chunk_line) : py exn string :=
  match line_kind l with
  | SRC => Ok ("-" +:+ line_text l +:+ nl)
  | DST => Ok ("+" +:+ line_text l +:+ nl)
  | BOTH => Ok (" " +:+ line_text l +:+ nl)
  | NoType => Raise (Exception_ "invalid patch")
  end.

Record chunk := Chunk { lines : list chunk_line; src_pos : N; dst_pos : N }.
#[global] Instance chunk_eq_dec : EqDecision chunk.
Proof. solve_decision. Defined.

Definition add_line (c : chunk) (l : chunk_line) : chunk :=
  Chunk (lines c ++ [l]) (src_pos c) (dst_pos c).

(** [src()] and [dst()] return references to the line objects: the indices of the lines. *)
Fixpoint select (P : chunk_line → bool) (i : nat) (ls : list chunk_line) : list nat :=
  match ls with
  | [] => []
  | l :: ls => if P l then i :: select P (S i) ls else select P (S i) ls
  end.
Definition src (c : chunk) : list nat := select is_src 0 (lines c).
Definition dst (c : chunk) : list nat := select is_dst 0 (lines c).
Definition src_len (c : chunk) : nat := length (src c).
Definition dst_len (c : chunk) : nat := length (dst c).

(** The strings [f.write] receives, in order. *)
Definition chunk_header (c : chunk) : string :=
  "@@ -" +:+ str_of_N (src_pos c) +:+ "," +:+ str_of_N (N.of_nat (src_len c)) +:+
  " +" +:+ str_of_N (dst_pos c) +:+ "," +:+ str_of_N (N.of_nat (dst_len c)) +:+ " @@" +:+ nl.
Definition write_chunk (c : chunk) : py exn (list string) :=
  py_foldl (λ out l, s ← write_line l; Ok (out ++ [s])) [chunk_header c] (lines c).

(** A [Patch] refers to its chunks by their address in the store. *)
Record patch := Patch { patch_src : string; patch_dst : string; patch_chunks : list nat }.
#[global] Instance patch_eq_dec : EqDecision patch.
Proof. solve_decision. Defined.

(** [parse_patchset]'s objects and local variables: the store of chunks, the list
    [patchset], [current_patch] (an index into it) and [current_chunk] (an address; [None]
    while the variable is unbound). *)
Record parser := Parser {
  chunks : list chunk;
  patchset : list patch;
  current_patch : option nat;
  current_chunk : option nat
}.
Definition parser_init : parser := Parser [] [] None None.

Definition write_patch (st : list chunk) (p : patch) : py exn (list string) :=
  py_foldl (λ out a, c ← or_raise KeyError (st !! a); w ← write_chunk c; Ok (out ++ w))
    ["--- " +:+ patch_src p +:+ nl; "+++ " +:+ patch_dst p +:+ nl] (patch_chunks p).

(** ** [parse_patchset] *)

(** What a final dot-star group before [$] captures: the dot stops at a newline, and [$]
    matches at the end of the string and before a newline that ends it. *)
Definition rest_of_line (r : string) : option string :=
  match split_once nl_char r with
  | None => Some r
  | Some (a, "") => Some a
  | Some _ => None
  end.

(** The search for the prefix [p] at the start of [line] followed by the group that captures
    the rest of the line. *)
Definition re_prefix (p line : string) : option string := strip_prefix p line ≫= rest_of_line.

(** [([0-9]+)]: the longest run of digits, which must not be empty. *)
Definition re_number (s : string) : option (N * string) :=
  let '(d, r) := span_digits s in
  if decide (d = "") then None else n ← int_of_str d; Some (Z.to_N n, r).

(** [chunk_start.search(line)]: groups 1 and 3, as the integers [PatchChunk] makes of them. *)
Definition chunk_start (line : string) : option (N * N) :=
  r ← strip_prefix "@@ -" line;
  '(a, r) ← re_number r;
  r ← strip_prefix "," r;
  '(_, r) ← re_number r;
  r ← strip_prefix " +" r;
  '(c, r) ← re_number r;
  r ← strip_prefix "," r;
  '(_, r) ← re_number r;
  _ ← strip_prefix " @@" r;
  Some (a, c).

(** [current_chunk.add_line(l)]. *)
Definition add_to_current (st : parser) (l : chunk_line) : py exn parser :=
  match current_chunk st with
  | None => Raise UnboundLocalError
  | Some a => Ok (Parser (alter (λ c, add_line c l) a (chunks st)) (patchset st)
                    (current_patch st) (current_chunk st))
  end.

(** [current_patch.m(...)]: [None] has no such method. *)
Definition with_current_patch (st : parser) (f : patch → patch) (chunks : list chunk)
    (cur : option nat) : py exn parser :=
  match current_patch st with
  | None => Raise AttributeError
  | Some i => Ok (Parser chunks (alter f i (patchset st)) (Some i) cur)
  end.

Definition parse_line (st : parser) (line : string) : py exn parser :=
  match re_prefix "--- " line with
  | Some g => Ok (Parser (chunks st) (patchset st ++ [Patch g "" []])
                    (Some (length (patchset st))) (current_chunk st))
  | None =>
  match re_prefix "+++ " line with
  | Some g =>
      with_current_patch st (λ p, Patch (patch_src p) g (patch_chunks p))
        (chunks st) (current_chunk st)
  | None =>
  match chunk_start line with
  | Some (a, c) =>
      let addr := length (chunks st) in
      with_current_patch st (λ p, Patch (patch_src p) (patch_dst p) (patch_chunks p ++ [addr]))
        (chunks st ++ [Chunk [] a c]) (Some addr)
  | None =>
  match re_prefix "-" line with
  | Some g => add_to_current st (set_src new_line g)
  | None =>
  match re_prefix "+" line with
  | Some g => add_to_current st (set_dst new_line g)
  | None =>
  match re_prefix " " line with
  | Some g => add_to_current st (set_both new_line g)
  | None => Raise (Exception_ "")
  end end end end end end.

Definition parse_patchset (generator : list string) : py exn parser :=
  py_foldl parse_line parser_init generator.

(** ** [remove_trailing_whitespace_changes] *)

(** [whitespace.search(s)]: the first group is greedy, so it leaves exactly one blank
    character to the second. *)
Definition is_blank (c : ascii) : bool := bool_decide (c = " "%char) || bool_decide (c = tab_char).
Definition whitespace (s : string) : option (string * string) :=
  body ← rest_of_line s;
  match reverse (chars body) with
  | c :: r => if is_blank c then Some (implode (reverse r), String c "") else None
  | [] => None
  end.

(** The body of [for i in range(0, len(src))]; [None] is the IndexError of [dst[i]]. *)
Definition fix_line (srcs dsts : list nat) (ls : list chunk_line) (i : nat) : option (list chunk_line) :=
  si ← srcs !! i; di ← dsts !! i;
  s ← ls !! si; d ← ls !! di;
  Some match whitespace (line_text s) with
       | Some (g1, g2) =>
           if decide (g1 = line_text d) then alter (λ l, append_to_line l g2) di ls else ls
       | None => ls
       end.

(** The loop of one chunk: the lines it leaves, and whether it went through to the end. *)
Fixpoint fix_lines (srcs dsts : list nat) (idxs : list nat) (ls : list chunk_line)
    : list chunk_line * bool :=
  match idxs with
  | [] => (ls, true)
  | i :: idxs =>
      match fix_line srcs dsts ls i with
      | Some ls => fix_lines srcs dsts idxs ls
      | None => (ls, false)
      end
  end.
Definition fix_chunk (c : chunk) : chunk * bool :=
  let '(ls, ok) := fix_lines (src c) (dst c) (seq 0 (length (src c))) (lines c) in
  (Chunk ls (src_pos c) (dst_pos c), ok).

(** The loops over the patches and their chunks; an error returns from the function. *)
Fixpoint fix_chunks (addrs : list nat) (st : list chunk) : list chunk :=
  match addrs with
  | [] => st
  | a :: addrs =>
      match st !! a with
      | None => st
      | Some c =>
          let '(c, ok) := fix_chunk c in
          if ok : bool then fix_chunks addrs (<[a := c]> st) else <[a := c]> st
      end
  end.

Definition remove_trailing_whitespace_changes (generator : list string) : py exn parser :=
  st ← parse_patchset generator;
  Ok (Parser (fix_chunks (mjoin (patch_chunks <$> patchset st)) (chunks st)) (patchset st)
        (current_patch st) (current_chunk st)).

(** ** [uncrustify_config_file] *)

(** The lines of the three triple-quoted blocks; each block starts with a newline. *)
Definition level2 : list string := [
  "nl_if_brace=Add";
  "nl_brace_else=Add";
  "nl_elseif_brace=Add";
  "nl_else_brace=Add";
  "nl_while_brace=Add";
  "nl_do_brace=Add";
  "nl_for_brace=Add";
  "nl_brace_while=Add";
  "nl_switch_brace=Add";
  "nl_after_case=True";
  "nl_namespace_brace=ignore";
  "nl_after_brace_open=True";
  "nl_class_leave_one_liners=False";
  "nl_enum_leave_one_liners=False";
  "nl_func_leave_one_liners=False";
  "nl_if_leave_one_liners=False";
  "nl_class_colon=Ignore";
  "nl_before_access_spec=2";
  "nl_after_access_spec=0";
  "indent_access_spec=-indent_columns";
  "nl_after_semicolon=True";
  "pos_class_colon=Lead";
  "pos_class_comma=Trail";
  "indent_constr_colon=true";
  "pos_bool=Lead";
  "nl_class_init_args=Add";
  "nl_template_class=Add";
  "nl_class_brace=Add";
  "# does not work very well";
  "nl_func_type_name=Ignore";
  "nl_func_scope_name=Ignore";
  "nl_func_type_name_class=Ignore";
  "nl_func_proto_type_name=Ignore";
  "# function\n(";
  "nl_func_paren=Remove";
  "nl_fdef_brace=Add";
  "nl_struct_brace=Add";
  "nl_enum_brace=Add";
  "nl_union_brace=Add";
  "mod_full_brace_do=Add";
  "mod_full_brace_for=Add";
  "mod_full_brace_if=Add";
  "mod_full_brace_while=Add";
  "mod_full_brace_for=Add";
  "mod_remove_extra_semicolon=True";
  "# max code width";
  "#code_width=128";
  "#ls_for_split_full=True";
  "#ls_func_split_full=True";
  "nl_cpp_lambda_leave_one_liners=True"].

Definition level1 : list string := [
  "# extra spaces here and there";
  "sp_brace_typedef=Add";
  "sp_enum_assign=Add";
  "sp_before_sparen=Add";
  "sp_after_semi_for=Add";
  "sp_arith=Add";
  "sp_assign=Add";
  "sp_compare=Add";
  "sp_func_class_paren=Add";
  "sp_after_type=Add";
  "sp_type_func=Add";
  "sp_angle_paren=Add"].

Definition level0 : list string := [
  "sp_func_proto_paren=Add";
  "sp_func_def_paren=Add";
  "sp_func_call_paren=Add";
  "sp_after_semi_for=Ignore";
  "sp_before_sparen=Ignore";
  "sp_before_ellipsis=Remove";
  "sp_type_func=Ignore";
  "sp_after_type=Ignore";
  "nl_class_leave_one_liners=True";
  "nl_enum_leave_one_liners=True";
  "nl_func_leave_one_liners=True";
  "nl_assign_leave_one_liners=True";
  "nl_collapse_empty_body=True";
  "nl_getset_leave_one_liners=True";
  "nl_if_leave_one_liners=True";
  "nl_fdef_brace=Ignore";
  "# finally, indentation configuration";
  "indent_with_tabs=0";
  "indent_namespace=false";
  "indent_columns=2";
  "indent_brace=2";
  "indent_case_brace=indent_columns";
  "indent_class=true";
  "indent_class_colon=True";
  "indent_switch_case=indent_columns";
  "# alignment";
  "indent_align_assign=False";
  "align_left_shift=True";
  "# comment reformating disabled";
  "cmt_reflow_mode=1 # do not touch comments at all";
  "cmt_indent_multi=False # really, do not touch them";
  esc "disable_processing_cmt= \q *NS_CHECK_STYLE_OFF*\q";
  esc "enable_processing_cmt=  \q *NS_CHECK_STYLE_ON*\q"].

Definition block (ls : list string) : string := nl +:+ concat_str ((λ l, l +:+ nl) <$> ls).

(** What the function writes into the configuration file. *)
Definition uncrustify_config (level : Z) : string :=
  block level0 +:+ (if 1 <=? level then block level1 else "")%Z +:+
  (if 2 <=? level then block level2 else "")%Z.

(** ** The driver *)

Abbreviation fs := (gmap string string).

(** The programs and the library function the driver calls; a program that is not installed gives [None].  The
    laws are what their manuals promise: [mkstemp] returns a path that does not exist; [uncrustify -o output]
    writes no other file than [output], which it does not delete; [patch] writes no other file than its target
    and the backup and reject files beside it, deletes no file (there is no option [-E]), and changes nothing
    when the patch is empty.  Nothing is assumed of the diff nor of the [stat] signatures. *)
Class Tools := {
  mkstemp : fs → string;
  uncrustify : string → string → string → fs → option (fs * string * string);
  patch_cmd : string → string → fs → option (fs * string * string);
  unified_diff : list string → list string → string → string → list string;
  stat_equal : fs → string → string → bool;
  mkstemp_fresh : ∀ m, m !! mkstemp m = None;
  uncrustify_frame : ∀ cfg source output m m' out err p,
    uncrustify cfg source output m = Some (m', out, err) → p ≠ output → m' !! p = m !! p;
  uncrustify_output : ∀ cfg source output m m' out err,
    uncrustify cfg source output m = Some (m', out, err) → is_Some (m !! output) →
    is_Some (m' !! output);
  patch_frame : ∀ diff target m m' out err p,
    patch_cmd diff target m = Some (m', out, err) → p ≠ target → p ≠ target +:+ ".orig" → p ≠ target +:+ ".rej" →
    m' !! p = m !! p;
  patch_empty : ∀ diff target m m' out err, patch_cmd diff target m = Some (m', out, err) → m !! diff = Some "" → m' = m;
  patch_keeps : ∀ diff target m m' out err p, patch_cmd diff target m = Some (m', out, err) → is_Some (m !! p) → is_Some (m' !! p)
}.

(** Both programs can be started. *)
Definition installed `{Tools} : Prop :=
  (∀ cfg source output m, uncrustify cfg source output m ≠ None) ∧ ∀ diff target m, patch_cmd diff target m ≠ None.

(** The files and what has been written to the two standard streams. *)
Record world := World { files : fs; stdout : list string; stderr : list string }.

(** Reading in text mode turns every line end into a newline. *)
Fixpoint universal_newlines (s : list ascii) : list ascii :=
  match s with
  | "013"%char :: ("010"%char :: _) as r => universal_newlines r
  | "013"%char :: r => nl_char :: universal_newlines r
  | c :: r => c :: universal_newlines r
  | [] => []
  end.
(** The lines of a text, each with its newline. *)
Fixpoint lines_keepends (s : list ascii) : list string :=
  match s with
  | [] => []
  | c :: r =>
      if decide (c = nl_char) then nl :: lines_keepends r
      else match lines_keepends r with
           | w :: ws => String c w :: ws
           | [] => [String c ""]
           end
  end.

Section driver.
Context `{Tools}.
Abbreviation M := (stx world exn).

Definition set_file (p c : string) (w : world) : world :=
  World (<[p := c]> (files w)) (stdout w) (stderr w).
Definition print_err (s : string) : M unit :=
  modify_st (λ w, World (files w) (stdout w) (stderr w ++ [s])).
Definition print_out (s : string) : M unit :=
  modify_st (λ w, World (files w) (stdout w ++ [s]) (stderr w)).

(** [tempfile.mkstemp()[1]] creates an empty file. *)
Definition new_temp : M string :=
  w ← get_st; _ ← modify_st (set_file (mkstemp (files w)) ""); mret (mkstemp (files w)).
Definition read_file (p : string) : M string :=
  w ← get_st; lift_py (or_raise OSError (files w !! p)).
Definition readlines (p : string) : M (list string) :=
  s ← read_file p; mret (lines_keepends (universal_newlines (chars s))).
Definition write_file (p s : string) : M unit := modify_st (set_file p s).
Definition copyfile (a b : string) : M unit :=
  if decide (a = b) then raise_st OSError else s ← read_file a; write_file b s.

Definition uncrustify_config_file (level : Z) : M string :=
  pathname ← new_temp; _ ← write_file pathname (uncrustify_config level); mret pathname.

Definition when_ (b : bool) (m : M unit) : M unit := if b then m else mret tt.

Definition run_uncrustify (cfg source output : string) (debug : bool) : M unit :=
  w ← get_st;
  match uncrustify cfg source output (files w) with
  | None => raise_st (Exception_ "uncrustify not installed")
  | Some (m, out, err) =>
      _ ← modify_st (λ w, World m (stdout w) (stderr w));
      when_ debug (_ ← print_err out; print_err err)
  end.

Definition run_patch (diff target : string) (debug : bool) : M unit :=
  w ← get_st;
  match patch_cmd diff target (files w) with
  | None => raise_st OSError
  | Some (m, out, err) =>
      _ ← modify_st (λ w, World m (stdout w) (stderr w));
      when_ debug (_ ← print_err out; print_err err)
  end.

(** [diff] is a generator: what [tmp.writelines(diff)] has consumed is gone. *)
Definition write_initial_diff (diff : list string) (debug : bool) : M (list string) :=
  if debug then
    initial_diff ← new_temp;
    _ ← print_err ("initial diff file=" +:+ initial_diff +:+ nl);
    _ ← write_file initial_diff (concat_str diff);
    mret []
  else mret diff.

Definition write_final_diff (diff : list string) (level : Z) (final_diff : string) : M unit :=
  if (level <? 3)%Z then
    st ← lift_py (remove_trailing_whitespace_changes diff);
    match patchset st with
    | [] => mret tt
    | p :: _ =>
        out ← lift_py (write_patch (chunks st) p);
        write_file final_diff (concat_str out)
    end
  else write_file final_diff (concat_str diff).

Definition indent (source : string) (debug : bool) (level : Z) : M string :=
  output ← new_temp;
  cfg ← uncrustify_config_file level;
  _ ← when_ debug
        (_ ← print_err ("original file=" +:+ source +:+ nl);
         _ ← print_err ("uncrustify config file=" +:+ cfg +:+ nl);
         print_err ("temporary file=" +:+ output +:+ nl));
  _ ← run_uncrustify cfg source output debug;
  src ← readlines source;
  dst ← readlines output;
  diff ← write_initial_diff (unified_diff src dst source output) debug;
  final_diff ← new_temp;
  _ ← write_final_diff diff level final_diff;
  _ ← when_ debug (print_err ("final diff file=" +:+ final_diff +:+ nl));
  _ ← copyfile source output;
  _ ← run_patch final_diff output debug;
  mret output.

(** [filecmp.cmp(a, b)]: equal stat signatures decide without reading the files. *)
Definition filecmp (a b : string) : M bool :=
  x ← read_file a; y ← read_file b; w ← get_st;
  mret (stat_equal (files w) a b || bool_decide (x = y)).

Definition find_failed (output : list (string * string)) : M (list (string * string)) :=
  rs ← map_st (λ sd, eq ← filecmp sd.1 sd.2; mret (if eq : bool then [] else [sd])) output;
  mret (mjoin rs).

Definition report_diff (src dst : string) : M unit :=
  s ← readlines src; d ← readlines dst;
  for_st print_out (unified_diff s d src dst).

Definition indent_files (fnames : list string) (diff debug : bool) (level : Z) (inplace : bool)
    : M bool :=
  output ← map_st (λ f, dst ← indent f debug level; mret (f, dst)) fnames;
  if inplace then
    _ ← for_st (λ sd, copyfile sd.2 sd.1) output; mret true
  else
    failed ← find_failed output;
    match failed with
    | [] => mret true
    | _ =>
        _ ← (if diff then for_st (λ sd, report_diff sd.1 sd.2) failed
             else _ ← print_out ("Found " +:+ str_of_N (N.of_nat (length failed)) +:+
                                 " badly indented files:" +:+ nl);
                  for_st (λ sd, print_out ("  " +:+ sd.1 +:+ nl)) failed);
        mret false
    end.

(** [git_modified_files], on the two outputs of git. *)
Definition ends_with (s suffix : string) : bool :=
  startswith (implode (reverse (chars s))) (implode (reverse (chars suffix))).
Definition git_modified_files (root_dir : string) (diff_names : list string) : list string :=
  let files_changed := filter (λ item, ends_with item ".h" || ends_with item ".cc")
                         (strip <$> diff_names) in
  (λ filename, implode (py_slice_to (chars root_dir) (-1)) +:+ "/" +:+ strip filename)
    <$> files_changed.

Record options := Options {
  opt_debug : bool; opt_level : Z; opt_git : bool; opt_file : string;
  opt_diff : bool; opt_in_place : bool
}.

(** The exit status of [run_as_main]. *)
Definition run_as_main (o : options) (root_dir : string) (diff_names : list string) : M Z :=
  style_is_correct ←
    (if opt_git o then
       indent_files (git_modified_files root_dir diff_names)
         (opt_diff o) (opt_debug o) (opt_level o) (opt_in_place o)
     else if decide (opt_file o ≠ "") then
       w ← get_st;
       match files w !! opt_file o with
       | None => _ ← print_out ("file " +:+ opt_file o +:+ " does not exist" +:+ nl);
                 raise_st (SystemExit 1)
       | Some _ =>
           indent_files [opt_file o] (opt_diff o) (opt_debug o) (opt_level o) (opt_in_place o)
       end
     else mret false);
  mret (if style_is_correct : bool then 0 else 1)%Z.
(** The wrapper prints every other exception ([str_] is [str(e)]) and exits with 1. *)
Definition main (str_ : exn → string) (o : options) (root_dir : string) (diff_names : list string)
    (w : world) : Z * world :=
  match run_as_main o root_dir diff_names w with
  | (Ok code, w) => (code, w)
  | (Raise (SystemExit code), w) => (code, w)
  | (Raise e, w) => (1%Z, World (files w) (stdout w) (stderr w ++ [str_ e +:+ nl]))
  end.
End driver.

(** ** Parsing what has been written *)

(** What holds of every line [parse_patchset] makes, and what makes a line readable again:
    a removed line that starts with [-- ] (or an added one with [++ ]) would read as the
    header of a file. *)
Record wf_line (l : chunk_line) : Prop := {
  wf_kind : line_kind l ≠ NoType;
  wf_nl : has_char nl_char (line_text l) = false;
  wf_minus : line_kind l = SRC → startswith (line_text l) "-- " = false;
  wf_plus : line_kind l = DST → startswith (line_text l) "++ " = false
}.
Definition wf_chunk (c : chunk) : Prop := Forall wf_line (lines c).
Definition wf_patch (p : patch) : Prop :=
  has_char nl_char (patch_src p) = false ∧ has_char nl_char (patch_dst p) = false.

Lemma rest_of_line_Some r g :
  rest_of_line r = Some g ↔ has_char nl_char g = false ∧ (r = g ∨ r = g +:+ nl).
Proof.
  unfold rest_of_line. destruct (split_once nl_char r) as [[a b]|] eqn:E.
  - apply split_once_Some in E as [-> Ha]. destruct b as [|c b]; split.
    + intros [= <-]. split; [done|by right].
    + intros [Hg [Heq|Heq]].
      * subst g. rewrite has_char_app in Hg. cbn in Hg. by rewrite orb_true_r in Hg.
      * assert (split_once nl_char (a +:+ nl) = Some (a, "")) as E1 by (by apply split_once_Some).
        assert (split_once nl_char (a +:+ nl) = Some (g, "")) as E2 by (by apply split_once_Some).
        congruence.
    + done.
    + intros [Hg [Heq|Heq]].
      * subst g. rewrite has_char_app in Hg. cbn in Hg. by rewrite orb_true_r in Hg.
      * assert (split_once nl_char (g +:+ nl) = Some (g, "")) as E2 by (by apply split_once_Some).
        rewrite <-Heq in E2.
        assert (split_once nl_char (a +:+ String nl_char (String c b)) = Some (a, String c b)) as E1
          by (by apply split_once_Some).
        congruence.
  - apply split_once_None in E. split; [intros [= <-]; by auto|].
    intros [Hg [->|Heq]]; [done|]. subst r. rewrite has_char_app in E. cbn in E.
    by rewrite orb_true_r in E.
Qed.

Lemma rest_of_line_nl g : has_char nl_char g = false → rest_of_line (g +:+ nl) = Some g.
Proof. intros. apply rest_of_line_Some. auto. Qed.

Lemma re_prefix_Some p line g :
  re_prefix p line = Some g ↔
  has_char nl_char g = false ∧ (line = p +:+ g ∨ line = p +:+ g +:+ nl).
Proof.
  unfold re_prefix. split.
  - destruct (strip_prefix p line) as [r|] eqn:E; [|done]. cbn.
    apply strip_prefix_Some in E as ->. rewrite rest_of_line_Some. naive_solver.
  - intros [Hg [->| ->]]; rewrite strip_prefix_app; cbn; apply rest_of_line_Some; auto.
Qed.

(** A three-character prefix without a newline is found in [t] if it is found in [t] and a
    newline. *)
Lemma startswith_nl a b c t :
  c ≠ nl_char → b ≠ nl_char → a ≠ nl_char →
  startswith (t +:+ nl) (String a (String b (String c ""))) =
  startswith t (String a (String b (String c ""))).
Proof.
  intros Hc Hb Ha. unfold startswith. apply bool_decide_ext.
  destruct t as [|x [|y [|z t]]]; cbn; repeat case_decide; subst; cbn; try done;
    split; intros [? ?]; by eexists.
Qed.

Lemma strip_prefix_cons_None a p t : startswith t p = false → strip_prefix (String a p) (String a t) = None.
Proof.
  unfold startswith. intros Hs. cbn. rewrite decide_True by done.
  destruct (strip_prefix p t); [|done]. by apply bool_decide_eq_false in Hs; destruct Hs.
Qed.

Lemma parse_written_line l s st :
  wf_line l → write_line l = Ok s → parse_line st s = add_to_current st l.
Proof.
  intros [Hk Hnl Hm Hp] Hw. destruct l as [k t]; unfold write_line in Hw; cbn [line_kind line_text] in *.
  assert (∀ p, re_prefix p (p +:+ t +:+ nl) = Some t) as Hr by (intros p; apply re_prefix_Some; auto).
  destruct k; [done|apply Ok_inj in Hw as <-..]; unfold parse_line.
  - assert (re_prefix "--- " ("-" +:+ t +:+ nl) = None) as ->.
    { unfold re_prefix. change ("-" +:+ t +:+ nl) with (String "-" (t +:+ nl)).
      rewrite strip_prefix_cons_None; [done|]. rewrite startswith_nl by done. by apply Hm. }
    by rewrite (Hr "-").
  - assert (re_prefix "+++ " ("+" +:+ t +:+ nl) = None) as ->.
    { unfold re_prefix. change ("+" +:+ t +:+ nl) with (String "+" (t +:+ nl)).
      rewrite strip_prefix_cons_None; [done|]. rewrite startswith_nl by done. by apply Hp. }
    by rewrite (Hr "+").
  - by rewrite (Hr " ").
Qed.

Lemma re_number_print n r :
  match r with String c _ => is_digit c = false | EmptyString => True end →
  re_number (str_of_N n +:+ r) = Some (n, r).
Proof.
  intros Hr. destruct (str_of_N_digits n) as [Hd Hne]. unfold re_number.
  rewrite span_digits_app by (done || by intros ? ? ->).
  rewrite decide_False by done. rewrite int_of_str_of_N. cbn. by rewrite N2Z.id.
Qed.

Lemma chunk_start_header c : chunk_start (chunk_header c) = Some (src_pos c, dst_pos c).
Proof.
  unfold chunk_start, chunk_header. rewrite strip_prefix_app. cbn [mbind option_bind].
  repeat (rewrite re_number_print by done; cbn [mbind option_bind];
          rewrite ?strip_prefix_app; cbn [mbind option_bind]).
  done.
Qed.

(** Collecting the results of a fallible function over a list. *)
Lemma py_foldl_collect {E A B} (f : A → py E (list B)) l out :
  Forall (λ x, ∃ y, f x = Ok y) l →
  ∃ ys, Forall2 (λ x y, f x = Ok y) l ys ∧
    py_foldl (λ out x, y ← f x; Ok (out ++ y)) out l = Ok (out ++ mjoin ys).
Proof.
  intros Hl. revert out. induction Hl as [|x l (y & Hy) _ IH]; intros out.
  - exists []. split; [constructor|]. cbn. by rewrite app_nil_r.
  - destruct (IH (out ++ y)) as (ys & Hys & Hrun). exists (y :: ys). split; [by constructor|].
    cbn. rewrite Hy. cbn. rewrite Hrun. by rewrite app_assoc.
Qed.

(** What writing a chunk needs. *)
Definition writable (c : chunk) : Prop := Forall (λ l, line_kind l ≠ NoType) (lines c).
Lemma wf_writable c : wf_chunk c → writable c.
Proof. intros Hc. eapply Forall_impl; [exact Hc|]. by intros l []. Qed.

Lemma write_line_ok l : line_kind l ≠ NoType → ∃ s, write_line l = Ok s.
Proof. intros Hk. destruct l as [[] ?]; cbn in Hk; [done|by eexists..]. Qed.

Lemma write_chunk_ok c :
  writable c → ∃ ws, write_chunk c = Ok (chunk_header c :: ws) ∧
    Forall2 (λ l s, write_line l = Ok s) (lines c) ws.
Proof.
  intros Hc. unfold write_chunk.
  assert (∀ ls, Forall (λ l, line_kind l ≠ NoType) ls → ∀ out, ∃ ws,
    py_foldl (λ out l, s ← write_line l; Ok (out ++ [s])) out ls = Ok (out ++ ws) ∧
    Forall2 (λ l s, write_line l = Ok s) ls ws) as Hgen.
  { induction 1 as [|l ls Hl _ IH]; intros out.
    - exists []. by rewrite app_nil_r.
    - destruct (write_line_ok l Hl) as [s Hs], (IH (out ++ [s])) as (ws & Hrun & Hws).
      exists (s :: ws). split; [|by constructor]. cbn. rewrite Hs. cbn.
      rewrite Hrun. by rewrite <-app_assoc. }
  destruct (Hgen _ Hc [chunk_header c]) as (ws & Hrun & Hws). exists ws. by split.
Qed.

(** [c] with [ls] appended. *)
Definition add_lines (ls : list chunk_line) (c : chunk) : chunk :=
  Chunk (lines c ++ ls) (src_pos c) (dst_pos c).

Lemma parse_lines ls ws st a :
  Forall wf_line ls → Forall2 (λ l s, write_line l = Ok s) ls ws → current_chunk st = Some a →
  py_foldl parse_line st ws =
  Ok (Parser (alter (add_lines ls) a (chunks st)) (patchset st) (current_patch st) (current_chunk st)).
Proof.
  intros Hwf Hws. revert st Hwf. induction Hws as [|l s ls ws Hl _ IH]; intros st Hwf Ha.
  - cbn. rewrite list_alter_id; [by destruct st|]. intros []. unfold add_lines. cbn. by rewrite app_nil_r.
  - apply Forall_cons in Hwf as [Hwl Hwf]. cbn. rewrite (parse_written_line l) by done.
    unfold add_to_current. rewrite Ha. cbn. rewrite IH by done. cbn. f_equal. f_equal.
    rewrite list_alter_alter_eq. apply list_alter_ext; [|done]. intros c _.
    unfold add_lines, add_line. cbn. by rewrite <-app_assoc.
Qed.

Definition add_addr (a : nat) (p : patch) : patch :=
  Patch (patch_src p) (patch_dst p) (patch_chunks p ++ [a]).

Lemma parse_chunk c w st i :
  wf_chunk c → write_chunk c = Ok w → current_patch st = Some i →
  py_foldl parse_line st w =
  Ok (Parser (chunks st ++ [c]) (alter (add_addr (length (chunks st))) i (patchset st))
        (Some i) (Some (length (chunks st)))).
Proof.
  intros Hc Hw Hi. destruct (write_chunk_ok c (wf_writable c Hc)) as (ws & Hw' & Hws).
  rewrite Hw in Hw'. apply Ok_inj in Hw' as ->. cbn [py_foldl].
  assert (parse_line st (chunk_header c) =
    Ok (Parser (chunks st ++ [Chunk [] (src_pos c) (dst_pos c)])
          (alter (add_addr (length (chunks st))) i (patchset st)) (Some i)
          (Some (length (chunks st))))) as ->.
  { unfold parse_line. rewrite chunk_start_header. unfold with_current_patch. by rewrite Hi. }
  cbn [mbind py_bind]. rewrite (parse_lines (lines c) ws _ (length (chunks st))) by done. cbn.
  do 2 f_equal. rewrite alter_app_r_alt by lia. rewrite Nat.sub_diag. cbn. by destruct c.
Qed.

Definition add_addrs (l : list nat) (p : patch) : patch :=
  Patch (patch_src p) (patch_dst p) (patch_chunks p ++ l).

(** The variable [current_chunk] after [n] chunks have been read at addresses [k], .... *)
Definition cur_after (k n : nat) (cur : option nat) : option nat :=
  match n with O => cur | S n => Some (k + n) end.

Lemma parse_chunks cs k n st i out :
  Forall wf_chunk cs → k + n ≤ length cs → chunks st = take k cs → current_patch st = Some i →
  ∃ w, py_foldl (λ out a, c ← or_raise KeyError (cs !! a); w ← write_chunk c; Ok (out ++ w))
         out (seq k n) = Ok (out ++ w) ∧
    py_foldl parse_line st w =
      Ok (Parser (take (k + n) cs) (alter (add_addrs (seq k n)) i (patchset st)) (Some i)
            (cur_after k n (current_chunk st))).
Proof.
  intros Hwf. revert k st out. induction n as [|n IH]; intros k st out Hlen Hst Hi.
  - exists []. cbn. rewrite app_nil_r, Nat.add_0_r, <-Hst, <-Hi. split; [done|].
    rewrite list_alter_id; [by destruct st|]. intros []. unfold add_addrs. cbn. by rewrite app_nil_r.
  - destruct (lookup_lt_is_Some_2 cs k) as [c Hc]; [lia|].
    assert (wf_chunk c) as Hcw by (by eapply Forall_lookup_1).
    destruct (write_chunk_ok c (wf_writable c Hcw)) as (ws & Hw & _). set (w := chunk_header c :: ws) in *.
    pose proof (parse_chunk c w st i Hcw Hw Hi) as Hparse.
    assert (length (chunks st) = k) as Hk by (rewrite Hst, length_take; lia).
    rewrite Hk in Hparse. rewrite Hst, <-(take_S_r _ _ _ Hc) in Hparse.
    edestruct (IH (S k) (Parser (take (S k) cs) (alter (add_addr k) i (patchset st)) (Some i) (Some k))
                 (out ++ w)) as (w' & Hw' & Hparse'); [lia|done|done|].
    exists (w ++ w'). cbn [seq py_foldl]. rewrite Hc. cbn [or_raise mbind py_bind].
    rewrite Hw. cbn [mbind py_bind]. rewrite Hw', py_foldl_app, Hparse. cbn [mbind py_bind].
    rewrite Hparse'. rewrite <-app_assoc, Nat.add_succ_r. cbn. split; [done|].
    rewrite list_alter_alter_eq. do 2 f_equal; [|by destruct n; cbn; rewrite ?Nat.add_0_r, ?Nat.add_succ_r].
    apply list_alter_ext; [|done]. intros p _. unfold add_addrs, add_addr. cbn.
    by rewrite <-app_assoc.
Qed.

Lemma parse_src_header st g :
  has_char nl_char g = false →
  parse_line st ("--- " +:+ g +:+ nl) =
  Ok (Parser (chunks st) (patchset st ++ [Patch g "" []]) (Some (length (patchset st)))
        (current_chunk st)).
Proof.
  intros Hg. unfold parse_line.
  by rewrite (proj2 (re_prefix_Some "--- " _ g) (conj Hg (or_intror eq_refl))).
Qed.

Lemma parse_dst_header st g i :
  has_char nl_char g = false → current_patch st = Some i →
  parse_line st ("+++ " +:+ g +:+ nl) =
  Ok (Parser (chunks st) (alter (λ p, Patch (patch_src p) g (patch_chunks p)) i (patchset st))
        (Some i) (current_chunk st)).
Proof.
  intros Hg Hi. unfold parse_line, with_current_patch.
  by rewrite (proj2 (re_prefix_Some "+++ " _ g) (conj Hg (or_intror eq_refl))), Hi.
Qed.

Lemma parse_patch cs p k n st :
  Forall wf_chunk cs → k + n ≤ length cs → chunks st = take k cs →
  wf_patch p → patch_chunks p = seq k n →
  ∃ w, write_patch cs p = Ok w ∧
    py_foldl parse_line st w =
      Ok (Parser (take (k + n) cs) (patchset st ++ [p]) (Some (length (patchset st)))
            (cur_after k n (current_chunk st))).
Proof.
  intros Hwf Hlen Hst [Hs Hd] Hp. unfold write_patch. rewrite Hp.
  destruct (parse_chunks cs k n
    (Parser (chunks st) (patchset st ++ [Patch (patch_src p) (patch_dst p) []])
       (Some (length (patchset st))) (current_chunk st)) (length (patchset st))
    ["--- " +:+ patch_src p +:+ nl; "+++ " +:+ patch_dst p +:+ nl]) as (w & Hw & Hparse); [done..|].
  rewrite Hw. eexists; split; [done|]. rewrite py_foldl_app.
  assert (py_foldl parse_line st ["--- " +:+ patch_src p +:+ nl; "+++ " +:+ patch_dst p +:+ nl] =
    Ok (Parser (chunks st) (patchset st ++ [Patch (patch_src p) (patch_dst p) []])
          (Some (length (patchset st))) (current_chunk st))) as ->.
  { cbn [py_foldl]. rewrite parse_src_header by done. cbn [mbind py_bind].
    erewrite parse_dst_header by done. cbn. do 2 f_equal.
    rewrite alter_app_r_alt by lia. by rewrite Nat.sub_diag. }
  cbn [mbind py_bind]. rewrite Hparse. cbn. do 2 f_equal.
  rewrite alter_app_r_alt by lia. rewrite Nat.sub_diag. destruct p; cbn in *. by subst.
Qed.

(** All the patches of a patch set, one after the other. *)
Definition write_patchset (st : parser) : py exn (list string) :=
  py_foldl (λ out p, w ← write_patch (chunks st) p; Ok (out ++ w)) [] (patchset st).

(** *** What the parser keeps true *)

Record parser_ok (st : parser) : Prop := {
  po_chunks : Forall wf_chunk (chunks st);
  po_patches : Forall wf_patch (patchset st);
  po_addrs : mjoin (patch_chunks <$> patchset st) = seq 0 (length (chunks st));
  po_patch : current_patch st = match length (patchset st) with O => None | S n => Some n end;
  po_chunk : current_chunk st = match length (chunks st) with O => None | S n => Some n end
}.

Lemma app_eq_seq (l1 l2 : list nat) k n :
  l1 ++ l2 = seq k n → l1 = seq k (length l1) ∧ l2 = seq (k + length l1) (length l2) ∧
    length l1 + length l2 = n.
Proof.
  intros Heq. assert (length l1 + length l2 = n) as Hn
    by (rewrite <-length_app, Heq; apply length_seq).
  subst n. rewrite seq_app in Heq. apply app_inj_1 in Heq as [<- <-]; [|by rewrite length_seq].
  done.
Qed.

Lemma parse_patches cs ps st k n out :
  Forall wf_chunk cs → Forall wf_patch ps → k + n ≤ length cs → chunks st = take k cs →
  mjoin (patch_chunks <$> ps) = seq k n →
  ∃ w, py_foldl (λ out p, w ← write_patch cs p; Ok (out ++ w)) out ps = Ok (out ++ w) ∧
    py_foldl parse_line st w =
      Ok (Parser (take (k + n) cs) (patchset st ++ ps)
            (match ps with [] => current_patch st | _ => Some (length (patchset st ++ ps) - 1) end)
            (cur_after k n (current_chunk st))).
Proof.
  intros Hwf Hps. revert st k n out. induction Hps as [|p ps Hp _ IH]; intros st k n out Hlen Hst Hj.
  - exists []. cbn in *. destruct n; [|done]. rewrite !app_nil_r, Nat.add_0_r, <-Hst. by destruct st.
  - cbn in Hj. apply app_eq_seq in Hj as (Hp1 & Hj & Hn).
    set (m := length (mjoin _)) in Hj, Hn.
    destruct (parse_patch cs p k (length (patch_chunks p)) st) as (w & Hw & Hparse); [done|lia|done..|].
    destruct (IH (Parser (take (k + length (patch_chunks p)) cs) (patchset st ++ [p])
        (Some (length (patchset st))) (cur_after k (length (patch_chunks p)) (current_chunk st)))
        (k + length (patch_chunks p)) m (out ++ w)) as (w' & Hw' & Hparse'); [lia|done|exact Hj|].
    exists (w ++ w'). cbn [py_foldl]. rewrite Hw. cbn [mbind py_bind].
    rewrite Hw', py_foldl_app, Hparse. cbn [mbind py_bind]. rewrite Hparse'. cbn.
    rewrite <-!app_assoc. split; [done|]. cbn. do 2 f_equal.
    + f_equal. lia.
    + destruct ps; rewrite !length_app; cbn; f_equal; lia.
    + clearbody m. destruct (length (patch_chunks p)), m; cbn in *; subst n; cbn; f_equal; lia.
Qed.

Lemma re_prefix_not_header p c line g :
  c ≠ nl_char → re_prefix (String c p) line = None → re_prefix (String c "") line = Some g →
  startswith g p = false.
Proof.
  intros Hc Hnone [Hg Hline]%re_prefix_Some. apply not_true_is_false.
  intros [r ->]%startswith_spec. rewrite has_char_app in Hg. apply orb_false_iff in Hg as [Hp Hr].
  assert (re_prefix (String c p) line = Some r); [|congruence].
  apply re_prefix_Some. split; [done|]. cbn in *. rewrite <-string_app_assoc in Hline. done.
Qed.

Lemma parser_ok_init : parser_ok parser_init.
Proof. by split; cbn. Qed.

Lemma parser_ok_add st l st' :
  parser_ok st → wf_line l → add_to_current st l = Ok st' → parser_ok st'.
Proof.
  intros [H1 H2 H3 H4 H5] Hl. unfold add_to_current.
  destruct (current_chunk st) as [a|] eqn:Ea; [|done]. intros <-%Ok_inj. split; cbn; [|done|..].
  - apply Forall_alter; [done|]. intros c _ Hc. unfold wf_chunk, add_line. cbn.
    apply Forall_app. split; [done|]. by apply Forall_singleton.
  - by rewrite length_alter.
  - done.
  - by rewrite length_alter.
Qed.

Lemma alter_last {A} (f : A → A) l x : alter f (length l) (l ++ [x]) = l ++ [f x].
Proof. rewrite alter_app_r_alt by lia. by rewrite Nat.sub_diag. Qed.

Lemma parser_ok_line st line st' : parser_ok st → parse_line st line = Ok st' → parser_ok st'.
Proof.
  intros Hst. unfold parse_line.
  destruct (re_prefix "--- " line) as [g|] eqn:E1.
  { apply re_prefix_Some in E1 as [Hg _]. intros <-%Ok_inj. destruct Hst as [H1 H2 H3 H4 H5].
    split; cbn; [done|apply Forall_app; split; [done|by apply Forall_singleton]| | |done].
    - by rewrite fmap_app, join_app, H3, app_nil_r.
    - rewrite length_app. cbn. by rewrite Nat.add_1_r. }
  assert (∀ f cs cur st', with_current_patch st f cs cur = Ok st' →
    ∃ ps p, patchset st = ps ++ [p] ∧ current_patch st = Some (length ps) ∧
      st' = Parser cs (ps ++ [f p]) (Some (length ps)) cur) as Hwith.
  { intros f cs cur st0. unfold with_current_patch.
    destruct Hst as [_ _ _ H4 _]. destruct (patchset st) as [|p ps _] using rev_ind; rewrite H4; [done|].
    rewrite length_app, Nat.add_1_r. intros <-%Ok_inj. exists ps, p. by rewrite alter_last. }
  destruct (re_prefix "+++ " line) as [g|] eqn:E2.
  { apply re_prefix_Some in E2 as [Hg _]. intros (ps & p & Hps & Hcp & ->)%Hwith.
    destruct Hst as [H1 H2 H3 H4 H5]. rewrite Hps in *. apply Forall_app in H2 as [H2 [Hp _]%Forall_cons].
    split; cbn; [done|apply Forall_app; split; [done|]| | |done].
    - apply Forall_singleton. split; [apply Hp|done].
    - rewrite fmap_app, join_app in H3 |- *. exact H3.
    - rewrite length_app. cbn. by rewrite Nat.add_1_r. }
  destruct (chunk_start line) as [[a c]|].
  { intros (ps & p & Hps & Hcp & ->)%Hwith.
    destruct Hst as [H1 H2 H3 H4 H5]. rewrite Hps in *. apply Forall_app in H2 as [H2 [Hp _]%Forall_cons].
    split; cbn.
    - apply Forall_app. split; [done|]. apply Forall_singleton. constructor.
    - apply Forall_app. split; [done|]. by apply Forall_singleton.
    - rewrite fmap_app, join_app in H3 |- *. cbn in H3 |- *. rewrite app_nil_r in H3 |- *.
      by rewrite app_assoc, H3, length_app, seq_app.
    - rewrite length_app. cbn. by rewrite Nat.add_1_r.
    - rewrite length_app. cbn. by rewrite Nat.add_1_r. }
  destruct (re_prefix "-" line) as [g|] eqn:E3.
  { apply parser_ok_add; [done|]. split; cbn; [done|by apply re_prefix_Some in E3 as [? _]| |done].
    intros _. by apply (re_prefix_not_header "-- " "-" line). }
  destruct (re_prefix "+" line) as [g|] eqn:E4.
  { apply parser_ok_add; [done|]. split; cbn; [done|by apply re_prefix_Some in E4 as [? _]|done|].
    intros _. by apply (re_prefix_not_header "++ " "+" line). }
  destruct (re_prefix " " line) as [g|] eqn:E5; [|done].
  apply parser_ok_add; [done|]. by split; cbn; [|apply re_prefix_Some in E5 as [? _]|..].
Qed.

Lemma parse_patchset_ok generator st : parse_patchset generator = Ok st → parser_ok st.
Proof.
  unfold parse_patchset. generalize parser_ok_init. generalize parser_init.
  induction generator as [|line ls IH]; intros st0 Hst; cbn; [by intros <-%Ok_inj|].
  intros (st1 & H1 & H2)%py_bind_ok. by eapply IH; [eapply parser_ok_line|].
Qed.

(** C18: whatever diff [parse_patchset] accepts, writing the patches it returns succeeds,
    and parsing the written lines gives back the same objects: files, chunks, positions
    and lines. *)
Theorem parse_write_roundtrip (generator : list string) (st : parser) :
  parse_patchset generator = Ok st →
  ∃ out, write_patchset st = Ok out ∧ parse_patchset out = Ok st.
Proof.
  intros [H1 H2 H3 H4 H5]%parse_patchset_ok.
  destruct (parse_patches (chunks st) (patchset st) parser_init 0 (length (chunks st)) [])
    as (w & Hw & Hparse); [done..|].
  exists w. split; [done|]. unfold parse_patchset. rewrite Hparse. cbn.
  rewrite firstn_all. destruct st as [cs ps cp cc]; cbn in *. subst cp cc. do 2 f_equal.
  destruct ps; cbn; f_equal. lia.
Qed.

Definition sample_diff : list string :=
  esc <$> ["--- a.cc\n"; "+++ b.cc\n"; "@@ -3,4 +3,4 @@ int\n"; " int x;\n"; "-foo \n"; "-bar\n";
           "+foo\n"; "+  bar\n"; " int y;"].

Lemma parse_write_roundtrip_witness :
  ∃ st out, parse_patchset sample_diff = Ok st ∧ write_patchset st = Ok out ∧
    parse_patchset out = Ok st.
Proof.
  destruct (parse_patchset sample_diff) as [st|] eqn:E; [|by vm_compute in E].
  destruct (parse_write_roundtrip sample_diff st E) as (out & ? & ?). by exists st, out.
Defined.

(** ** The white-space filter *)

Lemma elem_of_select P i ls j :
  j ∈ select P i ls ↔ i ≤ j ∧ ∃ l, ls !! (j - i) = Some l ∧ P l = true.
Proof.
  revert i; induction ls as [|l ls IH]; intros i; cbn.
  - split; [set_solver|]. by intros (_ & ? & ? & _).
  - assert (j ∈ select P (S i) ls ↔ S i ≤ j ∧ ∃ l0, (l :: ls) !! (j - i) = Some l0 ∧ P l0 = true) as HS.
    { rewrite IH. split; intros [Hj Hl]; (split; [done|]).
      - by replace (j - i) with (S (j - S i)) by lia.
      - by replace (j - i) with (S (j - S i)) in Hl by lia. }
    destruct (P l) eqn:Pl; rewrite ?elem_of_cons, HS; clear IH HS.
    + split.
      * intros [->|[? ?]]; [|split; [lia|done]]. split; [done|]. exists l. by rewrite Nat.sub_diag.
      * intros [Hj Hl]. destruct (decide (j = i)); [by left|right; split; [lia|done]].
    + split; [intros [? ?]; split; [lia|done]|]. intros [Hj Hl]. split; [|done].
      destruct (decide (j = i)) as [->|]; [|lia]. rewrite Nat.sub_diag in Hl.
      destruct Hl as (? & [= <-] & ?). congruence.
Qed.

Lemma elem_of_select_0 P ls j : j ∈ select P 0 ls ↔ ∃ l, ls !! j = Some l ∧ P l = true.
Proof. rewrite elem_of_select, Nat.sub_0_r. split; [by intros [_ ?]|]. intros ?. split; [lia|done]. Qed.

Lemma NoDup_select P i ls : NoDup (select P i ls).
Proof.
  revert i; induction ls as [|l ls IH]; intros i; cbn; [constructor|].
  destruct (P l); [|done]. constructor; [|done]. rewrite elem_of_select. lia.
Qed.

Lemma select_ext P ls ls' :
  Forall2 (λ l l', P l = P l') ls ls' → ∀ i, select P i ls = select P i ls'.
Proof. induction 1 as [|l l' ls ls' Hl _ IH]; intros i; cbn; [done|]. by rewrite Hl, !IH. Qed.

Lemma whitespace_Some s g1 g2 :
  whitespace s = Some (g1, g2) →
  ∃ b, is_blank b = true ∧ g2 = String b "" ∧ (has_char nl_char s = false → s = g1 +:+ g2).
Proof.
  unfold whitespace. destruct (rest_of_line s) as [body|] eqn:Eb; cbn [mbind option_bind]; [|done].
  destruct (reverse (chars body)) as [|c r] eqn:Er; [done|].
  destruct (is_blank c) eqn:Ec; [|done]. intros [= <- <-]. exists c. split_and!; [done..|].
  intros Hnl. apply rest_of_line_Some in Eb as [_ [-> | ->]].
  - apply (f_equal reverse) in Er. rewrite reverse_involutive, reverse_cons in Er.
    by rewrite <-(implode_chars body), Er, implode_app.
  - rewrite has_char_app in Hnl. cbn in Hnl. by rewrite orb_true_r in Hnl.
Qed.

(** The blank that cancels the difference between a removed and an added line, if any. *)
Definition cancels (s d : chunk_line) : option string :=
  match whitespace (line_text s) with
  | Some (g1, g2) => if decide (g1 = line_text d) then Some g2 else None
  | None => None
  end.

Lemma cancels_Some s d g :
  cancels s d = Some g →
  ∃ b, is_blank b = true ∧ g = String b "" ∧
    (has_char nl_char (line_text s) = false → line_text s = line_text d +:+ g).
Proof.
  unfold cancels. destruct (whitespace (line_text s)) as [[g1 g2]|] eqn:E; [|done].
  case_decide as Hg; [|done]. intros [= <-]. apply whitespace_Some in E as (b & ? & -> & Hs).
  exists b. split_and!; [done..|]. by subst.
Qed.

Lemma fix_line_eq srcs dsts ls i si di s d :
  srcs !! i = Some si → dsts !! i = Some di → ls !! si = Some s → ls !! di = Some d →
  fix_line srcs dsts ls i =
  Some (match cancels s d with Some g => <[di := append_to_line d g]> ls | None => ls end).
Proof.
  intros H1 H2 H3 H4. unfold fix_line, cancels. rewrite H1, H2. cbn. rewrite H3, H4. cbn. f_equal.
  destruct (whitespace _) as [[g1 g2]|]; [|done]. case_decide; [|done].
  apply list_eq. intros j. rewrite list_lookup_alter, list_lookup_insert.
  destruct (decide (di = j)) as [->|Hne].
  - rewrite H4. cbn. rewrite decide_True; [done|]. split; [done|]. by eapply lookup_lt_Some.
  - by rewrite decide_False by naive_solver.
Qed.

Lemma fix_lines_inv (I : nat → list chunk_line → Prop) srcs dsts n k ls :
  I k ls →
  (∀ i ls ls', k ≤ i < k + n → I i ls → fix_line srcs dsts ls i = Some ls' → I (S i) ls') →
  ∃ ls' ok i, fix_lines srcs dsts (seq k n) ls = (ls', ok) ∧ I i ls' ∧
    if ok : bool then i = k + n else i < k + n ∧ k ≤ i ∧ fix_line srcs dsts ls' i = None.
Proof.
  revert k ls. induction n as [|n IH]; intros k ls Hk Hstep; cbn.
  - exists ls, true, k. by rewrite Nat.add_0_r.
  - destruct (fix_line srcs dsts ls k) as [ls1|] eqn:E.
    + destruct (IH (S k) ls1) as (ls' & ok & i & Hrun & Hi & Hok).
      { eapply (Hstep k); [lia|done..]. }
      { intros i l l' Hin. apply Hstep. lia. }
      exists ls', ok, i. split_and!; [done..|]. destruct ok; [lia|]. destruct Hok as (? & ? & ?).
      split_and!; [lia..|done].
    + exists ls, false, k. split_and!; [done..|lia|lia|done].
Qed.

(** A line that the filter has left alone, or to which it has appended one blank. *)
Definition touched (l l' : chunk_line) : Prop :=
  l' = l ∨ is_dst l = true ∧ ∃ b, is_blank b = true ∧ l' = append_to_line l (String b "").

(** After the first [k] pairs, only lines among the first [k] destination lines are touched. *)
Definition fix_inv (c : chunk) (k : nat) (ls : list chunk_line) : Prop :=
  k ≤ length (dst c) ∧ length ls = length (lines c) ∧
  ∀ j l, lines c !! j = Some l → ∃ l', ls !! j = Some l' ∧ touched l l' ∧
    ((∀ i, i < k → dst c !! i ≠ Some j) → l' = l).

(** The lines a step looks at. *)
Lemma fix_inv_read c k ls :
  fix_inv c k ls → k < length (src c) → k < length (dst c) →
  ∃ si di s s' d, src c !! k = Some si ∧ dst c !! k = Some di ∧
    lines c !! si = Some s ∧ ls !! si = Some s' ∧ lines c !! di = Some d ∧ ls !! di = Some d ∧
    is_src s = true ∧ is_dst d = true.
Proof.
  intros (_ & _ & Hl) Hs Hd. destruct (lookup_lt_is_Some_2 _ _ Hs) as [si Hsi].
  destruct (lookup_lt_is_Some_2 _ _ Hd) as [di Hdi].
  destruct (proj1 (elem_of_select_0 is_src (lines c) si)) as (s & Hls & Hss);
    [by eapply list_elem_of_lookup_2|].
  destruct (proj1 (elem_of_select_0 is_dst (lines c) di)) as (d & Hld & Hdd);
    [by eapply list_elem_of_lookup_2|].
  destruct (Hl si s Hls) as (s' & Hs' & _ & _). destruct (Hl di d Hld) as (d' & Hd' & _ & Hsame).
  exists si, di, s, s', d. split_and!; try done. rewrite Hd'. f_equal. apply Hsame.
  intros i Hi Hdi'. assert (i = k); [|lia]. eapply NoDup_lookup; [|done..].
  apply NoDup_select.
Qed.

Lemma fix_inv_step c k ls ls' :
  k < length (src c) → fix_inv c k ls → fix_line (src c) (dst c) ls k = Some ls' → fix_inv c (S k) ls'.
Proof.
  intros Hk Hinv Hfix. assert (k < length (dst c)) as Hd.
  { apply lookup_lt_is_Some. unfold fix_line in Hfix. destruct (src c !! k); [|done]. cbn in Hfix.
    by destruct (dst c !! k). }
  destruct (fix_inv_read c k ls Hinv Hk Hd) as (si & di & s & s' & d & H1 & H2 & H3 & H4 & H5 & H6 & H7 & H8).
  rewrite (fix_line_eq _ _ _ _ si di s' d) in Hfix by done. injection Hfix as <-.
  destruct Hinv as (_ & Hlen & Hl). split_and!; [done|by destruct (cancels s' d); rewrite ?length_insert|].
  intros j l Hj. destruct (Hl j l Hj) as (l' & Hj' & Ht & Hsame).
  destruct (cancels s' d) as [g|] eqn:Ec.
  - destruct (decide (di = j)) as [->|Hne].
    + exists (append_to_line d g). apply cancels_Some in Ec as (b & Hb & -> & _).
      rewrite list_lookup_insert_eq by (by eapply lookup_lt_Some). assert (l = d) as -> by congruence.
      split_and!; [done|right; eauto|]. intros Hi. by destruct (Hi k ltac:(lia)).
    + exists l'. rewrite list_lookup_insert_ne by done. split_and!; [done..|].
      intros Hi. apply Hsame. intros i ?. apply Hi. lia.
  - exists l'. split_and!; [done..|]. intros Hi. apply Hsame. intros i ?. apply Hi. lia.
Qed.

Lemma fix_inv_init c : fix_inv c 0 (lines c).
Proof. split_and!; [lia|done|]. intros j l Hj. exists l. split_and!; [done|by left|done]. Qed.

Lemma fix_line_None c k ls :
  fix_inv c k ls → k < length (src c) → fix_line (src c) (dst c) ls k = None → length (dst c) ≤ k.
Proof.
  intros Hinv Hk Hn. destruct (decide (k < length (dst c))) as [Hd|]; [|lia].
  destruct (fix_inv_read c k ls Hinv Hk Hd) as (si & di & s & s' & d & ? & ? & ? & ? & ? & ? & _).
  by rewrite (fix_line_eq _ _ _ _ si di s' d) in Hn.
Qed.

(** A chunk before and after the filter. *)
Definition chunk_touched (c c' : chunk) : Prop :=
  src_pos c' = src_pos c ∧ dst_pos c' = dst_pos c ∧ Forall2 touched (lines c) (lines c').

Lemma fix_inv_touched c k ls : fix_inv c k ls → Forall2 touched (lines c) ls.
Proof.
  intros (_ & Hlen & Hl). apply Forall2_same_length_lookup_2; [done|].
  intros j l l' Hj Hj'. destruct (Hl j l Hj) as (l0 & Hl0 & Ht & _). by simplify_eq.
Qed.

Lemma fix_chunk_touched c :
  chunk_touched c (fix_chunk c).1 ∧ ((fix_chunk c).2 = true ↔ length (src c) ≤ length (dst c)).
Proof.
  destruct (fix_lines_inv (fix_inv c) (src c) (dst c) (length (src c)) 0 (lines c))
    as (ls & ok & i & Hrun & Hi & Hok); [apply fix_inv_init| |].
  { intros k l l' Hk. apply fix_inv_step. lia. }
  unfold fix_chunk. rewrite Hrun. cbn. split; [split_and!; [done..|by eapply fix_inv_touched]|].
  destruct ok.
  - split; [|done]. intros _. destruct Hi as [? _]. lia.
  - split; [done|]. intros Hle. destruct Hok as (Hlt & _ & Hn).
    pose proof (fix_line_None c i ls Hi Hlt Hn). lia.
Qed.

Lemma touched_same_kind l l' : touched l l' → line_kind l' = line_kind l.
Proof. by intros [->|(_ & b & _ & ->)]. Qed.

#[global] Instance touched_refl : Reflexive touched.
Proof. intros l. by left. Qed.
#[global] Instance chunk_touched_refl : Reflexive chunk_touched.
Proof. intros c. split_and!; [done..|]. by apply Forall_Forall2_diag, Forall_true. Qed.

Lemma fix_chunks_touched addrs st :
  NoDup addrs → (∀ a, a ∈ addrs → a < length st) →
  Forall2 chunk_touched st (fix_chunks addrs st) ∧
  ∀ a, a ∉ addrs → fix_chunks addrs st !! a = st !! a.
Proof.
  intros Hnd. revert st. induction Hnd as [|a addrs Ha Hnd IH]; intros st Hlt; cbn.
  - split; [|done]. by apply Forall_Forall2_diag, Forall_true.
  - destruct (lookup_lt_is_Some_2 st a) as [c Hc]; [apply Hlt; left|]. rewrite Hc.
    destruct (fix_chunk_touched c) as [Ht _]. destruct (fix_chunk c) as [c' ok]; cbn in Ht.
    assert (Forall2 chunk_touched st (<[a := c']> st)) as Hst.
    { apply Forall2_same_length_lookup_2; [by rewrite length_insert|]. intros j x y Hx.
      rewrite list_lookup_insert_Some. intros [(-> & -> & _)|[_ Hy]]; by simplify_eq. }
    destruct ok.
    + destruct (IH (<[a := c']> st)) as [H1 H2].
      { intros b Hb. rewrite length_insert. apply Hlt. by right. }
      split.
      * apply Forall2_same_length_lookup_2.
        { by rewrite <-(Forall2_length _ _ _ H1), length_insert. }
        intros j x y Hx Hy. destruct (decide (j = a)) as [->|Hne].
        -- rewrite H2, list_lookup_insert_eq in Hy by (done || by eapply lookup_lt_Some). by simplify_eq.
        -- apply (Forall2_lookup_lr _ _ _ j _ _ H1); [|done]. by rewrite list_lookup_insert_ne.
      * intros b Hb. rewrite H2 by set_solver. rewrite list_lookup_insert_ne; [done|]. set_solver.
    + split; [done|]. intros b Hb. rewrite list_lookup_insert_ne; [done|]. set_solver.
Qed.

(** C36: [remove_trailing_whitespace_changes] returns the parsed patch set with the same
    patches, chunks and positions; no line changes its kind, a removed line never changes,
    and an added or context line at most gains one trailing blank.  Its only error is a
    diff that does not parse. *)
Theorem remove_trailing_whitespace_frame (generator : list string) :
  match parse_patchset generator, remove_trailing_whitespace_changes generator with
  | Ok st, Ok st' => patchset st' = patchset st ∧ Forall2 chunk_touched (chunks st) (chunks st')
  | Raise e, Raise e' => e = e'
  | _, _ => False
  end.
Proof.
  unfold remove_trailing_whitespace_changes.
  destruct (parse_patchset generator) as [st|e] eqn:E; cbn; [|done]. split; [done|].
  apply parse_patchset_ok in E as [_ _ Haddr _ _]. rewrite Haddr.
  apply fix_chunks_touched; [apply NoDup_seq|]. intros a [_ ?]%elem_of_seq. lia.
Qed.

(** *** Chunks whose context lines face themselves *)

(** A context line has the same place among the source and the destination lines: every
    replaced block has as many new lines as old ones. *)
Definition aligned (c : chunk) : Prop :=
  ∀ i j, src c !! i = Some j → j ∈ dst c → dst c !! i = Some j.

(** An added line that differs from its source line by one trailing blank takes the text of
    the source line back. *)
Definition resolved (s d : chunk_line) : chunk_line :=
  match cancels s d with Some _ => ChunkLine (line_kind d) (line_text s) | None => d end.

Definition no_newlines (c : chunk) : Prop :=
  Forall (λ l, has_char nl_char (line_text l) = false) (lines c).

Lemma string_app_neq s b : s ≠ s +:+ String b "".
Proof.
  intros Heq. apply (f_equal (length ∘ chars)) in Heq. cbn in Heq.
  rewrite chars_app, length_app in Heq. cbn in Heq. lia.
Qed.

Lemma cancels_same s d :
  has_char nl_char (line_text s) = false → line_text d = line_text s → cancels s d = None.
Proof.
  intros Hn Heq. destruct (cancels s d) as [g|] eqn:E; [|done].
  apply cancels_Some in E as (b & _ & -> & Hs). specialize (Hs Hn).
  rewrite <-Heq in Hs. by apply string_app_neq in Hs.
Qed.

Definition aligned_inv (c : chunk) (k : nat) (ls : list chunk_line) : Prop :=
  fix_inv c k ls ∧ (∀ j, j ∈ src c → ls !! j = lines c !! j) ∧
  ∀ i si di s d, i < k → src c !! i = Some si → dst c !! i = Some di →
    lines c !! si = Some s → lines c !! di = Some d → ls !! di = Some (resolved s d).

Lemma aligned_inv_step c k ls ls' :
  aligned c → no_newlines c → k < length (src c) →
  aligned_inv c k ls → fix_line (src c) (dst c) ls k = Some ls' → aligned_inv c (S k) ls'.
Proof.
  intros Hal Hnl Hk (Hinv & Hsrc & Hres) Hfix. pose proof (fix_inv_step c k ls ls' Hk Hinv Hfix) as Hinv'.
  assert (k < length (dst c)) as Hd by (destruct Hinv'; lia).
  destruct (fix_inv_read c k ls Hinv Hk Hd) as (si & di & s & s' & d & H1 & H2 & H3 & H4 & H5 & H6 & H7 & H8).
  assert (s' = s) as ->.
  { rewrite Hsrc, H3 in H4 by (by eapply list_elem_of_lookup_2). congruence. }
  rewrite (fix_line_eq _ _ _ _ si di s d) in Hfix by done. injection Hfix as <-.
  assert (has_char nl_char (line_text s) = false) as Hs by (by apply (Forall_lookup_1 _ _ _ _ Hnl H3)).
  assert (∀ g, cancels s d = Some g → di ∉ src c) as Hdi.
  { intros g Hg [m Hm]%list_elem_of_lookup_1. pose proof (Hal m di Hm ltac:(by eapply list_elem_of_lookup_2)) as Hm'.
    assert (m = k) as -> by (eapply NoDup_lookup; [apply NoDup_select|exact Hm'|exact H2]).
    simplify_eq. by rewrite cancels_same in Hg. }
  split_and!; [done| |].
  - intros j Hj. destruct (cancels s d) as [g|]; [|by apply Hsrc].
    rewrite list_lookup_insert_ne; [by apply Hsrc|]. intros ->. by eapply Hdi.
  - intros i si' di' s0 d0 Hi Hsi' Hdi' Hs0 Hd0. destruct (decide (i = k)) as [->|Hik].
    + simplify_eq. unfold resolved. destruct (cancels s d) as [g|] eqn:Ec; [|done].
      rewrite list_lookup_insert_eq by (by eapply lookup_lt_Some).
      apply cancels_Some in Ec as (b & _ & -> & Ht). unfold append_to_line. by rewrite Ht.
    + assert (di ≠ di') as Hne.
      { intros ->. apply Hik. eapply NoDup_lookup; [apply NoDup_select|exact Hdi'|exact H2]. }
      destruct (cancels s d); rewrite ?list_lookup_insert_ne by done;
        (eapply (Hres i); [lia|done..]).
Qed.

Lemma aligned_run c :
  aligned c → no_newlines c → length (src c) ≤ length (dst c) →
  ∃ ls, fix_chunk c = (Chunk ls (src_pos c) (dst_pos c), true) ∧ aligned_inv c (length (src c)) ls.
Proof.
  intros Hal Hnl Hle.
  destruct (fix_lines_inv (aligned_inv c) (src c) (dst c) (length (src c)) 0 (lines c))
    as (ls & ok & i & Hrun & Hi & Hok).
  { split_and!; [apply fix_inv_init|done|lia]. }
  { intros k l l' Hk. apply aligned_inv_step; [done..|lia]. }
  exists ls. unfold fix_chunk. rewrite Hrun. destruct ok; [by subst|].
  destruct Hok as (Hlt & _ & Hn). pose proof (fix_line_None c i ls (proj1 Hi) Hlt Hn). lia.
Qed.

Lemma touched_select c ls :
  Forall2 touched (lines c) ls →
  src (Chunk ls (src_pos c) (dst_pos c)) = src c ∧ dst (Chunk ls (src_pos c) (dst_pos c)) = dst c.
Proof.
  intros Ht. unfold src, dst. cbn. split; symmetry; apply select_ext; (eapply Forall2_impl; [exact Ht|]);
    intros l l' Hl%touched_same_kind; unfold is_src, is_dst; by rewrite Hl.
Qed.

Lemma touched_no_newlines c ls :
  no_newlines c → Forall2 touched (lines c) ls → Forall (λ l, has_char nl_char (line_text l) = false) ls.
Proof.
  unfold no_newlines. intros Hnl Ht. induction Ht as [|l l' ls0 ls Hl _ IH]; [constructor|].
  apply Forall_cons in Hnl as [Hn Hnl]. constructor; [|by apply IH].
  destruct Hl as [->|(_ & b & Hb & ->)]; [done|]. cbn. rewrite has_char_app, Hn. cbn.
  unfold is_blank in Hb. destruct (bool_decide_reflect (nl_char = b)) as [<-|]; [by vm_compute in Hb|done].
Qed.

(** The places of the pairs of lines the loop looks at. *)
Lemma pair_lines c i si di :
  src c !! i = Some si → dst c !! i = Some di →
  ∃ s d, lines c !! si = Some s ∧ lines c !! di = Some d.
Proof.
  intros Hs%list_elem_of_lookup_2 Hd%list_elem_of_lookup_2.
  apply elem_of_select_0 in Hs as (s & ? & _), Hd as (d & ? & _). by exists s, d.
Qed.

Lemma resolved_resolved s d :
  has_char nl_char (line_text s) = false → resolved s (resolved s d) = resolved s d.
Proof.
  intros Hs. unfold resolved at 2 3. destruct (cancels s d) eqn:E.
  - unfold resolved. by rewrite cancels_same.
  - unfold resolved. by rewrite E.
Qed.

(** Two runs of the filter leave the same lines as one. *)
Lemma aligned_idempotent c ls :
  aligned c → no_newlines c → length (src c) ≤ length (dst c) →
  aligned_inv c (length (src c)) ls →
  fix_chunk (Chunk ls (src_pos c) (dst_pos c)) = (Chunk ls (src_pos c) (dst_pos c), true).
Proof.
  intros Hal Hnl Hle (Hinv & Hsrc & Hres). pose proof (fix_inv_touched _ _ _ Hinv) as Ht.
  destruct (touched_select c ls Ht) as [Es Ed]. set (c' := Chunk ls (src_pos c) (dst_pos c)) in *.
  destruct (aligned_run c') as (ls' & Hrun & Hinv' & Hsrc' & Hres').
  { intros i j. rewrite Es, Ed. apply Hal. }
  { by apply (touched_no_newlines c). }
  { by rewrite Es, Ed. }
  rewrite Hrun. cbn. do 2 f_equal. apply list_eq. intros j. rewrite Es in *.
  destruct Hinv' as (_ & Hlen' & Hl'). change (lines c') with ls in *.
  destruct (decide (j ∈ take (length (src c)) (dst c))) as [Hin|Hno].
  - apply list_elem_of_lookup_1 in Hin as [i [Hdi Hi]%lookup_take_Some].
    destruct (lookup_lt_is_Some_2 _ _ Hi) as [si Hsi].
    destruct (pair_lines c i si j Hsi Hdi) as (s & d & Hs & Hd).
    pose proof (Hres i si j s d Hi Hsi Hdi Hs Hd) as Hj. rewrite Hj.
    rewrite <-(Hsrc si) in Hs by (by eapply list_elem_of_lookup_2).
    rewrite (Hres' i si j s (resolved s d)); rewrite ?Ed; try done.
    f_equal. apply resolved_resolved. eapply (Forall_lookup_1 _ _ _ _ (touched_no_newlines c ls Hnl Ht) Hs).
  - destruct (ls !! j) as [l|] eqn:Ej.
    + destruct (Hl' j l Ej) as (l' & -> & _ & Hsame). f_equal. apply Hsame.
      intros i Hi. rewrite Ed. intros Hdi. apply Hno, list_elem_of_lookup_2 with i.
      by rewrite lookup_take_lt.
    + apply lookup_ge_None in Ej. apply lookup_ge_None. lia.
Qed.

(** On a chunk whose context lines have the same place on both sides, the filter goes
    through to the end; every destination line that differs from its source line by one
    trailing blank gets the text of the source line back, every other line stays as it is,
    and a second run changes nothing. *)
Theorem fix_chunk_aligned (c : chunk) :
  aligned c → no_newlines c → length (src c) ≤ length (dst c) →
  ∃ c', fix_chunk c = (c', true) ∧
    (∀ i si di s d, src c !! i = Some si → dst c !! i = Some di →
       lines c !! si = Some s → lines c !! di = Some d → lines c' !! di = Some (resolved s d)) ∧
    (∀ j, j ∈ src c ∨ j ∉ dst c → lines c' !! j = lines c !! j) ∧
    fix_chunk c' = (c', true).
Proof.
  intros Hal Hnl Hle. destruct (aligned_run c Hal Hnl Hle) as (ls & Hrun & Hinv).
  eexists; split; [done|]. split_and!.
  - intros i si di s d Hsi. apply Hinv; [by eapply lookup_lt_Some|done].
  - intros j [Hj|Hj]; cbn; [by apply Hinv|]. destruct Hinv as ((_ & Hlen & Hl) & _).
    destruct (lines c !! j) as [l|] eqn:Ej.
    + destruct (Hl j l Ej) as (l' & -> & _ & Hsame). f_equal. apply Hsame.
      intros i _ Hi. by apply list_elem_of_lookup_2 in Hi.
    + apply lookup_ge_None in Ej. apply lookup_ge_None. lia.
  - by apply aligned_idempotent.
Qed.

Definition sample_chunk : chunk :=
  Chunk [ChunkLine BOTH "int x;"; ChunkLine SRC "foo "; ChunkLine SRC "bar";
         ChunkLine DST "foo"; ChunkLine DST "  bar"; ChunkLine BOTH "int y;"] 3 3.

Lemma fix_chunk_aligned_witness :
  ∃ c', fix_chunk sample_chunk = (c', true) ∧ lines c' !! 3 = Some (ChunkLine DST "foo ") ∧
    fix_chunk c' = (c', true).
Proof.
  destruct (fix_chunk_aligned sample_chunk) as (c' & H1 & H2 & _ & H4).
  - intros i j Hi Hj. change (dst sample_chunk) with [0; 3; 4; 5] in *.
    destruct i as [|[|[|[|i]]]]; vm_compute in Hi; simplify_eq; done || set_solver.
  - repeat constructor.
  - vm_compute. lia.
  - exists c'. split_and!; [done| |done]. by apply (H2 1 1 3 (ChunkLine SRC "foo ") (ChunkLine DST "foo")).
Defined.

(** Without that alignment the filter can change a context line, so that the patch no
    longer describes the file it was made from: here the removed line [foo ] faces the
    context line [foo], which the filter turns into a line the file does not have. *)
Theorem context_line_changed :
  let generator := esc <$> ["--- a.cc\n"; "+++ b.cc\n"; "@@ -1,2 +1,1 @@\n"; "-foo \n"; " foo\n"] in
  ∃ st st', parse_patchset generator = Ok st ∧ remove_trailing_whitespace_changes generator = Ok st' ∧
    chunks st = [Chunk [ChunkLine SRC "foo "; ChunkLine BOTH "foo"] 1 1] ∧
    chunks st' = [Chunk [ChunkLine SRC "foo "; ChunkLine BOTH "foo "] 1 1].
Proof. vm_compute. eexists _, _. split_and!; reflexivity. Qed.

(** ** The driver *)

(** The names [patch] uses for its backup and reject files. *)
Definition backup_name (p : string) : bool := ends_with p ".orig" || ends_with p ".rej".

Lemma ends_with_app t s : ends_with (t +:+ s) s = true.
Proof.
  unfold ends_with. apply startswith_spec. exists (implode (reverse (chars t))).
  by rewrite chars_app, reverse_app, implode_app.
Qed.

(** Invariants that only look at the files: printing keeps them. *)
Class FilesOnly (Inv : world → Prop) :=
  files_only : ∀ w out err, Inv w → Inv (World (files w) out err).

Section driver_facts.
Context `{Tools}.

(** The existing files of [m], other than those with a backup name, are as in [m]. *)
Definition intact (m : fs) (w : world) : Prop :=
  ∀ p c, m !! p = Some c → backup_name p = false → files w !! p = Some c.
(** [p] is not one of those files. *)
Definition outside (m : fs) (p : string) : Prop := m !! p = None ∨ backup_name p = true.

#[global] Instance intact_files m : FilesOnly (intact m).
Proof. intros w out err Hw p c. apply Hw. Qed.

Lemma intact_insert m w p s : outside m p → intact m w → intact m (set_file p s w).
Proof.
  intros Hp Hw q c Hq Hb. unfold set_file. cbn [files]. rewrite lookup_insert_ne; [by apply Hw|].
  intros ->. destruct Hp; congruence.
Qed.

Lemma inv_print_err `{FilesOnly Inv} s : inv_run Inv (print_err s) (λ _, True).
Proof. apply inv_modify; [|done]. intros w. apply files_only. Qed.
Lemma inv_print_out `{FilesOnly Inv} s : inv_run Inv (print_out s) (λ _, True).
Proof. apply inv_modify; [|done]. intros w. apply files_only. Qed.
Lemma inv_when Inv b x : inv_run Inv x (λ _, True) → inv_run Inv (when_ b x) (λ _, True).
Proof. destruct b; [done|]. intros _. by apply inv_ret. Qed.
Lemma inv_write m p s : outside m p → inv_run (intact m) (write_file p s) (λ _, True).
Proof. intros Hp. apply inv_modify; [|done]. intros w. by apply intact_insert. Qed.

Lemma inv_new_temp m : inv_run (intact m) new_temp (outside m).
Proof.
  intros w r w' Hw [= <- <-]. assert (outside m (mkstemp (files w))) as Ho.
  { unfold outside. destruct (m !! mkstemp (files w)) as [c|] eqn:E; [|by left].
    destruct (backup_name (mkstemp (files w))) eqn:Eb; [by right|].
    pose proof (mkstemp_fresh (files w)) as Hf. by rewrite (Hw _ _ E Eb) in Hf. }
  split; [by apply intact_insert|]. by intros ? [= <-].
Qed.

Lemma inv_read `{FilesOnly Inv} p : inv_run Inv (read_file p) (λ _, True).
Proof. eapply inv_bind; [apply inv_get|]. intros w _. by apply inv_lift. Qed.
Lemma inv_readlines `{FilesOnly Inv} p : inv_run Inv (readlines p) (λ _, True).
Proof. eapply inv_bind; [apply inv_read|]. intros s _. by apply inv_ret. Qed.
Lemma inv_copy m a b : outside m b → inv_run (intact m) (copyfile a b) (λ _, True).
Proof.
  intros Hb. unfold copyfile. case_decide; [apply inv_raise|].
  eapply inv_bind; [apply inv_read|]. intros s _. by apply inv_write.
Qed.
Lemma inv_config m level : inv_run (intact m) (uncrustify_config_file level) (λ _, True).
Proof.
  eapply inv_bind; [apply inv_new_temp|]. intros p Hp.
  eapply inv_bind; [by apply inv_write|]. intros _ _. by apply inv_ret.
Qed.

Lemma inv_uncrustify m cfg source output debug :
  outside m output → inv_run (intact m) (run_uncrustify cfg source output debug) (λ _, True).
Proof.
  intros Ho w r w' Hw. unfold run_uncrustify, mbind, stx_bind, get_st.
  destruct (uncrustify cfg source output (files w)) as [[[m' out] err]|] eqn:E.
  - apply inv_bind with (λ _, True).
    + intros w0 r0 w0' _ [= <- <-]. split; [|done]. intros p c Hp Hb. cbn [files].
      rewrite (uncrustify_frame _ _ _ _ _ _ _ p E); [by apply Hw|].
      intros ->. destruct Ho; congruence.
    + intros _ _. apply inv_when. eapply inv_bind; [apply inv_print_err|].
      intros _ _. apply inv_print_err.
    + done.
  - intros [= <- <-]. done.
Qed.

Lemma inv_patch m diff target debug :
  outside m target → inv_run (intact m) (run_patch diff target debug) (λ _, True).
Proof.
  intros Ho w r w' Hw. unfold run_patch, mbind, stx_bind, get_st.
  pose proof (patch_frame diff target (files w)) as Hfr.
  destruct (patch_cmd diff target (files w)) as [[[m' out] err]|]; [|by intros [= <- <-]].
  specialize (λ p, Hfr m' out err p eq_refl).
  apply inv_bind with (λ _, True).
  - intros w0 r0 w0' _ [= <- <-]. split; [|done]. intros p c Hp Hb. cbn [files].
    rewrite Hfr; [by apply Hw|..].
    + intros ->. destruct Ho; congruence.
    + intros ->. unfold backup_name in Hb. by rewrite ends_with_app in Hb.
    + intros ->. unfold backup_name in Hb. by rewrite ends_with_app, orb_true_r in Hb.
  - intros _ _. apply inv_when. eapply inv_bind; [apply inv_print_err|].
    intros _ _. apply inv_print_err.
  - done.
Qed.

Lemma inv_initial_diff m diff debug : inv_run (intact m) (write_initial_diff diff debug) (λ _, True).
Proof.
  destruct debug; [|by apply inv_ret]. eapply inv_bind; [apply inv_new_temp|]. intros p Hp.
  eapply inv_bind; [apply inv_print_err|]. intros _ _.
  eapply inv_bind; [by apply inv_write|]. intros _ _. by apply inv_ret.
Qed.

Lemma inv_final_diff m diff level p :
  outside m p → inv_run (intact m) (write_final_diff diff level p) (λ _, True).
Proof.
  intros Hp. unfold write_final_diff. destruct (level <? 3)%Z; [|by apply inv_write].
  eapply inv_bind with (Q := λ _, True); [by apply inv_lift|]. intros st _.
  destruct (patchset st); [by apply inv_ret|].
  eapply inv_bind with (Q := λ _, True); [by apply inv_lift|]. intros out _. by apply inv_write.
Qed.

Lemma inv_indent m source debug level : inv_run (intact m) (indent source debug level) (outside m).
Proof.
  eapply inv_bind; [apply inv_new_temp|]. intros output Ho.
  eapply inv_bind; [apply inv_config|]. intros cfg _.
  eapply inv_bind; [apply inv_when|].
  { eapply inv_bind; [apply inv_print_err|]. intros _ _.
    eapply inv_bind; [apply inv_print_err|]. intros _ _. apply inv_print_err. }
  intros _ _. eapply inv_bind; [by apply inv_uncrustify|]. intros _ _.
  eapply inv_bind; [apply inv_readlines|]. intros src _.
  eapply inv_bind; [apply inv_readlines|]. intros dst _.
  eapply inv_bind; [apply inv_initial_diff|]. intros diff _.
  eapply inv_bind; [apply inv_new_temp|]. intros final_diff Hf.
  eapply inv_bind; [by apply inv_final_diff|]. intros _ _.
  eapply inv_bind; [apply inv_when, inv_print_err|]. intros _ _.
  eapply inv_bind; [by apply inv_copy|]. intros _ _.
  eapply inv_bind; [by apply inv_patch|]. intros _ _. by apply inv_ret.
Qed.

Lemma inv_find_failed `{FilesOnly Inv} output : inv_run Inv (find_failed output) (λ _, True).
Proof.
  eapply inv_bind with (Q := λ _, True); [|intros rs _; by apply inv_ret].
  eapply inv_weaken; [apply (inv_map _ _ _ (λ _ _, True))|done].
  intros sd _. eapply inv_bind with (Q := λ _, True); [|intros eq _; by apply inv_ret].
  eapply inv_bind; [apply inv_read|]. intros x _. eapply inv_bind; [apply inv_read|]. intros y _.
  eapply inv_bind; [apply inv_get|]. intros w _. by apply inv_ret.
Qed.

Lemma inv_report `{FilesOnly Inv} src dst : inv_run Inv (report_diff src dst) (λ _, True).
Proof.
  eapply inv_bind; [apply inv_readlines|]. intros s _.
  eapply inv_bind; [apply inv_readlines|]. intros d _.
  apply inv_for. intros x _. apply inv_print_out.
Qed.

(** The files that may be written to are those [copyfile] is told to replace. *)
Lemma inv_indent_files m fnames diff debug level inplace :
  (inplace = true → Forall (outside m) fnames) →
  inv_run (intact m) (indent_files fnames diff debug level inplace) (λ _, True).
Proof.
  intros Hin. eapply inv_bind.
  { apply (inv_map _ _ _ (λ f sd, sd.1 = f)). intros f _. eapply inv_bind; [apply inv_indent|].
    intros dst _. by apply inv_ret. }
  intros output Hout. destruct inplace.
  - eapply inv_bind; [|intros _ _; by apply inv_ret]. apply inv_for. intros sd Hsd. apply inv_copy.
    apply list_elem_of_lookup_1 in Hsd as [i Hi].
    destruct (Forall2_lookup_r _ _ _ _ _ Hout Hi) as (f & Hf & ->).
    apply (Forall_lookup_1 _ _ _ _ (Hin eq_refl) Hf).
  - eapply inv_bind; [apply inv_find_failed|]. intros failed _. destruct failed as [|sd failed].
    { by apply inv_ret. }
    eapply inv_bind with (Q := λ _, True); [|intros _ _; by apply inv_ret]. destruct diff.
    + apply inv_for. intros x _. apply inv_report.
    + eapply inv_bind; [apply inv_print_out|]. intros _ _. apply inv_for.
      intros x _. apply inv_print_out.
Qed.
End driver_facts.

(** A small set of tools: the formatter drops leading white space, the diff replaces the
    whole file and [patch] applies such a diff. *)
Definition demo_diff (s d : list string) (fromfile tofile : string) : list string :=
  if decide (s = d) then [] else
  ["--- " +:+ fromfile +:+ nl; "+++ " +:+ tofile +:+ nl;
   "@@ -1," +:+ str_of_N (N.of_nat (length s)) +:+ " +1," +:+ str_of_N (N.of_nat (length d)) +:+ " @@" +:+ nl]
  ++ (String "-" <$> s) ++ (String "+" <$> d).

Definition demo_apply (diff : string) : string :=
  concat_str (omap (λ l, if startswith l "+++ " then None else strip_prefix "+" l)
                (lines_keepends (chars diff))).

Definition demo_patch (diff target : string) (m : fs) : fs :=
  match m !! diff with
  | Some (String c s) => <[target := demo_apply (String c s)]> m
  | _ => m
  end.

#[export] Program Instance demo_tools : Tools := {|
  mkstemp m := fresh (dom m : gset string);
  uncrustify cfg source output m :=
    Some (<[output := implode (drop_spaces (chars (default "" (m !! source))))]> m, "", "");
  patch_cmd diff target m :=
    Some (demo_patch diff target m, "", "");
  unified_diff := demo_diff;
  stat_equal _ _ _ := false
|}.
Next Obligation. intros m. apply (not_elem_of_dom (D := gset string)), is_fresh. Qed.
Next Obligation. intros cfg source output m m' out err p [= <- _ _] Hp. by rewrite lookup_insert_ne. Qed.
Next Obligation. intros cfg source output m m' out err [= <- _ _] _. rewrite lookup_insert_eq. by eexists. Qed.
Next Obligation.
  intros diff target m m' out err p [= <- _ _] Hp _ _. unfold demo_patch. destruct (m !! diff) as [[|c s]|]; [done| |done].
  by rewrite lookup_insert_ne.
Qed.
Next Obligation. intros diff target m m' out err [= <- _ _] Hd. unfold demo_patch. by rewrite Hd. Qed.
Next Obligation.
  intros diff target m m' out err p [= <- _ _] Hp. unfold demo_patch. destruct (m !! diff) as [[|c s]|]; [done| |done].
  by apply lookup_insert_is_Some'; right.
Qed.

Definition demo_world : world :=
  World {[ "a.cc" := esc "  int x;\n"; "b.cc" := esc "int y;\n" ]} [] [].

(** C17: the script never changes a file it has not been asked to rewrite: a file that
    exists before the call, is not named like a backup of [patch], and is not to be indented
    in place has the same contents afterwards, also when the call raises. *)
Theorem indent_files_frame `{Tools} (fnames : list string) (diff debug : bool) (level : Z)
    (inplace : bool) (w : world) (p c : string) :
  files w !! p = Some c → backup_name p = false → (inplace = true → p ∉ fnames) →
  files (indent_files fnames diff debug level inplace w).2 !! p = Some c.
Proof.
  intros Hp Hb Hin. destruct (indent_files _ _ _ _ _ w) as [r w'] eqn:E.
  assert (intact {[p := c]} w) as Hw.
  { intros q d [<- <-]%lookup_singleton_Some _. done. }
  destruct (inv_indent_files {[p := c]} fnames diff debug level inplace) with w r w'
    as [Hi _]; [|done..|by apply Hi; [apply lookup_singleton_eq|]].
  intros Hpl. apply Forall_forall. intros f Hf. left. apply lookup_singleton_None.
  intros ->. by apply Hin.
Qed.

Lemma indent_files_frame_witness :
  files (indent_files ["a.cc"] false false 0 true demo_world).2 !! "b.cc" = Some (esc "int y;\n").
Proof.
  apply (indent_files_frame ["a.cc"] false false 0 true demo_world "b.cc"); [done|done|].
  intros _. set_solver.
Defined.

Lemma demo_indent_run :
  files (indent_files ["a.cc"; "b.cc"] false false 0 true demo_world).2 !! "a.cc" = Some (esc "int x;\n").
Proof. vm_compute. reflexivity. Qed.

(** *** The [--debug] option *)

Section debug.
Context `{Tools} (Hinst : installed).

(** [w'] extends the files of [w], and [out] is a new file of it. *)
Definition extends (w w' : world) : Prop :=
  ∀ p x, files w !! p = Some x → files w' !! p = Some x.
Definition with_output (w : world) (out : string) (w' : world) : Prop :=
  extends w w' ∧ files w !! out = None ∧ is_Some (files w' !! out).

#[local] Instance extends_preorder : PreOrder extends.
Proof. split; [by intros w p x|]. intros w1 w2 w3 H12 H23 p x Hx. by apply H23, H12. Qed.

Lemma extends_new w w' t s : files w !! t = None → extends w w' → extends w (set_file t s w').
Proof.
  intros Ht Hw p x Hp. unfold set_file. cbn [files]. rewrite lookup_insert_ne; [by apply Hw|].
  intros ->. congruence.
Qed.

(** A new temporary file, after which [out] is still there. *)
Lemma runs_new_temp w out w' :
  with_output w out w' →
  runs new_temp w' (λ t w'', with_output w out w'' ∧ files w !! t = None ∧ t ≠ out ∧
                             files w'' !! t = Some "").
Proof.
  intros (Hext & Hout & [x Hx]). pose proof (mkstemp_fresh (files w')) as Hf.
  set (t := mkstemp (files w')) in *. eexists t, _. split; [done|].
  assert (files w !! t = None) as Ht.
  { destruct (files w !! t) as [y|] eqn:E; [|done]. apply Hext in E. congruence. }
  assert (t ≠ out) as Hne by congruence.
  split; [split_and!; [by apply extends_new|done|]|split_and!; [done|done|]].
  - exists x. unfold set_file. cbn [files]. by rewrite lookup_insert_ne.
  - unfold set_file. cbn [files]. by rewrite lookup_insert_eq.
Qed.

Lemma with_output_write w out w' t s :
  with_output w out w' → files w !! t = None → with_output w out (set_file t s w').
Proof.
  intros (Hext & Hout & Hx) Ht. split_and!; [by apply extends_new|done|].
  unfold set_file. cbn [files]. destruct (decide (t = out)) as [->|Hne].
  - rewrite lookup_insert_eq. by eexists.
  - by rewrite lookup_insert_ne.
Qed.

Lemma runs_readlines w p : is_Some (files w !! p) → runs (readlines p) w (λ _ w', w' = w).
Proof.
  intros [c Hc]. eexists _, w. split; [|done]. unfold readlines, read_file, mbind, stx_bind, get_st, lift_py.
  by rewrite Hc.
Qed.

Lemma runs_uncrustify w out w' cfg source :
  with_output w out w' →
  runs (run_uncrustify cfg source out true) w' (λ _ w'', with_output w out w'').
Proof.
  intros (Hext & Hout & Hx). unfold run_uncrustify, runs, mbind, stx_bind, get_st.
  destruct (uncrustify cfg source out (files w')) as [[[m o] e]|] eqn:E; [|by apply (proj1 Hinst) in E].
  eexists _, _. split; [done|]. split_and!; [|done|].
  - intros p x Hp. cbn [files print_err]. rewrite (uncrustify_frame _ _ _ _ _ _ _ p E).
    + by apply Hext.
    + intros ->. congruence.
  - cbn. eapply uncrustify_output; [exact E|done].
Qed.

(** With an exhausted generator the final diff file stays empty. *)
Lemma runs_final_diff w level p :
  files w !! p = Some "" →
  runs (write_final_diff [] level p) w
    (λ _ w', files w' !! p = Some "" ∧ ∀ q, q ≠ p → files w' !! q = files w !! q).
Proof.
  intros Hp. unfold write_final_diff. destruct (level <? 3)%Z.
  - by exists tt, w.
  - apply runs_modify. unfold set_file. cbn [files]. split; [by rewrite lookup_insert_eq|].
    intros q Hq. by rewrite lookup_insert_ne.
Qed.

Lemma runs_copyfile w a b c :
  files w !! a = Some c → a ≠ b → runs (copyfile a b) w (λ _ w', w' = set_file b c w).
Proof.
  intros Ha Hne. unfold copyfile. rewrite decide_False by done. eexists tt, _.
  split; [|done]. unfold read_file, write_file, mbind, stx_bind, get_st, lift_py, modify_st.
  by rewrite Ha.
Qed.

Lemma runs_patch_empty w p target :
  files w !! p = Some "" → runs (run_patch p target true) w (λ _ w', files w' = files w).
Proof.
  intros Hp. unfold run_patch, runs, mbind, stx_bind, get_st.
  destruct (patch_cmd p target (files w)) as [[[m o] e]|] eqn:E; [|by apply (proj2 Hinst) in E].
  rewrite (patch_empty _ _ _ _ _ _ E Hp). by eexists _, _.
Qed.

Lemma indent_debug w source c level :
  files w !! source = Some c →
  runs (indent source true level) w
    (λ out w', extends w w' ∧ files w' !! out = Some c).
Proof.
  intros Hc. unfold indent.
  apply runs_bind with (λ out w', with_output w out w' ∧ out ≠ source).
  { pose proof (mkstemp_fresh (files w)) as Hf. eexists _, _. split; [done|].
    split; [|intros <-; congruence]. split_and!; [by apply extends_new|done|].
    unfold set_file. cbn [files]. rewrite lookup_insert_eq. by eexists. }
  intros out w1 [Hw1 Hne]. apply runs_bind with (λ cfg w', with_output w out w').
  { eapply runs_bind; [by apply runs_new_temp|]. intros t w2 (Hw2 & Ht & _ & _).
    eapply runs_bind with (Q := λ _ w', with_output w out w');
      [apply runs_modify; by apply with_output_write|].
    intros [] w3 Hw3. by apply runs_ret. }
  intros cfg w2 Hw2. apply runs_bind with (λ _ w', with_output w out w'); [by eexists _, _|].
  intros [] w3 Hw3. eapply runs_bind; [by apply (runs_uncrustify w)|]. intros [] w4 Hw4.
  eapply runs_bind; [apply runs_readlines; by eexists; apply Hw4|]. intros src ? ->.
  eapply runs_bind; [apply runs_readlines, Hw4|]. intros dst ? ->.
  apply runs_bind with (λ diff w', with_output w out w' ∧ diff = []).
  { eapply runs_bind; [by apply runs_new_temp|]. intros t w5 (Hw5 & Ht & _ & _).
    eapply runs_bind with (Q := λ _ w', with_output w out w'); [by apply runs_modify|]. intros [] w6 Hw6.
    eapply runs_bind with (Q := λ _ w', with_output w out w');
      [apply runs_modify; by apply with_output_write|].
    intros [] w7 Hw7. by apply runs_ret. }
  intros diff w5 [Hw5 ->]. eapply runs_bind; [by apply runs_new_temp|].
  intros final w6 ((Hext & Hout & _) & Hfin & Hfo & Hemp).
  eapply runs_bind; [by apply runs_final_diff|]. intros [] w7 [Hemp7 Hsame].
  eapply runs_bind with (Q := λ _ w', files w' = files w7); [by eexists _, _|].
  intros [] w8 E8. assert (extends w w8) as Hext8.
  { intros p x Hp. rewrite E8, Hsame; [by apply Hext|]. intros ->. congruence. }
  eapply runs_bind; [apply (runs_copyfile _ _ _ c); [by apply Hext8|by intros ->]|]. intros [] ? ->.
  eapply runs_bind; [apply runs_patch_empty|].
  { unfold set_file. cbn [files]. rewrite lookup_insert_ne by done. by rewrite E8. }
  intros [] w9 E9. apply runs_ret. split.
  - intros p x Hp. rewrite E9. by apply (extends_new w w8 out c).
  - rewrite E9. unfold set_file. cbn [files]. by rewrite lookup_insert_eq.
Qed.

(** All copies are made, and each is equal to its source. *)
Lemma indent_debug_all fnames w level :
  (∀ f, f ∈ fnames → is_Some (files w !! f)) →
  runs (map_st (λ f, dst ← indent f true level; mret (f, dst)) fnames) w
    (λ output w', extends w w' ∧
       Forall (λ sd, ∃ c, files w' !! sd.1 = Some c ∧ files w' !! sd.2 = Some c) output).
Proof.
  revert w. induction fnames as [|f fnames IH]; intros w Hf; cbn.
  { apply runs_ret. split; [done|constructor]. }
  destruct (Hf f) as [c Hc]; [left|].
  eapply runs_bind with (Q := λ sd w', extends w w' ∧ files w' !! sd.1 = Some c ∧ files w' !! sd.2 = Some c).
  { eapply runs_bind; [by apply indent_debug|]. intros out w1 [Hext Hout]. apply runs_ret.
    split_and!; [done|by apply Hext|done]. }
  intros sd w1 (Hext & H1 & H2). eapply runs_bind; [apply IH|].
  { intros g Hg. destruct (Hf g) as [x Hx]; [by right|]. exists x. by apply Hext. }
  intros output w2 [Hext2 Hall]. apply runs_ret. split; [by etrans|]. constructor; [|done].
  exists c. split; by apply Hext2.
Qed.
End debug.

(** *** Comparing the copies with the sources *)

Section compare.
Context `{Tools} (Hinst : installed).

(** Every file of [w] is still there in [w']. *)
Definition kept (w w' : world) : Prop := ∀ p, is_Some (files w !! p) → is_Some (files w' !! p).

#[local] Instance kept_preorder : PreOrder kept.
Proof. split; [by intros w p|]. intros w1 w2 w3 H12 H23 p Hp. by apply H23, H12. Qed.

Lemma kept_set w p s : kept w (set_file p s w).
Proof. intros q Hq. apply lookup_insert_is_Some'. by right. Qed.

Lemma runs_when_kept w b m :
  (∀ w0, runs m w0 (λ _ w', kept w0 w')) → runs (when_ b m) w (λ _ w', kept w w').
Proof. destruct b; [done|]. intros _. by apply runs_ret. Qed.
Lemma runs_print_err w s : runs (print_err s) w (λ _ w', kept w w').
Proof. apply runs_modify. by intros p. Qed.

Lemma runs_temp_kept w :
  runs new_temp w (λ t w', kept w w' ∧ files w !! t = None ∧ is_Some (files w' !! t)).
Proof.
  eexists _, _. split; [reflexivity|]. split_and!; [apply kept_set|apply mkstemp_fresh|].
  apply lookup_insert_is_Some'. by left.
Qed.

Lemma runs_uncrustify_kept w cfg source output debug :
  is_Some (files w !! output) →
  runs (run_uncrustify cfg source output debug) w (λ _ w', kept w w').
Proof.
  intros Ho. unfold run_uncrustify, runs, mbind, stx_bind, get_st.
  destruct (uncrustify cfg source output (files w)) as [[[m o] e]|] eqn:E; [|by apply (proj1 Hinst) in E].
  assert (kept w (World m (stdout w) (stderr w))) as Hk.
  { intros p Hp. cbn. destruct (decide (p = output)) as [->|Hne]; [by eapply uncrustify_output|].
    by rewrite (uncrustify_frame _ _ _ _ _ _ _ p E Hne). }
  destruct debug; by eexists _, _.
Qed.

Lemma runs_patch_kept w diff target debug : runs (run_patch diff target debug) w (λ _ w', kept w w').
Proof.
  unfold run_patch, runs, mbind, stx_bind, get_st.
  destruct (patch_cmd diff target (files w)) as [[[m o] e]|] eqn:E; [|by apply (proj2 Hinst) in E].
  assert (kept w (World m (stdout w) (stderr w))) as Hk by (intros p Hp; by eapply patch_keeps).
  destruct debug; by eexists _, _.
Qed.

(** The final diff can be written when the diff parses or is not parsed. *)
Definition accepted (level : Z) (diff : list string) : Prop :=
  (3 <= level)%Z ∨ ∃ st, parse_patchset diff = Ok st.

Lemma fix_chunks_writable st :
  parser_ok st →
  let cs := fix_chunks (mjoin (patch_chunks <$> patchset st)) (chunks st) in
  Forall writable cs ∧ length cs = length (chunks st).
Proof.
  intros [Hwf _ Haddr _ _] cs. destruct (fix_chunks_touched (mjoin (patch_chunks <$> patchset st)) (chunks st))
    as [Ht _]; [rewrite Haddr; apply NoDup_seq|rewrite Haddr; intros a [_ ?]%elem_of_seq; lia|].
  split; [|symmetry; apply (Forall2_length _ _ _ Ht)].
  eapply Forall2_Forall_r; [exact Ht|]. eapply Forall_impl; [exact Hwf|]. intros c Hc c' (_ & _ & Hl).
  eapply Forall2_Forall_r; [exact Hl|]. eapply Forall_impl; [by apply wf_writable|].
  intros l Hk l' Hll. by rewrite (touched_same_kind _ _ Hll).
Qed.

Lemma write_filtered_ok diff st p :
  remove_trailing_whitespace_changes diff = Ok st → p ∈ patchset st →
  ∃ out, write_patch (chunks st) p = Ok out.
Proof.
  unfold remove_trailing_whitespace_changes. destruct (parse_patchset diff) as [st0|] eqn:E; [|done].
  intros [= <-] Hp. cbn in *. apply parse_patchset_ok in E.
  destruct (fix_chunks_writable st0 E) as [Hw Hlen]. apply py_foldl_returns, Forall_forall. intros a Ha out.
  assert (a ∈ mjoin (patch_chunks <$> patchset st0)) as Hin.
  { apply list_elem_of_join. exists (patch_chunks p). split; [done|]. by apply list_elem_of_fmap_2. }
  rewrite (po_addrs _ E) in Hin. apply elem_of_seq in Hin as [_ Hlt]. cbn in Hlt. rewrite <-Hlen in Hlt.
  apply lookup_lt_is_Some_2 in Hlt as [c Hc]. rewrite Hc. cbn.
  destruct (write_chunk_ok c) as (ws & -> & _); [by eapply Forall_lookup_1|by eexists].
Qed.

Lemma runs_final_kept w diff level p :
  accepted level diff → runs (write_final_diff diff level p) w (λ _ w', kept w w').
Proof.
  intros Hd. unfold write_final_diff. destruct (level <? 3)%Z eqn:Hl; [|apply runs_modify, kept_set].
  destruct Hd as [?|[st0 E]]; [lia|].
  destruct (remove_trailing_whitespace_changes diff) as [st|e] eqn:Er;
    [|unfold remove_trailing_whitespace_changes in Er; by rewrite E in Er].
  eapply runs_bind with (Q := λ st' w', st' = st ∧ w' = w); [by eexists _, _|]. intros _ _ [-> ->].
  destruct (patchset st) as [|p0 ps] eqn:Eps; [by apply runs_ret|].
  destruct (write_filtered_ok diff st p0 Er) as [out Hout]; [rewrite Eps; left|].
  eapply runs_bind with (Q := λ out' w', out' = out ∧ w' = w); [|intros _ _ [-> ->]; apply runs_modify, kept_set].
  exists out, w. unfold lift_py. by rewrite Hout.
Qed.

Lemma runs_initial_kept w diff debug :
  runs (write_initial_diff diff debug) w (λ diff' w', kept w w' ∧ diff' = if debug then [] else diff).
Proof.
  destruct debug; [|by apply runs_ret]. eapply runs_bind; [apply runs_temp_kept|]. intros t w1 (H1 & _ & _).
  eapply runs_bind; [apply runs_print_err|]. intros [] w2 H2.
  eapply runs_bind with (Q := λ _ w', kept w w'); [apply runs_modify; do 2 (etrans; [eassumption|]); apply kept_set|].
  intros [] w3 H3. by apply runs_ret.
Qed.

(** The diffs the driver meets can all be written. *)
Definition diffs_accepted (debug : bool) (level : Z) : Prop :=
  debug = true ∨ ∀ s d a b, accepted level (unified_diff s d a b).

Lemma runs_indent_kept w source debug level :
  diffs_accepted debug level → is_Some (files w !! source) →
  runs (indent source debug level) w (λ out w', kept w w' ∧ is_Some (files w' !! out)).
Proof.
  intros Hd Hs. unfold indent. eapply runs_bind; [apply runs_temp_kept|]. intros out w1 (H1 & Hout & Ho1).
  eapply runs_bind with (Q := λ _ w', kept w1 w').
  { eapply runs_bind; [apply runs_temp_kept|]. intros cfg w2 (H2 & _ & _).
    eapply runs_bind with (Q := λ _ w', kept w1 w'); [apply runs_modify; etrans; [exact H2|apply kept_set]|].
    intros [] w3 H3. by apply runs_ret. }
  intros cfg w2 H2. eapply runs_bind with (Q := λ _ w', kept w2 w'); [apply runs_when_kept; intros w0;
    eexists _, _; split; [reflexivity|by intros p]|].
  intros [] w3 H3. eapply runs_bind; [by apply runs_uncrustify_kept, H3, H2|]. intros [] w4 H4.
  assert (kept w1 w4) as H14 by (by etrans; [exact H2|etrans; [exact H3|]]).
  eapply runs_bind; [by apply runs_readlines, H14, H1|]. intros src ? ->.
  eapply runs_bind; [by apply runs_readlines, H14|]. intros dst ? ->.
  eapply runs_bind; [apply runs_initial_kept|]. intros diff w5 [H5 ->].
  eapply runs_bind; [apply runs_temp_kept|]. intros final w6 (H6 & _ & _).
  eapply runs_bind; [apply runs_final_kept|].
  { destruct Hd as [->|Hd]; [by right; eexists|]. destruct debug; [by right; eexists|apply Hd]. }
  intros [] w7 H7. eapply runs_bind; [apply runs_when_kept; intros; apply runs_print_err|]. intros [] w8 H8.
  assert (kept w1 w8) as H18 by (do 4 (etrans; [eassumption|]); done).
  destruct (H18 _ (H1 _ Hs)) as [c Hc].
  eapply runs_bind; [apply (runs_copyfile _ _ _ c); [done|intros ->; by destruct Hs; simplify_eq]|]. intros [] ? ->.
  eapply runs_bind; [apply runs_patch_kept|]. intros [] w9 H9. apply runs_ret.
  assert (kept w1 w9) as H19 by (etrans; [exact H18|]; etrans; [apply kept_set|exact H9]).
  split; [by etrans|]. by apply H19.
Qed.

Lemma runs_indent_all_kept fnames w debug level :
  diffs_accepted debug level → (∀ f, f ∈ fnames → is_Some (files w !! f)) →
  runs (map_st (λ f, dst ← indent f debug level; mret (f, dst)) fnames) w
    (λ output w', kept w w' ∧ output.*1 = fnames ∧
       Forall (λ sd, is_Some (files w' !! sd.1) ∧ is_Some (files w' !! sd.2)) output).
Proof.
  intros Hd. revert w. induction fnames as [|f fnames IH]; intros w Hf; cbn.
  { apply runs_ret. by split_and!. }
  eapply runs_bind with (Q := λ sd w', kept w w' ∧ sd.1 = f ∧ is_Some (files w' !! sd.2)).
  { eapply runs_bind; [apply runs_indent_kept; [done|apply Hf; left]|]. intros out w1 [Hk Ho]. by apply runs_ret. }
  intros [s d] w1 (Hk & Hs & Ho). cbn in Hs, Ho. subst s. eapply runs_bind; [apply IH|].
  { intros g Hg. apply Hk, Hf. by right. }
  intros output w2 (Hk2 & Hfst & Hall). apply runs_ret. split_and!; [by etrans|cbn; by f_equal|].
  constructor; [|done]. cbn. split; [apply Hk2, Hk, Hf; left|by apply Hk2].
Qed.

(** [filecmp.cmp] sees a difference. *)
Definition differ (w : world) (sd : string * string) : Prop :=
  stat_equal (files w) sd.1 sd.2 = false ∧ files w !! sd.1 ≠ files w !! sd.2.
#[global] Instance differ_dec w sd : Decision (differ w sd).
Proof. unfold differ. apply _. Defined.

Lemma filecmp_run sd w :
  is_Some (files w !! sd.1) → is_Some (files w !! sd.2) →
  filecmp sd.1 sd.2 w = (Ok (negb (bool_decide (differ w sd))), w).
Proof.
  intros [x Hx] [y Hy]. unfold filecmp, read_file, mbind, stx_bind, get_st, lift_py.
  case_bool_decide as Hd; unfold differ in Hd; rewrite Hx, Hy in *; cbn.
  - destruct Hd as [-> Hne]. by rewrite bool_decide_eq_false_2 by congruence.
  - destruct (stat_equal (files w) sd.1 sd.2); [done|]. rewrite bool_decide_eq_true_2; [done|].
    apply dec_stable. intros Hne. apply Hd. split; congruence.
Qed.

Lemma runs_find_failed output w :
  Forall (λ sd, is_Some (files w !! sd.1) ∧ is_Some (files w !! sd.2)) output →
  find_failed output w = (Ok (filter (differ w) output), w).
Proof.
  intros Hall. assert (runs (map_st (λ sd, eq ← filecmp sd.1 sd.2; mret (if eq : bool then [] else [sd])) output)
    w (λ rs w', mjoin rs = filter (differ w) output ∧ w' = w)) as (rs & ? & Hm & Hrs & ->).
  { induction Hall as [|sd output [Hx Hy] _ IH]; cbn [map_st]; [by apply runs_ret|].
    eapply runs_bind with (Q := λ r w', r = (if decide (differ w sd) then [sd] else []) ∧ w' = w).
    - eexists _, w. split; [|done]. unfold mbind, stx_bind. rewrite (filecmp_run sd w Hx Hy).
      unfold bool_decide, mret, stx_ret, decide. by destruct (differ_dec w sd).
    - intros r ? [-> ->]. eapply runs_bind; [exact IH|]. intros rs ? [Hrs ->]. apply runs_ret. split; [|done].
      rewrite filter_cons, <-Hrs. by case_decide. }
  unfold find_failed, mbind at 1, stx_bind at 1. rewrite Hm. by rewrite <-Hrs.
Qed.

Lemma print_lines_run ls w :
  for_st print_out ls w = (Ok tt, World (files w) (stdout w ++ ls) (stderr w)).
Proof.
  revert w. induction ls as [|l ls IH]; intros w; cbn.
  - rewrite app_nil_r. by destruct w.
  - unfold mbind, stx_bind. cbn. rewrite IH. cbn. by rewrite <-app_assoc.
Qed.

Lemma for_print_map {A} (f : A → string) l :
  for_st (λ x, print_out (f x)) l = for_st print_out (f <$> l).
Proof. induction l as [|x l IH]; cbn; [done|]. by rewrite IH. Qed.
End compare.

(** Check mode with uncrustify and patch installed and existing files.  If the diffs can be parsed,
    or are not parsed (level 3, or [--debug]), then the script returns: it makes a copy of
    every file, in order, and returns True exactly when the comparison finds no copy that
    differs from its source; otherwise it returns False and prints the number of the files
    that differ and their names, in order.  The files are only read. *)
Theorem indent_files_check `{Tools} (fnames : list string) (debug : bool) (level : Z) (w : world) :
  installed →
  (∀ f, f ∈ fnames → is_Some (files w !! f)) →
  diffs_accepted debug level →
  ∃ output w1 w',
    map_st (λ f, dst ← indent f debug level; mret (f, dst)) fnames w = (Ok output, w1) ∧
    output.*1 = fnames ∧
    let failed := filter (differ w1) output in
    indent_files fnames false debug level false w = (Ok (bool_decide (failed = [])), w') ∧
    files w' = files w1 ∧
    stdout w' = stdout w1 ++
      match failed with
      | [] => []
      | _ => ("Found " +:+ str_of_N (N.of_nat (length failed)) +:+ " badly indented files:" +:+ nl)
             :: ((λ sd, "  " +:+ sd.1 +:+ nl) <$> failed)
      end.
Proof.
  intros Hinst Hf Hd.
  destruct (runs_indent_all_kept Hinst fnames w debug level Hd Hf) as (output & w1 & Hrun & _ & Hfst & Hall).
  exists output, w1. unfold indent_files, mbind at 2, stx_bind at 2. rewrite Hrun. cbn zeta.
  unfold mbind at 1, stx_bind at 1. rewrite (runs_find_failed output w1 Hall).
  destruct (filter (differ w1) output) as [|sd failed].
  - exists w1. split_and!; [done..|]. by rewrite app_nil_r.
  - rewrite for_print_map. unfold mbind, stx_bind, print_out at 1, modify_st at 1. rewrite print_lines_run.
    eexists. split_and!; [done..|].
    cbn [stdout]. by rewrite <-app_assoc.
Qed.

Lemma indent_files_check_witness :
  ∃ output w1 w',
    map_st (λ f, dst ← indent f false 3; mret (f, dst)) ["b.cc"; "a.cc"] demo_world = (Ok output, w1) ∧
    indent_files ["b.cc"; "a.cc"] false false 3 false demo_world = (Ok false, w') ∧
    files w' = files w1 ∧
    stdout w' = [esc "Found 1 badly indented files:\n"; esc "  a.cc\n"].
Proof.
  destruct (indent_files_check ["b.cc"; "a.cc"] false 3 demo_world) as (output & w1 & w' & H1 & _ & H2 & H3 & _).
  - done.
  - apply Forall_forall. repeat constructor; by eexists.
  - right. by left.
  - assert ((indent_files ["b.cc"; "a.cc"] false false 3 false demo_world).1 = Ok false) as Hr by by vm_compute.
    rewrite H2 in Hr. cbn in Hr. rewrite Hr in H2. exists output, w1, w'. split_and!; [done..|].
    replace w' with (indent_files ["b.cc"; "a.cc"] false false 3 false demo_world).2 by (by rewrite H2).
    by vm_compute.
Defined.

(** With [--debug] the check passes whatever the files look like: the diff generator
    has been consumed by the debug output when the final diff is written. *)
Theorem debug_check_passes `{Tools} (fnames : list string) (diff : bool) (level : Z) (w : world) :
  installed →
  (∀ f, f ∈ fnames → is_Some (files w !! f)) →
  ∃ w', indent_files fnames diff true level false w = (Ok true, w').
Proof.
  intros Hinst Hf. destruct (indent_debug_all Hinst fnames w level Hf) as (output & w1 & Hrun & _ & Hall).
  unfold indent_files, mbind at 1, stx_bind at 1. rewrite Hrun.
  assert (runs (find_failed output) w1 (λ failed w2, failed = [] ∧ w2 = w1)) as (failed & w2 & Hff & -> & ->).
  { clear Hrun. assert (runs (map_st (λ sd, eq ← filecmp sd.1 sd.2; mret (if eq : bool then [] else [sd])) output)
      w1 (λ rs w2, mjoin rs = [] ∧ w2 = w1)) as Hm.
    { induction Hall as [|[s d] output (c & Hs & Hd) _ IH]; cbn in *; [by apply runs_ret|].
      eapply runs_bind with (Q := λ r w2, r = [] ∧ w2 = w1).
      { exists [], w1. split; [|done]. unfold filecmp, read_file, mbind, stx_bind, get_st, lift_py.
        rewrite Hs. cbn. rewrite Hd. cbn. rewrite bool_decide_eq_true_2 by done. by rewrite orb_true_r. }
      intros r w2 [-> ->]. eapply runs_bind; [exact IH|]. intros rs w3 [Hrs ->]. by apply runs_ret. }
    eapply runs_bind; [exact Hm|]. intros rs w2 [Hrs ->]. by apply runs_ret. }
  exists w1. unfold mbind, stx_bind. by rewrite Hff.
Qed.

(** The same files: the check fails without [--debug] and passes with it. *)
Lemma debug_check_passes_witness :
  (indent_files ["a.cc"] false false 0 false demo_world).1 = Ok false ∧
  ∃ w', indent_files ["a.cc"] false true 0 false demo_world = (Ok true, w').
Proof.
  split; [by vm_compute|]. apply (debug_check_passes ["a.cc"] false 0 demo_world); [done|].
  intros f ->%list_elem_of_singleton. by eexists.
Defined.

(** ** The configuration file *)

(** A line of an uncrustify configuration: blank, a comment or an assignment to a name. *)
Definition is_name_char (c : ascii) : bool :=
  let n := nat_of_ascii c in
  (97 <=? n) && (n <=? 122) || (48 <=? n) && (n <=? 57) || bool_decide (c = "_"%char).
Definition config_line (l : string) : bool :=
  bool_decide (l = nl) || startswith l "#" ||
  match split_once "=" l with
  | Some (name, value) =>
      negb (bool_decide (name = "")) && forallb is_name_char (chars name) && negb (bool_decide (value = nl))
  | None => false
  end.

(** The configuration of a level extends that of every lower level, so a higher level
    includes the settings of the lower ones, and consists of blank lines, comments and
    assignments only. *)
Theorem uncrustify_config_levels (level : Z) :
  (∀ lower, (lower <= level)%Z → ∃ ext, uncrustify_config level = uncrustify_config lower +:+ ext) ∧
  forallb config_line (lines_keepends (chars (uncrustify_config level))) = true.
Proof.
  assert (∀ l, uncrustify_config l = uncrustify_config (Z.max 0 (Z.min l 2))) as Hclamp.
  { intros l. unfold uncrustify_config. bool_cases; try lia; done. }
  split.
  - intros lower Hle. unfold uncrustify_config. generalize (block level0) (block level1) (block level2).
    intros b0 b1 b2. bool_cases; try lia;
      rewrite ?string_app_nil_r, <-?string_app_assoc;
      [exists ""|exists b2|exists (b1 +:+ b2)|exists ""|exists b1|exists ""];
      by rewrite ?string_app_nil_r, <-?string_app_assoc.
  - rewrite Hclamp. assert (Z.max 0 (Z.min level 2) = 0 ∨ Z.max 0 (Z.min level 2) = 1 ∨
      Z.max 0 (Z.min level 2) = 2)%Z as [-> | [-> | ->]] by lia; by vm_compute.
Qed.
