(* ===== verification/GridData.v ===== *)
(** * GridData: the data model of [utils/grid.py]

    [DataRange], the events, the three kinds of timelines, [Timelines], [Colors] and
    [read_data].  The script is written for Python 2 (PyGTK, [has_key], [list.sort] with a
    comparison function), so [/] on integers is floor division.  Times in the data are
    integers; the bounds of the visible window, which the renderer computes, can be floats,
    and Python compares an integer with a float exactly, so a window bound is a rational. *)

From stdpp Require Import base list strings gmap sorting.
From Stdlib Require Import Ascii QArith Lqa.
From S2P Require Import Prelude.
Open Scope nat_scope.

(** ** Data *)

Record data_range := DataRange { range_start : Z; range_end : Z; range_value : string }.

(** [EventString] and [EventInt] differ in the type of the value. *)
Inductive event_value := VStr (s : string) | VInt (i : Z).
Record event := Event { at_ : Z; event_val : event_value }.

(** The comparison functions given to [list.sort]. *)
Definition ranges_cmp (a b : data_range) : Z :=
  let diff := (range_start a - range_start b)%Z in
  if (diff <? 0)%Z then -1 else if (0 <? diff)%Z then 1 else 0.
Definition events_cmp (a b : event) : Z :=
  let diff := (at_ a - at_ b)%Z in
  if (diff <? 0)%Z then -1 else if (0 <? diff)%Z then 1 else 0.
Definition sort_by {A} (cmp : A → A → Z) (l : list A) : list A :=
  stable_sort (λ a b, (cmp a b <=? 0)%Z) l.

Record timeline_data_range := TimelineDataRange { tdr_name : string; tdr_ranges : list data_range }.
Record timeline_event := TimelineEvent { te_name : string; te_events : list event }.
Record timeline := Timeline {
  tl_ranges : list timeline_data_range;
  tl_event_str : list timeline_event;
  tl_event_int : list timeline_event;
  tl_name : string
}.
Definition timelines := list timeline.

(** Exact comparison of a window bound with an integer of the data. *)
Definition key_lt (k : Q) (z : Z) : bool := negb (Qle_bool (inject_Z z) k).
Definition key_le (k : Q) (z : Z) : bool := Qle_bool k (inject_Z z).
Definition key_ge (k : Q) (z : Z) : bool := Qle_bool (inject_Z z) k.
Definition key_eq (k : Q) (z : Z) : bool := Qeq_bool k (inject_Z z).

(** ** [TimelineDataRange] *)

Module RangeLine.
(** The binary search; [None] when the fuel runs out. *)
Fixpoint search_loop (fuel : nat) (ranges : list data_range) (key : Q) (l u : Z) : option Z :=
  if (u <? l)%Z then Some (-1)%Z else
  match fuel with
  | O => None
  | S fuel =>
      let i := ((l + u) / 2)%Z in
      r ← py_nth ranges i;
      if key_ge key (range_start r) && key_le key (range_end r) then Some i
      else if key_lt key (range_start r) then search_loop fuel ranges key l (i - 1)
      else search_loop fuel ranges key (i + 1) u
  end.
Definition search (t : timeline_data_range) (key : Q) : option Z :=
  search_loop (length (tdr_ranges t)) (tdr_ranges t) key 0 (length (tdr_ranges t) - 1).

Definition add_range (t : timeline_data_range) (r : data_range) : timeline_data_range :=
  TimelineDataRange (tdr_name t) (tdr_ranges t ++ [r]).
Definition get_all (t : timeline_data_range) : list data_range := tdr_ranges t.

Definition get_ranges (t : timeline_data_range) (start end_ : Q) : option (list data_range) :=
  s ← search t start;
  e ← search t end_;
  Some (if ((s =? -1) && (e =? -1))%Z then []
        else if (s =? -1)%Z then py_slice (tdr_ranges t) 0 (e + 1)
        else if (e =? -1)%Z then py_slice (tdr_ranges t) s (length (tdr_ranges t))
        else py_slice (tdr_ranges t) s (e + 1)).

Definition get_ranges_bounds (t : timeline_data_range) (start end_ : Q) : option (Z * Z) :=
  s ← search t start;
  e ← search t end_;
  Some (if ((s =? -1) && (e =? -1))%Z then (0, 0)%Z
        else if (s =? -1)%Z then (0, e + 1)%Z
        else if (e =? -1)%Z then (s, Z.of_nat (length (tdr_ranges t)))
        else (s, e + 1)%Z).

Definition sort (t : timeline_data_range) : timeline_data_range :=
  TimelineDataRange (tdr_name t) (sort_by ranges_cmp (tdr_ranges t)).

Definition get_bounds (t : timeline_data_range) : Z * Z :=
  match head (tdr_ranges t), last (tdr_ranges t) with
  | Some first, Some last => (range_start first, range_end last)
  | _, _ => (0, 0)%Z
  end.
End RangeLine.

(** ** [TimelineEvent] *)

Module EventLine.
Fixpoint search_loop (fuel : nat) (events : list event) (key : Q) (l u : Z) : option Z :=
  if (u <? l)%Z then Some l else
  match fuel with
  | O => None
  | S fuel =>
      let i := ((l + u) / 2)%Z in
      ev ← py_nth events i;
      if key_eq key (at_ ev) then Some i
      else if key_lt key (at_ ev) then search_loop fuel events key l (i - 1)
      else search_loop fuel events key (i + 1) u
  end.
Definition search (t : timeline_event) (key : Q) : option Z :=
  search_loop (length (te_events t)) (te_events t) key 0 (length (te_events t) - 1).

Definition add_event (t : timeline_event) (ev : event) : timeline_event :=
  TimelineEvent (te_name t) (te_events t ++ [ev]).

Definition get_events (t : timeline_event) (start end_ : Q) : option (list event) :=
  s ← search t start;
  e ← search t end_;
  Some (py_slice (te_events t) s (e + 1)).
Definition get_events_bounds (t : timeline_event) (start end_ : Q) : option (Z * Z) :=
  s ← search t start;
  e ← search t end_;
  Some (s, (e + 1)%Z).

Definition sort (t : timeline_event) : timeline_event :=
  TimelineEvent (te_name t) (sort_by events_cmp (te_events t)).

Definition get_bounds (t : timeline_event) : Z * Z :=
  match head (te_events t), last (te_events t) with
  | Some first, Some last => (at_ first, at_ last)
  | _, _ => (0, 0)%Z
  end.
End EventLine.

(** ** [Timeline] and [Timelines]

    The getters return a reference to an object they find or append, which the caller then
    changes: they are modelled as the index of the object in its list. *)

(** The first index whose item has the name, or a new item at the end. *)
Fixpoint find_index {A} (name_of : A → string) (name : string) (l : list A) : option nat :=
  match l with
  | [] => None
  | x :: l => if decide (name_of x = name) then Some 0 else S <$> find_index name_of name l
  end.
Definition get_or_add {A} (name_of : A → string) (new : string → A) (name : string) (l : list A)
    : list A * nat :=
  match find_index name_of name l with
  | Some i => (l, i)
  | None => (l ++ [new name], length l)
  end.

Definition set_ranges (t : timeline) (l : list timeline_data_range) : timeline :=
  Timeline l (tl_event_str t) (tl_event_int t) (tl_name t).
Definition set_event_str (t : timeline) (l : list timeline_event) : timeline :=
  Timeline (tl_ranges t) l (tl_event_int t) (tl_name t).
Definition set_event_int (t : timeline) (l : list timeline_event) : timeline :=
  Timeline (tl_ranges t) (tl_event_str t) l (tl_name t).

Definition get_range (t : timeline) (name : string) : timeline * nat :=
  let '(l, i) := get_or_add tdr_name (λ n, TimelineDataRange n []) name (tl_ranges t) in
  (set_ranges t l, i).
Definition get_event_str (t : timeline) (name : string) : timeline * nat :=
  let '(l, i) := get_or_add te_name (λ n, TimelineEvent n []) name (tl_event_str t) in
  (set_event_str t l, i).
Definition get_event_int (t : timeline) (name : string) : timeline * nat :=
  let '(l, i) := get_or_add te_name (λ n, TimelineEvent n []) name (tl_event_int t) in
  (set_event_int t l, i).

Definition timeline_sort (t : timeline) : timeline :=
  Timeline (RangeLine.sort <$> tl_ranges t) (EventLine.sort <$> tl_event_str t)
    (EventLine.sort <$> tl_event_int t) (tl_name t).

(** [if lo' < lo: lo = lo'] and [if hi' > hi: hi = hi']. *)
Definition widen (b b' : Z * Z) : Z * Z :=
  ((if b'.1 <? b.1 then b'.1 else b.1)%Z, (if b.2 <? b'.2 then b'.2 else b.2)%Z).
Definition timeline_bounds (t : timeline) : Z * Z :=
  let b := foldl (λ b r, widen b (RangeLine.get_bounds r)) (0, 0)%Z (tl_ranges t) in
  let b := foldl (λ b e, widen b (EventLine.get_bounds e)) b (tl_event_str t) in
  foldl (λ b e, widen b (EventLine.get_bounds e)) b (tl_event_int t).

Definition get (ts : timelines) (name : string) : timelines * nat :=
  get_or_add tl_name (λ n, Timeline [] [] [] n) name ts.
Definition sort (ts : timelines) : timelines := timeline_sort <$> ts.
Definition get_bounds (ts : timelines) : Z * Z :=
  foldl (λ b t, widen b (timeline_bounds t)) (0, 0)%Z ts.
Definition get_all_range_values `{!DictIter string} (ts : timelines) : list string :=
  let range_values : gmap string Z :=
    foldl (λ m t, foldl (λ m rs, foldl (λ m ran, <[range_value ran := 1%Z]> m) m (RangeLine.get_all rs))
                    m (tl_ranges t)) ∅ ts in
  dict_keys 0 range_values.

(** ** [Colors] *)

Record color := Color { c_r : Z; c_g : Z; c_b : Z }.
#[global] Instance color_eq_dec : EqDecision color.
Proof. solve_decision. Defined.

(** The class attribute, which every [Colors] object shares. *)
Definition default_colors : list color :=
  [Color 1 0 0; Color 0 1 0; Color 0 0 1; Color 1 1 0; Color 1 0 1; Color 0 1 1].
Record colors := Colors { color_of : gmap string color; defaults_left : list color }.

Definition add_color (c : colors) (name : string) (col : color) : colors :=
  Colors (<[name := col]> (color_of c)) (defaults_left c).

(** [default_colors.pop()] takes the last item. *)
Definition lookup_color (c : colors) (name : string) : py exn (color * colors) :=
  match color_of c !! name with
  | Some col => Ok (col, c)
  | None =>
      match last (defaults_left c) with
      | None => Raise IndexError
      | Some col => Ok (col, Colors (<[name := col]> (color_of c)) (removelast (defaults_left c)))
      end
  end.

(** The loop of [main] that colors the legend. *)
Fixpoint lookup_colors (c : colors) (names : list string) : py exn (list color * colors) :=
  match names with
  | [] => Ok ([], c)
  | name :: names =>
      '(col, c) ← lookup_color c name;
      '(cols, c) ← lookup_colors c names;
      Ok (col :: cols, c)
  end.

(** ** [read_data] *)

(** [([^ ]+)]: the longest run without a space, which must not be empty. *)
Fixpoint span_word (s : string) : string * string :=
  match s with
  | String c r => if decide (c = " "%char) then ("", s) else let '(a, b) := span_word r in (String c a, b)
  | EmptyString => ("", "")
  end.
Definition re_word (s : string) : option (string * string) :=
  let '(w, rest) := span_word s in if decide (w = "") then None else Some (w, rest).

(** [([0-9]+)], as the integer the code makes of it. *)
Definition re_int (s : string) : option (Z * string) :=
  let '(d, rest) := span_digits s in
  if decide (d = "") then None else n ← int_of_str d; Some (n, rest).

Definition hex_digit (c : ascii) : option Z :=
  let n := Z.of_nat (nat_of_ascii c) in
  if (48 <=? n)%Z && (n <=? 57)%Z then Some (n - 48)%Z
  else if (97 <=? n)%Z && (n <=? 102)%Z then Some (n - 87)%Z
  else if (65 <=? n)%Z && (n <=? 70)%Z then Some (n - 55)%Z
  else None.
(** [([a-fA-F0-9]{2,2})] and [int(..., 16)]. *)
Definition re_hex2 (s : string) : option (Z * string) :=
  match s with
  | String a (String b rest) => x ← hex_digit a; y ← hex_digit b; Some ((16 * x + y)%Z, rest)
  | _ => None
  end.

Definition m1 (line : string) : option (string * string * string * Z * Z) :=
  s ← strip_prefix "range " line;
  '(g1, s) ← re_word s; s ← strip_prefix " " s;
  '(g2, s) ← re_word s; s ← strip_prefix " " s;
  '(g3, s) ← re_word s; s ← strip_prefix " " s;
  '(g4, s) ← re_int s; s ← strip_prefix " " s;
  '(g5, _) ← re_int s; Some (g1, g2, g3, g4, g5).
Definition m2 (line : string) : option (string * string * string * Z) :=
  s ← strip_prefix "event-str " line;
  '(g1, s) ← re_word s; s ← strip_prefix " " s;
  '(g2, s) ← re_word s; s ← strip_prefix " " s;
  '(g3, s) ← re_word s; s ← strip_prefix " " s;
  '(g4, _) ← re_int s; Some (g1, g2, g3, g4).
Definition m3 (line : string) : option (string * string * Z * Z) :=
  s ← strip_prefix "event-int " line;
  '(g1, s) ← re_word s; s ← strip_prefix " " s;
  '(g2, s) ← re_word s; s ← strip_prefix " " s;
  '(g3, s) ← re_int s; s ← strip_prefix " " s;
  '(g4, _) ← re_int s; Some (g1, g2, g3, g4).
Definition m4 (line : string) : option (string * Z * Z * Z) :=
  s ← strip_prefix "color " line;
  '(g1, s) ← re_word s; s ← strip_prefix " #" s;
  '(g2, s) ← re_hex2 s; '(g3, s) ← re_hex2 s; '(g4, _) ← re_hex2 s;
  Some (g1, g2, g3, g4).

(** The objects a line creates or finds in a timeline, and what it appends to them. *)
Definition put_range (name : string) (d : data_range) (t : timeline) : timeline :=
  let '(t, j) := get_range t name in
  set_ranges t (alter (λ rang, RangeLine.add_range rang d) j (tl_ranges t)).
Definition put_event_str (name : string) (e : event) (t : timeline) : timeline :=
  let '(t, j) := get_event_str t name in
  set_event_str t (alter (λ ev, EventLine.add_event ev e) j (tl_event_str t)).
Definition put_event_int (name : string) (e : event) (t : timeline) : timeline :=
  let '(t, j) := get_event_int t name in
  set_event_int t (alter (λ ev, EventLine.add_event ev e) j (tl_event_int t)).

(** One line of the file. *)
Definition read_line (st : colors * timelines) (line : string) : colors * timelines :=
  let '(cs, ts) := st in
  match m1 line with
  | Some (g1, g2, g3, g4, g5) =>
      let '(ts, i) := get ts g1 in (cs, alter (put_range g2 (DataRange g4 g5 g3)) i ts)
  | None =>
  match m2 line with
  | Some (g1, g2, g3, g4) =>
      let '(ts, i) := get ts g1 in (cs, alter (put_event_str g2 (Event g4 (VStr g3))) i ts)
  | None =>
  match m3 line with
  | Some (g1, g2, g3, g4) =>
      let '(ts, i) := get ts g1 in (cs, alter (put_event_int g2 (Event g4 (VInt g3))) i ts)
  | None =>
  match m4 line with
  | Some (g1, g2, g3, g4) => (add_color cs g1 (Color (g2 / 255) (g3 / 255) (g4 / 255)), ts)
  | None => st
  end end end end.

Definition read_data (lines : list string) : colors * timelines :=
  let '(cs, ts) := foldl read_line (Colors ∅ default_colors, []) lines in
  (cs, sort ts).

(** ** Binary search *)

(** The two loops are instances of a search that compares the key with an item: [Eq] stops,
    [Lt] (the key is smaller) goes left and [Gt] goes right. *)
Section bsearch.
Context {A : Type} (cls : A → comparison).

Fixpoint bsearch (fuel : nat) (xs : list A) (l u : Z) : option (Z + Z) :=
  if (u <? l)%Z then Some (inr l) else
  match fuel with
  | O => None
  | S fuel =>
      let i := ((l + u) / 2)%Z in
      x ← py_nth xs i;
      match cls x with
      | Eq => Some (inl i)
      | Lt => bsearch fuel xs l (i - 1)
      | Gt => bsearch fuel xs (i + 1) u
      end
  end.

(** The items the key exceeds come first and the items that exceed the key last. *)
Definition cls_sorted (xs : list A) : Prop :=
  ∀ i j x y, i < j → xs !! i = Some x → xs !! j = Some y →
    (cls x = Lt → cls y = Lt) ∧ (cls y = Gt → cls x = Gt).

Lemma bsearch_ok (fuel : nat) (xs : list A) (l u : Z) :
  cls_sorted xs → (0 <= l)%Z → (u < length xs)%Z → (l <= u + 1)%Z → (u - l + 1 <= fuel)%Z →
  (∀ (j : nat) x, xs !! j = Some x → (j < l)%Z → cls x = Gt) →
  (∀ (j : nat) x, xs !! j = Some x → (u < j)%Z → cls x = Lt) →
  ∃ res, bsearch fuel xs l u = Some res ∧
    match res with
    | inl i => (0 <= i)%Z ∧ ∃ x, xs !! Z.to_nat i = Some x ∧ cls x = Eq
    | inr i => (0 <= i <= length xs)%Z ∧
        (∀ (j : nat) x, xs !! j = Some x → (j < i)%Z → cls x = Gt) ∧
        (∀ (j : nat) x, xs !! j = Some x → (i <= j)%Z → cls x = Lt)
    end.
Proof.
  intros Hs. revert l u. induction fuel as [|fuel IH]; intros l u Hl Hu Hlu Hf HG HL; cbn [bsearch].
  all: destruct (Z.ltb_spec u l) as [Hul|Hul].
  1,3: exists (inr l); split_and!; [done|lia|lia|done|]; intros j x Hj Hle; apply (HL j x Hj); lia.
  { lia. }
  assert (l <= (l + u) / 2 <= u)%Z as Hi by (split; [apply Z.div_le_lower_bound|apply Z.div_le_upper_bound]; lia).
  set (i := ((l + u) / 2)%Z) in *. clearbody i.
  destruct (lookup_lt_is_Some_2 xs (Z.to_nat i)) as [x Hx]; [lia|].
  assert (py_nth xs i = Some x) as ->.
  { rewrite <-(Z2Nat.id i) by lia. by rewrite py_nth_nat. }
  cbn [mbind option_bind]. destruct (cls x) eqn:Ex.
  - exists (inl i). split; [done|]. split; [lia|]. by exists x.
  - apply IH; [lia..|done|]. intros j y Hj Hij.
    destruct (decide (j = Z.to_nat i)) as [->|]; [congruence|].
    by apply (Hs (Z.to_nat i) j x y ltac:(lia)).
  - apply IH; [lia..| |done]. intros j y Hj Hij.
    destruct (decide (j = Z.to_nat i)) as [->|]; [congruence|].
    by apply (Hs j (Z.to_nat i) y x ltac:(lia)).
Qed.

Lemma bsearch_full xs :
  cls_sorted xs →
  ∃ res, bsearch (length xs) xs 0 (length xs - 1) = Some res ∧
    match res with
    | inl i => (0 <= i)%Z ∧ ∃ x, xs !! Z.to_nat i = Some x ∧ cls x = Eq
    | inr i => (0 <= i <= length xs)%Z ∧
        (∀ (j : nat) x, xs !! j = Some x → (j < i)%Z → cls x = Gt) ∧
        (∀ (j : nat) x, xs !! j = Some x → (i <= j)%Z → cls x = Lt)
    end.
Proof.
  intros Hs. apply bsearch_ok; [done|lia..| |].
  - intros j x _ Hj. lia.
  - intros j x Hj%lookup_lt_Some. lia.
Qed.
End bsearch.

(** Comparisons with integers. *)
Lemma inject_le (a b : Z) : (a <= b)%Z → (inject_Z a <= inject_Z b)%Q.
Proof. by rewrite <-Zle_Qle. Qed.
Lemma inject_lt (a b : Z) : (a < b)%Z → (inject_Z a < inject_Z b)%Q.
Proof. by rewrite <-Zlt_Qlt. Qed.
Lemma key_ge_spec k z : key_ge k z = true ↔ (inject_Z z <= k)%Q.
Proof. apply Qle_bool_iff. Qed.
Lemma key_le_spec k z : key_le k z = true ↔ (k <= inject_Z z)%Q.
Proof. apply Qle_bool_iff. Qed.
Lemma key_lt_spec k z : key_lt k z = true ↔ (k < inject_Z z)%Q.
Proof.
  unfold key_lt. rewrite negb_true_iff, <-not_true_iff_false, Qle_bool_iff. split; [apply Qnot_le_lt|].
  intros H1 H2. by apply (Qlt_not_le _ _ H1).
Qed.
Lemma key_eq_spec k z : key_eq k z = true ↔ (k == inject_Z z)%Q.
Proof. apply Qeq_bool_iff. Qed.

(** *** Ranges *)

Definition contains (k : Q) (r : data_range) : Prop :=
  (inject_Z (range_start r) <= k)%Q ∧ (k <= inject_Z (range_end r))%Q.
Definition range_cls (k : Q) (r : data_range) : comparison :=
  if key_ge k (range_start r) && key_le k (range_end r) then Eq
  else if key_lt k (range_start r) then Lt else Gt.

(** Ranges in order that do not overlap. *)
Definition ranges_ok (rs : list data_range) : Prop :=
  (∀ i r, rs !! i = Some r → (range_start r <= range_end r)%Z) ∧
  ∀ i j r r', i < j → rs !! i = Some r → rs !! j = Some r' → (range_end r < range_start r')%Z.

Lemma range_cls_Eq k r : range_cls k r = Eq ↔ contains k r.
Proof.
  unfold range_cls, contains. rewrite <-key_ge_spec, <-key_le_spec.
  destruct (key_ge k _), (key_le k _), (key_lt k _); cbn; naive_solver.
Qed.
Lemma range_cls_Lt k r : range_cls k r = Lt ↔ (k < inject_Z (range_start r))%Q.
Proof.
  unfold range_cls. rewrite <-key_lt_spec. unfold key_lt, key_ge.
  destruct (Qle_bool (inject_Z (range_start r)) k), (key_le k _); cbn; naive_solver.
Qed.
Lemma range_cls_Gt k r :
  (range_start r <= range_end r)%Z → range_cls k r = Gt ↔ (inject_Z (range_end r) < k)%Q.
Proof.
  intros Hr%inject_le. split.
  - intros Hc. apply Qnot_le_lt. intros Hle. destruct (range_cls k r) eqn:E; try done.
    destruct (Qlt_le_dec k (inject_Z (range_start r))) as [Hlt|Hge].
    + apply range_cls_Lt in Hlt. congruence.
    + assert (range_cls k r = Eq) by (by apply range_cls_Eq). congruence.
  - intros Hk. destruct (range_cls k r) eqn:E; [| |done].
    + apply range_cls_Eq in E as [_ E]. lra.
    + apply range_cls_Lt in E. lra.
Qed.

Lemma range_cls_sorted k rs : ranges_ok rs → cls_sorted (range_cls k) rs.
Proof.
  intros [H1 H2] i j x y Hij Hx Hy. pose proof (H2 i j x y Hij Hx Hy) as Hlt%inject_lt.
  pose proof (H1 i x Hx) as Hsx. pose proof (H1 j y Hy) as Hsy.
  rewrite !range_cls_Lt, !range_cls_Gt by done. apply inject_le in Hsx, Hsy. split; intros; lra.
Qed.

Lemma range_search_bsearch fuel rs k l u :
  RangeLine.search_loop fuel rs k l u =
  (λ res : Z + Z, match res with inl i => i | inr _ => -1 end)%Z <$> bsearch (range_cls k) fuel rs l u.
Proof.
  revert l u; induction fuel as [|fuel IH]; intros l u; cbn; destruct (u <? l)%Z; try done.
  destruct (py_nth rs _) as [x|]; cbn; [|done]. unfold range_cls.
  destruct (key_ge k _ && key_le k _); cbn; [done|]. by destruct (key_lt k _).
Qed.

Definition hit (k : Q) (rs : list data_range) : Prop := ∃ r, r ∈ rs ∧ contains k r.

(** The search ends; it returns the index of a range with the key, or -1 when there is none. *)
Lemma range_search_spec t k :
  ranges_ok (tdr_ranges t) →
  (RangeLine.search t k = Some (-1)%Z ∧ ¬ hit k (tdr_ranges t)) ∨
  ∃ (n : nat) r, RangeLine.search t k = Some (n : Z) ∧ tdr_ranges t !! n = Some r ∧ contains k r.
Proof.
  intros Hok. unfold RangeLine.search. rewrite range_search_bsearch.
  destruct (bsearch_full (range_cls k) (tdr_ranges t)) as (res & -> & Hres);
    [by apply range_cls_sorted|]. destruct res as [i|i]; cbn.
  - destruct Hres as (Hi & x & Hx & Hc). right. exists (Z.to_nat i), x.
    rewrite Z2Nat.id by done. by rewrite range_cls_Eq in Hc.
  - left. split; [done|]. destruct Hres as (_ & HG & HL).
    intros (r & [j Hj]%list_elem_of_lookup_1 & Hc%range_cls_Eq).
    destruct (Z.lt_ge_cases j i) as [Hlt|Hge].
    + rewrite (HG j r Hj Hlt) in Hc. done.
    + rewrite (HL j r Hj Hge) in Hc. done.
Qed.

(** A range and the window have a point in common. *)
Definition intersects (start end_ : Q) (r : data_range) : bool :=
  key_le start (range_end r) && key_ge end_ (range_start r).

Lemma intersects_spec s e r :
  intersects s e r = true ↔ (s <= inject_Z (range_end r))%Q ∧ (inject_Z (range_start r) <= e)%Q.
Proof. unfold intersects. by rewrite andb_true_iff, key_le_spec, key_ge_spec. Qed.

(** In ordered ranges, a range before one that contains [k] ends before [k], and one after it
    starts after [k]. *)
Lemma ranges_before rs k i j r r' :
  ranges_ok rs → rs !! i = Some r → rs !! j = Some r' → contains k r →
  (j < i → (inject_Z (range_end r') < k)%Q) ∧ (i < j → (k < inject_Z (range_start r'))%Q).
Proof.
  intros [_ Hdis] Hi Hj [H1 H2]. split; intros Hlt.
  - pose proof (inject_lt _ _ (Hdis j i r' r Hlt Hj Hi)). lra.
  - pose proof (inject_lt _ _ (Hdis i j r r' Hlt Hi Hj)). lra.
Qed.

Lemma filter_window {A} (P : A → bool) (l : list A) (a b : nat) :
  a ≤ b → b ≤ length l →
  (∀ i x, l !! i = Some x → P x = true ↔ a ≤ i < b) →
  filter (λ x, P x = true) l = take (b - a) (drop a l).
Proof.
  revert a b. induction l as [|x l IH]; intros a b Hab Hb HP.
  { by rewrite drop_nil, take_nil. }
  rewrite filter_cons. pose proof (HP 0 x eq_refl) as H0. destruct a as [|a].
  - destruct b as [|b].
    + rewrite decide_False by (rewrite H0; lia). rewrite (IH 0 0); [done|lia|lia|].
      intros i y Hy. rewrite (HP (S i) y Hy). lia.
    + rewrite decide_True by (apply H0; lia). cbn. f_equal. rewrite (IH 0 b).
      * by rewrite drop_0, Nat.sub_0_r.
      * lia.
      * cbn in Hb. lia.
      * intros i y Hy. rewrite (HP (S i) y Hy). lia.
  - rewrite decide_False by (rewrite H0; lia). destruct b as [|b]; [lia|]. cbn. apply IH.
    + lia.
    + cbn in Hb. lia.
    + intros i y Hy. rewrite (HP (S i) y Hy). lia.
Qed.

Lemma py_slice_S {A} (l : list A) (a b : nat) :
  py_slice l a (b + 1)%Z = take (S b - a) (drop a l).
Proof.
  unfold py_slice. replace (b + 1)%Z with (Z.of_nat (S b)) by lia. rewrite !py_bound_nat.
  destruct (decide (a ≤ length l)); [rewrite (Nat.min_l a) by lia|by rewrite !drop_ge, !take_nil by lia].
  destruct (decide (S b ≤ length l)); [by rewrite Nat.min_l by lia|].
  rewrite Nat.min_r, !take_ge by (rewrite ?length_drop; lia). done.
Qed.

Lemma elem_of_window {A} (l : list A) (a n i : nat) x :
  l !! i = Some x → a ≤ i < a + n → x ∈ take n (drop a l).
Proof.
  intros Hi Ha. apply list_elem_of_lookup_2 with (i - a). rewrite lookup_take_lt by lia.
  rewrite lookup_drop. by replace (a + (i - a)) with i by lia.
Qed.

(** Between a range with [start] and a range with [end_] lie exactly the ranges of the window. *)
Lemma window_exact l start end_ (s e : nat) rs re :
  ranges_ok l → (start <= end_)%Q → l !! s = Some rs → contains start rs →
  l !! e = Some re → contains end_ re →
  py_slice l s (e + 1)%Z = filter (λ r, intersects start end_ r = true) l.
Proof.
  intros Hok Hle Hrs Hcs Hre Hce. rewrite py_slice_S.
  assert (s ≤ e) as Hse.
  { destruct (decide (e < s)) as [Hlt|]; [|lia].
    pose proof (proj1 (ranges_before _ _ _ _ _ _ Hok Hrs Hre Hcs) Hlt). destruct Hce. lra. }
  symmetry. apply filter_window; [lia|apply lookup_lt_Some in Hre; lia|].
  intros i r Hi. rewrite intersects_spec.
  pose proof (ranges_before _ _ _ _ _ _ Hok Hrs Hi Hcs) as [Hb1 Hb2].
  pose proof (ranges_before _ _ _ _ _ _ Hok Hre Hi Hce) as [Ha1 Ha2]. split.
  - intros [H1 H2]. destruct (decide (i < s)) as [Hlt|]; [specialize (Hb1 Hlt); lra|].
    destruct (decide (e < i)) as [Hlt|]; [specialize (Ha2 Hlt); lra|]. lia.
  - intros Hi2. pose proof (inject_le _ _ (proj1 Hok i r Hi)) as Hir. split.
    + destruct (decide (i = s)) as [->|]; [simplify_eq; apply Hcs|]. specialize (Hb2 ltac:(lia)). lra.
    + destruct (decide (i = e)) as [->|]; [simplify_eq; apply Hce|]. specialize (Ha1 ltac:(lia)). lra.
Qed.

(** C20: on ordered ranges that do not overlap, [get_ranges] terminates and returns the
    slice that [get_ranges_bounds] describes.  If both ends of the window lie in a range,
    the slice is exactly the ranges that meet the window; if one end does, it holds all of
    these; if neither end does, it is empty. *)
Theorem get_ranges_spec (t : timeline_data_range) (start end_ : Q) :
  ranges_ok (tdr_ranges t) → (start <= end_)%Q →
  ∃ l, RangeLine.get_ranges t start end_ = Some l ∧
    (∃ lo hi, RangeLine.get_ranges_bounds t start end_ = Some (lo, hi) ∧
              py_slice (tdr_ranges t) lo hi = l) ∧
    (hit start (tdr_ranges t) → hit end_ (tdr_ranges t) →
       l = filter (λ r, intersects start end_ r = true) (tdr_ranges t)) ∧
    (hit start (tdr_ranges t) ∨ hit end_ (tdr_ranges t) →
       ∀ r, r ∈ tdr_ranges t → intersects start end_ r = true → r ∈ l) ∧
    (¬ hit start (tdr_ranges t) → ¬ hit end_ (tdr_ranges t) → l = []).
Proof.
  intros Hok Hle. assert (∀ n : nat, (n =? -1)%Z = false) as Hneg
    by (intros n; apply Z.eqb_neq; lia).
  unfold RangeLine.get_ranges, RangeLine.get_ranges_bounds.
  destruct (range_search_spec t start Hok) as [[-> Hs]|(s & rs & -> & Hrs & Hcs)];
  destruct (range_search_spec t end_ Hok) as [[-> He]|(e & re & -> & Hre & Hce)];
    cbn [mbind option_bind]; rewrite ?Hneg, ?Z.eqb_refl; cbn [andb].
  - exists []. split_and!; [done| |naive_solver..].
    exists 0%Z, 0%Z. split; [done|]. by rewrite (py_slice_nat _ 0 0) by lia.
  - eexists. split_and!; [done|by eexists _, _|naive_solver| |].
    + intros _ r [i Hi]%list_elem_of_lookup_1 Hr%intersects_spec.
      rewrite (py_slice_S _ 0 e). apply elem_of_window with i; [done|].
      destruct (decide (e < i)) as [Hlt|]; [|lia].
      pose proof (proj2 (ranges_before _ _ _ _ _ _ Hok Hre Hi Hce) Hlt). lra.
    + intros _ Hn. destruct Hn. exists re. split; [by eapply list_elem_of_lookup_2|done].
  - eexists. split_and!; [done|by eexists _, _|naive_solver| |].
    + intros _ r [i Hi]%list_elem_of_lookup_1 Hr%intersects_spec.
      rewrite py_slice_nat by (try lia; apply lookup_lt_Some in Hrs; lia).
      apply elem_of_window with i; [done|]. apply lookup_lt_Some in Hi as Hlen.
      destruct (decide (i < s)) as [Hlt|]; [|lia].
      pose proof (proj1 (ranges_before _ _ _ _ _ _ Hok Hrs Hi Hcs) Hlt). lra.
    + intros Hn. destruct Hn. exists rs. split; [by eapply list_elem_of_lookup_2|done].
  - pose proof (window_exact _ _ _ _ _ _ _ Hok Hle Hrs Hcs Hre Hce) as Heq.
    eexists. split_and!; [done|by eexists _, _|done| |].
    + intros _ r Hr Hi. rewrite Heq. by apply list_elem_of_filter.
    + intros Hn. destruct Hn. exists rs. split; [by eapply list_elem_of_lookup_2|done].
Qed.

Definition sample_ranges : timeline_data_range :=
  TimelineDataRange "state" [DataRange 0 10 "idle"; DataRange 20 30 "tx"; DataRange 40 50 "rx"].

Lemma sample_ranges_ok : ranges_ok (tdr_ranges sample_ranges).
Proof.
  split.
  - intros [|[|[|i]]] r Hr; cbn in Hr; simplify_eq; cbn; lia.
  - intros [|[|[|i]]] [|[|[|j]]] r r' Hij Hi Hj; cbn in *; simplify_eq; cbn; lia.
Qed.

Lemma get_ranges_spec_witness :
  RangeLine.get_ranges sample_ranges (5 # 1) (45 # 2)%Q =
    Some [DataRange 0 10 "idle"; DataRange 20 30 "tx"] ∧
  ∃ l, RangeLine.get_ranges sample_ranges (5 # 1) (45 # 2) = Some l ∧
    l = filter (λ r, intersects (5 # 1) (45 # 2) r = true) (tdr_ranges sample_ranges).
Proof.
  split; [done|].
  destruct (get_ranges_spec sample_ranges (5 # 1) (45 # 2)) as (l & Hl & _ & Hexact & _).
  - apply sample_ranges_ok.
  - by vm_compute.
  - exists l. split; [done|]. apply Hexact.
    + exists (DataRange 0 10 "idle"). split; [left|by vm_compute].
    + exists (DataRange 20 30 "tx"). split; [right; left|by vm_compute].
Defined.

(** A window whose two ends fall into gaps shows no range at all, although a range lies
    inside it. *)
Theorem get_ranges_misses_inner :
  ∃ t start end_ r, ranges_ok (tdr_ranges t) ∧ r ∈ tdr_ranges t ∧
    (start < inject_Z (range_start r))%Q ∧ (inject_Z (range_end r) < end_)%Q ∧
    RangeLine.get_ranges t start end_ = Some [].
Proof.
  exists sample_ranges, (15 # 1), (35 # 1), (DataRange 20 30 "tx").
  split_and!; [apply sample_ranges_ok|right; left|done|done|by vm_compute].
Qed.

(** *** Events *)

Definition event_cls (k : Q) (ev : event) : comparison :=
  if key_eq k (at_ ev) then Eq else if key_lt k (at_ ev) then Lt else Gt.

Definition events_ok (evs : list event) : Prop :=
  ∀ i j x y, i < j → evs !! i = Some x → evs !! j = Some y → (at_ x <= at_ y)%Z.

Lemma event_cls_Eq k ev : event_cls k ev = Eq ↔ (k == inject_Z (at_ ev))%Q.
Proof.
  unfold event_cls. rewrite <-key_eq_spec. destruct (key_eq k (at_ ev)), (key_lt k (at_ ev)); naive_solver.
Qed.
Lemma event_cls_Lt k ev : event_cls k ev = Lt ↔ (k < inject_Z (at_ ev))%Q.
Proof.
  rewrite <-key_lt_spec. unfold event_cls. destruct (key_eq k (at_ ev)) eqn:E; [|by destruct (key_lt k (at_ ev))].
  split; [done|]. intros Hlt%key_lt_spec. apply key_eq_spec in E. lra.
Qed.
Lemma event_cls_Gt k ev : event_cls k ev = Gt ↔ (inject_Z (at_ ev) < k)%Q.
Proof.
  split.
  - intros Hc. apply Qnot_le_lt. intros [Hlt|Heq]%Qle_lteq.
    + apply event_cls_Lt in Hlt. congruence.
    + apply event_cls_Eq in Heq. congruence.
  - intros Hk. destruct (event_cls k ev) eqn:E; [| |done].
    + apply event_cls_Eq in E. lra.
    + apply event_cls_Lt in E. lra.
Qed.

Lemma event_search_bsearch fuel evs k l u :
  EventLine.search_loop fuel evs k l u =
  (λ res : Z + Z, match res with inl i | inr i => i end) <$> bsearch (event_cls k) fuel evs l u.
Proof.
  revert l u; induction fuel as [|fuel IH]; intros l u; cbn; destruct (u <? l)%Z; try done.
  destruct (py_nth evs _) as [x|]; cbn; [|done]. unfold event_cls.
  destruct (key_eq k _); cbn; [done|]. by destruct (key_lt k _).
Qed.

(** The search ends at a position that splits the events at the key. *)
Lemma event_search_spec t k :
  events_ok (te_events t) →
  ∃ p : nat, EventLine.search t k = Some (p : Z) ∧ p ≤ length (te_events t) ∧
    (∀ j ev, te_events t !! j = Some ev → j < p → (inject_Z (at_ ev) <= k)%Q) ∧
    (∀ j ev, te_events t !! j = Some ev → p ≤ j → (k <= inject_Z (at_ ev))%Q).
Proof.
  intros Hok. unfold EventLine.search. rewrite event_search_bsearch.
  destruct (bsearch_full (event_cls k) (te_events t)) as (res & -> & Hres).
  { intros i j x y Hij Hx Hy. pose proof (inject_le _ _ (Hok i j x y Hij Hx Hy)).
    rewrite !event_cls_Lt, !event_cls_Gt. split; intros; lra. }
  destruct res as [i|i]; cbn.
  - destruct Hres as (Hi & x & Hx & Hc%event_cls_Eq). exists (Z.to_nat i).
    rewrite Z2Nat.id by done. apply lookup_lt_Some in Hx as Hlt. split_and!; [done|lia| |].
    + intros j ev Hj Hji. pose proof (inject_le _ _ (Hok j _ ev x Hji Hj Hx)). lra.
    + intros j ev Hj Hji. destruct (decide (j = Z.to_nat i)) as [->|].
      * simplify_eq. lra.
      * pose proof (inject_le _ _ (Hok (Z.to_nat i) j x ev ltac:(lia) Hx Hj)). lra.
  - destruct Hres as (Hi & HG & HL). exists (Z.to_nat i). rewrite Z2Nat.id by lia.
    split_and!; [done|lia| |].
    + intros j ev Hj Hji. pose proof (HG j ev Hj ltac:(lia)) as Hc%event_cls_Gt. lra.
    + intros j ev Hj Hji. pose proof (HL j ev Hj ltac:(lia)) as Hc%event_cls_Lt. lra.
Qed.

(** On sorted events, [get_events] terminates and returns the slice that
    [get_events_bounds] describes: every event strictly inside the window is in it, no event
    before the window is, and only its last event may lie after the window. *)
Theorem get_events_spec (t : timeline_event) (start end_ : Q) :
  events_ok (te_events t) → (start <= end_)%Q →
  ∃ l, EventLine.get_events t start end_ = Some l ∧
    (∃ lo hi, EventLine.get_events_bounds t start end_ = Some (lo, hi) ∧
              py_slice (te_events t) lo hi = l) ∧
    (∀ ev, ev ∈ te_events t → (start < inject_Z (at_ ev))%Q → (inject_Z (at_ ev) < end_)%Q → ev ∈ l) ∧
    ∀ n ev, l !! n = Some ev → (start <= inject_Z (at_ ev))%Q ∧
      (n + 1 < length l → (inject_Z (at_ ev) <= end_)%Q).
Proof.
  intros Hok Hle. unfold EventLine.get_events, EventLine.get_events_bounds.
  destruct (event_search_spec t start Hok) as (s & -> & Hs & Hs1 & Hs2).
  destruct (event_search_spec t end_ Hok) as (e & -> & He & He1 & He2). cbn [mbind option_bind].
  eexists. split_and!; [done|by eexists _, _|..].
  all: rewrite py_slice_S.
  - intros ev [j Hj]%list_elem_of_lookup_1 H1 H2. apply elem_of_window with j; [done|].
    destruct (decide (j < s)) as [Hlt|]; [pose proof (Hs1 j ev Hj Hlt); lra|].
    destruct (decide (e ≤ j)) as [Hge|]; [pose proof (He2 j ev Hj Hge); lra|]. lia.
  - intros n ev [Hn Hlt]%lookup_take_Some. rewrite lookup_drop in Hn. split.
    + apply (Hs2 (s + n)); [done|lia].
    + rewrite length_take. intros Hlen. apply (He1 (s + n)); [done|lia].
Qed.

Lemma get_events_spec_witness :
  let t := TimelineEvent "rx" [Event 1 (VInt 7); Event 4 (VInt 8); Event 9 (VStr "x")] in
  EventLine.get_events t (2 # 1) (9 # 2) = Some [Event 4 (VInt 8); Event 9 (VStr "x")] ∧
  ∃ l, EventLine.get_events t (2 # 1) (9 # 2) = Some l ∧ Event 4 (VInt 8) ∈ l.
Proof.
  intros t. split; [done|]. destruct (get_events_spec t (2 # 1) (9 # 2)) as (l & Hl & _ & Hin & _).
  - intros [|[|[|i]]] [|[|[|j]]] r r' Hij Hi Hj; cbn in *; simplify_eq; cbn; lia.
  - by vm_compute.
  - exists l. split; [done|]. apply Hin; [right; left|done|done].
Defined.

(** ** Sorting and bounds *)

Lemma ranges_cmp_le a b : (ranges_cmp a b <=? 0)%Z = (range_start a <=? range_start b)%Z.
Proof. unfold ranges_cmp. bool_cases; try lia; reflexivity. Qed.
Lemma events_cmp_le a b : (events_cmp a b <=? 0)%Z = (at_ a <=? at_ b)%Z.
Proof. unfold events_cmp. bool_cases; try lia; reflexivity. Qed.

(** Sorting with a comparison that compares an integer [key] of the items. *)
Section sort_key.
Context {A : Type} (cmp : A → A → Z) (key : A → Z).
Context (Hcmp : ∀ a b, (cmp a b <=? 0)%Z = (key a <=? key b)%Z).

Lemma sort_by_sorted l i j x y :
  i < j → sort_by cmp l !! i = Some x → sort_by cmp l !! j = Some y → (key x <= key y)%Z.
Proof.
  intros Hij Hx Hy. assert (StronglySorted (λ a b, (key a <= key b)%Z) (sort_by cmp l)) as Hs.
  { apply Sorted_StronglySorted; [intros ???; lia|]. unfold sort_by.
    eapply Sorted_mono; [|apply stable_sort_sorted].
    - cbn. intros a b. by rewrite Hcmp, Z.leb_le.
    - intros a b. rewrite !Hcmp, !Z.leb_le. lia. }
  revert i j Hij Hx Hy. induction Hs as [|a l' _ IH Ha]; intros i j Hij Hx Hy; [done|].
  destruct j as [|j]; [lia|]. destruct i as [|i]; cbn in *.
  - injection Hx as ->. by apply (Forall_lookup_1 _ _ _ _ Ha Hy).
  - apply (IH i j); [lia|done..].
Qed.

(** The first and the last item bound all of them. *)
Lemma sort_by_head_last l a b x :
  head (sort_by cmp l) = Some a → last (sort_by cmp l) = Some b → x ∈ sort_by cmp l →
  (key a <= key x <= key b)%Z.
Proof.
  rewrite head_lookup, last_lookup. intros Ha Hb [i Hi]%list_elem_of_lookup_1.
  apply lookup_lt_Some in Hi as Hlt. split.
  - destruct i as [|i]; [simplify_eq; done|]. eapply (sort_by_sorted l 0 (S i)); [lia|done..].
  - destruct (decide (i = pred (length (sort_by cmp l)))) as [->|]; [simplify_eq; done|].
    eapply (sort_by_sorted l i); [|done..]. lia.
Qed.
End sort_key.

Lemma widen_cover b b' : let c := widen b b' in
  (c.1 <= b.1 ∧ c.1 <= b'.1 ∧ b.2 <= c.2 ∧ b'.2 <= c.2)%Z.
Proof. unfold widen. cbn. bool_cases; lia. Qed.

(** The bounds a loop computes cover the bounds it starts from and those of every item. *)
Lemma foldl_widen_cover {A} (f : A → Z * Z) l b :
  let c := foldl (λ b x, widen b (f x)) b l in
  (c.1 <= b.1 ∧ b.2 <= c.2)%Z ∧ ∀ x, x ∈ l → (c.1 <= (f x).1 ∧ (f x).2 <= c.2)%Z.
Proof.
  revert b. induction l as [|y l IH]; intros b; cbn; [split; [lia|set_solver]|].
  destruct (IH (widen b (f y))) as [[H1 H2] H3]. pose proof (widen_cover b (f y)) as (? & ? & ? & ?).
  split; [lia|]. intros x [->|Hx]%elem_of_cons; [lia|]. by apply H3.
Qed.

Lemma timeline_bounds_cover t :
  let c := timeline_bounds t in
  (∀ rl, rl ∈ tl_ranges t → (c.1 <= (RangeLine.get_bounds rl).1 ∧ (RangeLine.get_bounds rl).2 <= c.2)%Z) ∧
  (∀ el, el ∈ tl_event_str t ++ tl_event_int t →
     (c.1 <= (EventLine.get_bounds el).1 ∧ (EventLine.get_bounds el).2 <= c.2)%Z).
Proof.
  unfold timeline_bounds. cbn zeta.
  set (b1 := foldl _ (0, 0)%Z (tl_ranges t)). set (b2 := foldl _ b1 (tl_event_str t)).
  pose proof (foldl_widen_cover RangeLine.get_bounds (tl_ranges t) (0, 0)%Z) as [_ H1].
  pose proof (foldl_widen_cover EventLine.get_bounds (tl_event_str t) b1) as [H2 H2'].
  pose proof (foldl_widen_cover EventLine.get_bounds (tl_event_int t) b2) as [H3 H3'].
  cbn zeta in *. fold b1 in H1. fold b2 in H2, H2'. split.
  - intros rl Hrl. specialize (H1 rl Hrl). lia.
  - intros el [Hel|Hel]%elem_of_app; [specialize (H2' el Hel); lia|by apply H3'].
Qed.

Lemma event_line_bounds el ev :
  ev ∈ te_events (EventLine.sort el) →
  ((EventLine.get_bounds (EventLine.sort el)).1 <= at_ ev <= (EventLine.get_bounds (EventLine.sort el)).2)%Z.
Proof.
  unfold EventLine.get_bounds. cbn. intros Hev.
  destruct (head (sort_by events_cmp (te_events el))) as [a|] eqn:Ea;
    [|by apply head_None in Ea; rewrite Ea in Hev; set_solver].
  destruct (last (sort_by events_cmp (te_events el))) as [b|] eqn:Eb;
    [|by apply last_None in Eb; rewrite Eb in Hev; set_solver].
  cbn. by apply (sort_by_head_last events_cmp at_ events_cmp_le (te_events el)).
Qed.

Lemma range_line_bounds rl rg :
  rg ∈ tdr_ranges (RangeLine.sort rl) →
  ((RangeLine.get_bounds (RangeLine.sort rl)).1 <= range_start rg)%Z ∧
  (ranges_ok (tdr_ranges (RangeLine.sort rl)) →
   range_end rg <= (RangeLine.get_bounds (RangeLine.sort rl)).2)%Z.
Proof.
  unfold RangeLine.get_bounds. cbn. intros Hr.
  destruct (head (sort_by ranges_cmp (tdr_ranges rl))) as [a|] eqn:Ea;
    [|by apply head_None in Ea; rewrite Ea in Hr; set_solver].
  destruct (last (sort_by ranges_cmp (tdr_ranges rl))) as [b|] eqn:Eb;
    [|by apply last_None in Eb; rewrite Eb in Hr; set_solver]. cbn. split.
  - by apply (sort_by_head_last ranges_cmp range_start ranges_cmp_le (tdr_ranges rl) a b).
  - intros [Hord Hdis]. rewrite last_lookup in Eb. apply list_elem_of_lookup_1 in Hr as [i Hi].
    apply lookup_lt_Some in Hi as Hlt.
    set (n := pred (length (sort_by ranges_cmp (tdr_ranges rl)))) in *.
    destruct (decide (i = n)) as [->|]; [simplify_eq; done|].
    pose proof (Hdis i n rg b ltac:(lia) Hi Eb). specialize (Hord _ _ Eb). lia.
Qed.

(** The bounds [main] gives the renderer cover the sorted data: every event and every
    start of a range, and, for lines whose ranges do not overlap, every end of a range. *)
Theorem get_bounds_cover (ts : timelines) (t : timeline) :
  t ∈ sort ts →
  let '(lo, hi) := get_bounds (sort ts) in
  (∀ el ev, el ∈ tl_event_str t ++ tl_event_int t → ev ∈ te_events el → (lo <= at_ ev <= hi)%Z) ∧
  (∀ rl rg, rl ∈ tl_ranges t → rg ∈ tdr_ranges rl →
     (lo <= range_start rg)%Z ∧ (ranges_ok (tdr_ranges rl) → (range_end rg <= hi)%Z)).
Proof.
  intros Ht. unfold get_bounds.
  pose proof (foldl_widen_cover timeline_bounds (sort ts) (0, 0)%Z) as [_ H]. specialize (H t Ht).
  destruct (foldl _ _ (sort ts)) as [lo hi]. cbn in H.
  pose proof (timeline_bounds_cover t) as [Hr He]. cbn zeta in *.
  apply list_elem_of_fmap in Ht as (t0 & -> & _). cbn in *. split.
  - intros el ev Hel Hev. specialize (He el Hel). rewrite <-fmap_app in Hel.
    apply list_elem_of_fmap in Hel as (el0 & -> & _). pose proof (event_line_bounds el0 ev Hev). lia.
  - intros rl rg Hrl Hrg. specialize (Hr rl Hrl). apply list_elem_of_fmap in Hrl as (rl0 & -> & _).
    destruct (range_line_bounds rl0 rg Hrg) as [H1 H2]. split; [lia|]. intros Hok%H2. lia.
Qed.

Lemma get_bounds_cover_witness :
  let ts := [Timeline [] [] [TimelineEvent "rx" [Event 9 (VInt 1); Event 4 (VInt 2)]] "n0"] in
  get_bounds (sort ts) = (0, 9)%Z ∧ (0 <= 4 <= 9)%Z.
Proof.
  intros ts. split; [done|].
  destruct (get_bounds_cover ts (Timeline [] [] [TimelineEvent "rx" [Event 4 (VInt 2); Event 9 (VInt 1)]] "n0"))
    as [He _]; [left|].
  apply (He (TimelineEvent "rx" [Event 4 (VInt 2); Event 9 (VInt 1)]) (Event 4 (VInt 2))); left.
Defined.

(** ** [read_data]: the data by name *)

(** The item with a name: the first one. *)
Definition named {A} (name_of : A → string) (name : string) (l : list A) : option A :=
  find_index name_of name l ≫= λ i, l !! i.
#[global] Arguments named : simpl never.

Section named.
Context {A : Type} (name_of : A → string).

Lemma named_cons name x l :
  named name_of name (x :: l) = if decide (name_of x = name) then Some x else named name_of name l.
Proof. unfold named. cbn. case_decide; [done|]. by destruct (find_index name_of name l). Qed.

Lemma named_name name l x : named name_of name l = Some x → name_of x = name.
Proof.
  induction l as [|y l IH]; [done|]. rewrite named_cons. case_decide; [by intros [= <-]|done].
Qed.

Lemma named_fmap (f : A → A) name l :
  (∀ x, name_of (f x) = name_of x) → named name_of name (f <$> l) = f <$> named name_of name l.
Proof.
  intros Hf. induction l as [|x l IH]; [done|]. rewrite fmap_cons, !named_cons, Hf.
  case_decide; [done|]. apply IH.
Qed.

Lemma named_alter (f : A → A) name i l :
  (∀ x, name_of (f x) = name_of x) → find_index name_of name l = Some i →
  named name_of name (alter f i l) = f <$> named name_of name l ∧
  ∀ name', name' ≠ name → named name_of name' (alter f i l) = named name_of name' l.
Proof.
  intros Hf. revert i. induction l as [|x l IH]; intros i; cbn; [done|].
  case_decide as Hx.
  - intros [= <-]. cbn. split.
    + by rewrite !named_cons, Hf, !decide_True.
    + intros name' Hne. rewrite !named_cons, Hf. by rewrite !decide_False by congruence.
  - destruct (find_index name_of name l) as [j|]; [|done]. intros [= <-].
    destruct (IH j eq_refl) as [H1 H2]. cbn. split.
    + by rewrite !named_cons, !decide_False.
    + intros name' Hne. rewrite !named_cons. case_decide; [done|]. by apply H2.
Qed.

Lemma find_index_snoc name l x :
  find_index name_of name l = None → name_of x = name →
  find_index name_of name (l ++ [x]) = Some (length l).
Proof.
  intros Hl Hx. induction l as [|y l IH]; cbn in *; [by rewrite decide_True|].
  case_decide; [done|]. destruct (find_index name_of name l); [done|]. by rewrite IH.
Qed.

Lemma named_snoc name l x :
  named name_of name (l ++ [x]) =
  match named name_of name l with
  | Some y => Some y
  | None => if decide (name_of x = name) then Some x else None
  end.
Proof.
  induction l as [|y l IH]; cbn [app]; rewrite named_cons; [reflexivity|]. rewrite (named_cons name y l).
  destruct (decide (name_of y = name)); [reflexivity|]. apply IH.
Qed.

Lemma find_index_None name l : find_index name_of name l = None ↔ named name_of name l = None.
Proof.
  unfold named. split; [by intros ->|]. induction l as [|x l IH]; [done|]. cbn.
  case_decide; [done|]. destruct (find_index name_of name l) as [i|]; [|done].
  cbn. intros Hi. by specialize (IH Hi).
Qed.

(** Finding or adding an item and changing it, seen by name. *)
Lemma named_update (new : string → A) (f : A → A) name l :
  (∀ n, name_of (new n) = n) → (∀ x, name_of (f x) = name_of x) →
  let '(l', i) := get_or_add name_of new name l in
  ∀ name', named name_of name' (alter f i l') =
    if decide (name' = name) then Some (f (default (new name) (named name_of name l)))
    else named name_of name' l.
Proof.
  intros Hn Hf. unfold get_or_add. destruct (find_index name_of name l) as [i|] eqn:E.
  - intros name'. destruct (named_alter f name i l Hf E) as [H1 H2]. case_decide as Hd; [|by apply H2].
    subst. rewrite H1. destruct (named name_of name l) eqn:E2; [done|].
    apply find_index_None in E2. congruence.
  - intros name'. pose proof (find_index_snoc name l (new name) E (Hn name)) as E'.
    destruct (named_alter f name _ _ Hf E') as [H1 H2]. apply find_index_None in E.
    case_decide as Hd.
    + subst. rewrite H1, named_snoc, E, decide_True by done. done.
    + rewrite H2, named_snoc by done. rewrite Hn, decide_False by done.
      by destruct (named name_of name' l).
Qed.
End named.


(** The lines of one kind in a timeline, seen by the two names. *)
Section step.
Context {B : Type} (name_of : B → string) (sub : timeline → list B).
Definition item (ts : timelines) (n1 n2 : string) : option B :=
  named tl_name n1 ts ≫= λ t, named name_of n2 (sub t).

Context (f : timeline → timeline) (g1 : string).
Context (Hname : ∀ t, tl_name (f t) = tl_name t) (Hempty : sub (Timeline [] [] [] g1) = []).

(** Changing a timeline in its other fields. *)
Lemma item_miss ts :
  (∀ t, sub (f t) = sub t) →
  let '(ts', i) := get ts g1 in ∀ n1 n2, item (alter f i ts') n1 n2 = item ts n1 n2.
Proof.
  intros Hsub. pose proof (named_update tl_name (λ n, Timeline [] [] [] n) f g1 ts) as Hu.
  unfold get. destruct (get_or_add _ _ g1 ts) as [ts' i]. intros n1 n2. unfold item.
  rewrite Hu by done. case_decide; [|done]. subst. cbn. rewrite Hsub.
  destruct (named tl_name g1 ts) as [t|]; cbn; [done|]. by rewrite Hempty.
Qed.

(** Changing the line [g2] in it. *)
Lemma item_hit ts (new : string → B) (h : B → B) g2 :
  (∀ n, name_of (new n) = n) → (∀ x, name_of (h x) = name_of x) →
  (∀ t, let '(l, j) := get_or_add name_of new g2 (sub t) in sub (f t) = alter h j l) →
  let '(ts', i) := get ts g1 in ∀ n1 n2, item (alter f i ts') n1 n2 =
    if decide (g1 = n1 ∧ g2 = n2) then Some (h (default (new g2) (item ts g1 g2))) else item ts n1 n2.
Proof.
  intros Hnew Hh Hsub. pose proof (named_update tl_name (λ n, Timeline [] [] [] n) f g1 ts) as Hu.
  unfold get. destruct (get_or_add _ _ g1 ts) as [ts' i]. intros n1 n2. unfold item.
  rewrite Hu by done. clear Hu. destruct (decide (n1 = g1)) as [->|Hne]; [|by rewrite decide_False by naive_solver].
  cbn. set (t0 := default _ (named tl_name g1 ts)). specialize (Hsub t0).
  pose proof (named_update name_of new h g2 (sub t0) Hnew Hh) as Hu2.
  destruct (get_or_add name_of new g2 (sub t0)) as [l j]. rewrite Hsub, Hu2. clear Hu2 Hsub.
  assert (∀ n, named name_of n (sub t0) = (named tl_name g1 ts ≫= λ t, named name_of n (sub t))) as Ht0.
  { intros n. subst t0. destruct (named tl_name g1 ts); cbn; [done|]. by rewrite Hempty. }
  rewrite !Ht0. destruct (decide (n2 = g2)) as [->|]; [by rewrite decide_True|].
  by rewrite decide_False by naive_solver.
Qed.
End step.

Ltac match_prefix H := unfold m1, m2, m3, m4 in H |- *;
  match type of H with context [strip_prefix ?p ?l] =>
    let E := fresh in destruct (strip_prefix p l) eqn:E; [|by cbn in H];
    apply strip_prefix_Some in E as ->; done
  end.

(** The four kinds of lines exclude each other. *)
Lemma m1_excl line g : m1 line = Some g → m2 line = None ∧ m3 line = None ∧ m4 line = None.
Proof. intros H. match_prefix H. Qed.
Lemma m2_excl line g : m2 line = Some g → m1 line = None ∧ m3 line = None ∧ m4 line = None.
Proof. intros H. match_prefix H. Qed.
Lemma m3_excl line g : m3 line = Some g → m1 line = None ∧ m2 line = None ∧ m4 line = None.
Proof. intros H. match_prefix H. Qed.


(** The data of the line [n2] of the timeline [n1]. *)
Definition ranges_of (ts : timelines) (n1 n2 : string) : list data_range :=
  default [] (tdr_ranges <$> item tdr_name tl_ranges ts n1 n2).
Definition events_str_of (ts : timelines) (n1 n2 : string) : list event :=
  default [] (te_events <$> item te_name tl_event_str ts n1 n2).
Definition events_int_of (ts : timelines) (n1 n2 : string) : list event :=
  default [] (te_events <$> item te_name tl_event_int ts n1 n2).

(** What one line of the file says about them. *)
Definition range_for (n1 n2 line : string) : option data_range :=
  '(g1, g2, g3, g4, g5) ← m1 line;
  if decide (g1 = n1 ∧ g2 = n2) then Some (DataRange g4 g5 g3) else None.
Definition event_str_for (n1 n2 line : string) : option event :=
  '(g1, g2, g3, g4) ← m2 line;
  if decide (g1 = n1 ∧ g2 = n2) then Some (Event g4 (VStr g3)) else None.
Definition event_int_for (n1 n2 line : string) : option event :=
  '(g1, g2, g3, g4) ← m3 line;
  if decide (g1 = n1 ∧ g2 = n2) then Some (Event g4 (VInt g3)) else None.
Definition color_for (n line : string) : option color :=
  '(g1, g2, g3, g4) ← m4 line;
  if decide (g1 = n) then Some (Color (g2 / 255) (g3 / 255) (g4 / 255)) else None.

(** The views that the three kinds of updates leave alone, and the one they extend. *)
Ltac solve_put := intros; unfold put_range, put_event_str, put_event_int, get_range, get_event_str,
  get_event_int; destruct (get_or_add _ _ _ _); done.

Lemma put_range_view ts g1 g2 d :
  let '(ts', i) := get ts g1 in let ts2 := alter (put_range g2 d) i ts' in ∀ n1 n2,
  ranges_of ts2 n1 n2 = ranges_of ts n1 n2 ++ (if decide (g1 = n1 ∧ g2 = n2) then [d] else []) ∧
  events_str_of ts2 n1 n2 = events_str_of ts n1 n2 ∧ events_int_of ts2 n1 n2 = events_int_of ts n1 n2.
Proof.
  assert (∀ t, tl_name (put_range g2 d t) = tl_name t) as Hn by solve_put.
  pose proof (item_hit tdr_name tl_ranges _ g1 Hn eq_refl ts (λ n, TimelineDataRange n [])
    (λ rang, RangeLine.add_range rang d) g2) as Hr.
  pose proof (item_miss te_name tl_event_str _ g1 Hn eq_refl ts ltac:(solve_put)) as Hs.
  pose proof (item_miss te_name tl_event_int _ g1 Hn eq_refl ts ltac:(solve_put)) as Hi.
  destruct (get ts g1) as [ts' i]. intros ts2 n1 n2. subst ts2.
  unfold ranges_of, events_str_of, events_int_of. rewrite Hr, Hs, Hi by (done || solve_put). split; [|done].
  case_decide as Hd; [destruct Hd as [-> ->]|by rewrite app_nil_r]. by destruct (item _ _ ts n1 n2).
Qed.

Lemma put_event_str_view ts g1 g2 e :
  let '(ts', i) := get ts g1 in let ts2 := alter (put_event_str g2 e) i ts' in ∀ n1 n2,
  events_str_of ts2 n1 n2 = events_str_of ts n1 n2 ++ (if decide (g1 = n1 ∧ g2 = n2) then [e] else []) ∧
  ranges_of ts2 n1 n2 = ranges_of ts n1 n2 ∧ events_int_of ts2 n1 n2 = events_int_of ts n1 n2.
Proof.
  assert (∀ t, tl_name (put_event_str g2 e t) = tl_name t) as Hn by solve_put.
  pose proof (item_hit te_name tl_event_str _ g1 Hn eq_refl ts (λ n, TimelineEvent n [])
    (λ ev, EventLine.add_event ev e) g2) as Hs.
  pose proof (item_miss tdr_name tl_ranges _ g1 Hn eq_refl ts ltac:(solve_put)) as Hr.
  pose proof (item_miss te_name tl_event_int _ g1 Hn eq_refl ts ltac:(solve_put)) as Hi.
  destruct (get ts g1) as [ts' i]. intros ts2 n1 n2. subst ts2.
  unfold ranges_of, events_str_of, events_int_of. rewrite Hr, Hs, Hi by (done || solve_put). split; [|done].
  case_decide as Hd; [destruct Hd as [-> ->]|by rewrite app_nil_r]. by destruct (item _ _ ts n1 n2).
Qed.

Lemma put_event_int_view ts g1 g2 e :
  let '(ts', i) := get ts g1 in let ts2 := alter (put_event_int g2 e) i ts' in ∀ n1 n2,
  events_int_of ts2 n1 n2 = events_int_of ts n1 n2 ++ (if decide (g1 = n1 ∧ g2 = n2) then [e] else []) ∧
  ranges_of ts2 n1 n2 = ranges_of ts n1 n2 ∧ events_str_of ts2 n1 n2 = events_str_of ts n1 n2.
Proof.
  assert (∀ t, tl_name (put_event_int g2 e t) = tl_name t) as Hn by solve_put.
  pose proof (item_hit te_name tl_event_int _ g1 Hn eq_refl ts (λ n, TimelineEvent n [])
    (λ ev, EventLine.add_event ev e) g2) as Hi.
  pose proof (item_miss tdr_name tl_ranges _ g1 Hn eq_refl ts ltac:(solve_put)) as Hr.
  pose proof (item_miss te_name tl_event_str _ g1 Hn eq_refl ts ltac:(solve_put)) as Hs.
  destruct (get ts g1) as [ts' i]. intros ts2 n1 n2. subst ts2.
  unfold ranges_of, events_str_of, events_int_of. rewrite Hr, Hs, Hi by (done || solve_put). split; [|done].
  case_decide as Hd; [destruct Hd as [-> ->]|by rewrite app_nil_r]. by destruct (item _ _ ts n1 n2).
Qed.

(** What one line of the file adds to the data. *)
Lemma read_line_step st line n1 n2 :
  ranges_of (read_line st line).2 n1 n2 = ranges_of st.2 n1 n2 ++ option_list (range_for n1 n2 line) ∧
  events_str_of (read_line st line).2 n1 n2
    = events_str_of st.2 n1 n2 ++ option_list (event_str_for n1 n2 line) ∧
  events_int_of (read_line st line).2 n1 n2
    = events_int_of st.2 n1 n2 ++ option_list (event_int_for n1 n2 line).
Proof.
  destruct st as [cs ts]. unfold read_line, range_for, event_str_for, event_int_for.
  destruct (m1 line) as [[[[[g1 g2] g3] g4] g5]|] eqn:E1.
  { apply m1_excl in E1 as (-> & -> & _). pose proof (put_range_view ts g1 g2 (DataRange g4 g5 g3)) as Hv.
    destruct (get ts g1). destruct (Hv n1 n2) as (H1 & H2 & H3). cbn. rewrite H1, H2, H3.
    rewrite !app_nil_r. by case_decide. }
  destruct (m2 line) as [[[[g1 g2] g3] g4]|] eqn:E2.
  { apply m2_excl in E2 as (_ & -> & _). pose proof (put_event_str_view ts g1 g2 (Event g4 (VStr g3))) as Hv.
    destruct (get ts g1). destruct (Hv n1 n2) as (H1 & H2 & H3). cbn. rewrite H1, H2, H3.
    rewrite !app_nil_r. by case_decide. }
  destruct (m3 line) as [[[[g1 g2] g3] g4]|] eqn:E3.
  { pose proof (put_event_int_view ts g1 g2 (Event g4 (VInt g3))) as Hv.
    destruct (get ts g1). destruct (Hv n1 n2) as (H1 & H2 & H3). cbn. rewrite H1, H2, H3.
    rewrite !app_nil_r. by case_decide. }
  destruct (m4 line) as [[[[g1 g2] g3] g4]|]; cbn; by rewrite !app_nil_r.
Qed.

Lemma read_line_color st line n :
  color_of (read_line st line).1 !! n = from_option Some (color_of st.1 !! n) (color_for n line) ∧
  defaults_left (read_line st line).1 = defaults_left st.1.
Proof.
  destruct st as [cs ts]. unfold read_line, color_for.
  destruct (m1 line) as [[[[[g1 g2] g3] g4] g5]|] eqn:E1.
  { apply m1_excl in E1 as (_ & _ & ->). by destruct (get ts g1). }
  destruct (m2 line) as [[[[g1 g2] g3] g4]|] eqn:E2.
  { apply m2_excl in E2 as (_ & _ & ->). by destruct (get ts g1). }
  destruct (m3 line) as [[[[g1 g2] g3] g4]|] eqn:E3.
  { apply m3_excl in E3 as (_ & _ & ->). by destruct (get ts g1). }
  destruct (m4 line) as [[[[g1 g2] g3] g4]|]; [|done]. split; [|done]. cbn [mbind option_bind fst].
  unfold add_color. cbn [color_of]. case_decide as Hd.
  - subst. by rewrite lookup_insert_eq.
  - by rewrite lookup_insert_ne.
Qed.

Lemma item_fmap {B} (name_of : B → string) (sub : timeline → list B) (f : timeline → timeline) (h : B → B) ts n1 n2 :
  (∀ t, tl_name (f t) = tl_name t) → (∀ t, sub (f t) = h <$> sub t) → (∀ x, name_of (h x) = name_of x) →
  item name_of sub (f <$> ts) n1 n2 = h <$> item name_of sub ts n1 n2.
Proof.
  intros Hf Hs Hh. unfold item. rewrite named_fmap by done.
  destruct (named tl_name n1 ts) as [t|]; cbn; [|done]. rewrite Hs. by apply named_fmap.
Qed.

Lemma omap_snoc {A B} (f : A → option B) l x : omap f (l ++ [x]) = omap f l ++ option_list (f x).
Proof. by rewrite omap_app. Qed.

(** [read_data] groups the file by name: the ranges of a line are the ranges that the
    file gives for its two names, in time order and, at equal times, in file order; the same
    for string and integer events; and the color of a name is the last one the file gives. *)
Theorem read_data_spec (lines : list string) (n1 n2 : string) :
  let '(cs, ts) := read_data lines in
  ranges_of ts n1 n2 = sort_by ranges_cmp (omap (range_for n1 n2) lines) ∧
  events_str_of ts n1 n2 = sort_by events_cmp (omap (event_str_for n1 n2) lines) ∧
  events_int_of ts n1 n2 = sort_by events_cmp (omap (event_int_for n1 n2) lines) ∧
  color_of cs !! n1 = last (omap (color_for n1) lines).
Proof.
  unfold read_data. assert (let st := foldl read_line (Colors ∅ default_colors, []) lines in
    ranges_of st.2 n1 n2 = omap (range_for n1 n2) lines ∧
    events_str_of st.2 n1 n2 = omap (event_str_for n1 n2) lines ∧
    events_int_of st.2 n1 n2 = omap (event_int_for n1 n2) lines ∧
    color_of st.1 !! n1 = last (omap (color_for n1) lines)) as (H1 & H2 & H3 & H4).
  { induction lines as [|line ls IH] using rev_ind; [done|]. cbn zeta in *. rewrite foldl_app. cbn [foldl].
    destruct IH as (H1 & H2 & H3 & H4). set (st := foldl _ _ ls) in *.
    destruct (read_line_step st line n1 n2) as (-> & -> & ->).
    destruct (read_line_color st line n1) as [-> _]. rewrite H1, H2, H3, H4, !omap_snoc. split_and!; [done..|].
    destruct (color_for n1 line) as [c|].
    - change (option_list (Some c)) with [c]. by rewrite last_snoc.
    - change (option_list (@None color)) with (@nil color). by rewrite app_nil_r. }
  destruct (foldl _ _ lines) as [cs ts]. cbn in H1, H2, H3, H4. rewrite <-H1, <-H2, <-H3.
  unfold ranges_of, events_str_of, events_int_of, sort.
  rewrite (item_fmap tdr_name tl_ranges timeline_sort RangeLine.sort),
    (item_fmap te_name tl_event_str timeline_sort EventLine.sort),
    (item_fmap te_name tl_event_int timeline_sort EventLine.sort) by done.
  split_and!; [..|done].
  - by destruct (item tdr_name _ _ _ _).
  - by destruct (item te_name tl_event_str _ _ _).
  - by destruct (item te_name tl_event_int _ _ _).
Qed.

Lemma read_data_run :
  let '(cs, ts) := read_data (esc <$> ["range n0 tx on 20 30\n"; "event-int n0 rx 7 4\n"; "junk\n";
                                       "range n0 tx off 0 10\n"; "color on #ff8000\n"]) in
  ranges_of ts "n0" "tx" = [DataRange 0 10 "off"; DataRange 20 30 "on"] ∧
  events_int_of ts "n0" "rx" = [Event 4 (VInt 7)] ∧ color_of cs !! "on" = Some (Color 1 0 0).
Proof. by vm_compute. Qed.

(** ** Colors *)

(** The names without a color of their own, and the order in which defaults are given out. *)
Definition uncolored (c : colors) (names : list string) : list string :=
  filter (λ n, color_of c !! n = None) names.

Lemma uncolored_insert c name col names d :
  name ∉ names → uncolored (Colors (<[name := col]> (color_of c)) d) names = uncolored c names.
Proof.
  unfold uncolored. cbn [color_of]. induction names as [|n names IH]; intros Hn; [done|].
  rewrite !filter_cons, IH by set_solver. by rewrite lookup_insert_ne by set_solver.
Qed.

Lemma last_reverse {A} (l : list A) x : last l = Some x → l = removelast l ++ [x].
Proof.
  intros Hl. destruct l as [|y l _] using rev_ind; [done|]. rewrite last_snoc in Hl. injection Hl as ->.
  by rewrite removelast_last.
Qed.

(** Coloring a list of distinct names fails, with IndexError, exactly when more of them
    lack a color than defaults are left (six at the start); otherwise names with a color
    keep it and the others get the defaults, one each, the last one of the list first. *)
Theorem lookup_colors_spec (c : colors) (names : list string) :
  NoDup names →
  let fresh := uncolored c names in
  if decide (length fresh ≤ length (defaults_left c)) then
    ∃ cols c', lookup_colors c names = Ok (cols, c') ∧
      length cols = length names ∧
      (∀ i n, names !! i = Some n → cols !! i = color_of c' !! n) ∧
      (∀ n col, color_of c !! n = Some col → color_of c' !! n = Some col) ∧
      (∀ j n, fresh !! j = Some n → color_of c' !! n = reverse (defaults_left c) !! j)
  else lookup_colors c names = Raise IndexError.
Proof.
  intros Hnd. revert c. induction Hnd as [|name names Hn Hnd IH]; intros c.
  { cbn. exists [], c. split_and!; [done..|]. by intros j n Hj. }
  unfold uncolored. rewrite filter_cons. cbn [lookup_colors]. unfold lookup_color.
  destruct (color_of c !! name) as [col|] eqn:Ec.
  - rewrite (decide_False (P := Some col = None)) by done. specialize (IH c). cbn [mbind py_bind] in *.
    fold (uncolored c names). cbn zeta in *. case_decide as Hle.
    + destruct IH as (cols & c' & -> & Hlen & H1 & H2 & H3). exists (col :: cols), c'. cbn.
      split_and!; [done|by f_equal| |done|done]. intros [|i] n Hi; cbn in *; [|by apply H1].
      injection Hi as <-. symmetry. by apply H2.
    + by rewrite IH.
  - rewrite (decide_True (P := None = None)) by done. cbn zeta. destruct (last (defaults_left c)) as [col|] eqn:El.
    + set (c1 := Colors (<[name := col]> (color_of c)) (removelast (defaults_left c))).
      specialize (IH c1). unfold c1 in IH at 1. rewrite uncolored_insert in IH by done. fold c1 in IH.
      fold (uncolored c names). apply last_reverse in El.
      assert (length (defaults_left c) = S (length (defaults_left c1))) as Hlen.
      { rewrite El, length_app. cbn. lia. }
      cbn [mbind py_bind length] in *. cbn zeta in *. rewrite Hlen.
      destruct (decide (length (uncolored c names) ≤ length (defaults_left c1))) as [Hle|Hle];
        [rewrite decide_True by lia|rewrite decide_False by lia; by rewrite IH].
      destruct IH as (cols & c' & -> & Hl & H1 & H2 & H3). exists (col :: cols), c'. cbn.
      assert (color_of c' !! name = Some col) as Hname.
      { apply H2. cbn. by rewrite lookup_insert_eq. }
      split_and!; [done|by f_equal|..].
      * intros [|i] n Hi; cbn in *; [|by apply H1]. injection Hi as <-. done.
      * intros n x Hx. apply H2. cbn [color_of c1]. rewrite lookup_insert_ne; [done|]. congruence.
      * intros [|j] n Hj; cbn in Hj; rewrite El, reverse_snoc; cbn; [by injection Hj as <-|]. by apply H3.
    + apply last_None in El. rewrite El. cbn. by rewrite decide_False by lia.
Qed.

(** Seven values without a color exhaust the six defaults. *)
Lemma lookup_colors_spec_witness :
  lookup_colors (Colors ∅ default_colors) ["a"; "b"; "c"; "d"; "e"; "f"; "g"] = Raise IndexError.
Proof.
  assert (NoDup ["a"; "b"; "c"; "d"; "e"; "f"; "g"]) as Hnd by (by apply (bool_decide_unpack _)).
  exact (lookup_colors_spec (Colors ∅ default_colors) _ Hnd).
Defined.
