(* ===== verification/PyNum.v ===== *)
(** * PyNum: the numbers of Python 2

    [utils/grid.py] mixes integers (the data, the sizes of the window) with floats (the visible
    range, the pointer, the text sizes).  A number is an integer or a float; an operation on two
    integers is exact and [/] is floor division, an operation with a float converts the other
    operand and rounds the exact result with [rnd].  No law is assumed of [rnd]: a theorem
    without a hypothesis on it holds for doubles and for any other rounding.  Floats are finite:
    simulation times and window sizes are far from overflow. *)

From stdpp Require Import base list.
From Stdlib Require Import QArith Qround Qabs Lqa.
From S2P Require Import Prelude.
Open Scope nat_scope.

Class Rounding := rnd : Q → Q.
(** No rounding. *)
Definition exact : Rounding := λ q, q.

Inductive num := Int (z : Z) | Flt (q : Q).

Declare Scope num_scope.
Delimit Scope num_scope with num.
Bind Scope num_scope with num.

(** The value; comparisons are exact, also between an integer and a float. *)
Definition val (a : num) : Q := match a with Int z => inject_Z z | Flt q => q end.
Definition num_lt (a b : num) : bool := negb (Qle_bool (val b) (val a)).
Definition num_le (a b : num) : bool := Qle_bool (val a) (val b).
Definition num_eqb (a b : num) : bool := Qeq_bool (val a) (val b).
(** [max(a, b)] and [min(a, b)] return the first argument when the two are equal. *)
Definition num_max (a b : num) : num := if num_lt a b then b else a.
Definition num_min (a b : num) : num := if num_lt b a then b else a.
Definition num_abs (a : num) : num := match a with Int z => Int (Z.abs z) | Flt q => Flt (Qabs q) end.
Definition num_opp (a : num) : num := match a with Int z => Int (- z) | Flt q => Flt (- q) end.
(** [int(a)] cuts off towards zero. *)
Definition num_int (a : num) : num := match a with Int z => Int z | Flt q => Int (Z.quot (Qnum q) (Zpos (Qden q))) end.
(** The truth value. *)
Definition truthy (a : num) : bool := negb (num_eqb a (Int 0)).

Section arithmetic.
Context `{Rounding}.

Definition num_float (a : num) : num := match a with Int z => Flt (rnd (inject_Z z)) | Flt q => Flt q end.
Definition arith (fz : Z → Z → Z) (fq : Q → Q → Q) (a b : num) : num :=
  match a, b with
  | Int x, Int y => Int (fz x y)
  | _, _ => Flt (rnd (fq (val (num_float a)) (val (num_float b))))
  end.
Definition num_add : num → num → num := arith Z.add Qplus.
Definition num_sub : num → num → num := arith Z.sub Qminus.
Definition num_mul : num → num → num := arith Z.mul Qmult.
Definition num_div (a b : num) : py exn num :=
  if num_eqb b (Int 0) then Raise ZeroDivisionError else Ok (arith Z.div Qdiv a b).
Definition num_mod (a b : num) : py exn num :=
  if num_eqb b (Int 0) then Raise ZeroDivisionError
  else Ok (arith Z.modulo (λ x y, x - inject_Z (Qfloor (x / y)) * y)%Q a b).
(** A literal such as [0.9]. *)
Definition lit (q : Q) : num := Flt (rnd q).
End arithmetic.

Infix "+" := num_add : num_scope.
Infix "-" := num_sub : num_scope.
Infix "*" := num_mul : num_scope.
Infix "<?" := num_lt : num_scope.
Infix "<=?" := num_le : num_scope.
Infix "=?" := num_eqb : num_scope.

(** ** Comparisons *)

Lemma num_lt_spec a b : num_lt a b = true ↔ (val a < val b)%Q.
Proof.
  unfold num_lt. rewrite negb_true_iff, <-not_true_iff_false, Qle_bool_iff.
  split; [apply Qnot_le_lt|apply Qlt_not_le].
Qed.
Lemma num_lt_false a b : num_lt a b = false ↔ (val b <= val a)%Q.
Proof. unfold num_lt. by rewrite negb_false_iff, Qle_bool_iff. Qed.
Lemma num_le_spec a b : num_le a b = true ↔ (val a <= val b)%Q.
Proof. apply Qle_bool_iff. Qed.
Lemma num_eqb_spec a b : num_eqb a b = true ↔ (val a == val b)%Q.
Proof. apply Qeq_bool_iff. Qed.
Lemma num_eqb_false a b : num_eqb a b = false ↔ ¬ (val a == val b)%Q.
Proof. rewrite <-not_true_iff_false. by rewrite num_eqb_spec. Qed.

Lemma num_min_spec a b :
  (val (num_min a b) <= val a)%Q ∧ (val (num_min a b) <= val b)%Q ∧ (num_min a b = a ∨ num_min a b = b).
Proof. unfold num_min. destruct (num_lt b a) eqn:E; [apply num_lt_spec in E|apply num_lt_false in E]; split_and!; auto; lra. Qed.
Lemma num_max_spec a b :
  (val a <= val (num_max a b))%Q ∧ (val b <= val (num_max a b))%Q ∧ (num_max a b = a ∨ num_max a b = b).
Proof. unfold num_max. destruct (num_lt a b) eqn:E; [apply num_lt_spec in E|apply num_lt_false in E]; split_and!; auto; lra. Qed.

Lemma num_div_ok `{Rounding} a b : ¬ (val b == 0)%Q → num_div a b = Ok (arith Z.div Qdiv a b).
Proof. intros Hb. unfold num_div. by rewrite (proj2 (num_eqb_false b (Int 0))). Qed.
Lemma num_div_zero `{Rounding} a b : (val b == 0)%Q → num_div a b = Raise ZeroDivisionError.
Proof. intros Hb. unfold num_div. by rewrite (proj2 (num_eqb_spec b (Int 0))). Qed.

(** ** Exact arithmetic *)

Section exact.
#[local] Existing Instance exact.

Lemma val_float a : val (num_float a) = val a.
Proof. by destruct a. Qed.
Lemma val_add a b : (val (num_add a b) == val a + val b)%Q.
Proof. destruct a, b; cbn; unfold rnd, exact; rewrite ?inject_Z_plus; reflexivity. Qed.
Lemma val_sub a b : (val (num_sub a b) == val a - val b)%Q.
Proof. destruct a, b; cbn; unfold rnd, exact, Qminus, Z.sub; rewrite ?inject_Z_plus, ?inject_Z_opp; reflexivity. Qed.
Lemma val_mul a b : (val (num_mul a b) == val a * val b)%Q.
Proof. destruct a, b; cbn; unfold rnd, exact; rewrite ?inject_Z_mult; reflexivity. Qed.
(** A float divided by anything, or anything by a float. *)
Lemma val_div_float q b : (val (arith Z.div Qdiv (Flt q) b) == q / val b)%Q.
Proof. destruct b; reflexivity. Qed.
End exact.
