(* ===== verification/RadFloat.v ===== *)
(** * RadFloat: the functions of [bindings/python/rad_util.py] on floats

    [pt2str], [quantile], [trim], [nice_units], [float_range] and [getmodule], over the numbers of
    [PyNum].  The texts [str(x)], ["%.*f"] and ["%.*g"] are parameters. *)

From stdpp Require Import base list strings gmap sorting.
From Stdlib Require Import QArith Qround Qabs Lqa.
From S2P Require Import Prelude PyNum.
Open Scope nat_scope.
Open Scope num_scope.

Section rad_float.
Context `{Rounding}.

Definition pt2str (str_ : num → string) (point : list num) : py exn string :=
  x ← or_raise IndexError (py_nth point 0);
  y ← or_raise IndexError (py_nth point 1);
  Ok ("(" +:+ str_ x +:+ ", " +:+ str_ y +:+ ")").

(** ** Quantiles *)

Definition sort_nums (l : list num) : list num := stable_sort num_le l.
Definition int_of (a : num) : Z := match num_int a with Int z => z | Flt _ => 0%Z end.
Definition item (l : list num) (i : Z) : py exn num := or_raise IndexError (py_nth l i).

Definition quantile (l : list num) (p : num) : py exn num :=
  let l_sort := sort_nums l in
  let n := Z.of_nat (length l) in
  let r := Int 1 + Int (n - 1) * p in
  let i := int_of r in
  let f := r - Int i in
  if (i <? n)%Z then
    a ← item l_sort (i - 1);
    b ← item l_sort i;
    Ok ((Int 1 - f) * a + f * b)
  else item l_sort (i - 1).

(** The median is computed, which fails on an empty list, and then not used. *)
Definition median (l_sort : list num) : py exn num :=
  let n := Z.of_nat (length l_sort) in
  let index := (n / 2)%Z in
  if (n mod 2 =? 0)%Z then
    a ← item l_sort index;
    b ← item l_sort (index - 1);
    num_div (num_float (a + b)) (Int 2)
  else item l_sort index.
Definition trim (l : list num) : py exn (list num) :=
  let l_sort := sort_nums l in
  _ ← median l_sort;
  q1 ← quantile l_sort (lit (1 # 4));
  q3 ← quantile l_sort (lit (3 # 4));
  let iqr := q3 - q1 in
  let iqr_extra := iqr * lit (3 # 2) in
  let in_interval x := (q1 - iqr_extra <=? x) && (x <=? q3 + iqr_extra) in
  Ok (filter (λ x, in_interval x = true) l_sort).

(** ** Units *)

(** [1e24] and the like. *)
Definition e10 (k : Z) : num := lit (Qpower (10 # 1) k).
Definition si_prefixes : list (num * (string * string)) :=
  [(e10 24, ("Y", "yotta")); (e10 21, ("Z", "zetta")); (e10 18, ("E", "exa")); (e10 15, ("P", "peta"));
   (e10 12, ("T", "tera")); (e10 9, ("G", "giga")); (e10 6, ("M", "mega")); (e10 3, ("k", "kilo"));
   (e10 (-3), ("m", "milli")); (e10 (-6), ("u", "micro")); (e10 (-9), ("n", "nano")); (e10 (-12), ("p", "pico"));
   (e10 (-15), ("f", "femto")); (e10 (-18), ("a", "atto")); (e10 (-21), ("z", "zepto")); (e10 (-24), ("y", "yocto"))].
Definition extra_prefixes : list (num * (string * string)) :=
  [(e10 2, ("h", "hecto")); (e10 1, ("da", "deka")); (e10 (-1), ("d", "deci")); (e10 (-2), ("c", "centi"))].
Definition bin_prefixes : list (num * (string * string)) :=
  [(Int (2 ^ 10), ("K", "kilo")); (Int (2 ^ 20), ("M", "mega")); (Int (2 ^ 30), ("G", "mega"));
   (Int (2 ^ 40), ("T", "tera")); (Int (2 ^ 50), ("P", "peta")); (Int (2 ^ 60), ("E", "exa"))].

(** The dictionary as a list: no two keys are equal. *)
Definition prefixes (mode : string) (use_extra_prefixes : bool) : list (num * (string * string)) :=
  (if decide (mode = "bin") then bin_prefixes
   else si_prefixes ++ (if use_extra_prefixes then extra_prefixes else [])) ++ [(Int 1, ("", ""))].
Definition lookup_prefix (ps : list (num * (string * string))) (m : num) : py exn (string * string) :=
  or_raise KeyError (snd <$> head (filter (λ kv, (kv.1 =? m) = true) ps)).

(** The loop: the first [i] with [multipliers[i] <= value < multipliers[i+1]]. *)
Fixpoint find_multiplier (value : num) (i : nat) (ms : list num) : option nat :=
  match ms with
  | lower_mult :: (upper_mult :: _) as rest =>
      if (lower_mult <=? value) && (value <? upper_mult) then Some i else find_multiplier value (S i) rest
  | _ => None
  end.
(** [mult_i]; the loop leaves [mult] unset, so the two tests after it are always made. *)
Definition mult_index (value : num) (ms : list num) : py exn nat :=
  first ← or_raise IndexError (head ms);
  top ← or_raise IndexError (last ms);
  if value <? first then Ok 0
  else if top <=? value then Ok (pred (length ms))
  else or_raise UnboundLocalError (find_multiplier value 0 ms).

(** [round(x, dp)]: halves are rounded away from zero. *)
Definition round_ (x : num) (dp : Z) : num :=
  let q := (val (num_float x) * Qpower (10 # 1) dp)%Q in
  let n := Qfloor (Qabs q + (1 # 2)) in
  lit (inject_Z (if Qle_bool 0 q then n else (- n)%Z) / Qpower (10 # 1) dp).

(** [fmt_f] and [fmt_g] are the formats with a number of digits. *)
Context (fmt_f fmt_g : Z → num → string).
(** The multiplier after the special case for rounding, and the converted value. *)
Definition scaled (value : num) (dp : Z) (sigfigs : option Z) (ms : list num) : py exn (num * num) :=
  mult_i ← mult_index value ms;
  mult ← or_raise IndexError (ms !! mult_i);
  new_value ← num_div value mult;
  match sigfigs, ms !! S mult_i with
  | None, Some next =>
      ratio ← num_div next mult;
      if round_ new_value dp =? round_ ratio dp then
        new_value ← num_div value next; Ok (next, new_value)
      else Ok (mult, new_value)
  | _, _ => Ok (mult, new_value)
  end.
Definition nice_units (value : num) (dp : Z) (sigfigs : option Z) (suffix space : string)
    (use_extra_prefixes use_full_name : bool) (mode : string) : py exn string :=
  let ps := prefixes mode use_extra_prefixes in
  '(mult, new_value) ← scaled value dp sigfigs (sort_nums (fst <$> ps));
  let str_value := match sigfigs with None => fmt_f dp new_value | Some k => fmt_g k new_value end in
  '(symbol, name) ← lookup_prefix ps mult;
  Ok (str_value +:+ space +:+ (if use_full_name then name else symbol) +:+ suffix).

(** ** Ranges of floats *)

(** [while cur < stop]; [None] when the fuel runs out. *)
Fixpoint float_range_loop (fuel : nat) (cur stop step : num) : option (list num) :=
  if cur <? stop then
    match fuel with
    | O => None
    | S fuel => (cons cur) <$> float_range_loop fuel (cur + step) stop step
    end
  else Some [].
Definition float_range (fuel : nat) (start : num) (stop step : option num) : option (list num) :=
  let '(start, stop) := match stop with None => (lit 0, num_float start) | Some stop => (start, stop) end in
  float_range_loop fuel (num_float start) stop (default (lit 1) step).
End rad_float.

(** ** [getmodule] *)

(** An object: a function with the [__name__] of its globals, or something with members. *)
Inductive pyobj := Function_ (module_name : string) | Object_ (members : list (option string)).
Definition getmodule {V} (modules : gmap string V) (repr : string) (obj : pyobj) : py exn V :=
  module_name ← match obj with
    | Function_ m => Ok m
    | Object_ members =>
        or_raise (ValueError ("No functions attached to object: " +:+ repr)) (head (omap id members))
    end;
  or_raise KeyError (modules !! module_name).

(** ** Theorems *)

Section exact.
#[local] Existing Instance exact.

(** *** Quantiles *)

Definition val_le (a b : num) : Prop := (val a <= val b)%Q.

Lemma sort_nums_length l : length (sort_nums l) = length l.
Proof. apply stable_sort_length. Qed.
Lemma sort_nums_sorted l : StronglySorted val_le (sort_nums l).
Proof.
  apply Sorted_StronglySorted; [intros a b c; apply Qle_trans|].
  eapply Sorted_mono, stable_sort_sorted.
  - intros a b Hab. by apply num_le_spec.
  - intros a b. rewrite !num_le_spec. destruct (Qlt_le_dec (val b) (val a)); [right|left]; lra.
Qed.
Lemma sorted_lookup l i j a b :
  StronglySorted val_le l → i ≤ j → l !! i = Some a → l !! j = Some b → val_le a b.
Proof.
  intros Hs Hij Ha Hb. destruct (decide (i = j)) as [->|Hne]; [simplify_eq; apply Qle_refl|].
  rewrite <-(take_drop (S i) l) in Hs. eapply StronglySorted_app_1_elem_of; [exact Hs| |].
  - apply list_elem_of_lookup. exists i. by rewrite lookup_take_lt by lia.
  - apply list_elem_of_lookup. exists (j - S i)%nat. rewrite lookup_drop.
    by replace (S i + (j - S i))%nat with j by lia.
Qed.

Lemma int_of_floor a : (0 <= val a)%Q → (inject_Z (int_of a) <= val a)%Q ∧ (val a < inject_Z (int_of a) + 1)%Q.
Proof.
  destruct a as [z|[n d]]; unfold int_of; cbn; intros Hz; [split; [apply Qle_refl|unfold Qlt; cbn; lia]|].
  assert (0 <= n)%Z as Hn by (unfold Qle in Hz; cbn in Hz; lia). rewrite Z.quot_div_nonneg by lia.
  pose proof (Z.div_mod n (Z.pos d) ltac:(lia)) as Hdm. pose proof (Z.mod_pos_bound n (Z.pos d) ltac:(lia)) as Hb.
  unfold Qle, Qlt; cbn. split; lia.
Qed.

(** The position that [quantile] computes. *)
Definition position (n : Z) (p : num) : num := Int 1 + Int (n - 1) * p.
Lemma position_spec n p :
  (1 <= n)%Z → (0 <= val p <= 1)%Q →
  let i := int_of (position n p) in
  (val (position n p) == 1 + inject_Z (n - 1) * val p)%Q ∧ (1 <= i <= n)%Z ∧
  (inject_Z i <= val (position n p) <= inject_Z n)%Q ∧ (val (position n p) < inject_Z i + 1)%Q.
Proof.
  intros Hn Hp. cbn zeta. set (r := position n p). set (i := int_of r).
  assert (val r == 1 + inject_Z (n - 1) * val p)%Q as Hr by (unfold r, position; rewrite val_add, val_mul;
    reflexivity).
  assert (0 <= inject_Z (n - 1))%Q as Hn1 by (rewrite <-(Zle_Qle 0); lia).
  assert (inject_Z n == inject_Z (n - 1) + 1)%Q as En.
  { replace n with (n - 1 + 1)%Z at 1 by lia. by rewrite inject_Z_plus. }
  assert (0 <= inject_Z (n - 1) * val p <= inject_Z (n - 1))%Q as Hb by (split; nra).
  destruct (int_of_floor r) as [Hi1 Hi2]; [lra|]. fold i in Hi1, Hi2. split; [done|].
  split; [split|split; [split|]; lra].
  - assert (0 < i)%Z; [|lia]. rewrite Zlt_Qlt. change (inject_Z 0) with 0%Q. lra.
  - rewrite Zle_Qle. lra.
Qed.

(** [quantile] of a nonempty list for [p] between 0 and 1, without rounding: with [r = 1 + (n-1) p],
    the value at position [r], counted from 1 in the sorted list, by linear interpolation between
    the neighbours of [r]. *)
Theorem quantile_spec (l : list num) (p : num) :
  l ≠ [] → (0 <= val p <= 1)%Q →
  ∃ q (k : nat) a b, quantile l p = Ok q ∧ sort_nums l !! k = Some a ∧
    (sort_nums l !! S k = Some b ∨ S k = length l ∧ a = b) ∧
    let f := (inject_Z (Z.of_nat (length l) - 1) * val p - inject_Z (Z.of_nat k))%Q in
    (0 <= f < 1)%Q ∧ (val q == val a + f * (val b - val a))%Q ∧ val_le a q ∧ val_le q b.
Proof.
  intros Hl Hp. set (n := Z.of_nat (length l)). assert (1 <= n)%Z as Hn by (destruct l; [done|unfold n; cbn; lia]).
  unfold quantile. fold n (position n p). destruct (position_spec n p Hn Hp) as (Hr & Hi & [Hi1 Hi3] & Hi2).
  set (r := position n p) in *. set (i := int_of r) in *.
  assert (∃ a, sort_nums l !! Z.to_nat (i - 1) = Some a) as [a Ha]
    by (apply lookup_lt_is_Some_2; rewrite sort_nums_length; unfold n in Hi; lia).
  assert (inject_Z (i - 1) == inject_Z i - 1)%Q as Ei by (unfold Z.sub, Qminus; by rewrite inject_Z_plus).
  assert (item (sort_nums l) (i - 1) = Ok a) as Ea.
  { unfold item. replace (i - 1)%Z with (Z.of_nat (Z.to_nat (i - 1))) by lia. by rewrite py_nth_nat, Ha. }
  destruct (Z.ltb_spec i n) as [Hlt|Hge].
  - assert (∃ b, sort_nums l !! Z.to_nat i = Some b) as [b Hbl]
      by (apply lookup_lt_is_Some_2; rewrite sort_nums_length; unfold n in Hlt; lia).
    assert (item (sort_nums l) i = Ok b) as Eb.
    { unfold item. replace i with (Z.of_nat (Z.to_nat i)) at 1 by lia. by rewrite py_nth_nat, Hbl. }
    eexists _, (Z.to_nat (i - 1)), a, b. rewrite Ea. cbn [mbind py_bind]. rewrite Eb. cbn [mbind py_bind].
    rewrite Z2Nat.id, Ei by lia. replace (S (Z.to_nat (i - 1))) with (Z.to_nat i) by lia.
    assert (val_le a b) as Hab by (eapply (sorted_lookup (sort_nums l) (Z.to_nat (i - 1)) (Z.to_nat i)); eauto using
      sort_nums_sorted; lia). unfold val_le in *.
    split_and!; [done|done|by left|lra|lra|..];
      rewrite ?val_add, ?val_mul, ?val_sub, ?val_add, ?val_mul, ?val_sub; change (val (Int ?z)) with (inject_Z z);
      change (inject_Z 1) with 1%Q; rewrite ?Hr; [ring|nra|nra].
  - assert (i = n) as E by lia. eexists _, (Z.to_nat (i - 1)), a, a. rewrite Ea.
    rewrite Z2Nat.id, Ei by lia.
    rewrite E in *. split_and!; [done|done|right; split; [unfold n;
      lia|done]|lra|lra|lra|apply Qle_refl|apply Qle_refl].
Qed.

Lemma item_ok l (i : Z) : (0 <= i < Z.of_nat (length l))%Z → ∃ a, item l i = Ok a.
Proof.
  intros Hi. destruct (lookup_lt_is_Some_2 l (Z.to_nat i)) as [a Ha]; [lia|]. exists a. unfold item.
  replace i with (Z.of_nat (Z.to_nat i)) by lia. by rewrite py_nth_nat, Ha.
Qed.
Lemma median_ok l : l ≠ [] → ∃ a, median l = Ok a.
Proof.
  intros Hl. unfold median. assert (0 < Z.of_nat (length l))%Z as Hn by (destruct l; [done|cbn; lia]).
  pose proof (Z.div_mod (Z.of_nat (length l)) 2 ltac:(lia)) as Hd.
  pose proof (Z.mod_pos_bound (Z.of_nat (length l)) 2 ltac:(lia)) as Hm.
  destruct (Z.eqb_spec (Z.of_nat (length l) mod 2) 0) as [E|E]; [|apply item_ok; lia].
  destruct (item_ok l (Z.of_nat (length l) / 2)) as [a ->]; [lia|].
  destruct (item_ok l (Z.of_nat (length l) / 2 - 1)) as [b ->]; [lia|].
  cbn [mbind py_bind]. eexists. by apply num_div_ok.
Qed.

(** [trim] without rounding returns, of the sorted list, the values at most one and a half interquartile
    ranges away from the quartiles; on an empty list it raises IndexError. *)
Theorem trim_spec (l : list num) :
  trim [] = Raise IndexError ∧
  (l ≠ [] → ∃ q1 q3, quantile (sort_nums l) (Flt (1 # 4)) = Ok q1 ∧ quantile (sort_nums l) (Flt (3 # 4)) = Ok q3 ∧
    ∃ l', trim l = Ok l' ∧ sublist l' (sort_nums l) ∧
      ∀ x, x ∈ l' ↔ x ∈ l ∧ (val q1 - (3 # 2) * (val q3 - val q1) <= val x <= val q3 + (3 # 2) * (val q3 - val q1))%Q).
Proof.
  split; [reflexivity|]. intros Hl.
  assert (sort_nums l ≠ []) as Hs by (intros E; apply Hl; apply length_zero_iff_nil;
    by rewrite <-sort_nums_length, E).
  destruct (quantile_spec (sort_nums l) (Flt (1 # 4)) Hs ltac:(cbn; lra)) as (q1 & _ & _ & _ & E1 & _).
  destruct (quantile_spec (sort_nums l) (Flt (3 # 4)) Hs ltac:(cbn; lra)) as (q3 & _ & _ & _ & E3 & _).
  exists q1, q3. split_and!; [done|done|]. destruct (median_ok (sort_nums l) Hs) as [m Em].
  unfold trim. change (lit ?q) with (Flt q). rewrite Em. cbn [mbind py_bind]. rewrite E1. cbn [mbind py_bind].
  rewrite E3. cbn [mbind py_bind].
  eexists. split; [done|]. split; [apply sublist_filter|]. intros x.
  rewrite list_elem_of_filter, andb_true_iff, !num_le_spec. unfold sort_nums at 1. rewrite stable_sort_perm.
  rewrite val_sub, val_add, val_mul, val_sub. cbn [val]. split; intros [H1 H2]; (split; [done || lra|done || lra]).
Qed.

(** *** Ranges *)

(** [float_range] with a positive step, without rounding: as soon as the fuel is not less than the number
    of steps, the values are [start + k * step] for the [k] for which this is below [stop]. *)
Theorem float_range_up (start stop step : num) (fuel : nat) :
  (0 < val step)%Q → (val stop - val start <= inject_Z (Z.of_nat fuel) * val step)%Q →
  ∃ l, float_range fuel start (Some stop) (Some step) = Some l ∧
    (∀ k x, l !! k = Some x → (val x == val start + inject_Z (Z.of_nat k) * val step)%Q ∧ (val x < val stop)%Q) ∧
    (val stop <= val start + inject_Z (Z.of_nat (length l)) * val step)%Q.
Proof.
  intros Hstep. unfold float_range. change (default (lit 1) (Some step)) with step.
  assert (val (num_float start) == val start)%Q as E by (by rewrite val_float).
  revert E. generalize (num_float start) as cur. revert start.
  induction fuel as [|fuel IH]; intros start cur E Hf; cbn [float_range_loop].
  - change (inject_Z (Z.of_nat 0)) with 0%Q in Hf. rewrite (proj2 (num_lt_false cur stop)) by lra.
    exists []. split_and!; [done|done|]. change (inject_Z (Z.of_nat (length []))) with 0%Q. lra.
  - destruct (cur <? stop) eqn:Elt.
    + apply num_lt_spec in Elt. destruct (IH (cur + step) (cur + step)) as (l & El & Hl & Hend); [reflexivity| |].
      { rewrite val_add. rewrite Nat2Z.inj_succ, <-Z.add_1_r, inject_Z_plus in Hf.
        change (inject_Z 1) with 1%Q in Hf. lra. }
      rewrite El. eexists. split; [done|]. rewrite val_add in Hend. split.
      * intros [|k] x Hx; cbn in Hx; [injection Hx as <-; split; [change (inject_Z (Z.of_nat 0)) with 0%Q;
          lra|done]|]. destruct (Hl k x Hx) as [H1 H2].
        split; [|done]. rewrite H1, val_add, E, Nat2Z.inj_succ, <-Z.add_1_r, inject_Z_plus.
        change (inject_Z 1) with 1%Q. ring.
      * cbn [length]. rewrite Nat2Z.inj_succ, <-Z.add_1_r, inject_Z_plus. change (inject_Z 1) with 1%Q. lra.
    + apply num_lt_false in Elt. exists []. split_and!; [done|done|].
      change (inject_Z (Z.of_nat (length []))) with 0%Q. lra.
Qed.

(** With a step that is not positive it does not end, unless the range is empty. *)
Theorem float_range_diverges (start stop step : num) :
  (val step <= 0)%Q → (val start < val stop)%Q → ∀ fuel, float_range fuel start (Some stop) (Some step) = None.
Proof.
  intros Hstep Hlt fuel. unfold float_range. change (default (lit 1) (Some step)) with step.
  rewrite <-(val_float start) in Hlt. revert Hlt.
  generalize (num_float start) as cur. induction fuel as [|fuel IH]; intros cur Hlt; cbn;
    rewrite (proj2 (num_lt_spec cur stop)) by done; [done|]. rewrite IH; [done|]. rewrite val_add. lra.
Qed.

(** *** Units *)

Lemma find_multiplier_spec value ms i first top :
  head ms = Some first → last ms = Some top → (val first <= val value < val top)%Q →
  ∃ k m m', find_multiplier value i ms = Some (i + k)%nat ∧ ms !! k = Some m ∧ ms !! S k = Some m' ∧
    (val m <= val value < val m')%Q.
Proof.
  revert i first. induction ms as [|a ms IH]; intros i first Hh Ht Hv; [done|]. injection Hh as <-.
  destruct ms as [|b ms]; [injection Ht as <-; lra|]. cbn [find_multiplier].
  rewrite (proj2 (num_le_spec a value)) by apply Hv. cbn [andb]. destruct (value <? b) eqn:E.
  - apply num_lt_spec in E. exists 0, a, b. rewrite Nat.add_0_r. split_and!; try done. apply Hv.
  - apply num_lt_false in E.
    destruct (IH (S i) b) as (k & m & m' & H1 & H2 & H3 & H4); [done|done|split; [done|apply Hv]|].
    exists (S k), m, m'. by rewrite Nat.add_succ_r.
Qed.

(** The multiplier that [nice_units] starts from: the last that is not above the value, or the first
    when the value is below all of them.  Nonpositive values are below all of them. *)
Theorem mult_index_spec value ms :
  ms ≠ [] →
  ∃ i m, mult_index value ms = Ok i ∧ ms !! i = Some m ∧
    ((∃ first, head ms = Some first ∧ val value < val first)%Q ∧ i = 0 ∨
     (val m <= val value)%Q ∧ ∀ m', ms !! S i = Some m' → (val value < val m')%Q).
Proof.
  intros Hms. unfold mult_index. destruct ms as [|first ms']; [done|]. cbn [head or_raise mbind py_bind].
  destruct (last (first :: ms')) as [top|] eqn:Et; [|by apply last_None in Et]. cbn [or_raise mbind py_bind].
  destruct (value <? first) eqn:E1; [apply num_lt_spec in E1; exists 0, first; split_and!; try done; left; eauto|].
  apply num_lt_false in E1. destruct (top <=? value) eqn:E2.
  - apply num_le_spec in E2. rewrite last_lookup in Et. exists (pred (length (first :: ms'))), top.
    split_and!; [done|done|right; split; [done|]]. intros m' Hm'. apply lookup_lt_Some in Hm'. cbn in Hm'. lia.
  - assert (val value < val top)%Q as Hlt.
    { apply Qnot_le_lt. intros Hle. apply num_le_spec in Hle. congruence. }
    destruct (find_multiplier_spec value (first :: ms') 0 first top) as (k & m & m' & -> & H1 & H2 & H3); [done..|].
    exists k, m. split_and!; [done|done|right; split; [apply H3|]]. intros m2 Hm2. simplify_eq. apply H3.
Qed.

(** Zero and negative values get the smallest prefix: [nice_units(0)] is ["0 y"]. *)
Lemma nice_units_zero :
  nice_units (λ _ v, if num_eqb v (Int 0) then "0" else "?") (λ _ _, "?") (Int 0) 0 None "" " " false false "si" = Ok "0 y".
Proof. by vm_compute. Qed.
(** The full name of [2**30] is that of [2**20]. *)
Lemma bin_giga : lookup_prefix bin_prefixes (Int (2 ^ 30)) = Ok ("G", "mega").
Proof. by vm_compute. Qed.
End exact.
