(* ===== verification/GridDraw.v ===== *)
(** * GridDraw: the renderers of [utils/grid.py]

    [TopLegendRenderer], [TimelinesRenderer], [ScaleRenderer] and [GraphicRenderer].  Drawing
    emits a list of cairo commands; the sizes of texts are the class [Cairo].  An attribute that a
    constructor does not set is an [option], and reading it before it is set raises
    AttributeError. *)

From stdpp Require Import base list strings gmap sorting.
From Stdlib Require Import QArith Qround Lqa.
From S2P Require Import Prelude GridData PyNum.
Open Scope nat_scope.
Open Scope num_scope.

(** ** Cairo *)

Record extents := Extents { y_bearing : Q; text_width : Q; text_height : Q }.
Class Cairo := text_extents : string → extents.

Inductive cmd :=
| Rectangle (x y w h : num) | MoveTo (x y : num) | LineTo (x y : num) | RelLineTo (x y : num) | ClosePath
| SetSourceRgb (r g b : num) | SetLineWidth (w : num) | SetOperatorSource | SetDash (dashes : list num) (offset : num)
| Stroke | StrokePreserve | Fill | ShowText (text : string)
| Translate (x y : num) | Save | Restore.

(** The state of a drawing: the commands so far, the attribute [grey_background] and the colors,
    which [lookup] can extend. *)
Record drawing := Drawing { cmds : list cmd; grey_background : option Z; palette : colors }.

Section renderers.
Context `{Rounding, Cairo}.
Abbreviation D := (stx drawing exn).

Definition t_bearing (s : string) : num := Flt (y_bearing (text_extents s)).
Definition t_width (s : string) : num := Flt (text_width (text_extents s)).
Definition t_height (s : string) : num := Flt (text_height (text_extents s)).
Definition alphabet : string := "ABCDEFGHIJKLMNOPQRSTUVWXYZabcedefghijklmnopqrstuvwxyz0123456789".

Definition emit (cs : list cmd) : D unit :=
  modify_st (λ d, Drawing (cmds d ++ cs) (grey_background d) (palette d)).
Definition attribute {S A} (o : option A) : stx S exn A := lift_py (or_raise AttributeError o).

(** ** [TopLegendRenderer] *)

Record legend := Legend {
  lg_padding : num; legends : list string; lg_colors : list color; lg_width : option num; lg_height : option num }.

Definition TopLegendRenderer : legend := Legend (Int 10) [] [] None None.
Definition set_padding (l : legend) (padding : num) : legend :=
  Legend padding (legends l) (lg_colors l) (lg_width l) (lg_height l).
Definition set_legends (l : legend) (names : list string) (cols : list color) : legend :=
  Legend (lg_padding l) names cols (lg_width l) (lg_height l).

(** One round of the loops of [layout] and [draw]: [line_height], [total_height] and [line_used]
    after the item, and its [x]. *)
Record flow := Flow { line_height : num; total_height : num; line_used : num }.
Definition place (padding width : num) (s : flow) (name : string) : flow * num :=
  let item_width := padding + padding + t_width name + padding in
  let item_height := t_height name + padding in
  let line_height := if line_height s <? item_height then item_height else line_height s in
  let s := if width <? line_used s + item_width
           then Flow line_height (total_height s + line_height) (padding + item_width)
           else Flow line_height (total_height s) (line_used s + item_width) in
  (s, line_used s - item_width).
Definition start_flow (padding : num) : flow := Flow (Int 0) padding padding.

Definition legend_layout (l : legend) (width : num) : legend :=
  let s := foldl (λ s name, (place (lg_padding l) width s name).1) (start_flow (lg_padding l)) (legends l) in
  Legend (lg_padding l) (legends l) (lg_colors l) (Some width) (Some (total_height s + line_height s)).

Fixpoint legend_items (padding width : num) (colors : list color) (i : nat) (s : flow) (names : list string) : D unit :=
  match names with
  | [] => mret tt
  | name :: names =>
      let '(s, x) := place padding width s name in
      _ ← emit [Rectangle x (total_height s) padding padding; SetSourceRgb (Int 0) (Int 0) (Int 0);
                SetLineWidth (Int 2); StrokePreserve];
      c ← lift_py (or_raise IndexError (colors !! i));
      _ ← emit [SetSourceRgb (Int (c_r c)) (Int (c_g c)) (Int (c_b c)); Fill;
                MoveTo (x + padding * Int 2) (total_height s + t_height name);
                SetSourceRgb (Int 0) (Int 0) (Int 0); ShowText name];
      legend_items padding width colors (S i) s names
  end.
Definition legend_draw (l : legend) : D unit :=
  match legends l with
  | [] => mret tt
  | names =>
      width ← attribute (lg_width l);
      legend_items (lg_padding l) width (lg_colors l) 0 (start_flow (lg_padding l)) names
  end.

(** ** [TimelinesRenderer] *)

Record sizes := Sizes { left_width : num; right_width : num; max_text_height : num; tr_width : num; tr_height : num }.
Record timelines_renderer := TimelinesRenderer {
  tr_padding : num; tr_timelines : timelines; tr_range : option (num * num); tr_sizes : option sizes }.

(** The constructor, then [set_timelines]; the colors are part of the drawing. *)
Definition new_timelines_renderer (ts : timelines) : timelines_renderer := TimelinesRenderer (Int 10) ts None None.
Definition set_render_range (r : timelines_renderer) (start end_ : num) : timelines_renderer :=
  TimelinesRenderer (tr_padding r) (tr_timelines r) (Some (start, end_)) (tr_sizes r).

Definition half (a : num) : num := match a with Int z => Int (z / 2) | Flt q => Flt (rnd (q / 2)) end.
Definition get_data_x_start (r : timelines_renderer) : py exn num :=
  s ← or_raise AttributeError (tr_sizes r);
  Ok (half (tr_padding r) + left_width s + tr_padding r + right_width s + half (tr_padding r)).

Definition widest (names : list string) (w : num) : num := foldl (λ w name, num_max w (t_width name)) w names.
(** The lines that a timeline takes on the right. *)
Definition right_names (t : timeline) : list string :=
  (tdr_name <$> tl_ranges t) ++ (te_name <$> tl_event_int t) ++ (te_name <$> tl_event_str t).

Definition timelines_layout (r : timelines_renderer) (width : num) : timelines_renderer :=
  let max_text_height := t_height alphabet in
  let ts := tr_timelines r in
  let left_width := widest (tl_name <$> ts) (Int 0) in
  let right_width := foldl (λ w t, widest (right_names t) w) (Int 0) ts in
  let left_n_lines := Int (length ts) in
  let range_n := Int (length (ts ≫= tl_ranges)) in
  let eventint_n := Int (length (ts ≫= tl_event_int)) in
  let eventstr_n := Int (length (ts ≫= tl_event_str)) in
  let left_height := left_n_lines * max_text_height + (left_n_lines - Int 1) * tr_padding r in
  let right_n_lines := range_n + eventint_n + eventstr_n in
  let right_height := (right_n_lines - Int 1) * tr_padding r + right_n_lines * max_text_height in
  let right_data_height := (eventint_n + eventstr_n) * (max_text_height + Int 5) + range_n * Int 10 in
  let right_data_height := right_data_height + (right_n_lines - Int 1) * tr_padding r in
  let height := num_max left_height right_height in
  let height := num_max height right_data_height in
  TimelinesRenderer (tr_padding r) ts (tr_range r)
    (Some (Sizes left_width right_width max_text_height width (height + tr_padding r))).

Definition black : cmd := SetSourceRgb (Int 0) (Int 0) (Int 0).
Definition grey : cmd := SetSourceRgb (lit (9 # 10)) (lit (9 # 10)) (lit (9 # 10)).
Definition draw_line (x y width height : num) : D unit :=
  emit [MoveTo x y; RelLineTo width height; ClosePath; SetOperatorSource; SetLineWidth (lit 1);
        black; Stroke].

(** The grey stripe behind every second line. *)
Definition draw_stripe (padding x y width height : num) : D unit :=
  d ← get_st;
  g ← attribute (grey_background d);
  if (g mod 2 =? 0)%Z
  then emit [Rectangle x (y - half padding) width (height + padding); grey; Fill]
  else mret tt.
Definition next_stripe : D unit :=
  d ← get_st;
  g ← attribute (grey_background d);
  modify_st (λ d, Drawing (cmds d) (Some (g + 1)%Z) (palette d)).

(** [int(x + (t - self.start) * width / (self.end - self.start))]. *)
Definition to_pixel (x width : num) (range : num * num) (t : num) : py exn num :=
  q ← num_div ((t - range.1) * width) (range.2 - range.1);
  Ok (num_int (x + q)).

Definition str_value (v : event_value) : string := match v with VStr s => s | VInt i => str_of_Z i end.

Fixpoint draw_event_loop (x y width : num) (text_height : option num) (range : num * num)
    (last_x_drawn : num) (evs : list event) : D unit :=
  match evs with
  | [] => mret tt
  | ev :: evs =>
      real_x ← lift_py (to_pixel x width range (Int (at_ ev)));
      if last_x_drawn + Int 2 <? real_x then
        _ ← emit [Rectangle real_x y (Int 1) (Int 1); SetSourceRgb (Int 1) (Int 0) (Int 0); Stroke];
        h ← attribute text_height;
        _ ← emit [MoveTo real_x (y + h); black; ShowText (str_value (event_val ev))];
        draw_event_loop x y width text_height range real_x evs
      else draw_event_loop x y width text_height range last_x_drawn evs
  end.
(** [None] from the search is out of fuel, which the theorems exclude. *)
Definition draw_events (r : timelines_renderer) (events : timeline_event) (x y width height : num) : D unit :=
  _ ← draw_stripe (tr_padding r) x y width height;
  range ← attribute (tr_range r);
  '(lo, hi) ← attribute (EventLine.get_events_bounds events (val range.1) (val range.2));
  _ ← draw_event_loop x y width (max_text_height <$> tr_sizes r) range (num_int x) (py_slice (te_events events) lo hi);
  next_stripe.

Fixpoint draw_range_loop (x y width : num) (range : num * num) (last_x_drawn : num) (rs : list data_range) : D unit :=
  match rs with
  | [] => mret tt
  | dr :: rs =>
      let s := num_max (Int (range_start dr)) range.1 in
      let e := num_min (Int (range_end dr)) range.2 in
      x_start ← lift_py (to_pixel x width range s);
      x_end ← lift_py (to_pixel x width range e);
      if last_x_drawn <? x_end then
        _ ← emit [Rectangle x_start y (x_end - x_start) (Int 10); black; StrokePreserve];
        d ← get_st;
        '(c, pal) ← lift_py (lookup_color (palette d) (range_value dr));
        _ ← modify_st (λ d, Drawing (cmds d) (grey_background d) pal);
        _ ← emit [SetSourceRgb (Int (c_r c)) (Int (c_g c)) (Int (c_b c)); Fill];
        draw_range_loop x y width range x_end rs
      else draw_range_loop x y width range last_x_drawn rs
  end.
Definition draw_ranges (r : timelines_renderer) (ranges : timeline_data_range) (x y width height : num) : D unit :=
  _ ← draw_stripe (tr_padding r) x y width height;
  range ← attribute (tr_range r);
  '(lo, hi) ← attribute (RangeLine.get_ranges_bounds ranges (val range.1) (val range.2));
  _ ← draw_range_loop x y width range (num_int (x - Int 1)) (py_slice (tdr_ranges ranges) lo hi);
  next_stripe.

(** The lines of one timeline: the name of each, the data, and a separation below. *)
Definition draw_name (x y text_height : num) (name : string) : D unit :=
  emit [MoveTo x (y + text_height - (t_height name + t_bearing name)); ShowText name].

Section timelines_draw.
Context (r : timelines_renderer) (sz : sizes) (right_x_start data_x_start data_width : num).
Abbreviation padding := (tr_padding r).

Definition separation (cur_y : num) : D unit :=
  draw_line (right_x_start - half padding) (cur_y - half padding) (right_width sz + padding) (Int 0).
Definition draw_event_line (cur_y : num) (e : timeline_event) : D num :=
  _ ← draw_name right_x_start cur_y (max_text_height sz) (te_name e);
  _ ← draw_events r e data_x_start cur_y data_width (max_text_height sz + Int 5);
  let cur_y := cur_y + (max_text_height sz + Int 5 + padding) in
  _ ← separation cur_y;
  mret cur_y.
Definition draw_range_line (cur_y : num) (l : timeline_data_range) : D num :=
  _ ← draw_name right_x_start cur_y (max_text_height sz) (tdr_name l);
  _ ← draw_ranges r l data_x_start cur_y data_width (Int 10);
  let cur_y := cur_y + (max_text_height sz + padding) in
  _ ← separation cur_y;
  mret cur_y.
Definition draw_timeline (cur_y : num) (t : timeline) : D num :=
  _ ← draw_name (half padding) cur_y (max_text_height sz) (tl_name t);
  cur_y ← fold_st draw_event_line cur_y (tl_event_int t);
  cur_y ← fold_st draw_event_line cur_y (tl_event_str t);
  cur_y ← fold_st draw_range_line cur_y (tl_ranges t);
  _ ← draw_line (Int 0) (cur_y - half padding) (tr_width sz) (Int 0);
  mret cur_y.
End timelines_draw.

Definition timelines_draw (r : timelines_renderer) : D unit :=
  sz ← attribute (tr_sizes r);
  let padding := tr_padding r in
  let top_y := half padding in
  let left_x_start := half padding in
  let left_x_end := left_x_start + left_width sz in
  let right_x_start := left_x_end + padding in
  let right_x_end := right_x_start + right_width sz in
  let data_x_start := right_x_end + half padding in
  let data_x_end := tr_width sz in
  let data_width := data_x_end - data_x_start in
  _ ← draw_line (Int 0) (Int 0) (tr_width sz) (Int 0);
  _ ← modify_st (λ d, Drawing (cmds d) (Some 1%Z) (palette d));
  cur_y ← fold_st (draw_timeline r sz right_x_start data_x_start data_width) top_y (tr_timelines r);
  let bot_y := cur_y - half padding in
  _ ← draw_line (left_x_end + half padding) (Int 0) (Int 0) bot_y;
  draw_line (right_x_end + half padding) (Int 0) (Int 0) bot_y.

(** ** [ScaleRenderer] *)

Record scale_sizes := ScaleSizes { sc_delta : num; sc_width : num; sc_height : num }.
Record scale := Scale { sc_top : bool; sc_bounds : option (num * num); sc_sizes : option scale_sizes }.

Definition ScaleRenderer : scale := Scale false None None.
Definition set_bounds (s : scale) (lo hi : num) : scale := Scale (sc_top s) (Some (lo, hi)) (sc_sizes s).
Definition set_top (s : scale) : scale := Scale true (sc_bounds s) (sc_sizes s).
Definition set_bot (s : scale) : scale := Scale false (sc_bounds s) (sc_sizes s).

Definition get_position (s : scale) (x : num) : py exn num :=
  '(lo, hi) ← or_raise AttributeError (sc_bounds s);
  sz ← or_raise AttributeError (sc_sizes s);
  num_div ((x - lo) * sc_width sz) (hi - lo).

(** [while (closest*10) < data_delta: closest *= 10]; the fuel is enough, see [closest_spec]. *)
Fixpoint closest_loop (fuel : nat) (closest : Z) (data_delta : num) : Z :=
  match fuel with
  | O => closest
  | S fuel => if Int (closest * 10) <? data_delta then closest_loop fuel (closest * 10) data_delta else closest
  end.
Definition closest (data_delta : num) : Z :=
  closest_loop (Z.to_nat (Z.log2_up (Qceiling (val data_delta)))) 1 data_delta.

(** [lo - (lo % delta) + delta] and [hi - (hi % delta)]. *)
Definition tick_start (lo delta : num) : py exn num := m ← num_mod lo delta; Ok (lo - m + delta).
Definition tick_end (hi delta : num) : py exn num := m ← num_mod hi delta; Ok (hi - m).

Definition scale_delta (lo hi : num) : py exn num :=
  let data_delta := hi - lo in
  let c := closest data_delta in
  q ← num_div data_delta (Int c);
  Ok (if q =? Int 0 then Int c else if q =? Int 1 then Int (c / 10) else Int c).

Definition scale_layout (s : scale) (width : num) : py exn scale :=
  '(lo, hi) ← or_raise AttributeError (sc_bounds s);
  delta ← scale_delta lo hi;
  _ ← tick_start lo delta;
  _ ← tick_end hi delta;
  Ok (Scale (sc_top s) (sc_bounds s) (Some (ScaleSizes delta width (t_height alphabet + Int 10)))).
Definition scale_get_height (s : scale) : py exn num := sc_height <$> or_raise AttributeError (sc_sizes s).

(** [range(int(start), int(end + delta), int(delta))]; a step of zero is a ValueError. *)
Definition py_range (a b step : Z) : py exn (list Z) :=
  if (step =? 0)%Z then Raise (ValueError "range() arg 3 must not be zero")
  else Ok ((λ k : nat, (a + k * step)%Z) <$> seq 0 (Z.to_nat (if (0 <? step)%Z then (b - a + step - 1) / step else (a - b - step - 1) / - step)%Z)).
Definition as_Z (a : num) : Z := match num_int a with Int z => z | Flt _ => 0 end.
Definition ticks (lo hi delta : num) : py exn (list Z) :=
  start ← tick_start lo delta;
  end_ ← tick_end hi delta;
  py_range (as_Z start) (as_Z (end_ + delta)) (as_Z delta).

Definition scale_draw (s : scale) : D unit :=
  sz ← attribute (sc_sizes s);
  '(lo, hi) ← attribute (sc_bounds s);
  let delta := sc_delta sz in
  let sg := if sc_top s then Int (-1) else Int 1 in
  _ ← lift_py (tick_start lo delta);
  _ ← lift_py (tick_end hi delta);
  _ ← emit [black; SetLineWidth (lit 1)];
  xs ← lift_py (ticks lo hi delta);
  _ ← for_st (λ x,
        real_x ← lift_py (num_div ((Int x - lo) * sc_width sz) (hi - lo));
        let text := str_of_Z x in
        let text_delta := if sc_top s then t_height text + t_bearing text else num_opp (t_bearing text) in
        w2 ← lift_py (num_div (t_width text) (Int 2));
        emit [MoveTo real_x (Int 0); LineTo real_x (Int 5 * sg); ClosePath; Stroke;
              MoveTo (real_x - w2) ((Int 5 + Int 5 + text_delta) * sg); ShowText text]) xs;
  delta ← lift_py (num_div delta (Int 10));
  if Int 0 <? delta then
    xs ← lift_py (ticks lo hi delta);
    for_st (λ x,
      real_x ← lift_py (num_div ((Int x - lo) * sc_width sz) (hi - lo));
      emit [MoveTo real_x (Int 0); LineTo real_x (Int 3 * sg); ClosePath; Stroke]) xs
  else mret tt.

(** ** [GraphicRenderer] *)

Record graphic := Graphic {
  g_start : num; g_end : num; mid_scale : scale; bot_scale : scale; g_width : num; g_height : num;
  g_range : option (num * num); g_data : timelines_renderer; top_legend : legend }.

(** The constructor, then [set_top_legend] and [set_data]. *)
Definition GraphicRenderer (start end_ : num) (data : timelines_renderer) (top : legend) : graphic :=
  Graphic (num_float start) (num_float end_) (set_top ScaleRenderer) (set_bot (set_bounds ScaleRenderer start end_))
    (Int 1) (Int 1) None data top.

Abbreviation G := (stx graphic exn).
Definition set_mid (s : scale) : G unit := modify_st (λ g,
  Graphic (g_start g) (g_end g) s (bot_scale g) (g_width g) (g_height g) (g_range g) (g_data g) (top_legend g)).
Definition set_bot_scale (s : scale) : G unit := modify_st (λ g,
  Graphic (g_start g) (g_end g) (mid_scale g) s (g_width g) (g_height g) (g_range g) (g_data g) (top_legend g)).
Definition set_size (width height : num) : G unit := modify_st (λ g,
  Graphic (g_start g) (g_end g) (mid_scale g) (bot_scale g) width height (g_range g) (g_data g) (top_legend g)).
Definition set_g_range (range : num * num) : G unit := modify_st (λ g,
  Graphic (g_start g) (g_end g) (mid_scale g) (bot_scale g) (g_width g) (g_height g) (Some range) (g_data g) (top_legend g)).
Definition set_g_data (data : timelines_renderer) : G unit := modify_st (λ g,
  Graphic (g_start g) (g_end g) (mid_scale g) (bot_scale g) (g_width g) (g_height g) (g_range g) data (top_legend g)).
Definition set_legend (l : legend) : G unit := modify_st (λ g,
  Graphic (g_start g) (g_end g) (mid_scale g) (bot_scale g) (g_width g) (g_height g) (g_range g) (g_data g) l).

Definition layout (width height : num) : G unit :=
  _ ← set_size width height;
  g ← get_st;
  _ ← set_legend (legend_layout (top_legend g) width);
  _ ← set_g_data (timelines_layout (g_data g) width);
  g ← get_st;
  x_start ← lift_py (get_data_x_start (g_data g));
  mid ← lift_py (scale_layout (mid_scale g) (width - x_start));
  _ ← set_mid mid;
  bot ← lift_py (scale_layout (bot_scale g) width);
  set_bot_scale bot.

Definition set_range (start end_ : num) : G unit :=
  g ← get_st;
  let s := num_min start end_ in
  let e := num_max start end_ in
  let start := num_max (g_start g) s in
  let end_ := num_min (g_end g) e in
  _ ← set_g_range (start, end_);
  _ ← set_g_data (set_render_range (g_data g) start end_);
  _ ← set_mid (set_bounds (mid_scale g) start end_);
  layout (g_width g) (g_height g).
Definition get_range (g : graphic) : py exn (num * num) := or_raise AttributeError (g_range g).

Definition timelines_get_height (r : timelines_renderer) : py exn num := tr_height <$> or_raise AttributeError (tr_sizes r).
Definition legend_get_height (l : legend) : py exn num := or_raise AttributeError (lg_height l).

(** [x], [y], width and height. *)
Definition get_data_rectangle (g : graphic) : py exn (num * num * num * num) :=
  y_start ← legend_get_height (top_legend g);
  x_start ← get_data_x_start (g_data g);
  h ← timelines_get_height (g_data g);
  Ok (x_start, y_start, g_width g - x_start, h).
Definition scale_data (g : graphic) (x : num) : py exn num :=
  x_start ← get_data_x_start (g_data g);
  q ← num_div x (g_width g - x_start);
  '(r_start, r_end) ← get_range g;
  Ok (q * (r_end - r_start)).
Definition get_selection_rectangle (g : graphic) : py exn (num * num * num * num) :=
  h1 ← legend_get_height (top_legend g);
  h2 ← timelines_get_height (g_data g);
  h3 ← scale_get_height (mid_scale g);
  let y_start := h1 + h2 + h3 + Int 20 in
  h4 ← scale_get_height (bot_scale g);
  let y_height := h4 + Int 20 in
  '(r_start, r_end) ← get_range g;
  x_start ← get_position (bot_scale g) r_start;
  x_end ← get_position (bot_scale g) r_end;
  Ok (x_start, y_start, x_end - x_start, y_height).
Definition scale_selection (g : graphic) (x : num) : py exn num :=
  q ← num_div x (g_width g);
  Ok (q * (g_end g - g_start g)).
Definition x_pixel (g : graphic) (x width : num) : py exn num :=
  num_div ((x - g_start g) * width) (g_end g - g_start g).

Definition graphic_draw (g : graphic) : D unit :=
  let width := g_width g in
  (* default background is white *)
  _ ← emit [Save; SetSourceRgb (Int 1) (Int 1) (Int 1); SetOperatorSource;
            Rectangle (Int 0) (Int 0) width (g_height g); Fill];
  (* top legend *)
  _ ← emit [Save];
  _ ← legend_draw (top_legend g);
  top_legend_height ← lift_py (legend_get_height (top_legend g));
  _ ← emit [Restore];
  (* separation line *)
  _ ← emit [MoveTo (Int 0) top_legend_height; LineTo width top_legend_height; ClosePath; SetLineWidth (Int 2); black; Stroke];
  (* data *)
  _ ← emit [Save; Translate (Int 0) top_legend_height];
  _ ← timelines_draw (g_data g);
  _ ← emit [Restore];
  (* scale below data *)
  _ ← emit [Save];
  x_start ← lift_py (get_data_x_start (g_data g));
  data_height ← lift_py (timelines_get_height (g_data g));
  mid_height ← lift_py (scale_get_height (mid_scale g));
  let height_used := top_legend_height + data_height + mid_height in
  _ ← emit [Translate x_start height_used];
  _ ← scale_draw (mid_scale g);
  _ ← emit [Restore];
  (* separation between scale and left pane, and below the scale *)
  _ ← emit [MoveTo x_start height_used; RelLineTo (Int 0) (num_opp mid_height); ClosePath; black; SetLineWidth (Int 2); Stroke];
  _ ← emit [MoveTo (Int 0) height_used; LineTo width height_used; ClosePath; SetLineWidth (Int 2); black; Stroke];
  '(r_start, r_end) ← lift_py (get_range g);
  select_start ← lift_py (get_position (bot_scale g) r_start);
  select_end ← lift_py (get_position (bot_scale g) r_end);
  (* left and right connection between top scale and bottom scale *)
  _ ← emit [MoveTo (Int 0) height_used; LineTo x_start height_used; LineTo select_start (height_used + Int 20);
            LineTo (Int 0) (height_used + Int 20); LineTo (Int 0) height_used; black; SetLineWidth (Int 1); StrokePreserve; grey; Fill];
  _ ← emit [MoveTo width height_used; LineTo width (height_used + Int 20); LineTo select_end (height_used + Int 20);
            LineTo width height_used; black; SetLineWidth (Int 1); StrokePreserve; grey; Fill];
  let height_used := height_used + Int 20 in
  (* unused area background *)
  unused_start ← lift_py (get_position (bot_scale g) r_start);
  unused_end ← lift_py (get_position (bot_scale g) r_end);
  bot_height ← lift_py (scale_get_height (bot_scale g));
  let unused_height := bot_height + Int 20 in
  _ ← emit [Rectangle (Int 0) height_used unused_start unused_height;
            Rectangle unused_end height_used (width - unused_end) unused_height; grey; Fill];
  (* border line around bottom scale *)
  _ ← emit [MoveTo unused_end height_used; LineTo width height_used; LineTo width (height_used + unused_height);
            LineTo (Int 0) (height_used + unused_height); LineTo (Int 0) height_used; LineTo unused_start height_used;
            ClosePath; SetLineWidth (Int 2); black; Stroke;
            MoveTo unused_start height_used; LineTo unused_end height_used; ClosePath; SetLineWidth (Int 1); grey; Stroke];
  (* unused area dot borders *)
  _ ← emit [Save; MoveTo (num_max unused_start (Int 2)) height_used; RelLineTo (Int 0) unused_height;
            MoveTo (num_min unused_end (width - Int 2)) height_used; RelLineTo (Int 0) unused_height;
            SetDash [Int 5] (Int 0); black; SetLineWidth (Int 1); Stroke; Restore];
  (* bottom scale *)
  _ ← emit [Save; Translate (Int 0) height_used];
  _ ← scale_draw (bot_scale g);
  emit [Restore].
End renderers.

(** ** The ticks of a scale *)

Section ticks.
Context `{Rounding, Cairo}.

Lemma closest_loop_spec (fuel : nat) (c : Z) (d : num) :
  (0 < c)%Z → (val d <= inject_Z (10 * c * 10 ^ fuel))%Q →
  ∃ k : nat, closest_loop fuel c d = (c * 10 ^ k)%Z ∧
    (val d <= inject_Z (closest_loop fuel c d * 10))%Q ∧ (k = 0 ∨ (inject_Z (closest_loop fuel c d) < val d)%Q).
Proof.
  revert c. induction fuel as [|fuel IH]; intros c Hc Hd.
  - exists 0. cbn. split_and!; [lia| |by left]. by replace (c * 10)%Z with (10 * c * 10 ^ 0%nat)%Z by lia.
  - cbn [closest_loop]. destruct (Int (c * 10) <? d) eqn:E.
    + apply num_lt_spec in E. destruct (IH (c * 10)%Z) as (k & Hk & H1 & H2); [lia| |].
      { replace (10 * (c * 10) * 10 ^ fuel)%Z with (10 * c * 10 ^ S fuel)%Z by (rewrite Nat2Z.inj_succ, Z.pow_succ_r by lia; lia).
        done. }
      exists (S k). split_and!; [rewrite Hk, Nat2Z.inj_succ, Z.pow_succ_r by lia; lia|done|]. right.
      destruct H2 as [->|?]; [|done]. rewrite Hk. by replace (c * 10 * 10 ^ 0%nat)%Z with (c * 10)%Z by lia.
    + apply num_lt_false in E. exists 0. split_and!; [lia|done|by left].
Qed.

(** The fuel of [closest] is enough: the loop ends because its condition fails. *)
Lemma closest_spec (d : num) :
  ∃ k : nat, closest d = (10 ^ k)%Z ∧ (val d <= inject_Z (closest d * 10))%Q ∧
    (k = 0 ∨ (inject_Z (closest d) < val d)%Q).
Proof.
  set (f := Z.log2_up (Qceiling (val d))).
  assert (val d <= inject_Z (10 * 1 * 10 ^ Z.to_nat f))%Q as Hd.
  { eapply Qle_trans; [apply Qle_ceiling|]. rewrite <-Zle_Qle. fold f.
    pose proof (Z.log2_up_nonneg (Qceiling (val d))) as Hf.
    rewrite Z2Nat.id by done. destruct (Z.le_gt_cases (Qceiling (val d)) 1) as [Hle|Hgt].
    - pose proof (Z.pow_pos_nonneg 10 f ltac:(lia) Hf). lia.
    - pose proof (Z.log2_up_spec _ Hgt) as [_ Hlog]. pose proof (Z.pow_le_mono_l 2 10 f ltac:(lia)).
      fold f in Hlog. lia. }
  destruct (closest_loop_spec (Z.to_nat f) 1 d ltac:(lia) Hd) as (k & H1 & H2 & H3). exists k.
  unfold closest. fold f. rewrite H1 in *. by rewrite Z.mul_1_l in *.
Qed.

(** For integer bounds [delta] is a power of ten, between a twentieth and half of the distance. *)
Lemma scale_delta_int lo hi :
  (2 <= hi - lo)%Z → ∃ k : nat, scale_delta (Int lo) (Int hi) = Ok (Int (10 ^ k)) ∧
    (2 * 10 ^ k <= hi - lo)%Z ∧ (hi - lo <= 20 * 10 ^ k - 1)%Z.
Proof.
  intros Hd. unfold scale_delta. destruct (closest_spec (Int hi - Int lo)) as (k & Hk & H1 & H2).
  cbn [num_sub arith val] in *. rewrite Hk in *. rewrite <-Zle_Qle in H1. rewrite <-Zlt_Qlt in H2.
  pose proof (Z.pow_pos_nonneg 10 k ltac:(lia) ltac:(lia)) as Hpos.
  rewrite num_div_ok by (cbn; unfold Qeq; cbn; lia). cbn [mbind py_bind arith].
  pose proof (Z.div_mod (hi - lo) (10 ^ k) ltac:(lia)) as Hdm.
  pose proof (Z.mod_pos_bound (hi - lo) (10 ^ k) Hpos) as Hm.
  assert (∀ a b : Z, (Int a =? Int b) = (a =? b)%Z) as Heqb.
  { intros a b. apply eq_true_iff_eq. rewrite num_eqb_spec, Z.eqb_eq. cbn. apply inject_Z_injective. }
  rewrite !Heqb. set (q := ((hi - lo) / 10 ^ k)%Z) in *.
  destruct (Z.eqb_spec q 0) as [Eq|Hq0]; [destruct H2; subst; nia|].
  destruct (Z.eqb_spec q 1) as [Eq|Hq1].
  - destruct k as [|k]; [cbn in *; lia|]. exists k. rewrite Nat2Z.inj_succ, Z.pow_succ_r in * by lia.
    split_and!; [by rewrite (Z.mul_comm 10), Z.div_mul by lia|nia|nia].
  - exists k. split_and!; [done|nia|nia].
Qed.

Lemma ticks_int lo hi d :
  (0 < d)%Z → (lo <= hi)%Z →
  ticks (Int lo) (Int hi) (Int d) = Ok ((λ k : nat, ((lo / d + 1 + k) * d)%Z) <$> seq 0 (Z.to_nat (hi / d - lo / d))).
Proof.
  intros Hd Hle. unfold ticks, tick_start, tick_end, num_mod.
  assert (num_eqb (Int d) (Int 0) = false) as -> by (apply num_eqb_false; cbn; unfold Qeq; cbn; lia).
  cbn [mbind py_bind arith num_sub num_add as_Z num_int]. unfold py_range.
  destruct (Z.eqb_spec d 0); [lia|]. destruct (Z.ltb_spec 0 d); [|lia]. f_equal.
  pose proof (Z.div_mod lo d ltac:(lia)) as E1. pose proof (Z.div_mod hi d ltac:(lia)) as E2.
  assert ((hi - hi mod d + d - (lo - lo mod d + d) + d - 1) / d = hi / d - lo / d)%Z as ->.
  { replace (hi - hi mod d + d - (lo - lo mod d + d) + d - 1)%Z with ((hi / d - lo / d) * d + (d - 1))%Z by lia.
    rewrite Z.div_add_l by lia. rewrite (Z.div_small (d - 1) d) by lia. lia. }
  apply list_fmap_ext. intros i k _. nia.
Qed.

Lemma tick_count lo hi d :
  (0 < d)%Z → (2 * d <= hi - lo)%Z → (hi - lo <= 20 * d - 1)%Z → (2 <= hi / d - lo / d <= 20)%Z.
Proof.
  intros Hd H1 H2. pose proof (Z.div_mod lo d ltac:(lia)). pose proof (Z.div_mod hi d ltac:(lia)).
  pose proof (Z.mod_pos_bound lo d Hd). pose proof (Z.mod_pos_bound hi d Hd). nia.
Qed.

(** The multiples of [delta] in a half-open interval, in order. *)
Definition multiples_in (delta lo hi : Z) (xs : list Z) : Prop :=
  (∀ x, x ∈ xs ↔ (lo < x <= hi)%Z ∧ (delta | x)%Z) ∧ StronglySorted Z.lt xs.

Lemma ticks_multiples lo hi d :
  (0 < d)%Z → (lo <= hi)%Z → ∃ xs, ticks (Int lo) (Int hi) (Int d) = Ok xs ∧ multiples_in d lo hi xs ∧
    Z.of_nat (length xs) = (hi / d - lo / d)%Z.
Proof.
  intros Hd Hle. pose proof (Z.div_le_mono lo hi d Hd Hle) as Hdiv.
  pose proof (Z.div_mod lo d ltac:(lia)) as E1. pose proof (Z.div_mod hi d ltac:(lia)) as E2.
  pose proof (Z.mod_pos_bound lo d Hd) as M1. pose proof (Z.mod_pos_bound hi d Hd) as M2.
  eexists. split; [by apply ticks_int|]. split; [|rewrite length_fmap, length_seq; lia]. split.
  - intros x. rewrite list_elem_of_fmap. setoid_rewrite elem_of_seq. split.
    + intros (k & -> & Hk). split; [|by exists (lo / d + 1 + k)%Z]. nia.
    + intros [Hx [q ->]]. assert (lo / d < q <= hi / d)%Z by nia.
      exists (Z.to_nat (q - lo / d - 1)). split; [f_equal; lia|lia].
  - generalize (Z.to_nat (hi / d - lo / d)). intros n. generalize 0.
    induction n as [|n IH]; intros i; cbn; [constructor|]. constructor; [apply IH|].
    apply Forall_fmap, Forall_forall. intros k Hk%elem_of_seq. cbn. nia.
Qed.

(** On a scale with integer bounds [lo < hi], the layout fails with ZeroDivisionError when the bounds are one
    apart.  Otherwise the distance of the ticks is a power of ten, the ticks are the multiples of it from
    above the lower bound up to the upper bound, in order, and there are between 2 and 20 of them. *)
Theorem scale_ticks top sz lo hi w :
  (lo < hi)%Z →
  let s := Scale top (Some (Int lo, Int hi)) sz in
  (hi - lo = 1 → scale_layout s w = Raise ZeroDivisionError)%Z ∧
  (2 <= hi - lo →
   ∃ s' k xs, scale_layout s w = Ok s' ∧ sc_sizes s' = Some (ScaleSizes (Int (10 ^ Z.of_nat k)) w (t_height alphabet + Int 10)) ∧
     ticks (Int lo) (Int hi) (Int (10 ^ Z.of_nat k)) = Ok xs ∧ multiples_in (10 ^ Z.of_nat k) lo hi xs ∧
     2 <= Z.of_nat (length xs) <= 20)%Z.
Proof.
  intros Hlt s. split; intros Hd.
  - unfold s, scale_layout, scale_delta, num_sub. cbn [sc_bounds or_raise mbind py_bind arith]. rewrite Hd.
    reflexivity.
  - destruct (scale_delta_int lo hi Hd) as (k & Hk & H1 & H2).
    pose proof (Z.pow_pos_nonneg 10 (Z.of_nat k) ltac:(lia) ltac:(lia)) as Hpos.
    destruct (ticks_multiples lo hi (10 ^ Z.of_nat k) Hpos ltac:(lia)) as (xs & Hxs & Hm & Hlen).
    eexists _, k, xs. unfold s, scale_layout. cbn [sc_bounds or_raise mbind py_bind]. rewrite Hk.
    unfold tick_start, tick_end, num_mod. cbn [mbind py_bind].
    assert (num_eqb (Int (10 ^ Z.of_nat k)) (Int 0) = false) as -> by (apply num_eqb_false; cbn; unfold Qeq;
      cbn; lia).
    rewrite Hlen. split_and!; [done..| |]; by apply tick_count.
Qed.
End ticks.

(** Text sizes for the examples: every character is six pixels wide and eight high. *)
Definition monospace : Cairo := λ s, Extents (- (8 # 1)) (inject_Z (6 * Z.of_nat (String.length s))) (8 # 1).

Lemma scale_ticks_witness :
  scale_layout (H := exact) (H0 := monospace) (Scale false (Some (Int 3, Int 4)) None) (Int 800) = Raise ZeroDivisionError ∧
  ∃ k xs, ticks (H := exact) (Int 0) (Int 1500) (Int (10 ^ Z.of_nat k)) = Ok xs ∧ (2 <= Z.of_nat (length xs) <= 20)%Z.
Proof.
  split.
  - apply (scale_ticks (H := exact) (H0 := monospace) false None 3 4 (Int 800)); [lia|reflexivity].
  - destruct (proj2 (scale_ticks (H := exact) (H0 := monospace) false None 0 1500 (Int 800) ltac:(lia)) ltac:(lia))
      as (s' & k & xs & _ & _ & Hxs & _ & Hlen).
    exists k, xs. split; [exact Hxs|exact Hlen].
Defined.

(** The case [== 1] of the code is meant for a quotient that is cut off; a float quotient is not,
    and the same distance then gets a tenth of the ticks. *)
Lemma float_scale_coarse :
  scale_delta (H := exact) (Int 0) (Int 1500) = Ok (Int 100) ∧ scale_delta (H := exact) (Flt 0) (Flt 1500) = Ok (Int 1000).
Proof. split; reflexivity. Qed.
