(* ===== verification/GridWindow.v ===== *)
(** * GridWindow: the window of [utils/grid.py]

    [GtkGraphicRenderer] and the callbacks of [MainWindow] as a state machine: the toolkit calls
    the handlers in an arbitrary order, and an exception in a handler is printed and leaves
    the attributes as they are at that point. *)

From stdpp Require Import base list strings gmap.
From Stdlib Require Import QArith Qround Lqa.
From S2P Require Import Prelude GridData PyNum GridDraw.
Open Scope nat_scope.
Open Scope num_scope.

(** ** State *)

(** An image: its size and what was drawn on it. *)
Record surface := Surface { sf_width : num; sf_height : num; sf_cmds : list cmd }.

(** [moving_right] is a number because the code assigns the width to it; [False] is 0 and [True]
    is 1.  [cursor], [queued] and [files] are what the handlers ask of the toolkit. *)
Inductive cursor := Default | DoubleArrow | Fleur.
Inductive redraw := Whole | Area (x y width height : num).
Record gui := Gui {
  data : graphic;
  moving_left : bool; moving_right : num; moving_both : bool; moving_top : bool;
  force_full_redraw : bool;
  moving_left_cur : option num; moving_right_cur : option num;
  moving_both_start : option num; moving_both_cur : option num;
  moving_top_start : option num; moving_top_cur : option num;
  width : option num; height : option num;
  buffer_surface : option surface;
  paint_colors : colors;
  shown : list cmd; cursor_ : cursor; queued : list redraw; files : list (string * surface)
}.

(** Attribute assignment. *)
Definition set_data v (s : gui) : gui :=
  Gui v (moving_left s) (moving_right s) (moving_both s) (moving_top s) (force_full_redraw s)
    (moving_left_cur s) (moving_right_cur s) (moving_both_start s) (moving_both_cur s) (moving_top_start s)
    (moving_top_cur s) (width s) (height s) (buffer_surface s) (paint_colors s) (shown s) (cursor_ s)
    (queued s) (files s).
Definition set_moving_left v (s : gui) : gui :=
  Gui (data s) v (moving_right s) (moving_both s) (moving_top s) (force_full_redraw s) (moving_left_cur s)
    (moving_right_cur s) (moving_both_start s) (moving_both_cur s) (moving_top_start s) (moving_top_cur s)
    (width s) (height s) (buffer_surface s) (paint_colors s) (shown s) (cursor_ s) (queued s) (files s).
Definition set_moving_right v (s : gui) : gui :=
  Gui (data s) (moving_left s) v (moving_both s) (moving_top s) (force_full_redraw s) (moving_left_cur s)
    (moving_right_cur s) (moving_both_start s) (moving_both_cur s) (moving_top_start s) (moving_top_cur s)
    (width s) (height s) (buffer_surface s) (paint_colors s) (shown s) (cursor_ s) (queued s) (files s).
Definition set_moving_both v (s : gui) : gui :=
  Gui (data s) (moving_left s) (moving_right s) v (moving_top s) (force_full_redraw s) (moving_left_cur s)
    (moving_right_cur s) (moving_both_start s) (moving_both_cur s) (moving_top_start s) (moving_top_cur s)
    (width s) (height s) (buffer_surface s) (paint_colors s) (shown s) (cursor_ s) (queued s) (files s).
Definition set_moving_top v (s : gui) : gui :=
  Gui (data s) (moving_left s) (moving_right s) (moving_both s) v (force_full_redraw s) (moving_left_cur s)
    (moving_right_cur s) (moving_both_start s) (moving_both_cur s) (moving_top_start s) (moving_top_cur s)
    (width s) (height s) (buffer_surface s) (paint_colors s) (shown s) (cursor_ s) (queued s) (files s).
Definition set_force_full_redraw v (s : gui) : gui :=
  Gui (data s) (moving_left s) (moving_right s) (moving_both s) (moving_top s) v (moving_left_cur s)
    (moving_right_cur s) (moving_both_start s) (moving_both_cur s) (moving_top_start s) (moving_top_cur s)
    (width s) (height s) (buffer_surface s) (paint_colors s) (shown s) (cursor_ s) (queued s) (files s).
Definition set_moving_left_cur v (s : gui) : gui :=
  Gui (data s) (moving_left s) (moving_right s) (moving_both s) (moving_top s) (force_full_redraw s) v
    (moving_right_cur s) (moving_both_start s) (moving_both_cur s) (moving_top_start s) (moving_top_cur s)
    (width s) (height s) (buffer_surface s) (paint_colors s) (shown s) (cursor_ s) (queued s) (files s).
Definition set_moving_right_cur v (s : gui) : gui :=
  Gui (data s) (moving_left s) (moving_right s) (moving_both s) (moving_top s) (force_full_redraw s)
    (moving_left_cur s) v (moving_both_start s) (moving_both_cur s) (moving_top_start s) (moving_top_cur s)
    (width s) (height s) (buffer_surface s) (paint_colors s) (shown s) (cursor_ s) (queued s) (files s).
Definition set_moving_both_start v (s : gui) : gui :=
  Gui (data s) (moving_left s) (moving_right s) (moving_both s) (moving_top s) (force_full_redraw s)
    (moving_left_cur s) (moving_right_cur s) v (moving_both_cur s) (moving_top_start s) (moving_top_cur s)
    (width s) (height s) (buffer_surface s) (paint_colors s) (shown s) (cursor_ s) (queued s) (files s).
Definition set_moving_both_cur v (s : gui) : gui :=
  Gui (data s) (moving_left s) (moving_right s) (moving_both s) (moving_top s) (force_full_redraw s)
    (moving_left_cur s) (moving_right_cur s) (moving_both_start s) v (moving_top_start s) (moving_top_cur s)
    (width s) (height s) (buffer_surface s) (paint_colors s) (shown s) (cursor_ s) (queued s) (files s).
Definition set_moving_top_start v (s : gui) : gui :=
  Gui (data s) (moving_left s) (moving_right s) (moving_both s) (moving_top s) (force_full_redraw s)
    (moving_left_cur s) (moving_right_cur s) (moving_both_start s) (moving_both_cur s) v (moving_top_cur s)
    (width s) (height s) (buffer_surface s) (paint_colors s) (shown s) (cursor_ s) (queued s) (files s).
Definition set_moving_top_cur v (s : gui) : gui :=
  Gui (data s) (moving_left s) (moving_right s) (moving_both s) (moving_top s) (force_full_redraw s)
    (moving_left_cur s) (moving_right_cur s) (moving_both_start s) (moving_both_cur s) (moving_top_start s) v
    (width s) (height s) (buffer_surface s) (paint_colors s) (shown s) (cursor_ s) (queued s) (files s).
Definition set_width v (s : gui) : gui :=
  Gui (data s) (moving_left s) (moving_right s) (moving_both s) (moving_top s) (force_full_redraw s)
    (moving_left_cur s) (moving_right_cur s) (moving_both_start s) (moving_both_cur s) (moving_top_start s)
    (moving_top_cur s) v (height s) (buffer_surface s) (paint_colors s) (shown s) (cursor_ s) (queued s)
    (files s).
Definition set_height v (s : gui) : gui :=
  Gui (data s) (moving_left s) (moving_right s) (moving_both s) (moving_top s) (force_full_redraw s)
    (moving_left_cur s) (moving_right_cur s) (moving_both_start s) (moving_both_cur s) (moving_top_start s)
    (moving_top_cur s) (width s) v (buffer_surface s) (paint_colors s) (shown s) (cursor_ s) (queued s)
    (files s).
Definition set_buffer_surface v (s : gui) : gui :=
  Gui (data s) (moving_left s) (moving_right s) (moving_both s) (moving_top s) (force_full_redraw s)
    (moving_left_cur s) (moving_right_cur s) (moving_both_start s) (moving_both_cur s) (moving_top_start s)
    (moving_top_cur s) (width s) (height s) v (paint_colors s) (shown s) (cursor_ s) (queued s) (files s).
Definition set_paint_colors v (s : gui) : gui :=
  Gui (data s) (moving_left s) (moving_right s) (moving_both s) (moving_top s) (force_full_redraw s)
    (moving_left_cur s) (moving_right_cur s) (moving_both_start s) (moving_both_cur s) (moving_top_start s)
    (moving_top_cur s) (width s) (height s) (buffer_surface s) v (shown s) (cursor_ s) (queued s) (files s).
Definition set_shown v (s : gui) : gui :=
  Gui (data s) (moving_left s) (moving_right s) (moving_both s) (moving_top s) (force_full_redraw s)
    (moving_left_cur s) (moving_right_cur s) (moving_both_start s) (moving_both_cur s) (moving_top_start s)
    (moving_top_cur s) (width s) (height s) (buffer_surface s) (paint_colors s) v (cursor_ s) (queued s)
    (files s).
Definition set_cursor v (s : gui) : gui :=
  Gui (data s) (moving_left s) (moving_right s) (moving_both s) (moving_top s) (force_full_redraw s)
    (moving_left_cur s) (moving_right_cur s) (moving_both_start s) (moving_both_cur s) (moving_top_start s)
    (moving_top_cur s) (width s) (height s) (buffer_surface s) (paint_colors s) (shown s) v (queued s)
    (files s).
Definition set_queued v (s : gui) : gui :=
  Gui (data s) (moving_left s) (moving_right s) (moving_both s) (moving_top s) (force_full_redraw s)
    (moving_left_cur s) (moving_right_cur s) (moving_both_start s) (moving_both_cur s) (moving_top_start s)
    (moving_top_cur s) (width s) (height s) (buffer_surface s) (paint_colors s) (shown s) (cursor_ s) v
    (files s).
Definition set_files v (s : gui) : gui :=
  Gui (data s) (moving_left s) (moving_right s) (moving_both s) (moving_top s) (force_full_redraw s)
    (moving_left_cur s) (moving_right_cur s) (moving_both_start s) (moving_both_cur s) (moving_top_start s)
    (moving_top_cur s) (width s) (height s) (buffer_surface s) (paint_colors s) (shown s) (cursor_ s)
    (queued s) v.

Section window.
Context `{Rounding, Cairo}.
Abbreviation W := (stx gui exn).

Definition assign {A} (set : A → gui → gui) (v : A) : W unit := modify_st (set v).
Definition on_data {A} (m : stx graphic exn A) : W A := λ s,
  let '(r, g) := m (data s) in (r, set_data g s).
Definition read_data {A} (f : graphic → py exn A) : W A := s ← get_st; lift_py (f (data s)).
Definition queue_draw : W unit := modify_st (λ s, set_queued (queued s ++ [Whole]) s).
Definition queue_draw_area (x y w h : num) : W unit :=
  modify_st (λ s, set_queued (queued s ++ [Area x y w h]) s).

Definition GtkGraphicRenderer (g : graphic) (c : colors) : gui :=
  Gui g false (Int 0) false false true None None None None None None None None None c [] Default [] [].

(** ** Zoom buttons *)

Definition set_smaller_zoom : W unit :=
  '(start, end_) ← read_data get_range;
  _ ← on_data (set_range start (start + (end_ - start) * Int 2));
  _ ← assign set_force_full_redraw true;
  queue_draw.
Definition set_bigger_zoom : W unit :=
  '(start, end_) ← read_data get_range;
  h ← lift_py (num_div (end_ - start) (Int 2));
  _ ← on_data (set_range start (start + h));
  _ ← assign set_force_full_redraw true;
  queue_draw.

(** ** Painting *)

(** [self.__data.draw(ctx)] with a context of the buffer. *)
Definition draw_data : W unit := λ s,
  match buffer_surface s with
  | None => (Raise AttributeError, s)
  | Some sf =>
      let '(r, d) := graphic_draw (data s) (Drawing (sf_cmds sf) None (paint_colors s)) in
      (r, set_paint_colors (palette d) (set_buffer_surface (Some (Surface (sf_width sf) (sf_height sf) (cmds d))) s))
  end.
(** A new surface is saved, but the drawing goes to the buffer of the window. *)
Definition output_png (filename : string) : W unit :=
  s ← get_st;
  let surface := Surface (g_width (data s)) (g_height (data s)) [] in
  _ ← draw_data;
  modify_st (λ s, set_files (files s ++ [(filename, surface)]) s).

(** ** Pointer *)

Definition button_press (event_x event_y : num) : W bool :=
  '(x, y, w, h) ← read_data get_selection_rectangle;
  '(d_x, d_y, d_width, d_height) ← read_data get_data_rectangle;
  let in_selection := (y <? event_y) && (event_y <? y + h) in
  let in_data := (d_y <? event_y) && (event_y <? d_y + d_height) && (d_x <? event_x) && (event_x <? d_x + d_width) in
  if in_selection && (num_abs (event_x - x) <? Int 5) then
    _ ← assign set_moving_left true; mret true
  else if in_selection && (num_abs (event_x - (x + w)) <? Int 5) then
    _ ← assign set_moving_right (Int 1); mret true
  else if in_selection && (x <? event_x) && (event_x <? x + w) then
    _ ← assign set_moving_both true;
    _ ← assign set_moving_both_start (Some event_x);
    _ ← assign set_moving_both_cur (Some event_x);
    mret true
  else if in_data then
    _ ← assign set_moving_top true;
    _ ← assign set_moving_top_start (Some event_x);
    _ ← assign set_moving_top_cur (Some event_x);
    mret true
  else mret false.

Definition button_release : W bool :=
  s ← get_st;
  if moving_left s then
    _ ← assign set_moving_left false;
    cur ← attribute (moving_left_cur s);
    left_ ← read_data (λ g, scale_selection g cur);
    '(_, right_) ← read_data get_range;
    _ ← on_data (set_range left_ right_);
    _ ← assign set_force_full_redraw true;
    _ ← queue_draw; mret true
  else if truthy (moving_right s) then
    _ ← assign set_moving_right (Int 0);
    cur ← attribute (moving_right_cur s);
    right_ ← read_data (λ g, scale_selection g cur);
    '(left_, _) ← read_data get_range;
    _ ← on_data (set_range left_ right_);
    _ ← assign set_force_full_redraw true;
    _ ← queue_draw; mret true
  else if moving_both s then
    _ ← assign set_moving_both false;
    cur ← attribute (moving_both_cur s);
    start ← attribute (moving_both_start s);
    delta ← read_data (λ g, scale_selection g (cur - start));
    '(left_, right_) ← read_data get_range;
    _ ← on_data (set_range (left_ + delta) (right_ + delta));
    _ ← assign set_force_full_redraw true;
    _ ← queue_draw; mret true
  else
    _ ← (if moving_top s then assign set_moving_top false else mret tt);
    mret false.

Definition redraw_selection (y h : num) : W bool :=
  s ← get_st;
  w ← attribute (width s);
  _ ← queue_draw_area (Int 0) (num_int y) (num_int w) (num_int h); mret true.

Definition motion_notify (event_x event_y : num) : W bool :=
  '(x, y, w, h) ← read_data get_selection_rectangle;
  s ← get_st;
  if moving_left s then
    _ ← (if event_x <=? Int 0 then assign set_moving_left_cur (Some (Int 0))
         else if x + w <=? event_x then assign set_moving_left_cur (Some (x + w))
         else assign set_moving_left_cur (Some event_x));
    redraw_selection y h
  else if truthy (moving_right s) then
    self_width ← attribute (width s);
    _ ← (if self_width <=? event_x then assign set_moving_right self_width
         else if event_x <? x then assign set_moving_right_cur (Some x)
         else assign set_moving_right_cur (Some event_x));
    redraw_selection y h
  else if moving_both s then
    self_width ← attribute (width s);
    start ← attribute (moving_both_start s);
    let cur_e := self_width - (x + w - start) in
    let cur_s := start - x in
    _ ← (if event_x <? cur_s then assign set_moving_both_cur (Some cur_s)
         else if cur_e <? event_x then assign set_moving_both_cur (Some cur_e)
         else assign set_moving_both_cur (Some event_x));
    redraw_selection y h
  else if moving_top s then
    _ ← assign set_moving_top_cur (Some event_x);
    start ← attribute (moving_top_start s);
    delta ← read_data (λ g, scale_data g (start - event_x));
    '(left_, right_) ← read_data get_range;
    _ ← on_data (set_range (left_ + delta) (right_ + delta));
    _ ← assign set_force_full_redraw true;
    _ ← assign set_moving_top_start (Some event_x);
    _ ← queue_draw; mret true
  else
    '(d_x, d_y, d_width, d_height) ← read_data get_data_rectangle;
    let in_selection := (y <? event_y) && (event_y <? y + h) in
    let in_data := (d_y <? event_y) && (event_y <? d_y + d_height) && (d_x <? event_x) && (event_x <? d_x + d_width) in
    if in_selection && ((num_abs (event_x - x) <? Int 5) || (num_abs (event_x - (x + w)) <? Int 5)) then
      _ ← assign set_cursor DoubleArrow; mret true
    else if in_selection && (x <? event_x) && (event_x <? x + w) then
      _ ← assign set_cursor Fleur; mret true
    else if in_data then _ ← assign set_cursor Fleur; mret true
    else _ ← assign set_cursor Default; mret false.

Definition size_allocate (w h : num) : W unit :=
  _ ← assign set_width (Some w);
  _ ← assign set_height (Some h);
  _ ← on_data (layout w h);
  _ ← assign set_force_full_redraw true;
  queue_draw.

(** A vertical line that marks a border which is being moved. *)
Definition mark (x y h : num) : list cmd := [MoveTo x y; RelLineTo (Int 0) h; ClosePath].
Definition stroke_black : list cmd := [SetLineWidth (Int 1); black; Stroke].

(** The first part of [expose] brings the buffer up to date. *)
Definition refresh : W unit :=
  s ← get_st;
  if force_full_redraw s then
    _ ← assign set_buffer_surface (Some (Surface (g_width (data s)) (g_height (data s)) []));
    _ ← draw_data;
    assign set_force_full_redraw false
  else mret tt.
(** The second part paints: [shown] is what is on the screen, the buffer and then the borders that
    are being moved. *)
Definition overlay : W bool :=
  s ← get_st;
  buf ← attribute (buffer_surface s);
  _ ← assign set_shown (sf_cmds buf);
  '(x, y, w, h) ← read_data get_selection_rectangle;
  let show cs := modify_st (λ s, set_shown (shown s ++ cs) s) in
  _ ← (if moving_left s then
         cur ← attribute (moving_left_cur s); show (mark (num_max cur (Int 2)) y h ++ stroke_black)
       else mret tt);
  _ ← (if truthy (moving_right s) then
         cur ← attribute (moving_right_cur s);
         self_width ← attribute (width s);
         show (mark (num_min cur (self_width - Int 2)) y h ++ stroke_black)
       else mret tt);
  _ ← (if moving_both s then
         cur ← attribute (moving_both_cur s);
         start ← attribute (moving_both_start s);
         let delta_x := cur - start in
         show (mark (x + delta_x) y h ++ mark (x + w + delta_x) y h ++ [black; SetLineWidth (Int 1); Stroke])
       else mret tt);
  mret false.
Definition expose : W bool := _ ← refresh; overlay.

(** ** The main loop *)

Inductive event :=
| ZoomOut | ZoomIn | Press (x y : num) | Release | Motion (x y : num) | Resize (w h : num) | Expose | Save_png (filename : string).
Definition handle (e : event) : W unit :=
  match e with
  | ZoomOut => set_smaller_zoom
  | ZoomIn => set_bigger_zoom
  | Press x y => _ ← button_press x y; mret tt
  | Release => _ ← button_release; mret tt
  | Motion x y => _ ← motion_notify x y; mret tt
  | Resize w h => size_allocate w h
  | Expose => _ ← expose; mret tt
  | Save_png f => output_png f
  end.
(** An exception in a handler does not end the loop. *)
Definition dispatch (s : gui) (e : event) : gui := (handle e s).2.
Definition main_loop (s : gui) (es : list event) : gui := foldl dispatch s es.

(** ** [main] *)

Definition main `{!DictIter string} (lines : list string) : py exn gui :=
  let '(cols, ts) := GridData.read_data lines in
  let '(lower_bound, upper_bound) := GridData.get_bounds ts in
  let range_values := get_all_range_values ts in
  '(range_colors, cols) ← lookup_colors cols range_values;
  let top := set_legends TopLegendRenderer range_values range_colors in
  let g := GraphicRenderer (Int lower_bound) (Int upper_bound) (new_timelines_renderer ts) top in
  let range_mid := ((upper_bound - lower_bound) / 2)%Z in
  let range_width := ((upper_bound - lower_bound) / 10)%Z in
  let range_lo := (range_mid - range_width / 2)%Z in
  let range_hi := (range_mid + range_width / 2)%Z in
  match set_range (Int range_lo) (Int range_hi) g with
  | (Ok _, g) => Ok (GtkGraphicRenderer g cols)
  | (Raise e, _) => Raise e
  end.
End window.

(** ** The visible range *)

(** [m] changes the state only by steps that keep [Inv]. *)
Create HintDb keeps.
#[export] Hint Resolve inv_raise : keeps.

Section keeps.
Context {S : Type} (Inv : S → Prop).

Lemma keeps_ret {A} (a : A) : inv_run Inv (mret a : stx S exn A) (λ _, True).
Proof. by apply inv_ret. Qed.
Lemma keeps_get : inv_run Inv (get_st : stx S exn S) (λ _, True).
Proof. apply inv_get. Qed.
Lemma keeps_lift {A} (r : py exn A) : inv_run Inv (lift_py r) (λ _, True).
Proof. by apply inv_lift. Qed.
Lemma keeps_attribute {A} (o : option A) : inv_run Inv (attribute o) (λ _, True).
Proof. by apply inv_lift. Qed.
Lemma keeps_modify (f : S → S) : (∀ s, Inv s → Inv (f s)) → inv_run Inv (modify_st f : stx S exn unit) (λ _, True).
Proof. intros Hf. by apply inv_modify. Qed.
Lemma keeps_bind {A B} (m : stx S exn A) (f : A → stx S exn B) :
  inv_run Inv m (λ _, True) → (∀ a, inv_run Inv (f a) (λ _, True)) → inv_run Inv (m ≫= f) (λ _, True).
Proof. intros Hm Hf. eapply inv_bind; [exact Hm|]. intros a _. apply Hf. Qed.
Lemma keeps_if {A} (b : bool) (m m' : stx S exn A) :
  inv_run Inv m (λ _, True) → inv_run Inv m' (λ _, True) → inv_run Inv (if b then m else m') (λ _, True).
Proof. by destruct b. Qed.
Lemma keeps_pair {A B C} (p : A * B) (m : A → B → stx S exn C) :
  (∀ a b, inv_run Inv (m a b) (λ _, True)) → inv_run Inv (let '(a, b) := p in m a b) (λ _, True).
Proof. destruct p. auto. Qed.
End keeps.
#[export] Hint Resolve keeps_ret keeps_get keeps_lift keeps_attribute keeps_bind keeps_if keeps_pair : keeps.

Section view.
Context `{Rounding, Cairo} (lower upper : Z).

(** The bounds of the data never change; the range, the range of the timelines and the bounds of the upper scale
    are one.  Its start and its end lie within the bounds of the data; or nothing of the data is in the range
    asked for, and then the range is stored with its start after its end, one of them being the bound of the
    data. *)
Definition bounds_ok (g : graphic) : Prop :=
  g_start g = num_float (Int lower) ∧ g_end g = num_float (Int upper) ∧
  sc_bounds (bot_scale g) = Some (Int lower, Int upper).
Definition range_within (g : graphic) (a b : num) : Prop :=
  (val (g_start g) <= val a ∧ val a <= val b ∧ val b <= val (g_end g))%Q ∨
  (val b < val a ∧ (val b == val (g_end g) ∧ val (g_start g) <= val a ∨ val a == val (g_start g) ∧ val b <= val (g_end g)))%Q.
Definition view_ok (g : graphic) : Prop :=
  bounds_ok g ∧ ∃ a b,
    g_range g = Some (a, b) ∧ tr_range (g_data g) = Some (a, b) ∧ sc_bounds (mid_scale g) = Some (a, b) ∧
    range_within g a b.

Lemma scale_layout_bounds s w s' : scale_layout s w = Ok s' → sc_bounds s' = sc_bounds s.
Proof.
  unfold scale_layout. destruct (sc_bounds s) as [[lo hi]|] eqn:E; [|done]. cbn.
  destruct (scale_delta lo hi) as [d|]; [|done]. cbn.
  destruct (tick_start lo d); [|done]. cbn. destruct (tick_end hi d); [|done]. by intros [= <-].
Qed.

(** The three parts of [layout]: what cannot fail, the upper scale, the lower scale. *)
Definition sized (g : graphic) (w h : num) : graphic :=
  Graphic (g_start g) (g_end g) (mid_scale g) (bot_scale g) w h (g_range g)
    (timelines_layout (g_data g) w) (legend_layout (top_legend g) w).
Definition with_scales (g : graphic) (mid bot : scale) : graphic :=
  Graphic (g_start g) (g_end g) mid bot (g_width g) (g_height g) (g_range g) (g_data g) (top_legend g).
Definition data_x (g : graphic) (w : num) : num :=
  let p := tr_padding (g_data g) in
  let ts := tr_timelines (g_data g) in
  half p + widest (tl_name <$> ts) (Int 0) + p + foldl (λ w t, widest (right_names t) w) (Int 0) ts + half p.

Lemma layout_run w h g :
  layout w h g =
  match scale_layout (mid_scale g) (w - data_x g w) with
  | Raise e => (Raise e, sized g w h)
  | Ok mid =>
      match scale_layout (bot_scale g) w with
      | Raise e => (Raise e, with_scales (sized g w h) mid (bot_scale g))
      | Ok bot => (Ok tt, with_scales (sized g w h) mid bot)
      end
  end.
Proof.
  unfold layout, mbind, stx_bind, get_st, set_size, set_legend, set_g_data, set_mid, set_bot_scale, modify_st, lift_py.
  cbn. unfold data_x. destruct (scale_layout (mid_scale g) _); [|done]. by destruct (scale_layout (bot_scale g) w).
Qed.

Lemma view_layout w h g r g' : view_ok g → layout w h g = (r, g') → view_ok g'.
Proof.
  intros ((H1 & H2 & H3) & a & b & H4 & H5 & H6 & H7). rewrite layout_run.
  destruct (scale_layout (mid_scale g) _) as [mid|] eqn:Em; [apply scale_layout_bounds in Em|];
    [destruct (scale_layout (bot_scale g) w) as [bot|] eqn:Eb; [apply scale_layout_bounds in Eb|]|];
    intros [= <- <-]; (split; [split_and!; first [done|cbn; congruence]|]); exists a, b; split_and!;
      first [apply H7|done|cbn; congruence].
Qed.

(** What [set_range] stores of the range between two numbers. *)
Lemma clamped_range g s e : range_within g (num_max (g_start g) (num_min s e)) (num_min (g_end g) (num_max s e)).
Proof.
  destruct (num_max_spec (g_start g) (num_min s e)) as (Ha & _ & Ha').
  destruct (num_min_spec (g_end g) (num_max s e)) as (Hb & _ & Hb').
  destruct (num_max_spec s e) as (He & _), (num_min_spec s e) as (Hs & _).
  unfold range_within. set (a := num_max (g_start g) _) in *. set (b := num_min (g_end g) _) in *.
  destruct (Qlt_le_dec (val b) (val a)) as [Hlt|Hle]; [right|by left]. split; [done|].
  destruct Ha' as [Ea|Ea]; [right; rewrite Ea; split; [reflexivity|done]|].
  destruct Hb' as [Eb|Eb]; [left; rewrite Eb; split; [reflexivity|done]|].
  exfalso. rewrite Ea, Eb in Hlt. lra.
Qed.
(** [set_range] establishes it, also when the layout fails. *)
Lemma view_set_range s e g r g' : bounds_ok g → set_range s e g = (r, g') → view_ok g'.
Proof.
  intros (H1 & H2 & H3) Hrun. unfold set_range, mbind, stx_bind, get_st in Hrun. cbn in Hrun.
  eapply view_layout; [|exact Hrun]. split; [done|]. cbn.
  eexists _, _. split_and!; [done..|]. exact (clamped_range g s e).
Qed.

Abbreviation V := (λ s, view_ok (data s)).

Lemma keeps_on_data (m : stx graphic exn unit) :
  (∀ g r g', view_ok g → m g = (r, g') → view_ok g') → inv_run V (on_data m) (λ _, True).
Proof.
  intros Hm s r s' Hs. unfold on_data. destruct (m (data s)) as [r' g] eqn:E. intros [= <- <-]. split; [|done].
  cbn. by eapply Hm.
Qed.
Lemma keeps_set_range s e : inv_run V (on_data (set_range s e)) (λ _, True).
Proof. apply keeps_on_data. intros g r g' [Hb _]. by apply view_set_range. Qed.
Lemma keeps_assign {A} (set : A → gui → gui) v :
  (∀ s, data (set v s) = data s) → inv_run V (assign set v) (λ _, True).
Proof. intros Hset. apply keeps_modify. intros s Hs. by rewrite Hset. Qed.
Lemma keeps_read {A} (f : graphic → py exn A) : inv_run V (read_data f) (λ _, True).
Proof. unfold read_data. auto with keeps. Qed.
Lemma keeps_queue : inv_run V queue_draw (λ _, True).
Proof. by apply keeps_modify. Qed.
Lemma keeps_draw_data : inv_run V draw_data (λ _, True).
Proof.
  intros s r s' Hs. unfold draw_data. destruct (buffer_surface s); [|by intros [= <- <-]].
  destruct (graphic_draw _ _) as [r' d]. by intros [= <- <-].
Qed.
#[local] Hint Resolve keeps_set_range keeps_read keeps_queue keeps_draw_data : keeps.
#[local] Hint Extern 1 (inv_run _ (assign _ _) _) => by apply keeps_assign : keeps.
#[local] Hint Extern 1 (inv_run _ (modify_st _) _) => by apply keeps_modify : keeps.

Lemma keeps_layout w h : inv_run V (on_data (layout w h)) (λ _, True).
Proof. apply keeps_on_data. intros g r g'. apply view_layout. Qed.
#[local] Hint Resolve keeps_layout : keeps.

Lemma view_handle e : inv_run V (handle e) (λ _, True).
Proof.
  destruct e; cbn [handle]; unfold set_smaller_zoom, set_bigger_zoom, button_press, button_release, motion_notify,
    redraw_selection, queue_draw_area, size_allocate, expose, refresh, overlay, output_png.
  all: auto 60 with keeps.
Qed.
End view.

(** C12: From the window that [main] opens on, after any sequence of clicks, pointer motions, zooms, resizes,
    redraws and saves, with any rounding of floats and whichever of the handlers failed: the bounds of the data
    are those of the file, the visible range, the range of the timelines and the bounds of the upper scale are
    the same, and both of its ends lie within the bounds of the data, in order, unless nothing of the data is in
    the range asked for: then it is stored with its start after its end, and one of the two is the bound of the
    data. *)
Theorem view_invariant `{Rounding, Cairo, !DictIter string} lines s0 es :
  main lines = Ok s0 →
  let '(lower, upper) := GridData.get_bounds (GridData.read_data lines).2 in
  view_ok lower upper (data (main_loop s0 es)).
Proof.
  unfold main. destruct (GridData.read_data lines) as [cols ts]. cbn [snd].
  destruct (GridData.get_bounds ts) as [lower upper].
  destruct (lookup_colors cols _) as [[range_colors cols']|]; [|done]. cbn [mbind py_bind].
  destruct (set_range _ _ _) as [[[]|e] g] eqn:E; [|done]. intros [= <-].
  assert (view_ok lower upper (data (GtkGraphicRenderer g cols'))) as Hv by (eapply view_set_range; [|exact E]; done).
  revert Hv. generalize (GtkGraphicRenderer g cols'). induction es as [|e es IH]; intros s Hs; [done|].
  apply IH. unfold dispatch. destruct (handle e s) as [r s'] eqn:Eh.
  by destruct (view_handle lower upper e s r s' Hs Eh).
Qed.

Definition sample_file : list string :=
  ["range tx state idle 0 100"; "range tx state busy 100 250"; "event-int tx cw 15 120";
   "event-int tx cw 31 480"; "event-str rx msg hello 999"].

Lemma view_invariant_witness :
  ∃ s0, main (H := exact) (H0 := monospace) (DictIter0 := dict_iter_alternating) sample_file = Ok s0 ∧
    view_ok (H := exact) 0 999 (data (main_loop (H := exact) (H0 := monospace) s0
      [Resize (Int 800) (Int 600); Expose; Press (Flt 100) (Flt 140); Motion (Flt 90) (Flt 140); Release; ZoomIn])).
Proof.
  destruct (main (H := exact) (H0 := monospace) (DictIter0 := dict_iter_alternating) sample_file) as [s0|e] eqn:E;
    [|vm_compute in E; discriminate].
  exists s0. split; [reflexivity|].
  apply (view_invariant (H := exact) (H0 := monospace) (DictIter0 := dict_iter_alternating) sample_file s0 _ E).
Defined.

(** [set_range] given two ends in any order shows what the interval between them has in common
    with the bounds of the data, for any rounding.  When they have nothing in common, as after the data were
    dragged out of the window, the range that is shown starts after its end. *)
Theorem set_range_spec `{Rounding, Cairo} g s e r g' :
  set_range s e g = (r, g') → (val (g_start g) <= val (g_end g))%Q →
  ∃ a b, g_range g' = Some (a, b) ∧
    (∀ t, (val a <= t <= val b)%Q ↔
       (val (g_start g) <= t <= val (g_end g))%Q ∧ ((val s <= t <= val e)%Q ∨ (val e <= t <= val s)%Q)) ∧
    ((val b < val a)%Q ↔ (val s < val (g_start g) ∧ val e < val (g_start g))%Q ∨
                         (val (g_end g) < val s ∧ val (g_end g) < val e)%Q).
Proof.
  intros Hrun Hb. unfold set_range, mbind, stx_bind, get_st in Hrun. cbn in Hrun. rewrite layout_run in Hrun.
  exists (num_max (g_start g) (num_min s e)), (num_min (g_end g) (num_max s e)). split.
  - by repeat case_match; simplify_eq.
  - destruct (num_min_spec s e) as (H1 & H2 & H3), (num_max_spec s e) as (H4 & H5 & H6).
    destruct (num_max_spec (g_start g) (num_min s e)) as (H7 & H8 & H9).
    destruct (num_min_spec (g_end g) (num_max s e)) as (H10 & H11 & H12).
    set (a := num_max (g_start g) _) in *. set (b := num_min (g_end g) _) in *.
    set (lo := num_min s e) in *. set (hi := num_max s e) in *. clearbody a b lo hi.
    destruct H3 as [-> | ->], H6 as [-> | ->], H9 as [-> | ->], H12 as [-> | ->];
      (split; [intros t; split; intros ?; lra|split; intros ?; lra]).
Qed.

Definition sample_graphic : graphic :=
  GraphicRenderer (H := exact) (Int 0) (Int 999) (new_timelines_renderer (GridData.read_data sample_file).2) TopLegendRenderer.

Lemma set_range_spec_witness :
  ∃ r g' a b, set_range (H := exact) (H0 := monospace) (Int 1200) (Flt 1300) sample_graphic = (r, g') ∧
    g_range g' = Some (a, b) ∧ (val b < val a)%Q.
Proof.
  destruct (set_range (H := exact) (H0 := monospace) (Int 1200) (Flt 1300) sample_graphic) as [r g'] eqn:E.
  destruct (set_range_spec (H := exact) (H0 := monospace) sample_graphic (Int 1200) (Flt 1300) r g' E) as (a & b & Hr & _ & Hinv);
    [vm_compute; discriminate|].
  exists r, g', a, b. split; [reflexivity|]. split; [exact Hr|]. apply Hinv. right. vm_compute. split; reflexivity.
Defined.

(** ** Zooming in *)

Section zoom.
Context `{Rounding, Cairo}.

(** A window with integer ends within the bounds of the data. *)
Definition int_window (lower upper : Z) (s : gui) (a n : Z) : Prop :=
  bounds_ok lower upper (data s) ∧ g_range (data s) = Some (Int a, Int (a + n)) ∧
  (val (g_start (data s)) < inject_Z a)%Q ∧ (inject_Z (a + n) <= val (g_end (data s)))%Q.

(** The layout of a scale with integer bounds [n] apart fails only for [n = 1]. *)
Lemma scale_layout_int top sz (a n : Z) w :
  (0 <= n)%Z → (∃ s, scale_layout (Scale top (Some (Int a, Int (a + n))) sz) w = Ok s) ↔ n ≠ 1%Z.
Proof.
  intros Hn. destruct (decide (n = 0)%Z) as [->|Hn0].
  - split; [done|]. intros _. unfold scale_layout, scale_delta, num_sub. cbn [sc_bounds or_raise mbind py_bind arith].
    replace (a + 0 - a)%Z with 0%Z by lia. by eexists.
  - destruct (scale_ticks top sz a (a + n) w ltac:(lia)) as [H1 H2]. split.
    + intros [s Hs] ->. rewrite H1 in Hs by lia. done.
    + intros Hne. destruct H2 as (s' & _ & _ & Hs & _); [lia|]. by exists s'.
Qed.

Lemma scale_layout_one top sz a w :
  scale_layout (Scale top (Some (Int a, Int (a + 1))) sz) w = Raise ZeroDivisionError.
Proof. apply scale_ticks; lia. Qed.

Lemma num_max_int (a b : Z) : num_max (Int a) (Int b) = Int (Z.max a b).
Proof.
  unfold num_max. destruct (num_lt _ _) eqn:E; [apply num_lt_spec in E|apply num_lt_false in E]; cbn in E;
    [rewrite <-Zlt_Qlt in E|rewrite <-Zle_Qle in E]; f_equal; lia.
Qed.
Lemma num_min_int (a b : Z) : num_min (Int a) (Int b) = Int (Z.min a b).
Proof.
  unfold num_min. destruct (num_lt _ _) eqn:E; [apply num_lt_spec in E|apply num_lt_false in E]; cbn in E;
    [rewrite <-Zlt_Qlt in E|rewrite <-Zle_Qle in E]; f_equal; lia.
Qed.
Lemma num_max_lt a b : (val a < val b)%Q → num_max a b = b.
Proof. intros Hlt. unfold num_max. by rewrite (proj2 (num_lt_spec a b)). Qed.
Lemma num_min_lt a b : (val b < val a)%Q → num_min a b = b.
Proof. intros Hlt. unfold num_min. by rewrite (proj2 (num_lt_spec b a)). Qed.

(** The range after [set_range] to an integer window inside the bounds, and the outcome. *)
Lemma set_range_int lower upper g (a h : Z) :
  bounds_ok lower upper g → (val (g_start g) < inject_Z a)%Q → (inject_Z (a + h) < val (g_end g))%Q → (0 <= h)%Z →
  (upper - lower ≠ 1)%Z → (lower <= upper)%Z →
  let '(r, g') := set_range (Int a) (Int (a + h)) g in
  bounds_ok lower upper g' ∧ g_range g' = Some (Int a, Int (a + h)) ∧
  r = (if decide (h = 1)%Z then Raise ZeroDivisionError else Ok tt).
Proof.
  intros Hb Ha Hh Hpos Hne Hle. destruct (set_range (Int a) (Int (a + h)) g) as [r g'] eqn:E.
  pose proof (view_set_range lower upper _ _ _ _ _ Hb E) as [Hb' _]. split; [done|].
  unfold set_range, mbind, stx_bind, get_st in E. cbn in E. rewrite layout_run in E.
  rewrite num_min_int, num_max_int, Z.min_l, Z.max_r, num_max_lt, num_min_lt in E by (done || lia).
  destruct Hb as (_ & _ & Hbot). cbn -[scale_layout data_x] in E. unfold set_bounds in E.
  destruct (bot_scale g) as [top bs sz]. cbn in Hbot. subst bs.
  destruct (proj2 (scale_layout_int top sz lower (upper - lower) (g_width g) ltac:(lia)) Hne) as [bot Hbots].
  replace (lower + (upper - lower))%Z with upper in Hbots by lia. rewrite Hbots in E.
  destruct (decide (h = 1)%Z) as [->|Hh1].
  - rewrite scale_layout_one in E. by injection E as <- <-.
  - edestruct (λ w, proj2 (scale_layout_int (sc_top (mid_scale g)) (sc_sizes (mid_scale g)) a h w Hpos) Hh1) as [mid Hmid].
    rewrite Hmid in E. by injection E as <- <-.
Qed.

(** One click on "Zoom In". *)
Lemma zoom_in_step lower upper s a n :
  int_window lower upper s a n → (1 <= n)%Z → (upper - lower ≠ 1)%Z → (lower <= upper)%Z →
  let '(r, s') := handle ZoomIn s in
  int_window lower upper s' a (n / 2) ∧
  (if decide (n / 2 = 1)%Z then r = Raise ZeroDivisionError ∧ force_full_redraw s' = force_full_redraw s else r = Ok tt).
Proof.
  intros (Hb & Hr & Ha & Hn) Hpos Hne Hle. cbn [handle].
  unfold set_bigger_zoom, read_data, mbind, stx_bind, get_st, lift_py.
  unfold get_range. rewrite Hr. cbn [or_raise]. rewrite num_div_ok by done. cbn [arith num_sub num_add].
  replace (a + n - a)%Z with n by lia. assert (n / 2 < n)%Z as Hlt by (apply Z.div_lt; lia).
  assert (inject_Z (a + n / 2) < val (g_end (data s)))%Q as Hend.
  { eapply Qlt_le_trans; [|exact Hn]. rewrite <-Zlt_Qlt. lia. }
  pose proof (set_range_int lower upper (data s) a (n / 2) Hb Ha Hend ltac:(apply Z.div_pos; lia) Hne Hle) as Hset.
  unfold on_data. destruct (set_range (Int a) (Int (a + n / 2)) (data s)) as [r g'] eqn:E.
  destruct Hset as (Hb' & Hr' & ->).
  assert (g_start g' = g_start (data s) ∧ g_end g' = g_end (data s)) as [E1 E2].
  { destruct Hb as (-> & -> & _), Hb' as (-> & -> & _). done. }
  assert (int_window lower upper (set_data g' s) a (n / 2)) as Hw.
  { split_and!; [done..| |]; cbn; rewrite ?E1, ?E2; [done|]. by apply Qlt_le_weak. }
  destruct (decide (n / 2 = 1)%Z); (split; [exact Hw|done]).
Qed.

Lemma zoom_in_many lower upper k s a n :
  int_window lower upper s a n → (2 ^ Z.of_nat k <= n < 2 ^ (Z.of_nat k + 1))%Z → 1 ≤ k →
  (upper - lower ≠ 1)%Z → (lower <= upper)%Z →
  let s' := main_loop s (replicate (k - 1) ZoomIn) in
  ∃ m, (m = 2 ∨ m = 3)%Z ∧ int_window lower upper s' a m.
Proof.
  intros Hw Hn Hk Hne Hle. revert s n Hw Hn. induction k as [|[|k] IH]; intros s n Hw Hn; [lia| |].
  - exists n. cbn in *. split; [lia|done].
  - cbn [replicate Nat.sub main_loop foldl].
    pose proof (Z.pow_pos_nonneg 2 (Z.of_nat (S k)) ltac:(lia) ltac:(lia)) as Hpos.
    assert (2 ^ Z.of_nat (S (S k)) = 2 * 2 ^ Z.of_nat (S k))%Z as E1
      by (rewrite (Nat2Z.inj_succ (S k)), Z.pow_succ_r by lia; done).
    assert (2 ^ (Z.of_nat (S (S k)) + 1) = 2 * 2 ^ (Z.of_nat (S k) + 1))%Z as E2
      by (rewrite (Nat2Z.inj_succ (S k)), <-Z.pow_succ_r by lia; f_equal; lia).
    rewrite E1, E2 in Hn.
    pose proof (zoom_in_step lower upper s a n Hw ltac:(lia) Hne Hle) as Hstep. unfold dispatch at 2.
    destruct (handle ZoomIn s) as [r s']. destruct Hstep as [Hw' _]. cbn [snd].
    destruct (IH ltac:(lia) s' (n / 2)%Z Hw') as (m & Hm & Hwm).
    + split; [apply Z.div_le_lower_bound; lia|apply Z.div_lt_upper_bound; lia].
    + exists m. replace (S k - 1)%nat with k in Hwm by lia. by split.
Qed.
End zoom.

(** A window with integer ends, like the first one that is shown, cannot be zoomed in for ever: with [n] the
    width of the window, the click number [log2 n] on "Zoom In" ends in a ZeroDivisionError of the layout; the range is
    then one wide, and no redraw was asked for. *)
Theorem zoom_in_fails `{Rounding, Cairo} lower upper s a n :
  int_window lower upper s a n → (2 <= n)%Z → (upper - lower ≠ 1)%Z → (lower <= upper)%Z →
  let s' := main_loop s (replicate (Z.to_nat (Z.log2 n) - 1) ZoomIn) in
  let '(r, s'') := handle ZoomIn s' in
  r = Raise ZeroDivisionError ∧ g_range (data s'') = Some (Int a, Int (a + 1)) ∧
  force_full_redraw s'' = force_full_redraw s'.
Proof.
  intros Hw Hn Hne Hle. pose proof (Z.log2_spec n ltac:(lia)) as Hlog. pose proof (Z.log2_pos n ltac:(lia)) as Hpos.
  destruct (zoom_in_many lower upper (Z.to_nat (Z.log2 n)) s a n Hw) as (m & Hm & Hwm);
    [rewrite Z2Nat.id by lia; exact Hlog|lia|done..|].
  set (s' := main_loop _ _) in *. pose proof (zoom_in_step lower upper s' a m Hwm ltac:(lia) Hne Hle) as Hstep.
  cbn zeta. destruct (handle ZoomIn s') as [r s'']. assert (m / 2 = 1)%Z as E by (destruct Hm as [-> | ->]; done).
  rewrite E in Hstep. destruct Hstep as [(_ & Hr & _) [-> Hf]]. done.
Qed.

Lemma zoom_in_fails_witness :
  ∃ s0, main (H := exact) (H0 := monospace) (DictIter0 := dict_iter_alternating) sample_file = Ok s0 ∧
  let s' := main_loop (H := exact) (H0 := monospace) s0 (replicate 5 ZoomIn) in
  let '(r, s'') := handle (H := exact) (H0 := monospace) ZoomIn s' in
  r = Raise ZeroDivisionError ∧ g_range (data s'') = Some (Int 450, Int 451) ∧ force_full_redraw s'' = force_full_redraw s'.
Proof.
  destruct (main (H := exact) (H0 := monospace) (DictIter0 := dict_iter_alternating) sample_file) as [s0|e] eqn:E;
    [|vm_compute in E; discriminate].
  exists s0. split; [reflexivity|].
  refine (zoom_in_fails (H := exact) (H0 := monospace) 0 999 s0 450 98 _ _ _ _); [|lia..].
  vm_compute in E. injection E as <-. vm_compute. repeat split; discriminate.
Defined.

(** ** Dragging the borders of the selection *)

Section drag.
Context `{Rounding, Cairo}.

(** The part of the state that a drag of a border leaves alone. *)
Definition same_view (s s' : gui) : Prop :=
  data s' = data s ∧ width s' = width s ∧ moving_left s' = moving_left s.

Lemma motion_left ex ey s x y w h W :
  get_selection_rectangle (data s) = Ok (x, y, w, h) → width s = Some W → moving_left s = true →
  let s' := dispatch s (Motion ex ey) in
  same_view s s' ∧
  moving_left_cur s' = Some (if ex <=? Int 0 then Int 0 else if x + w <=? ex then x + w else ex).
Proof.
  intros Hsel Hw Hl. unfold dispatch. cbn [handle].
  unfold motion_notify, read_data, redraw_selection, mbind, stx_bind, get_st, lift_py.
  rewrite Hsel, Hl. destruct (ex <=? Int 0); [|destruct (x + w <=? ex)]; cbn; rewrite Hw; done.
Qed.

Lemma motion_right ex ey s x y w h W :
  get_selection_rectangle (data s) = Ok (x, y, w, h) → width s = Some W → moving_left s = false →
  truthy (moving_right s) = true →
  let s' := dispatch s (Motion ex ey) in
  same_view s s' ∧
  (if W <=? ex then moving_right s' = W ∧ moving_right_cur s' = moving_right_cur s
   else moving_right s' = moving_right s ∧ moving_right_cur s' = Some (if ex <? x then x else ex)).
Proof.
  intros Hsel Hw Hl Hr. unfold dispatch. cbn [handle].
  unfold motion_notify, read_data, redraw_selection, mbind, stx_bind, get_st, lift_py.
  rewrite Hsel, Hl, Hr, Hw. cbn. destruct (W <=? ex); [|destruct (ex <? x)]; cbn; rewrite Hw; done.
Qed.

Definition motions (ps : list (num * num)) : list event := (λ p, Motion p.1 p.2) <$> ps.
Definition clamp_left (x w ex : num) : num := if ex <=? Int 0 then Int 0 else if x + w <=? ex then x + w else ex.
Definition clamp_right (x ex : num) : num := if ex <? x then x else ex.

(** While a border of the selection is dragged the view stays the same.  The position kept for the left border
    is that of the last motion, clamped to the part of the window left of the right border.  The position kept
    for the right border is that of the last motion inside the window: a motion to the right of the window does
    not move it to the edge, and if all motions are there it is what an earlier drag left. *)
Theorem border_drag s ps x y w h W :
  get_selection_rectangle (data s) = Ok (x, y, w, h) → width s = Some W → truthy W = true →
  let s' := main_loop s (motions ps) in
  (moving_left s = true →
     same_view s s' ∧
     moving_left_cur s' = match last ps with Some p => Some (clamp_left x w p.1) | None => moving_left_cur s end) ∧
  (moving_left s = false → truthy (moving_right s) = true →
     same_view s s' ∧ truthy (moving_right s') = true ∧
     moving_right_cur s' =
       match last (filter (λ p, (W <=? p.1) = false) ps) with
       | Some p => Some (clamp_right x p.1)
       | None => moving_right_cur s
       end).
Proof.
  intros Hsel Hw HW s'. subst s'. split.
  - intros Hl. induction ps as [|p ps IH] using rev_ind; [by split|].
    unfold motions, main_loop in *. rewrite fmap_app, foldl_app, last_snoc. cbn [fmap list_fmap foldl].
    destruct IH as [(H1 & H2 & H3) _]. set (s1 := foldl dispatch s _) in *.
    destruct (motion_left p.1 p.2 s1 x y w h W) as [(H4 & H5 & H6) H7]; [congruence..|].
    split; [split_and!; congruence|done].
  - intros Hl Hr. induction ps as [|p ps IH] using rev_ind; [by split_and!|].
    unfold motions, main_loop in *. rewrite fmap_app, foldl_app, filter_app. cbn [fmap list_fmap foldl].
    destruct IH as ((H1 & H2 & H3) & Hr1 & Hcur). set (s1 := foldl dispatch s _) in *.
    destruct (motion_right p.1 p.2 s1 x y w h W) as [(H4 & H5 & H6) H7]; [congruence..|].
    split; [split_and!; congruence|]. rewrite filter_cons, filter_nil.
    destruct (W <=? p.1) eqn:E; destruct H7 as [H7 H8].
    + rewrite decide_False by congruence. rewrite app_nil_r. by rewrite H7, H8, Hcur.
    + rewrite decide_True, last_snoc by done. by rewrite H7, H8.
Qed.
End drag.

Lemma border_drag_witness :
  ∃ s0, main (H := exact) (H0 := monospace) (DictIter0 := dict_iter_alternating) sample_file = Ok s0 ∧
  let s := main_loop (H := exact) (H0 := monospace) s0 [Resize (Int 800) (Int 600); Press (Flt 438) (Flt 140)] in
  moving_right_cur (main_loop (H := exact) (H0 := monospace) s (motions [(Flt 500, Flt 140); (Flt 900, Flt 140)])) = Some (Flt 500).
Proof.
  destruct (main (H := exact) (H0 := monospace) (DictIter0 := dict_iter_alternating) sample_file) as [s0|e] eqn:E;
    [|vm_compute in E; discriminate].
  exists s0. split; [reflexivity|]. vm_compute in E. injection E as <-. cbv zeta.
  match goal with |- moving_right_cur (main_loop ?s _) = _ =>
    refine (eq_trans (proj2 (proj2 (proj2 (border_drag (H := exact) (H0 := monospace) s [(Flt 500, Flt 140);
      (Flt 900, Flt 140)]
      _ _ _ _ (Int 800) _ _ _) _ _))) _) end; vm_compute; reflexivity.
Defined.

(** A click on the left border without a motion: the border jumps to where the last drag of it
    ended, or the handler fails when there was none. *)
Lemma left_click `{Rounding, Cairo} s ex ey x y w h rect :
  get_selection_rectangle (data s) = Ok (x, y, w, h) → get_data_rectangle (data s) = Ok rect →
  (y <? ey) && (ey <? y + h) && (num_abs (ex - x) <? Int 5) = true →
  data (main_loop s [Press ex ey; Release]) =
    match moving_left_cur s with
    | None => data s
    | Some c =>
        match scale_selection (data s) c, get_range (data s) with
        | Ok l, Ok (_, b) => (set_range l b (data s)).2
        | _, _ => data s
        end
    end.
Proof.
  intros Hsel Hrect Hin. destruct rect as [[[d_x d_y] d_w] d_h]. unfold main_loop. cbn [foldl].
  unfold dispatch at 2. cbn [handle].
  unfold button_press, read_data at 1 2, mbind, stx_bind, get_st, lift_py. rewrite Hsel. cbn. rewrite Hrect. cbn.
  rewrite Hin. cbn. unfold dispatch. cbn [handle].
  unfold button_release, read_data, mbind, stx_bind, get_st, lift_py. cbn.
  destruct (moving_left_cur s) as [c|]; cbn; [|done]. destruct (scale_selection (data s) c) as [l|]; cbn; [|done].
  unfold get_range. destruct (g_range (data s)) as [[a b]|]; cbn; [|done]. unfold on_data. cbn.
  destruct (set_range l b (data s)) as [[[]|] g']; done.
Qed.

(** ** The screen is up to date *)

Section shifts.
Context `{Rounding, Cairo}.

Definition shift (cs : list cmd) (d : drawing) : drawing := Drawing (cs ++ cmds d) (grey_background d) (palette d).
(** What [m] draws does not depend on what was drawn before. *)
Definition shifts {A} (m : stx drawing exn A) : Prop :=
  ∀ cs d, m (shift cs d) = let '(r, d') := m d in (r, shift cs d').

Lemma shifts_ret {A} (a : A) : shifts (mret a).
Proof. done. Qed.
Lemma shifts_lift {A} (r : py exn A) : shifts (lift_py r).
Proof. done. Qed.
Lemma shifts_attribute {A} (o : option A) : shifts (attribute o).
Proof. done. Qed.
Lemma shifts_emit cs : shifts (emit cs).
Proof. intros cs' d. unfold emit, modify_st, shift. cbn. by rewrite app_assoc. Qed.
Lemma shifts_modify f : (∀ cs d, f (shift cs d) = shift cs (f d)) → shifts (modify_st f).
Proof. intros Hf cs d. unfold modify_st. by rewrite Hf. Qed.
Lemma shifts_bind {A B} (m : stx drawing exn A) (f : A → stx drawing exn B) :
  shifts m → (∀ a, shifts (f a)) → shifts (m ≫= f).
Proof.
  intros Hm Hf cs d. unfold mbind, stx_bind. rewrite Hm. destruct (m d) as [[a|e] d']; [apply Hf|done].
Qed.
Lemma shifts_get {B} (f : drawing → stx drawing exn B) :
  (∀ cs d, f (shift cs d) = f d) → (∀ d, shifts (f d)) → shifts (get_st ≫= f).
Proof. intros Hf Hs cs d. unfold mbind, stx_bind, get_st. rewrite Hf. apply Hs. Qed.
Lemma shifts_if {A} (b : bool) (m m' : stx drawing exn A) : shifts m → shifts m' → shifts (if b then m else m').
Proof. by destruct b. Qed.
Lemma shifts_pair {A B C} (p : A * B) (m : A → B → stx drawing exn C) :
  (∀ a b, shifts (m a b)) → shifts (let '(a, b) := p in m a b).
Proof. destruct p. auto. Qed.
Lemma shifts_for {A} (f : A → stx drawing exn unit) l : (∀ x, shifts (f x)) → shifts (for_st f l).
Proof. intros Hf. induction l; [apply shifts_ret|]. cbn. apply shifts_bind; auto. Qed.
Lemma shifts_fold {A B} (f : B → A → stx drawing exn B) b l : (∀ b x, shifts (f b x)) → shifts (fold_st f b l).
Proof. intros Hf. revert b. induction l; intros b; [apply shifts_ret|]. cbn. apply shifts_bind; auto. Qed.
End shifts.

Create HintDb shifts.
#[export] Hint Resolve shifts_ret shifts_lift shifts_attribute shifts_emit shifts_bind shifts_if shifts_pair shifts_for shifts_fold : shifts.
#[export] Hint Extern 1 (shifts (modify_st _)) => by apply shifts_modify : shifts.
#[export] Hint Extern 1 (shifts (get_st ≫= _)) => apply shifts_get; [done|intros ?] : shifts.

Section screen.
Context `{Rounding, Cairo}.

Lemma shifts_legend l : shifts (legend_draw l).
Proof.
  unfold legend_draw. destruct (legends l) as [|name names]; [auto with shifts|].
  apply shifts_bind; [auto with shifts|].
  intros w. generalize (name :: names) 0%nat (start_flow (lg_padding l)). clear. intros names.
  induction names as [|n names IH]; intros i s; cbn [legend_items]; auto 20 with shifts.
Qed.
Lemma shifts_draw_line x y w h : shifts (draw_line x y w h).
Proof. apply shifts_emit. Qed.
#[local] Hint Resolve shifts_legend shifts_draw_line : shifts.
Lemma shifts_stripe p x y w h : shifts (draw_stripe p x y w h).
Proof. unfold draw_stripe. auto 20 with shifts. Qed.
Lemma shifts_next : shifts next_stripe.
Proof. unfold next_stripe. auto 20 with shifts. Qed.
#[local] Hint Resolve shifts_stripe shifts_next : shifts.
Lemma shifts_events r e x y w h : shifts (draw_events r e x y w h).
Proof.
  unfold draw_events. repeat (apply shifts_bind; [auto with shifts|]; intros ?). destruct a1 as [lo hi].
  apply shifts_bind; [|auto with shifts]. generalize (num_int x) (py_slice (te_events e) lo hi). intros x0 evs.
  revert x0.
  induction evs as [|ev evs IH]; intros x0; cbn [draw_event_loop]; auto 20 with shifts.
Qed.
Lemma shifts_ranges r l x y w h : shifts (draw_ranges r l x y w h).
Proof.
  unfold draw_ranges. repeat (apply shifts_bind; [auto with shifts|]; intros ?). destruct a1 as [lo hi].
  apply shifts_bind; [|auto with shifts]. generalize (num_int (x - Int 1)) (py_slice (tdr_ranges l) lo hi).
  intros x0 rs. revert x0.
  induction rs as [|dr rs IH]; intros x0; cbn [draw_range_loop]; auto 30 with shifts.
Qed.
#[local] Hint Resolve shifts_events shifts_ranges : shifts.
Lemma shifts_timelines r : shifts (timelines_draw r).
Proof.
  unfold timelines_draw, draw_timeline, draw_event_line, draw_range_line, separation, draw_name. auto 40 with shifts.
Qed.
Lemma shifts_scale s : shifts (scale_draw s).
Proof. unfold scale_draw. auto 40 with shifts. Qed.
#[local] Hint Resolve shifts_timelines shifts_scale : shifts.
Lemma shifts_graphic g : shifts (graphic_draw g).
Proof. unfold graphic_draw. auto 60 with shifts. Qed.
End screen.

Section fresh.
Context `{Rounding, Cairo}.

(** The commands [cs] end with a complete drawing of [g]; a drawing starts by painting the whole
    surface white. *)
Definition ends_with_drawing (g : graphic) (cs : list cmd) : Prop :=
  ∃ pre pal d, graphic_draw g (Drawing [] None pal) = (Ok tt, d) ∧ cs = pre ++ cmds d.
(** Unless a redraw is due, the buffer shows the current state. *)
Definition fresh (s : gui) : Prop :=
  force_full_redraw s = false → ∃ buf, buffer_surface s = Some buf ∧ ends_with_drawing (data s) (sf_cmds buf).

(** A redraw is due, or nothing that the buffer depends on has changed. *)
Definition keeps_screen (s s' : gui) : Prop :=
  force_full_redraw s' = true ∨
  data s' = data s ∧ buffer_surface s' = buffer_surface s ∧ force_full_redraw s' = force_full_redraw s.

Lemma keeps_screen_fresh s s' : keeps_screen s s' → fresh s → fresh s'.
Proof. intros [Hf|(H1 & H2 & H3)] Hs Hf'; [congruence|]. rewrite H1, H2. apply Hs. congruence. Qed.

Lemma draw_data_run s s' :
  draw_data s = (Ok tt, s') →
  ∃ buf', buffer_surface s' = Some buf' ∧ data s' = data s ∧ force_full_redraw s' = force_full_redraw s ∧
    ends_with_drawing (data s) (sf_cmds buf').
Proof.
  unfold draw_data. destruct (buffer_surface s) as [buf|]; [|done].
  pose proof (shifts_graphic (data s) (sf_cmds buf) (Drawing [] None (paint_colors s))) as Hs.
  unfold shift in Hs. cbn in Hs. rewrite app_nil_r in Hs. rewrite Hs.
  destruct (graphic_draw (data s) (Drawing [] None (paint_colors s))) as [[[]|e] d] eqn:E; [|done]. intros [= <-].
  exists (Surface (sf_width buf) (sf_height buf) (sf_cmds buf ++ cmds d)). split_and!; [done..|].
  by exists (sf_cmds buf), (paint_colors s), d.
Qed.

(** Runs that return and keep the screen. *)
Definition screen {A} (m : stx gui exn A) : Prop := ∀ s a s', m s = (Ok a, s') → keeps_screen s s'.

Lemma screen_same {A} (m : stx gui exn A) :
  (∀ s, data (m s).2 = data s ∧ buffer_surface (m s).2 = buffer_surface s ∧
        force_full_redraw (m s).2 = force_full_redraw s) → screen m.
Proof. intros Hm s a s' Hrun. specialize (Hm s). rewrite Hrun in Hm. by right. Qed.
Lemma screen_bind {A B} (m : stx gui exn A) (f : A → stx gui exn B) :
  screen m → (∀ a, screen (f a)) → screen (m ≫= f).
Proof.
  intros Hm Hf s b s'. unfold mbind, stx_bind. destruct (m s) as [[a|e] s1] eqn:E; [|done]. intros Hrun.
  destruct (Hf a _ _ _ Hrun) as [?|(H1 & H2 & H3)]; [by left|].
  destruct (Hm _ _ _ E) as [?|(H4 & H5 & H6)]; [left|right; split_and!]; congruence.
Qed.
Lemma screen_if {A} (b : bool) (m m' : stx gui exn A) : screen m → screen m' → screen (if b then m else m').
Proof. by destruct b. Qed.
Lemma screen_pair {A B C} (p : A * B) (m : A → B → stx gui exn C) :
  (∀ a b, screen (m a b)) → screen (let '(a, b) := p in m a b).
Proof. destruct p. auto. Qed.
(** A change of the view is followed by a request to redraw. *)
Lemma screen_force {A} (m : stx graphic exn unit) (f : unit → stx gui exn A) :
  (∀ a, screen (f a)) → screen (on_data m ≫= λ _, assign set_force_full_redraw true ≫= f).
Proof.
  intros Hf s a s'. unfold mbind at 1, stx_bind at 1. destruct (on_data m s) as [[[]|e] s1]; [|done].
  unfold mbind at 1, stx_bind at 1. cbn. intros Hrun.
  destruct (Hf tt _ _ _ Hrun) as [?|(_ & _ & E)]; [by left|left]. by rewrite E.
Qed.

Create HintDb screen.
#[local] Hint Resolve screen_bind screen_if screen_pair : screen.
#[local] Hint Extern 0 (screen (on_data _ ≫= _)) => apply screen_force : screen.
#[local] Hint Extern 1 (screen (mret _)) => by apply screen_same : screen.
#[local] Hint Extern 1 (screen (assign _ _)) => by apply screen_same : screen.
#[local] Hint Extern 1 (screen (attribute _)) => by apply screen_same : screen.
#[local] Hint Extern 1 (screen (lift_py _)) => by apply screen_same : screen.
#[local] Hint Extern 1 (screen get_st) => by apply screen_same : screen.
#[local] Hint Extern 1 (screen queue_draw) => by apply screen_same : screen.
#[local] Hint Extern 1 (screen (queue_draw_area _ _ _ _)) => by apply screen_same : screen.
#[local] Hint Extern 1 (screen (read_data _)) => by apply screen_same : screen.

Lemma handler_screen e : (∀ f, e ≠ Save_png f) → e ≠ Expose → screen (handle e).
Proof.
  intros Hp He. destruct e; cbn [handle]; try done; [..|by destruct (Hp filename)];
    unfold set_smaller_zoom, set_bigger_zoom, button_press, button_release, motion_notify, redraw_selection, size_allocate;
    auto 60 with screen.
Qed.

Lemma save_fresh f s a s' : handle (Save_png f) s = (Ok a, s') → fresh s'.
Proof.
  cbn [handle]. unfold output_png, mbind, stx_bind, get_st. destruct (draw_data s) as [[[]|e] s1] eqn:E; [|done].
  apply draw_data_run in E as (buf & H1 & H2 & H3 & H4). intros [= <- <-] _. exists buf. by rewrite <-H2 in H4.
Qed.

Lemma refresh_fresh s s' : fresh s → refresh s = (Ok tt, s') → fresh s' ∧ force_full_redraw s' = false ∧ data s' = data s.
Proof.
  intros Hs. unfold refresh, mbind at 1, stx_bind at 1, get_st. destruct (force_full_redraw s) eqn:Ef.
  - unfold mbind, stx_bind, assign at 1, modify_st. destruct (draw_data _) as [[[]|e] s1] eqn:E; [|done].
    apply draw_data_run in E as (buf & H1 & H2 & H3 & H4). intros [= <-]. split_and!; [|done..].
    intros _. exists buf. split; [done|]. by rewrite <-H2 in H4.
  - by intros [= <-].
Qed.

(** [overlay] changes nothing but [shown], which starts with the buffer, and is the buffer when no
    border is being moved. *)
Definition same_buffer (s s' : gui) : Prop :=
  data s' = data s ∧ buffer_surface s' = buffer_surface s ∧ force_full_redraw s' = force_full_redraw s ∧
  moving_left s' = moving_left s ∧ moving_right s' = moving_right s ∧ moving_both s' = moving_both s.
Lemma overlay_run s b s' :
  overlay s = (Ok b, s') →
  same_buffer s s' ∧ ∃ buf marks, buffer_surface s = Some buf ∧ shown s' = sf_cmds buf ++ marks ∧
    (moving_left s = false → truthy (moving_right s) = false → moving_both s = false → marks = []).
Proof.
  unfold overlay, read_data, attribute, assign, lift_py, modify_st, mbind, stx_bind, get_st, mret, stx_ret.
  destruct (buffer_surface s) as [buf|] eqn:Eb; cbn; [|done].
  destruct (get_selection_rectangle (data s)) as [[[[x y] w] h]|]; cbn; [|done].
  destruct (moving_left s) eqn:E1; [destruct (moving_left_cur s); cbn; [|done]|];
    (destruct (truthy (moving_right s)) eqn:E2; [destruct (moving_right_cur s); cbn; [|done];
      destruct (width s); cbn; [|done]|]);
    (destruct (moving_both s) eqn:E3; [destruct (moving_both_cur s); cbn; [|done];
      destruct (moving_both_start s); cbn; [|done]|]);
    cbn; intros [= <- <-]; (split; [done|]); exists buf; cbn; rewrite <-?app_assoc; eexists; split_and!; try done;
    symmetry; apply app_nil_r.
Qed.
End fresh.

(** The events of a list, one after the other, when no handler fails. *)
Fixpoint run_all `{Rounding, Cairo} (s : gui) (es : list event) : py exn gui :=
  match es with
  | [] => Ok s
  | e :: es => match handle e s with (Ok _, s) => run_all s es | (Raise x, _) => Raise x end
  end.

Lemma handle_fresh `{Rounding, Cairo} e s a s' : fresh s → handle e s = (Ok a, s') → fresh s'.
Proof.
  intros Hs Hrun. destruct e; try (by eapply keeps_screen_fresh; [eapply handler_screen; [..|exact Hrun]|]).
  - cbn [handle] in Hrun. unfold mbind at 1, stx_bind at 1 in Hrun. unfold expose, mbind, stx_bind in Hrun.
    destruct (refresh s) as [[[]|x] s1] eqn:E1; [|done].
    destruct (overlay s1) as [[b|x] s2] eqn:E2; [|done]. injection Hrun as <- <-.
    destruct (refresh_fresh _ _ Hs E1) as (H1 & _). destruct (overlay_run _ _ _ E2) as [(H2 & H3 & H4 & _) _].
    eapply keeps_screen_fresh; [|exact H1]. by right.
  - by eapply save_fresh.
Qed.

(** The screen is up to date: after any sequence of events in which no handler fails, a redraw
    shows a complete drawing of the current state, followed only by the marks of a border that is being moved. *)
Theorem screen_fresh `{Rounding, Cairo, !DictIter string} lines s0 es s :
  main lines = Ok s0 → run_all s0 (es ++ [Expose]) = Ok s →
  ∃ cs marks, ends_with_drawing (data s) cs ∧ shown s = cs ++ marks ∧
    (moving_left s = false → truthy (moving_right s) = false → moving_both s = false → marks = []).
Proof.
  intros Hmain Hrun. assert (fresh s0) as Hfresh.
  { revert Hmain. unfold main.
    destruct (GridData.read_data lines) as [cols ts], (GridData.get_bounds ts) as [lower upper].
    destruct (lookup_colors cols _) as [[range_colors cols']|]; [|done]. cbn [mbind py_bind].
    destruct (set_range _ _ _) as [[[]|e] g]; [|done]. by intros [= <-]. }
  clear Hmain. revert s0 Hfresh Hrun. induction es as [|e es IH]; intros s0 Hfresh Hrun; cbn [app run_all] in Hrun.
  - cbn [handle] in Hrun. unfold expose, mbind, stx_bind in Hrun.
    destruct (refresh s0) as [[[]|x] s1] eqn:E1; [|done].
    destruct (overlay s1) as [[b|x] s2] eqn:E2; [|done]. injection Hrun as <-.
    destruct (refresh_fresh _ _ Hfresh E1) as (H1 & Hf & Hd).
    destruct (overlay_run _ _ _ E2) as [(H2 & H3 & H4 & H5 & H6 & H7) (buf & marks & H8 & H9 & H10)].
    destruct (H1 Hf) as (buf' & E & Hends). simplify_eq. exists (sf_cmds buf), marks. rewrite H2, H5, H6, H7. done.
  - destruct (handle e s0) as [[[]|x] s1] eqn:E; [|done]. eapply IH; [|exact Hrun]. by eapply handle_fresh.
Qed.

Lemma screen_fresh_witness :
  ∃ s0 s cs, main (H := exact) (H0 := monospace) (DictIter0 := dict_iter_alternating) sample_file = Ok s0 ∧
    run_all (H := exact) (H0 := monospace) s0 [Resize (Int 800) (Int 600); Expose; ZoomIn; Expose] = Ok s ∧
    ends_with_drawing (H := exact) (H0 := monospace) (data s) cs ∧ ∃ marks, shown s = cs ++ marks.
Proof.
  destruct (main (H := exact) (H0 := monospace) (DictIter0 := dict_iter_alternating) sample_file) as [s0|e] eqn:E;
    [|vm_compute in E; discriminate].
  destruct (run_all (H := exact) (H0 := monospace) s0 [Resize (Int 800) (Int 600); Expose; ZoomIn;
    Expose]) as [s|e] eqn:Er;
    [|vm_compute in E; injection E as <-; vm_compute in Er; discriminate].
  destruct (screen_fresh (H := exact) (H0 := monospace) (DictIter0 := dict_iter_alternating) sample_file s0
    [Resize (Int 800) (Int 600); Expose; ZoomIn] s E Er) as (cs & marks & H1 & H2 & _).
  exists s0, s, cs. split; [reflexivity|]. split; [exact Er|]. split; [exact H1|]. exists marks. exact H2.
Defined.

(** The image that "Output Png" saves is empty: the drawing went to the buffer of the window. *)
Lemma saved_image_empty `{Rounding, Cairo} f s a s' :
  handle (Save_png f) s = (Ok a, s') → files s' = files s ++ [(f, Surface (g_width (data s)) (g_height (data s)) [])].
Proof.
  cbn [handle]. unfold output_png, mbind, stx_bind, get_st, modify_st.
  destruct (draw_data s) as [[[]|e] s1] eqn:E; [|done].
  intros [= <- <-]. cbn. f_equal. unfold draw_data in E. destruct (buffer_surface s); [|done].
  destruct (graphic_draw _ _) as [r d]. by injection E as _ <-.
Qed.
