(* ===== verification/TestJobs.v ===== *)
(** * TestJobs: the jobs, the worker threads and the result collection of [test.py]

    [run_tests] builds a list of [Job]s (test suites, C++ examples, Python examples), puts
    them on a queue that a pool of [worker_thread]s serves, collects the finished jobs from a
    second queue and derives the summary and the exit status.  The pool is a step relation
    whose interleavings are all the orders in which the threads can run; the rest are
    functions.  Running a shell command and evaluating the conditions of the example lists
    are parameters. *)

From stdpp Require Import base list strings gmap sorting relations.
From Stdlib Require Import Ascii QArith.
From S2P Require Import Prelude.
Open Scope nat_scope.

(** ** Paths: [os.path] *)

Module Path.
Definition ends_slash (p : string) : bool :=
  match last (chars p) with Some c => bool_decide (c = "/"%char) | None => false end.
Definition join (a b : string) : string :=
  if startswith b "/" then b
  else if decide (a = "") then b
  else if ends_slash a then a +:+ b
  else a +:+ "/" +:+ b.
(** What follows the last slash. *)
Definition basename (p : string) : string := default "" (last (split_all "/" p)).

(** [normpath]: drop empty and [.] components, and let [..] cancel the one before it. *)
Fixpoint norm_comps (rooted : bool) (done_ comps : list string) : list string :=
  match comps with
  | [] => reverse done_
  | c :: comps =>
      if decide (c = "" ∨ c = ".") then norm_comps rooted done_ comps
      else if decide (c ≠ "..") then norm_comps rooted (c :: done_) comps
      else match done_ with
           | [] => if rooted then norm_comps rooted [] comps else norm_comps rooted [c] comps
           | d :: rest =>
               if decide (d = "..") then norm_comps rooted (c :: done_) comps
               else norm_comps rooted rest comps
           end
  end.
Definition normpath (p : string) : string :=
  if decide (p = "") then "." else
  let slashes := if startswith p "/" then
                   if startswith p "//" && negb (startswith p "///") then "//" else "/"
                 else "" in
  let r := slashes +:+ Prelude.join "/" (norm_comps (startswith p "/") [] (split_all "/" p)) in
  if decide (r = "") then "." else r.
Definition abspath (getcwd p : string) : string := normpath (join getcwd p).
End Path.

(** ** [fnmatch]: shell patterns *)

Module Fnmatch.
Inductive token :=
| Star
| Any
| OneOf (negated : bool) (stuff : list ascii)
| Lit (c : ascii).

(** The text up to the bracket that closes a set; a closing bracket right at its start (or
    after the exclamation mark) belongs to the set. *)
Fixpoint to_bracket (s : list ascii) : option (list ascii * list ascii) :=
  match s with
  | [] => None
  | c :: s =>
      if decide (c = "]"%char) then Some ([], s)
      else '(a, b) ← to_bracket s; Some (c :: a, b)
  end.
Definition bracket_set (s : list ascii) : option (bool * list ascii * list ascii) :=
  let '(neg, s) := match s with
                   | c :: r => if decide (c = "!"%char) then (true, r) else (false, s)
                   | [] => (false, s)
                   end in
  match s with
  | c :: r =>
      if decide (c = "]"%char) then '(a, b) ← to_bracket r; Some (neg, c :: a, b)
      else '(a, b) ← to_bracket s; Some (neg, a, b)
  | [] => None
  end.

Fixpoint tokens (fuel : nat) (s : list ascii) : list token :=
  match fuel, s with
  | O, _ | _, [] => []
  | S fuel, c :: r =>
      if decide (c = "*"%char) then Star :: tokens fuel r
      else if decide (c = "?"%char) then Any :: tokens fuel r
      else if decide (c = "["%char) then
        match bracket_set r with
        | Some (neg, stuff, rest) => OneOf neg stuff :: tokens fuel rest
        | None => Lit c :: tokens fuel r
        end
      else Lit c :: tokens fuel r
  end.

(** A character of a set: single characters and ranges. *)
Fixpoint in_set (stuff : list ascii) (x : ascii) : bool :=
  match stuff with
  | a :: (b :: c :: rest) as tail =>
      if decide (b = "-"%char) then
        (nat_of_ascii a <=? nat_of_ascii x) && (nat_of_ascii x <=? nat_of_ascii c) || in_set rest x
      else bool_decide (a = x) || in_set tail x
  | a :: tail => bool_decide (a = x) || in_set tail x
  | [] => false
  end.

(** Some way to cut off a part that [Star] matches satisfies [k]. *)
Fixpoint some_suffix (k : list ascii → bool) (s : list ascii) : bool :=
  k s || match s with [] => false | _ :: s => some_suffix k s end.
Fixpoint matches (p : list token) (s : list ascii) : bool :=
  match p with
  | [] => match s with [] => true | _ => false end
  | Star :: p => some_suffix (matches p) s
  | Any :: p => match s with _ :: s => matches p s | [] => false end
  | OneOf neg stuff :: p =>
      match s with x :: s => xorb neg (in_set stuff x) && matches p s | [] => false end
  | Lit c :: p => match s with x :: s => bool_decide (c = x) && matches p s | [] => false end
  end.
Definition filter (names : list string) (pat : string) : list string :=
  base.filter (λ n, matches (tokens (String.length pat) (chars pat)) (chars n) = true) names.
End Fnmatch.

(** ** Data *)

(** The command-line options and the configuration that [run_tests] reads. *)
Record options := Options {
  buildpath : string; constrain : string; duration : bool; example : string;
  update_data : bool; fullness : string; valgrind : bool; multiple : bool;
  pyexample : string; suite : string; verbose : bool; process_limit : Z
}.
Record config := Config {
  NS3_BASEDIR : string; NS3_BUILDDIR : string; APPNAME : string; VERSION : string;
  BUILD_PROFILE : string; PYTHON : string; ENABLE_EXAMPLES : bool; ENABLE_PYTHON_BINDINGS : bool
}.

Record job := Job {
  is_break : bool; is_skip : bool; skip_reason : string;
  is_example : bool; is_pyexample : bool;
  shell_command : string; display_name : string; basedir : string; tempdir : string;
  cwd : string; tmp_file_name : string;
  returncode : Z;        (* the initial False equals 0 *)
  elapsed_time : Q; build_path : string
}.

Definition new_job : job := Job false false "" false false "" "" "" "" "" "" 0 0 "".

Definition set_is_break (b : bool) (j : job) : job :=
  Job b (is_skip j) (skip_reason j) (is_example j) (is_pyexample j) (shell_command j) (display_name j)
    (basedir j) (tempdir j) (cwd j) (tmp_file_name j) (returncode j) (elapsed_time j) (build_path j).
Definition set_skip (reason : string) (j : job) : job :=
  Job (is_break j) true reason (is_example j) (is_pyexample j) (shell_command j) (display_name j)
    (basedir j) (tempdir j) (cwd j) (tmp_file_name j) (returncode j) (elapsed_time j) (build_path j).
Definition set_result (rc : Z) (et : Q) (j : job) : job :=
  Job (is_break j) (is_skip j) (skip_reason j) (is_example j) (is_pyexample j) (shell_command j)
    (display_name j) (basedir j) (tempdir j) (cwd j) (tmp_file_name j) rc et (build_path j).

(** ** Running one job *)

(** The process: return code, standard output and error ([None] when they do not decode),
    elapsed time. *)
Definition shell := string → string → Z * option string * option string * Q.

Definition job_command (c : config) (shell_command : string) (valgrind is_python : bool)
    (build_path : string) : string :=
  let suppressions_path := Path.join (NS3_BASEDIR c) "testpy.supp" in
  let path_cmd :=
    if is_python then PYTHON c +:+ " " +:+ Path.join (NS3_BASEDIR c) shell_command
    else if decide (build_path ≠ "") then Path.join build_path shell_command
    else Path.join (NS3_BUILDDIR c) shell_command in
  if valgrind then
    "valgrind --suppressions=" +:+ suppressions_path +:+
    " --leak-check=full --show-reachable=yes --error-exitcode=2 --errors-for-leak-kinds=all " +:+ path_cmd
  else path_cmd.

Definition run_job_synchronously (sh : shell) (c : config) (shell_command directory : string)
    (valgrind is_python : bool) (build_path : string) : Z * option string * option string * Q :=
  let '(rc, out, err, et) := sh (job_command c shell_command valgrind is_python build_path) directory in
  let rc := match out with Some _ => rc | None => 1%Z end in
  let rc := match err with Some _ => rc | None => 1%Z end in
  (rc, out, err, et).

(** What a worker does with a job that is neither a break nor to be skipped. *)
Definition execute (sh : shell) (c : config) (o : options) (j : job) : job :=
  let '(rc, _, _, et) :=
    if is_example j || is_pyexample j then
      run_job_synchronously sh c (shell_command j) (cwd j) (valgrind o) (is_pyexample j) (build_path j)
    else
      run_job_synchronously sh c
        (shell_command j +:+ " --xml --tempdir=" +:+ tempdir j +:+ " --out=" +:+ tmp_file_name j +:+ " "
         +:+ (if update_data o then "--update-data" else ""))
        (cwd j) (valgrind o) false "" in
  set_result rc et j.

(** ** Building the jobs *)

Definition BUILD_PROFILE_SUFFIX (c : config) : string :=
  if decide (BUILD_PROFILE c = "release") then "" else "-" +:+ BUILD_PROFILE c.
Definition program_name (c : config) (name : string) : string :=
  APPNAME c +:+ VERSION c +:+ "-" +:+ name +:+ BUILD_PROFILE_SUFFIX c.
Definition test_runner_name (c : config) : string := program_name c "test-runner".

(** The suites to consider and whether exactly one was asked for; [list_names] is the
    standard output of the test runner for a command line, or the exception of a second attempt to decode it. *)
Definition select_suites (c : config) (o : options) (list_names : string → py exn string)
    : py exn (list string * bool) :=
  let runner args := Path.join "utils" (test_runner_name c +:+ args) in
  if decide (suite o ≠ "") then
    suites ← list_names (runner " --print-test-name-list");
    let suites_found := Fnmatch.filter (split_all nl_char suites) (suite o) in
    match suites_found with
    | [] => Raise (SystemExit 2)
    | _ => Ok (split_all nl_char (join nl suites_found), bool_decide (length suites_found = 1))
    end
  else if decide (example o = "" ∧ pyexample o = "") then
    if decide (constrain o ≠ "") then
      suites ← list_names (runner (" --print-test-name-list --test-type=" +:+ constrain o));
      Ok (split_all nl_char suites, false)
    else suites ← list_names (runner " --print-test-name-list"); Ok (split_all nl_char suites, false)
  else Ok (split_all nl_char "", false).

(** [suite_list.remove(x)]: the first occurrence. *)
Fixpoint remove_first (x : string) (l : list string) : list string :=
  match l with
  | [] => []
  | y :: l => if decide (y = x) then l else y :: remove_first x l
  end.
Definition remove_performance (performance_test_list suite_list : list string) : list string :=
  foldl (λ sl p, if decide (p ∈ sl) then remove_first p sl else sl) suite_list performance_test_list.

Definition suite_list (c : config) (o : options) (list_names : string → py exn string) : py exn (list string) :=
  '(sl, single_suite) ← select_suites c o list_names;
  if negb single_suite && bool_decide (constrain o ≠ "performance") then
    performance_tests ← list_names (Path.join "utils"
      (test_runner_name c +:+ " --print-test-name-list --test-type=performance"));
    Ok (remove_performance (split_all nl_char performance_tests) sl)
  else Ok sl.

Definition core_valgrind_skip_tests : list string := [
  "routing-click"; "lte-rr-ff-mac-scheduler"; "lte-tdmt-ff-mac-scheduler"; "lte-fdmt-ff-mac-scheduler";
  "lte-pf-ff-mac-scheduler"; "lte-tta-ff-mac-scheduler"; "lte-fdbet-ff-mac-scheduler";
  "lte-ttbet-ff-mac-scheduler"; "lte-fdtbfq-ff-mac-scheduler"; "lte-tdtbfq-ff-mac-scheduler";
  "lte-pss-ff-mac-scheduler"].

Definition upper (s : string) : string :=
  implode ((λ c, let n := nat_of_ascii c in
                 if (97 <=? n) && (n <=? 122) then ascii_of_nat (n - 32) else c) <$> chars s).

Section build.
Context (c : config) (o : options) (getcwd testpy_output_dir : string).
(** [eval] of the conditions of the example lists. *)
Context (eval_cond : string → py exn bool).

Definition suite_job (test : string) : job :=
  let multiple := if multiple o then "" else " --stop-on-failure" in
  let fullness := if decide (fullness o ≠ "") then " --fullness=" +:+ upper (fullness o)
                  else " --fullness=QUICK" in
  let path_cmd := Path.join "utils" (test_runner_name c +:+ " --test-name=" +:+ test +:+ multiple +:+ fullness) in
  let j := Job false false "" false false path_cmd test getcwd testpy_output_dir getcwd
             (Path.join testpy_output_dir (test +:+ ".xml")) 0 0 "" in
  if valgrind o && bool_decide (test ∈ core_valgrind_skip_tests) then set_skip "crashes valgrind" j else j.
Definition suite_jobs (sl : list string) : list job :=
  suite_job <$> filter (λ t, t ≠ "") (strip <$> sl).

(** [test.split(' ', 1)[0]] without its directories. *)
Definition example_base (test : string) : string :=
  Path.basename (match split_once " " test with Some (a, _) => a | None => test end).

(** (name, test, do_run, do_valgrind_run) *)
Definition example_job (ns3_runnable_programs_dictionary : gmap string string)
    (e : string * string * string * string) : py exn (option job) :=
  let '(name, test, do_run, do_valgrind_run) := e in
  if decide (is_Some (ns3_runnable_programs_dictionary !! example_base test)) then
    run ← eval_cond do_run;
    if run : bool then
      let j := Job false false "" true false test name getcwd testpy_output_dir testpy_output_dir ""
                 0 0 (buildpath o) in
      if valgrind o then
        in_valgrind ← eval_cond do_valgrind_run;
        Ok (Some (if in_valgrind : bool then j else set_skip "skip in valgrind runs" j))
      else Ok (Some j)
    else Ok None
  else Ok None.
Definition single_example_job (path : string) : job :=
  let example_path := Path.abspath getcwd path in
  Job false false "" true false example_path example_path getcwd testpy_output_dir testpy_output_dir ""
    0 0 (buildpath o).
Definition example_jobs `{!DictIter string} (dict : gmap string string)
    (example_tests : list (string * string * string * string)) : py exn (list job) :=
  if decide (suite o = "" ∧ example o = "" ∧ pyexample o = "") then
    if decide (constrain o = "" ∨ constrain o = "example") then
      if ENABLE_EXAMPLES c then py_omap (example_job dict) example_tests else Ok []
    else Ok []
  else if decide (example o ≠ "") then
    Ok (omap (λ key, single_example_job <$> dict !! key)
      (Fnmatch.filter (dict_keys 0 dict) (program_name c (example o))))
  else Ok [].

(** (test, do_run) *)
Definition pyexample_job (ns3_runnable_scripts : list string) (e : string * string) : py exn (option job) :=
  let '(test, do_run) := e in
  if decide (example_base test ∈ ns3_runnable_scripts) then
    run ← eval_cond do_run;
    if run : bool then
      let j := Job false false "" false true test test getcwd testpy_output_dir testpy_output_dir "" 0 0 "" in
      let j := if valgrind o then set_skip "skip in valgrind runs" j else j in
      Ok (Some (if ENABLE_PYTHON_BINDINGS c then j else set_skip "requires Python bindings" j))
    else Ok None
  else Ok None.
Definition pyexample_jobs (scripts : list string) (python_tests : list (string * string)) : py exn (list job) :=
  if decide (suite o = "" ∧ example o = "" ∧ pyexample o = "") then
    if decide (constrain o = "" ∨ constrain o = "pyexample") then
      if ENABLE_EXAMPLES c then py_omap (pyexample_job scripts) python_tests else Ok []
    else Ok []
  else if decide (pyexample o ≠ "") then
    if decide (Path.basename (pyexample o) ∈ scripts) then
      Ok [Job false false "" false true (pyexample o) (pyexample o) getcwd testpy_output_dir
            testpy_output_dir "" 0 0 ""]
    else Ok []
  else Ok [].
End build.

(** The number of worker threads: [range(processors)] of a negative number is empty. *)
Definition processors (o : options) (available : Z) : Z :=
  if decide (process_limit o = 0)%Z then available
  else if (available <? process_limit o)%Z then available else process_limit o.

(** ** Collecting the results *)

Definition escape_char : ascii := "027"%char.
Definition colors_lst : gmap string string := String escape_char <$> {[
  "BOLD" := "[01;1m"; "RED" := "[01;31m"; "GREEN" := "[32m"; "YELLOW" := "[33m"; "PINK" := "[35m";
  "BLUE" := "[01;34m"; "CYAN" := "[36m"; "GREY" := "[37m"; "NORMAL" := "[0m";
  "cursor_on" := "[?25h"; "cursor_off" := "[?25l" ]}.
Definition get_color (use : bool) (cl : string) : string :=
  if use then default "" (colors_lst !! cl) else "".

Inductive status := PASS | FAIL | VALGR | SKIP | CRASH.
#[global] Instance status_eq_dec : EqDecision status.
Proof. solve_decision. Defined.
Definition status_name (s : status) : string :=
  match s with PASS => "PASS" | FAIL => "FAIL" | VALGR => "VALGR" | SKIP => "SKIP" | CRASH => "CRASH" end.
Definition status_color (s : status) : string :=
  match s with PASS => "GREEN" | FAIL => "RED" | VALGR => "CYAN" | SKIP => "GREY" | CRASH => "PINK" end.
Definition job_status (j : job) : status :=
  if is_skip j then SKIP
  else if (returncode j =? 0)%Z then PASS
  else if (returncode j =? 1)%Z then FAIL
  else if (returncode j =? 2)%Z then VALGR
  else CRASH.

(** The counters and lists of the loop, the lines printed and the results file. *)
Record summary := Summary {
  passed_tests : nat; failed_tests : nat; crashed_tests : nat; valgrind_errors : nat; skipped_tests : nat;
  failed_testnames : list string; crashed_testnames : list string; valgrind_testnames : list string;
  skipped_testnames : list string;
  printed : list string; xml : list string
}.

Definition count_job (s : summary) (j : job) : summary :=
  let name := display_name j in
  match job_status j with
  | SKIP => Summary (passed_tests s) (failed_tests s) (crashed_tests s) (valgrind_errors s) (S (skipped_tests s))
              (failed_testnames s) (crashed_testnames s) (valgrind_testnames s)
              (skipped_testnames s ++ [name +:+ " (" +:+ skip_reason j +:+ ")"]) (printed s) (xml s)
  | PASS => Summary (S (passed_tests s)) (failed_tests s) (crashed_tests s) (valgrind_errors s) (skipped_tests s)
              (failed_testnames s) (crashed_testnames s) (valgrind_testnames s) (skipped_testnames s)
              (printed s) (xml s)
  | FAIL => Summary (passed_tests s) (S (failed_tests s)) (crashed_tests s) (valgrind_errors s) (skipped_tests s)
              (failed_testnames s ++ [name]) (crashed_testnames s) (valgrind_testnames s)
              (skipped_testnames s) (printed s) (xml s)
  | VALGR => Summary (passed_tests s) (failed_tests s) (crashed_tests s) (S (valgrind_errors s)) (skipped_tests s)
              (failed_testnames s) (crashed_testnames s) (valgrind_testnames s ++ [name])
              (skipped_testnames s) (printed s) (xml s)
  | CRASH => Summary (passed_tests s) (failed_tests s) (S (crashed_tests s)) (valgrind_errors s) (skipped_tests s)
              (failed_testnames s) (crashed_testnames s ++ [name]) (valgrind_testnames s)
              (skipped_testnames s) (printed s) (xml s)
  end.

Section collect.
(** [fmt3] is the format [%.3f]; [tmp_files] are the result files the suites have written. *)
Context (o : options) (use_color : bool) (fmt3 : Q → string) (tmp_files : gmap string string).
Context (total_tests : nat).

Definition progress_line (s : summary) (j : job) : string :=
  let st := job_status j in
  let status_print := get_color use_color (status_color st) +:+ status_name st +:+ get_color use_color "NORMAL" in
  let kind := if is_example j || is_pyexample j then "Example" else "TestSuite" in
  let done_ := passed_tests s + failed_tests s + skipped_tests s + crashed_tests s in
  "[" +:+ str_of_N (N.of_nat done_) +:+ "/" +:+ str_of_N (N.of_nat total_tests) +:+ "] " +:+
  (if duration o || bool_decide (constrain o = "performance")
   then status_print +:+ " (" +:+ fmt3 (elapsed_time j) +:+ "): " +:+ kind +:+ " " +:+ display_name j
   else status_print +:+ ": " +:+ kind +:+ " " +:+ display_name j) +:+ nl.

(** What is appended to the results file for a job. *)
Definition job_xml (j : job) : py exn (list string) :=
  let name_line := "  <Name>" +:+ display_name j +:+ "</Name>" +:+ nl in
  if is_example j || is_pyexample j then
    Ok ["<Example>" +:+ nl; name_line; "  <Result>" +:+ status_name (job_status j) +:+ "</Result>" +:+ nl;
        esc "  <Time real=\q" +:+ fmt3 (elapsed_time j) +:+ esc "\q/>\n"; "</Example>" +:+ nl]
  else if is_skip j then
    Ok ["<Test>" +:+ nl; name_line; "  <Result>SKIP</Result>" +:+ nl;
        "  <Reason>" +:+ skip_reason j +:+ "</Reason>" +:+ nl; "</Test>" +:+ nl]
  else if ((returncode j =? 0) || (returncode j =? 1) || (returncode j =? 2))%Z then
    text ← or_raise OSError (tmp_files !! tmp_file_name j); Ok [text]
  else Ok ["<Test>" +:+ nl; name_line; "  <Result>CRASH</Result>" +:+ nl; "</Test>" +:+ nl].

(** The body of [for i in range(jobs)]. *)
Definition collect (s : summary) (j : job) : py exn summary :=
  if is_break j then Ok s else
  let s := count_job s j in
  x ← job_xml j;
  Ok (Summary (passed_tests s) (failed_tests s) (crashed_tests s) (valgrind_errors s) (skipped_tests s)
        (failed_testnames s) (crashed_testnames s) (valgrind_testnames s) (skipped_testnames s)
        (printed s ++ [progress_line s j]) (xml s ++ x)).
End collect.

Definition no_results : summary :=
  Summary 0 0 0 0 0 [] [] [] [] [] [esc "<?xml version=\q1.0\q?>\n"; "<Results>" +:+ nl].

Definition sort_names (l : list string) : list string := stable_sort String.leb l.

(** The summary that is printed at the end. *)
Definition name_list (title : string) (names : list string) : list string :=
  match names with
  | [] => []
  | _ => ["List of " +:+ title +:+ nl +:+ "    " +:+ join (nl +:+ "    ") (sort_names names) +:+ nl]
  end.
Definition final_lines (total_tests : nat) (s : summary) : list string :=
  let n k := str_of_N (N.of_nat k) in
  (n (passed_tests s) +:+ " of " +:+ n total_tests +:+ " tests passed (" +:+ n (passed_tests s) +:+ " passed, " +:+
   n (skipped_tests s) +:+ " skipped, " +:+ n (failed_tests s) +:+ " failed, " +:+ n (crashed_tests s) +:+
   " crashed, " +:+ n (valgrind_errors s) +:+ " valgrind errors)" +:+ nl)
  :: name_list "SKIPped tests:" (skipped_testnames s) ++ name_list "FAILed tests:" (failed_testnames s)
  ++ name_list "CRASHed tests:" (crashed_testnames s) ++ name_list "VALGR failures:" (valgrind_testnames s).
Definition exit_status (total_tests : nat) (s : summary) : Z :=
  if decide (passed_tests s + skipped_tests s = total_tests) then 0 else 1.

(** ** The worker pool *)

(** A worker waits for a job, has taken one, runs one, or has returned. *)
Inductive worker := Waiting | Got (j : job) | Running (j : job) | Exited.

(** The main thread has still to put the jobs [to_put] and to collect [to_get] results, the
    last of which it puts in [results]; [thread_exit] is set by the interrupt handler. *)
Record pool := Pool {
  to_put : list job; to_get : nat; results : list job;
  input_queue : list job; output_queue : list job;
  workers : list worker; thread_exit : bool
}.

Definition break_job : job := set_is_break true new_job.
Definition start_pool (jobs : list job) (nproc : Z) : pool :=
  Pool (jobs ++ replicate (Z.to_nat nproc) break_job) (length jobs) [] [] []
    (replicate (Z.to_nat nproc) Waiting) false.

Section pool.
Context (exec : job → job).

(** One step of one thread. *)
Inductive step : pool → pool → Prop :=
| step_put j ps g r i o ws x :
    step (Pool (j :: ps) g r i o ws x) (Pool ps g r (i ++ [j]) o ws x)
| step_collect g r i j o ws x :
    step (Pool [] (S g) r i (j :: o) ws x) (Pool [] g (r ++ [j]) i o ws x)
| step_take k j ps g r i o ws x :
    ws !! k = Some Waiting →
    step (Pool ps g r (j :: i) o ws x) (Pool ps g r i o (<[k := Got j]> ws) x)
| step_exit k j ps g r i o ws x :
    ws !! k = Some (Got j) → is_break j = true →
    step (Pool ps g r i o ws x) (Pool ps g r i o (<[k := Exited]> ws) x)
| step_abandon k j ps g r i o ws :
    ws !! k = Some (Got j) → is_break j = false →
    step (Pool ps g r i o ws true)
         (Pool ps g r i (o ++ [set_is_break true j]) (<[k := Waiting]> ws) true)
| step_skip k j ps g r i o ws :
    ws !! k = Some (Got j) → is_break j = false → is_skip j = true →
    step (Pool ps g r i o ws false) (Pool ps g r i (o ++ [j]) (<[k := Waiting]> ws) false)
| step_launch k j ps g r i o ws :
    ws !! k = Some (Got j) → is_break j = false → is_skip j = false →
    step (Pool ps g r i o ws false) (Pool ps g r i o (<[k := Running j]> ws) false)
| step_finish k j ps g r i o ws x :
    ws !! k = Some (Running j) →
    step (Pool ps g r i o ws x) (Pool ps g r i (o ++ [exec j]) (<[k := Waiting]> ws) x)
| step_sigint ps g r i o ws :
    step (Pool ps g r i o ws false) (Pool ps g r i o ws true).

(** The main thread has collected everything and all threads have been joined. *)
Definition finished (p : pool) : Prop :=
  to_put p = [] ∧ to_get p = 0 ∧ Forall (eq Exited) (workers p).
End pool.

(** ** Every run of the pool ends *)

(** What is still to be done, by the place where a job is. *)
Definition worker_weight (w : worker) : nat :=
  match w with Waiting => 0 | Got _ => 4 | Running _ => 3 | Exited => 0 end.
Definition pool_weight (p : pool) : nat :=
  6 * length (to_put p) + 5 * length (input_queue p) + sum_list_with worker_weight (workers p)
  + length (output_queue p) + (if thread_exit p then 0 else 1).

Lemma sum_insert {A} (f : A → nat) (l : list A) k x y :
  l !! k = Some x → sum_list_with f (<[k := y]> l) + f x = sum_list_with f l + f y.
Proof.
  revert k; induction l as [|z l IH]; intros [|k] Hk; try done.
  - injection Hk as ->. cbn. lia.
  - specialize (IH k Hk). change (<[S k := y]> (z :: l)) with (z :: <[k := y]> l).
    cbn [sum_list_with]. lia.
Qed.

Lemma step_weight exec p p' : step exec p p' → pool_weight p' < pool_weight p.
Proof.
  destruct 1 as [| |k j ps g r i o ws x Hk|k j ps g r i o ws x Hk|k j ps g r i o ws Hk|k j ps g r i o ws Hk
    |k j ps g r i o ws Hk|k j ps g r i o ws x Hk|]; unfold pool_weight; cbn -[Nat.mul].
  all: rewrite ?length_app; cbn [length].
  all: try match goal with
    | Hk : ?ws !! ?k = Some _ |- context [<[?k := ?y]> ?ws] =>
        pose proof (sum_insert worker_weight ws k _ y Hk) as Hsum; cbn [worker_weight] in Hsum
    end.
  all: lia.
Qed.

Lemma run_bounded exec n p p' : nsteps (step exec) n p p' → n + pool_weight p' ≤ pool_weight p.
Proof.
  induction 1 as [p|n p1 p2 p3 Hs _ IH]; [lia|]. apply step_weight in Hs. lia.
Qed.

(** ** What the pool keeps true *)

(** The jobs that workers have taken, and those they run. *)
Definition got (w : worker) : list job := match w with Got j => [j] | _ => [] end.
Definition running (w : worker) : list job := match w with Running j => [j] | _ => [] end.

Definition nonbreaks (l : list job) : list job := filter (λ j, is_break j = false) l.
Definition breaks (l : list job) : list job := filter (λ j, is_break j = true) l.
Definition exited (w : worker) : nat := match w with Exited => 1 | _ => 0 end.

(** What the main thread gets back for a job. *)
Definition result (exec : job → job) (j : job) : job := if is_skip j then j else exec j.
Definition outcome (exec : job → job) (x : bool) (j j' : job) : Prop :=
  j' = result exec j ∨ x = true ∧ j' = set_is_break true j.

Section invariant.
Context (exec : job → job) (jobs : list job) (n : nat).

Record pool_ok (p : pool) : Prop := {
  ok_order : ∃ js b, input_queue p ++ to_put p = js ++ replicate b break_job ∧
    Forall (λ j, is_break j = false) js ∧
    (0 < length (breaks (workers p ≫= got)) + sum_list_with exited (workers p) → js = []);
  ok_breaks : length (breaks (input_queue p ++ to_put p)) + length (breaks (workers p ≫= got))
    + sum_list_with exited (workers p) = n;
  ok_workers : length (workers p) = n;
  ok_jobs : ∃ done_, jobs ≡ₚ nonbreaks (input_queue p ++ to_put p) ++ nonbreaks (workers p ≫= got)
      ++ (workers p ≫= running) ++ done_ ∧
    Forall2 (outcome exec (thread_exit p)) done_ (results p ++ output_queue p);
  ok_running : Forall (λ j, is_break j = false ∧ is_skip j = false) (workers p ≫= running);
  ok_get : to_get p + length (results p) = length jobs
}.
End invariant.

(** Replacing one worker, seen through the jobs it holds. *)
Lemma bind_insert {A} (f : worker → list A) ws k w w' :
  ws !! k = Some w → (ws ≫= f) ++ f w' ≡ₚ (<[k := w']> ws ≫= f) ++ f w.
Proof.
  intros Hk. rewrite <-(take_drop_middle ws k w) at 1 by done.
  rewrite insert_take_drop by (by eapply lookup_lt_Some).
  rewrite !bind_app, !bind_cons. rewrite <-!app_assoc.
  f_equiv. rewrite (Permutation_app_comm (drop (S k) ws ≫= f) (f w')).
  rewrite (Permutation_app_comm (drop (S k) ws ≫= f) (f w)). rewrite !app_assoc.
  by rewrite (Permutation_app_comm (f w) (f w')).
Qed.

Lemma breaks_nil j : breaks [j] = if is_break j then [j] else [].
Proof. unfold breaks. rewrite filter_cons, filter_nil. by destruct (is_break j). Qed.
Lemma nonbreaks_one j : nonbreaks [j] = if is_break j then [] else [j].
Proof. unfold nonbreaks. rewrite filter_cons, filter_nil. by destruct (is_break j). Qed.

#[global] Instance breaks_proper : Proper ((≡ₚ) ==> (≡ₚ)) breaks.
Proof. intros l l' Hl. unfold breaks. by rewrite Hl. Qed.
#[global] Instance nonbreaks_proper : Proper ((≡ₚ) ==> (≡ₚ)) nonbreaks.
Proof. intros l l' Hl. unfold nonbreaks. by rewrite Hl. Qed.

Lemma nonbreaks_app l l' : nonbreaks (l ++ l') = nonbreaks l ++ nonbreaks l'.
Proof. apply filter_app. Qed.
Lemma breaks_app l l' : breaks (l ++ l') = breaks l ++ breaks l'.
Proof. apply filter_app. Qed.

Section replace_worker.
Context {A : Type} (f : worker → list A) (ws : list worker) (k : nat) (w w' : worker).
Context (Hk : ws !! k = Some w).

Lemma bind_gain x : f w = [] → f w' = [x] → <[k := w']> ws ≫= f ≡ₚ x :: (ws ≫= f).
Proof.
  intros H1 H2. pose proof (bind_insert f ws k w w' Hk) as Hp. rewrite H1, H2, app_nil_r in Hp.
  by rewrite <-Hp, <-Permutation_cons_append.
Qed.
Lemma bind_lose x : f w = [x] → f w' = [] → ws ≫= f ≡ₚ x :: (<[k := w']> ws ≫= f).
Proof.
  intros H1 H2. pose proof (bind_insert f ws k w w' Hk) as Hp. rewrite H1, H2, app_nil_r in Hp.
  by rewrite Hp, <-Permutation_cons_append.
Qed.
Lemma bind_keep : f w = [] → f w' = [] → <[k := w']> ws ≫= f ≡ₚ ws ≫= f.
Proof.
  intros H1 H2. pose proof (bind_insert f ws k w w' Hk) as Hp. rewrite H1, H2, !app_nil_r in Hp. done.
Qed.
End replace_worker.

Lemma nonbreaks_cons j l : nonbreaks (j :: l) = if is_break j then nonbreaks l else j :: nonbreaks l.
Proof. unfold nonbreaks. rewrite filter_cons. by destruct (is_break j). Qed.
Lemma breaks_cons j l : breaks (j :: l) = if is_break j then j :: breaks l else breaks l.
Proof. unfold breaks. rewrite filter_cons. by destruct (is_break j). Qed.

Section preservation.
Context (exec : job → job) (jobs : list job) (n : nat).

Lemma ok_put j ps g r i o ws x :
  pool_ok exec jobs n (Pool (j :: ps) g r i o ws x) → pool_ok exec jobs n (Pool ps g r (i ++ [j]) o ws x).
Proof.
  intros [H1 H2 H3 H4 H5 H6]; split; cbn in *; rewrite <-?app_assoc; done.
Qed.

Lemma ok_collect g r i j o ws x :
  pool_ok exec jobs n (Pool [] (S g) r i (j :: o) ws x) → pool_ok exec jobs n (Pool [] g (r ++ [j]) i o ws x).
Proof.
  intros [H1 H2 H3 H4 H5 H6]; split; cbn in *; rewrite <-?app_assoc; try done.
  rewrite length_app. cbn. lia.
Qed.

Lemma ok_take k j ps g r i o ws x :
  ws !! k = Some Waiting → pool_ok exec jobs n (Pool ps g r (j :: i) o ws x) →
  pool_ok exec jobs n (Pool ps g r i o (<[k := Got j]> ws) x).
Proof.
  intros Hk [(js & b & Hq & Hjs & Hex) H2 H3 (done_ & Hj & Hd) H5 H6].
  cbn [input_queue to_put workers results output_queue thread_exit to_get] in *.
  pose proof (bind_gain got ws k _ (Got j) Hk j eq_refl eq_refl) as Hg.
  pose proof (bind_keep running ws k _ (Got j) Hk eq_refl eq_refl) as Hr.
  pose proof (sum_insert exited ws k _ (Got j) Hk) as He. cbn [exited] in He.
  pose proof (Permutation_length (breaks_proper _ _ Hg)) as Hb. rewrite breaks_cons in Hb.
  rewrite <-app_comm_cons, breaks_cons in H2.
  split; cbn [input_queue to_put workers results output_queue thread_exit to_get].
  - destruct js as [|j' js].
    + destruct b as [|b]; [done|]. injection Hq as -> Hq. exists [], b. by split_and!.
    + injection Hq as <- Hq. apply Forall_cons in Hjs as [Hj' Hjs]. rewrite Hj' in Hb.
      exists js, b. split_and!; [done..|]. rewrite Hb. intros Hpos.
      discriminate Hex. lia.
  - destruct (is_break j); cbn in *; lia.
  - by rewrite length_insert.
  - exists done_. split; [|done]. rewrite Hj, Hg, Hr, <-app_comm_cons, !nonbreaks_cons.
    destruct (is_break j); [done|]. rewrite <-!app_comm_cons. by rewrite <-Permutation_middle.
  - by rewrite Hr.
  - done.
Qed.

(** A worker lets go of the job it has taken. *)
Lemma ok_release k j w' ps g r i o o' ws x :
  ws !! k = Some (Got j) → got w' = [] →
  pool_ok exec jobs n (Pool ps g r i o ws x) →
  (is_break j = true → w' = Exited ∧ o' = o) →
  (is_break j = false →
    (∃ j', w' = Waiting ∧ o' = o ++ [j'] ∧ outcome exec x j j') ∨
    (w' = Running j ∧ o' = o ∧ is_skip j = false)) →
  pool_ok exec jobs n (Pool ps g r i o' (<[k := w']> ws) x).
Proof.
  intros Hk Hw' [(js & b & Hq & Hjs & Hex) H2 H3 (done_ & Hj & Hd) H5 H6] Hbr Hnb.
  cbn [input_queue to_put workers results output_queue thread_exit to_get] in *.
  pose proof (bind_lose got ws k _ w' Hk j eq_refl Hw') as Hg.
  pose proof (sum_insert exited ws k _ w' Hk) as He. cbn [exited] in He.
  pose proof (Permutation_length (breaks_proper _ _ Hg)) as Hb. rewrite breaks_cons in Hb.
  assert (is_break j = true ∧ w' = Exited ∧ o' = o ∨ is_break j = false ∧ w' ≠ Exited) as Hcase.
  { destruct (is_break j); [naive_solver|]. right. split; [done|].
    destruct (Hnb eq_refl) as [(? & -> & _)|(-> & _)]; done. }
  split; cbn [input_queue to_put workers results output_queue thread_exit to_get].
  - exists js, b. split_and!; [done..|]. intros Hpos. apply Hex.
    destruct Hcase as [(Hj1 & -> & _)|[Hj1 Hne]]; rewrite Hj1 in Hb; cbn in *; [lia|].
    assert (exited w' = 0) by (by destruct w'). lia.
  - destruct Hcase as [(Hj1 & -> & _)|[Hj1 Hne]]; rewrite Hj1 in Hb; cbn in *; [lia|].
    assert (exited w' = 0) by (by destruct w'). lia.
  - by rewrite length_insert.
  - destruct Hcase as [(Hj1 & -> & ->)|[Hj1 Hne]].
    + pose proof (bind_keep running ws k _ Exited Hk eq_refl eq_refl) as Hr.
      exists done_. split; [|done]. by rewrite Hj, Hg, Hr, nonbreaks_cons, Hj1.
    + destruct (Hnb Hj1) as [(j' & -> & -> & Hout)|(-> & -> & Hsk)].
      * pose proof (bind_keep running ws k _ Waiting Hk eq_refl eq_refl) as Hr.
        exists (done_ ++ [j]). split.
        -- rewrite Hj, Hg, Hr, nonbreaks_cons, Hj1, <-app_comm_cons, <-Permutation_middle.
           rewrite !app_assoc, <-Permutation_cons_append. by rewrite <-!app_assoc.
        -- rewrite app_assoc. apply Forall2_app; [done|]. by constructor.
      * pose proof (bind_gain running ws k _ (Running j) Hk j eq_refl eq_refl) as Hr.
        exists done_. split; [|done].
        rewrite Hj, Hg, Hr, nonbreaks_cons, Hj1, <-!app_comm_cons. by rewrite <-!Permutation_middle.
  - destruct Hcase as [(Hj1 & -> & _)|[Hj1 Hne]].
    + by rewrite (bind_keep running ws k _ Exited Hk eq_refl eq_refl).
    + destruct (Hnb Hj1) as [(j' & -> & _)|(-> & _ & Hsk)].
      * by rewrite (bind_keep running ws k _ Waiting Hk eq_refl eq_refl).
      * rewrite (bind_gain running ws k _ (Running j) Hk j eq_refl eq_refl). by constructor.
  - done.
Qed.

Lemma ok_finish k j ps g r i o ws x :
  ws !! k = Some (Running j) → pool_ok exec jobs n (Pool ps g r i o ws x) →
  pool_ok exec jobs n (Pool ps g r i (o ++ [exec j]) (<[k := Waiting]> ws) x).
Proof.
  intros Hk [(js & b & Hq & Hjs & Hex) H2 H3 (done_ & Hj & Hd) H5 H6].
  cbn [input_queue to_put workers results output_queue thread_exit to_get] in *.
  pose proof (bind_keep got ws k _ Waiting Hk eq_refl eq_refl) as Hg.
  pose proof (bind_lose running ws k _ Waiting Hk j eq_refl eq_refl) as Hr.
  pose proof (sum_insert exited ws k _ Waiting Hk) as He. cbn [exited] in He.
  pose proof (Permutation_length (breaks_proper _ _ Hg)) as Hb.
  rewrite Hr in H5. apply Forall_cons in H5 as [[Hjb Hjs'] H5].
  split; cbn [input_queue to_put workers results output_queue thread_exit to_get]; [| | | |done|done].
  - exists js, b. split_and!; [done..|]. intros Hpos. apply Hex. lia.
  - lia.
  - by rewrite length_insert.
  - exists (done_ ++ [j]). split.
    + rewrite Hj, Hg, Hr, <-app_comm_cons, <-!Permutation_middle. by rewrite app_nil_r.
    + rewrite app_assoc. apply Forall2_app; [done|]. constructor; [|done]. left.
      unfold result. by rewrite Hjs'.
Qed.

Lemma ok_sigint ps g r i o ws :
  pool_ok exec jobs n (Pool ps g r i o ws false) → pool_ok exec jobs n (Pool ps g r i o ws true).
Proof.
  intros [H1 H2 H3 (done_ & Hj & Hd) H5 H6]; split; cbn in *; try done. exists done_.
  split; [done|]. eapply Forall2_impl; [done|]. intros j j' [?|[? _]]; [by left|done].
Qed.

Lemma pool_ok_step p p' : step exec p p' → pool_ok exec jobs n p → pool_ok exec jobs n p'.
Proof.
  destruct 1 as [| |k j ps g r i o ws x Hk|k j ps g r i o ws x Hk Hb|k j ps g r i o ws Hk Hb
    |k j ps g r i o ws Hk Hb Hs|k j ps g r i o ws Hk Hb Hs|k j ps g r i o ws x Hk|]; intros Hok.
  - by apply ok_put.
  - by apply ok_collect.
  - by eapply ok_take.
  - eapply ok_release; [exact Hk|done|exact Hok|done|congruence].
  - eapply ok_release; [exact Hk|done|exact Hok|congruence|]. intros _. left.
    eexists. split_and!; [done..|]. by right.
  - eapply ok_release; [exact Hk|done|exact Hok|congruence|]. intros _. left.
    eexists. split_and!; [done..|]. left. unfold result. by rewrite Hs.
  - eapply ok_release; [exact Hk|done|exact Hok|congruence|]. intros _. by right.
  - by apply ok_finish.
  - by apply ok_sigint.
Qed.
End preservation.

Lemma breaks_replicate b : breaks (replicate b break_job) = replicate b break_job.
Proof. induction b as [|b IH]; [done|]. cbn [replicate]. rewrite breaks_cons. cbn. by rewrite IH. Qed.
Lemma nonbreaks_replicate b : nonbreaks (replicate b break_job) = [].
Proof. induction b as [|b IH]; [done|]. cbn [replicate]. by rewrite nonbreaks_cons. Qed.
Lemma nonbreaks_all l : Forall (λ j, is_break j = false) l → nonbreaks l = l ∧ breaks l = [].
Proof.
  induction 1 as [|j l Hj _ [IH1 IH2]]; [done|]. rewrite nonbreaks_cons, breaks_cons, Hj. by rewrite IH1, IH2.
Qed.
Lemma bind_replicate {A} (f : worker → list A) b w : f w = [] → replicate b w ≫= f = [].
Proof. intros Hw. induction b as [|b IH]; [done|]. cbn [replicate]. by rewrite bind_cons, Hw, IH. Qed.

Lemma pool_ok_start exec jobs nproc :
  Forall (λ j, is_break j = false) jobs → pool_ok exec jobs (Z.to_nat nproc) (start_pool jobs nproc).
Proof.
  intros Hj. destruct (nonbreaks_all jobs Hj) as [Hn Hb]. unfold start_pool.
  assert (sum_list_with exited (replicate (Z.to_nat nproc) Waiting) = 0) as He.
  { induction (Z.to_nat nproc) as [|m IH]; [done|]. cbn. exact IH. }
  split; cbn [input_queue to_put workers results output_queue thread_exit to_get app].
  - exists jobs, (Z.to_nat nproc). split_and!; [done..|]. rewrite He, bind_replicate by done. cbn. lia.
  - rewrite He, (bind_replicate got) by done. rewrite breaks_app, Hb, breaks_replicate, length_app, length_replicate.
    cbn. lia.
  - apply length_replicate.
  - exists []. split; [|constructor]. rewrite !bind_replicate by done.
    by rewrite nonbreaks_app, Hn, nonbreaks_replicate, !app_nil_r.
  - by rewrite bind_replicate.
  - cbn. lia.
Qed.

Lemma pool_ok_reachable exec jobs nproc p :
  Forall (λ j, is_break j = false) jobs → rtc (step exec) (start_pool jobs nproc) p →
  pool_ok exec jobs (Z.to_nat nproc) p.
Proof.
  intros Hj Hrtc. pose proof (pool_ok_start exec jobs nproc Hj) as Hok. revert Hok.
  induction Hrtc as [|p1 p2 p3 Hs _ IH]; [done|]. intros Hok. apply IH. by eapply pool_ok_step.
Qed.

(** *** No deadlock *)

Definition busy (w : worker) : bool := match w with Got _ | Running _ => true | _ => false end.
Definition waiting (w : worker) : bool := match w with Waiting => true | _ => false end.

Lemma exited_all ws : Forall (λ w, busy w = false) ws → sum_list_with exited ws = length ws →
  Forall (eq Exited) ws.
Proof.
  intros Hb. assert (∀ l, sum_list_with exited l ≤ length l) as Hle.
  { induction l as [|w l IH]; cbn; [lia|]. destruct w; cbn; lia. }
  induction Hb as [|w ws Hw _ IH]; cbn; [constructor|]. intros Hs. pose proof (Hle ws).
  destruct w; cbn in *; try done; [lia|]. constructor; [done|]. apply IH. lia.
Qed.

Lemma not_busy ws : Forall (λ w, busy w = false) ws → ws ≫= got = [] ∧ ws ≫= running = [].
Proof.
  induction 1 as [|w ws Hw _ [IH1 IH2]]; [done|]. rewrite !bind_cons, IH1, IH2. by destruct w.
Qed.

Lemma busy_step exec p k w :
  workers p !! k = Some w → busy w = true → ∃ p', step exec p p' ∧ thread_exit p' = thread_exit p.
Proof.
  destruct p as [ps g r i o ws x]; cbn. intros Hk Hw. destruct w as [|j|j|]; try done.
  - destruct (is_break j) eqn:Eb; [by eexists; split; [by eapply step_exit|]|].
    destruct x; [by eexists; split; [by eapply step_abandon|]|].
    destruct (is_skip j) eqn:Es; [by eexists; split; [by eapply step_skip|]|].
    by eexists; split; [by eapply step_launch|].
  - by eexists; split; [by eapply step_finish|].
Qed.

(** With at least one worker, some thread can go on until everything is finished. *)
Lemma pool_progress exec jobs n p :
  0 < n → pool_ok exec jobs n p →
  (∃ p', step exec p p' ∧ thread_exit p' = thread_exit p) ∨ finished p.
Proof.
  intros Hn [(js & b & Hq & Hjs & Hex) H2 H3 (done_ & Hj & Hd) H5 H6].
  destruct (decide (Exists (λ w, busy w = true) (workers p))) as [Hb|Hb].
  { apply Exists_exists in Hb as (w & [k Hk]%list_elem_of_lookup_1 & Hw). left. by eapply busy_step. }
  assert (Forall (λ w, busy w = false) (workers p)) as Hnb.
  { apply Forall_forall. intros w Hw. destruct (busy w) eqn:E; [|done]. destruct Hb.
    apply Exists_exists. by exists w. }
  destruct (not_busy _ Hnb) as [Hg Hr]. rewrite Hg, Hr in *. destruct p as [ps g r i o ws x].
  cbn [input_queue to_put workers results output_queue thread_exit to_get] in *.
  destruct ps as [|j ps]; [|left; eexists; split; [apply step_put|done]]. rewrite app_nil_r in *.
  destruct (decide (Exists (λ w, waiting w = true) ws)) as [Hw|Hw].
  - apply Exists_exists in Hw as (w & [k Hk]%list_elem_of_lookup_1 & Hw). destruct w; try done.
    destruct i as [|j i]; [|left; eexists; split; [by eapply step_take|done]]. cbn in H2.
    pose proof (exited_all ws Hnb ltac:(lia)) as Hall.
    by pose proof (Forall_lookup_1 _ _ _ _ Hall Hk).
  - assert (Forall (eq Exited) ws) as Hall.
    { apply Forall_forall. intros w Hin. destruct w; try done.
      - destruct Hw. apply Exists_exists. by exists Waiting.
      - by apply (proj1 (Forall_forall _ _) Hnb) in Hin.
      - by apply (proj1 (Forall_forall _ _) Hnb) in Hin. }
    assert (sum_list_with exited ws = n) as He.
    { rewrite <-H3. clear -Hall. induction Hall as [|w ws <- _ IH]; cbn; [done|]. by rewrite IH. }
    rewrite Hex in Hq by (cbn; lia). cbn in Hq. subst i. rewrite breaks_replicate, length_replicate in H2.
    assert (b = 0) as -> by (cbn in H2; lia). cbn in Hj.
    apply Permutation_length in Hj. apply Forall2_length in Hd. rewrite length_app in Hd.
    destruct o as [|j o].
    + right. split_and!; [done| |done]. cbn in *. lia.
    + left. destruct g as [|g]; [cbn in *; lia|]. eexists; split; [apply step_collect|done].
Qed.

Lemma start_weight jobs nproc :
  pool_weight (start_pool jobs nproc) = 6 * (length jobs + Z.to_nat nproc) + 1.
Proof.
  unfold pool_weight, start_pool. cbn -[Nat.mul]. rewrite length_app, length_replicate.
  assert (sum_list_with worker_weight (replicate (Z.to_nat nproc) Waiting) = 0) as ->; [|lia].
  induction (Z.to_nat nproc) as [|m IH]; [done|]. cbn. exact IH.
Qed.

(** C2: for every number of worker threads from one and every interleaving, a run of the
    pool has at most [6 * (jobs + threads) + 1] steps, and a state that is not finished can
    always do one that is not an interrupt: the script never deadlocks and always ends with
    all results collected and all threads joined. *)
Theorem pool_terminates (sh : shell) (c : config) (o : options) (jobs : list job) (nproc : Z) :
  Forall (λ j, is_break j = false) jobs → (1 <= nproc)%Z →
  ∀ k p, nsteps (step (execute sh c o)) k (start_pool jobs nproc) p →
    k ≤ 6 * (length jobs + Z.to_nat nproc) + 1 ∧
    ((∃ p', step (execute sh c o) p p' ∧ thread_exit p' = thread_exit p) ∨ finished p).
Proof.
  intros Hj Hn k p Hrun. split.
  - apply run_bounded in Hrun. rewrite start_weight in Hrun. lia.
  - apply (pool_progress _ jobs (Z.to_nat nproc)); [lia|]. apply pool_ok_reachable; [done|].
    by eapply rtc_nsteps_2.
Qed.

Definition demo_options : options := Options "" "" false "" false "QUICK" false false "" "" false 0.
Definition demo_config : config := Config "/ns3" "/ns3/build" "ns" "3.36" "default" "python3" true true.
(** Suites whose name contains [bad] fail, the others pass. *)
Definition demo_shell : shell := λ cmd _, (if has_sub "bad" cmd then 1%Z else 0%Z, Some "", Some "", 0%Q).
Definition demo_jobs : list job := suite_job demo_config demo_options "/ns3" "out" <$> ["good"; "bad"].

Lemma pool_terminates_witness :
  ∃ p', step (execute demo_shell demo_config demo_options) (start_pool demo_jobs 2) p' ∧
        thread_exit p' = false.
Proof.
  destruct (pool_terminates demo_shell demo_config demo_options demo_jobs 2) with 0 (start_pool demo_jobs 2)
    as [_ [Hs|(H & _)]]; [by repeat constructor|lia|constructor|done|done].
Defined.

(** ** The results of a finished run *)

Lemma execute_break sh c o j : is_break (execute sh c o j) = is_break j.
Proof. unfold execute. by destruct (if is_example j || is_pyexample j then _ else _) as [[[? ?] ?] ?]. Qed.

Lemma finished_results exec jobs n p :
  pool_ok exec jobs n p → finished p →
  ∃ done_, done_ ≡ₚ jobs ∧ Forall2 (outcome exec (thread_exit p)) done_ (results p).
Proof.
  intros [_ _ _ (done_ & Hj & Hd) _ H6] (_ & Hg & Hw). rewrite Hg in H6. cbn in H6.
  assert (Forall (λ w, busy w = false) (workers p)) as Hnb by (eapply Forall_impl; [exact Hw|]; by intros w <-).
  destruct (not_busy _ Hnb) as [E1 E2]. rewrite E1, E2 in Hj. cbn in Hj.
  pose proof (Permutation_length Hj) as Hl1. pose proof (Forall2_length _ _ _ Hd) as Hl2.
  rewrite !length_app in *.
  assert (nonbreaks (input_queue p ++ to_put p) = []) as E by (apply length_zero_iff_nil; lia).
  assert (output_queue p = []) as Eo by (apply length_zero_iff_nil; lia).
  rewrite E in Hj. rewrite Eo, app_nil_r in Hd. by exists done_.
Qed.

Lemma pool_results_ok sh c o jobs nproc p :
  Forall (λ j, is_break j = false) jobs →
  rtc (step (execute sh c o)) (start_pool jobs nproc) p → finished p →
  (∃ done_, done_ ≡ₚ jobs ∧ Forall2 (outcome (execute sh c o) (thread_exit p)) done_ (results p)) ∧
  (thread_exit p = false → results p ≡ₚ result (execute sh c o) <$> jobs).
Proof.
  intros Hj Hr Hf. destruct (finished_results _ _ _ _ (pool_ok_reachable _ _ _ _ Hj Hr) Hf) as (done_ & Hp & Hd).
  split; [by exists done_|]. intros Hx. rewrite Hx in Hd. rewrite <-Hp. clear Hp.
  induction Hd as [|j j' l l' [->|[? _]] _ IH]; [done|cbn; by rewrite IH|done].
Qed.

(** C3: when a run of the pool is finished, every job has come back exactly once, in some
    order: as the result of running it (or unchanged, if it was to be skipped), or, only
    after an interrupt, marked as a break.  Without an interrupt the results are a
    permutation of what running the jobs one after the other gives. *)
Theorem pool_results (sh : shell) (c : config) (o : options) (jobs : list job) (nproc : Z) (p : pool) :
  Forall (λ j, is_break j = false) jobs →
  rtc (step (execute sh c o)) (start_pool jobs nproc) p → finished p →
  (∃ done_, done_ ≡ₚ jobs ∧ Forall2 (outcome (execute sh c o) (thread_exit p)) done_ (results p)) ∧
  (thread_exit p = false → results p ≡ₚ result (execute sh c o) <$> jobs).
Proof. apply pool_results_ok. Qed.

(** A complete run with two workers. *)
Definition demo_exec : job → job := execute demo_shell demo_config demo_options.
Definition demo_end : pool :=
  Pool [] 0 [demo_exec (suite_job demo_config demo_options "/ns3" "out" "bad");
             demo_exec (suite_job demo_config demo_options "/ns3" "out" "good")] [] [] [Exited; Exited] false.

Lemma demo_run : rtc (step demo_exec) (start_pool demo_jobs 2) demo_end.
Proof.
  unfold demo_exec, demo_end, start_pool, demo_jobs. cbn [fmap list_fmap length app replicate Z.to_nat Pos.to_nat
    Pos.iter_op Nat.add].
  set (g := suite_job _ _ _ _ "good"). set (b := suite_job _ _ _ _ "bad").
  eapply rtc_l; [apply step_put|]. eapply rtc_l; [apply step_put|].
  eapply rtc_l; [eapply (step_take _ 0); reflexivity|]. eapply rtc_l; [eapply (step_take _ 1); reflexivity|].
  eapply rtc_l; [eapply (step_launch _ 0); reflexivity|]. eapply rtc_l; [eapply (step_launch _ 1); reflexivity|].
  eapply rtc_l; [eapply (step_finish _ 1); reflexivity|]. eapply rtc_l; [eapply (step_finish _ 0); reflexivity|].
  eapply rtc_l; [apply step_put|]. eapply rtc_l; [apply step_put|].
  eapply rtc_l; [eapply (step_take _ 0); reflexivity|]. eapply rtc_l; [eapply (step_take _ 1); reflexivity|].
  eapply rtc_l; [eapply (step_exit _ 0); reflexivity|]. eapply rtc_l; [eapply (step_exit _ 1); reflexivity|].
  eapply rtc_l; [apply step_collect|]. eapply rtc_l; [apply step_collect|]. apply rtc_refl.
Qed.

Lemma pool_results_witness :
  finished demo_end ∧ results demo_end ≡ₚ result demo_exec <$> demo_jobs.
Proof.
  assert (finished demo_end) as Hf by (split_and!; [done|done|by repeat constructor]).
  split; [done|].
  apply (pool_results demo_shell demo_config demo_options demo_jobs 2 demo_end); [by repeat constructor|
    exact demo_run|done|done].
Defined.

(** ** The summary *)

Definition with_status (st : status) (l : list job) : list job := filter (λ j, job_status j = st) l.
Definition skip_name (j : job) : string := display_name j +:+ " (" +:+ skip_reason j +:+ ")".

(** The counters and name lists after a list of results that are not breaks. *)
Record counts_of (l : list job) (s0 s : summary) : Prop := {
  cnt_passed : passed_tests s = passed_tests s0 + length (with_status PASS l);
  cnt_failed : failed_tests s = failed_tests s0 + length (with_status FAIL l);
  cnt_crashed : crashed_tests s = crashed_tests s0 + length (with_status CRASH l);
  cnt_valgr : valgrind_errors s = valgrind_errors s0 + length (with_status VALGR l);
  cnt_skipped : skipped_tests s = skipped_tests s0 + length (with_status SKIP l);
  cnt_fnames : failed_testnames s = failed_testnames s0 ++ (display_name <$> with_status FAIL l);
  cnt_cnames : crashed_testnames s = crashed_testnames s0 ++ (display_name <$> with_status CRASH l);
  cnt_vnames : valgrind_testnames s = valgrind_testnames s0 ++ (display_name <$> with_status VALGR l);
  cnt_snames : skipped_testnames s = skipped_testnames s0 ++ (skip_name <$> with_status SKIP l)
}.

Lemma counts_of_nil s0 : counts_of [] s0 s0.
Proof. split; cbn; rewrite ?Nat.add_0_r, ?app_nil_r; done. Qed.

Lemma counts_of_count s0 j : counts_of [j] s0 (count_job s0 j).
Proof.
  unfold count_job. destruct (job_status j) eqn:E; split; cbn [passed_tests failed_tests crashed_tests
    valgrind_errors skipped_tests failed_testnames crashed_testnames valgrind_testnames skipped_testnames];
    unfold with_status; rewrite filter_cons, filter_nil, E; cbn; rewrite ?Nat.add_0_r, ?app_nil_r;
      done || (vm_compute (decide _); cbn; lia).
Qed.

Lemma counts_of_app l l' s0 s1 s2 : counts_of l s0 s1 → counts_of l' s1 s2 → counts_of (l ++ l') s0 s2.
Proof.
  intros [A1 A2 A3 A4 A5 A6 A7 A8 A9] [B1 B2 B3 B4 B5 B6 B7 B8 B9].
  split; unfold with_status in *; rewrite filter_app, ?length_app, ?fmap_app; try lia;
    rewrite ?B6, ?B7, ?B8, ?B9, ?A6, ?A7, ?A8, ?A9, <-?app_assoc; done.
Qed.

Lemma counts_of_foldl l s0 : counts_of l s0 (foldl count_job s0 l).
Proof.
  induction l as [|j l IH] using rev_ind; [apply counts_of_nil|]. rewrite foldl_app. cbn [foldl].
  eapply counts_of_app; [exact IH|apply counts_of_count].
Qed.

Lemma counts_of_collect o use fmt3 tmp total l s0 s :
  py_foldl (collect o use fmt3 tmp total) s0 l = Ok s → counts_of (nonbreaks l) s0 s.
Proof.
  revert s. induction l as [|j l IH] using rev_ind; intros s.
  { intros <-%Ok_inj. apply counts_of_nil. }
  rewrite py_foldl_app. intros (s1 & H1 & H2)%py_bind_ok. cbn in H2.
  apply py_bind_ok in H2 as (s2 & H2 & <-%Ok_inj). rewrite nonbreaks_app, nonbreaks_one.
  eapply counts_of_app; [by apply IH|]. unfold collect in H2. destruct (is_break j).
  - apply Ok_inj in H2 as <-. apply counts_of_nil.
  - apply py_bind_ok in H2 as (x & _ & <-%Ok_inj). destruct (counts_of_count s1 j). by split.
Qed.

(** Two runs over permuted results agree on everything that is printed at the end. *)
Lemma sort_names_perm l l' : l ≡ₚ l' → sort_names l = sort_names l'.
Proof.
  intros Hl. apply (Sorted_unique String.le).
  - apply (Sorted_mono (λ a b, String.leb a b = true)); [intros a b Hab; unfold String.le; by rewrite Hab|].
    apply stable_sort_sorted, String.leb_total.
  - apply (Sorted_mono (λ a b, String.leb a b = true)); [intros a b Hab; unfold String.le; by rewrite Hab|].
    apply stable_sort_sorted, String.leb_total.
  - unfold sort_names. by rewrite !stable_sort_perm.
Qed.

Lemma name_list_perm title l l' : l ≡ₚ l' → name_list title l = name_list title l'.
Proof.
  intros Hl. unfold name_list. rewrite (sort_names_perm l l' Hl).
  destruct l, l'; try done; by apply Permutation_length in Hl.
Qed.

Lemma counts_of_perm l l' s s' total :
  l ≡ₚ l' → counts_of l no_results s → counts_of l' no_results s' →
  final_lines total s = final_lines total s' ∧ exit_status total s = exit_status total s'.
Proof.
  intros Hl [A1 A2 A3 A4 A5 A6 A7 A8 A9] [B1 B2 B3 B4 B5 B6 B7 B8 B9]. cbn in *.
  assert (∀ st, with_status st l ≡ₚ with_status st l') as Hst by (intros st; unfold with_status; by rewrite Hl).
  assert (∀ st, length (with_status st l) = length (with_status st l')) as Hlen by (intros st; by rewrite Hst).
  assert (∀ t st (f : job → string),
    name_list t (f <$> with_status st l) = name_list t (f <$> with_status st l')) as Hnl.
  { intros t st f. apply name_list_perm. by rewrite Hst. }
  unfold final_lines, exit_status.
  rewrite A1, A2, A3, A4, A5, A6, A7, A8, A9, B1, B2, B3, B4, B5, B6, B7, B8, B9, !Hlen, !Hnl. done.
Qed.

(** A result that was neither abandoned nor unsuccessful. *)
Definition good (j : job) : bool :=
  negb (is_break j) && match job_status j with PASS | SKIP => true | _ => false end.

Lemma count_good l :
  length (with_status PASS (nonbreaks l)) + length (with_status SKIP (nonbreaks l))
  = length (filter (λ j, good j = true) l).
Proof.
  unfold with_status. induction l as [|j l IH]; [done|]. rewrite nonbreaks_cons, (filter_cons _ j l).
  destruct (decide (good j = true)) as [Hg|Hg]; unfold good in Hg; destruct (is_break j); try done.
  all: rewrite !filter_cons; repeat case_decide; cbn [length]; destruct (job_status j); try done; lia.
Qed.

Lemma filter_full {A} (P : A → Prop) `{∀ x, Decision (P x)} (l : list A) :
  length (filter P l) = length l ↔ Forall P l.
Proof.
  induction l as [|x l IH]; [done|]. rewrite filter_cons, Forall_cons, <-IH.
  pose proof (length_filter P l). case_decide; cbn [length]; naive_solver lia.
Qed.

(** The status is 0 exactly when passed and skipped results are all of them. *)
Lemma exit_status_zero (l jobs : list job) (s : summary) :
  length l = length jobs → counts_of (nonbreaks l) no_results s →
  exit_status (length jobs) s = 0%Z ↔ Forall (λ j, good j = true) l.
Proof.
  intros Hlen [H1 _ _ _ H5 _ _ _ _]. cbn in H1, H5. unfold exit_status.
  rewrite H1, H5, count_good, <-Hlen, <-filter_full. by case_decide.
Qed.

Lemma good_result sh c o j :
  is_break j = false →
  good (result (execute sh c o) j) = true ↔ is_skip j = true ∨ returncode (execute sh c o j) = 0%Z.
Proof.
  intros Hb. unfold result, good. destruct (is_skip j) eqn:Es.
  - unfold job_status. rewrite Es, Hb. naive_solver.
  - rewrite execute_break, Hb. unfold job_status.
    assert (is_skip (execute sh c o j) = false) as ->.
    { unfold execute. by destruct (if is_example j || is_pyexample j then _ else _) as [[[? ?] ?] ?]. }
    bool_cases; naive_solver.
Qed.

(** The results whose file is read: suites that ran and did not crash. *)
Definition needs_file (j : job) : bool :=
  negb (is_break j) && negb (is_example j || is_pyexample j) &&
  match job_status j with PASS | FAIL | VALGR => true | SKIP | CRASH => false end.
Definition files_written (tmp_files : gmap string string) (l : list job) : Prop :=
  Forall (λ j, needs_file j = true → is_Some (tmp_files !! tmp_file_name j)) l.

Lemma collect_returns o use fmt3 tmp total l s0 :
  files_written tmp l → ∃ s, py_foldl (collect o use fmt3 tmp total) s0 l = Ok s.
Proof.
  intros Hl. apply py_foldl_returns. eapply Forall_impl; [exact Hl|]. intros j Hj s. unfold collect.
  unfold needs_file in Hj. destruct (is_break j); [by eexists|]. cbn [negb andb] in Hj.
  enough (∃ x, job_xml fmt3 tmp j = Ok x) as [x ->] by (by eexists).
  unfold job_xml. unfold job_status in *. destruct (is_example j || is_pyexample j); [by eexists|].
  destruct (is_skip j); [by eexists|]. cbn [negb andb] in Hj.
  destruct (returncode j =? 0)%Z, (returncode j =? 1)%Z, (returncode j =? 2)%Z; cbn [orb] in *; try (by eexists).
  all: destruct Hj as [t Ht]; [done|]; rewrite Ht; by eexists.
Qed.

Lemma summary_run (sh : shell) (c : config) (o : options) (jobs : list job) (nproc : Z) (p : pool)
    (use_color : bool) (fmt3 : Q → string) (tmp_files : gmap string string) :
  Forall (λ j, is_break j = false) jobs →
  rtc (step (execute sh c o)) (start_pool jobs nproc) p → finished p →
  files_written tmp_files (results p) →
  ∃ s, py_foldl (collect o use_color fmt3 tmp_files (length jobs)) no_results (results p) = Ok s ∧
  (exit_status (length jobs) s = 0%Z ↔
     Forall (λ j, good j = true) (results p)) ∧
  (thread_exit p = false →
     let s0 := foldl count_job no_results (result (execute sh c o) <$> jobs) in
     final_lines (length jobs) s = final_lines (length jobs) s0 ∧
     exit_status (length jobs) s = exit_status (length jobs) s0 ∧
     (exit_status (length jobs) s = 0%Z ↔
        ∀ j, j ∈ jobs → is_skip j = true ∨ returncode (execute sh c o j) = 0%Z)).
Proof.
  intros Hj Hr Hf Hw.
  destruct (collect_returns o use_color fmt3 tmp_files (length jobs) _ no_results Hw) as [s Hs].
  exists s. split; [done|]. apply counts_of_collect in Hs.
  destruct (pool_results_ok sh c o jobs nproc p Hj Hr Hf) as [(done_ & Hp & Hd) Hres].
  assert (length (results p) = length jobs) as Hlen.
  { rewrite <-Hp. symmetry. by eapply Forall2_length. }
  pose proof (exit_status_zero _ _ _ Hlen Hs) as Hz. split; [exact Hz|]. intros Hx. specialize (Hres Hx).
  set (rs := result (execute sh c o) <$> jobs) in *.
  assert (Forall (λ j, is_break j = false) rs) as Hrs.
  { apply Forall_fmap. eapply Forall_impl; [exact Hj|]. intros j Hb. cbn. unfold result.
    destruct (is_skip j); [done|]. by rewrite execute_break. }
  assert (nonbreaks (results p) ≡ₚ rs) as Hperm by (rewrite Hres; by rewrite (proj1 (nonbreaks_all rs Hrs))).
  destruct (counts_of_perm _ _ _ _ (length jobs) Hperm Hs (counts_of_foldl rs no_results)) as [H1 H2].
  split_and!; [done|done|]. rewrite Hz, Hres. unfold rs. rewrite Forall_fmap, Forall_forall. cbn.
  assert (∀ j, j ∈ jobs → good (result (execute sh c o) j) = true ↔
     is_skip j = true ∨ returncode (execute sh c o j) = 0%Z) as Hone.
  { intros j Hin. by apply good_result, (proj1 (Forall_forall _ _) Hj). }
  split; intros H j Hin; apply (Hone j Hin), H, Hin.
Qed.

(** C4: the results can be collected when every suite that ran to its end has written its
    file, and the summary and the exit status do not depend on the interleaving: without an
    interrupt they are those of the jobs run in the order of dispatch, and the status is 0
    exactly when every job was skipped or returned 0.  After an interrupt the status is 0
    only if every job still came back with such a result. *)
Theorem summary_deterministic (sh : shell) (c : config) (o : options) (jobs : list job) (nproc : Z) (p : pool)
    (use_color : bool) (fmt3 : Q → string) (tmp_files : gmap string string) :
  Forall (λ j, is_break j = false) jobs →
  rtc (step (execute sh c o)) (start_pool jobs nproc) p → finished p →
  files_written tmp_files (results p) →
  ∃ s, py_foldl (collect o use_color fmt3 tmp_files (length jobs)) no_results (results p) = Ok s ∧
  (exit_status (length jobs) s = 0%Z ↔
     Forall (λ j, good j = true) (results p)) ∧
  (thread_exit p = false →
     let s0 := foldl count_job no_results (result (execute sh c o) <$> jobs) in
     final_lines (length jobs) s = final_lines (length jobs) s0 ∧
     exit_status (length jobs) s = exit_status (length jobs) s0 ∧
     (exit_status (length jobs) s = 0%Z ↔
        ∀ j, j ∈ jobs → is_skip j = true ∨ returncode (execute sh c o j) = 0%Z)).
Proof. apply summary_run. Qed.

Definition demo_tmp : gmap string string := {[ "out/good.xml" := "<Test/>"; "out/bad.xml" := "<Test/>" ]}.

Lemma summary_deterministic_witness :
  ∃ s, py_foldl (collect demo_options false (λ _, "0.000") demo_tmp 2) no_results (results demo_end) = Ok s ∧
    exit_status 2 s = 1%Z ∧
    final_lines 2 s = final_lines 2 (foldl count_job no_results (result demo_exec <$> demo_jobs)).
Proof.
  destruct (summary_deterministic demo_shell demo_config demo_options demo_jobs 2 demo_end false (λ _, "0.000")
    demo_tmp) as (s & E & _ & Hd); [by repeat constructor|exact demo_run|by repeat constructor| |].
  - repeat constructor; intros _; by eexists.
  - exists s. split; [exact E|]. split; [by vm_compute in E; injection E as <-|]. by apply Hd.
Defined.

(** *** A pool without workers *)

Lemma no_workers_inv exec jobs nproc p :
  (nproc <= 0)%Z → rtc (step exec) (start_pool jobs nproc) p →
  workers p = [] ∧ output_queue p = [] ∧ to_get p = length jobs.
Proof.
  intros Hn Hr. assert (workers (start_pool jobs nproc) = [] ∧ output_queue (start_pool jobs nproc) = [] ∧
    to_get (start_pool jobs nproc) = length jobs) as H0.
  { unfold start_pool. rewrite Z2Nat.nonpos by done. done. }
  revert H0. induction Hr as [|p1 p2 p3 Hs _ IH]; [done|]. intros (Hw & Ho & Hg). apply IH. clear IH.
  destruct Hs; cbn in *; subst; done.
Qed.

(** A negative [--jobs] starts no worker thread, and then, if there is any job, no run
    ever finishes: the main thread waits for a result for ever. *)
Theorem negative_jobs_deadlock (exec : job → job) (o : options) (available : Z) (jobs : list job) (p : pool) :
  (0 < available)%Z → (process_limit o < 0)%Z → jobs ≠ [] →
  rtc (step exec) (start_pool jobs (processors o available)) p → ¬ finished p.
Proof.
  intros Ha Hl Hj Hr (_ & Hg & _). apply no_workers_inv in Hr as (_ & _ & Hget).
  - destruct jobs; [done|]. rewrite Hget in Hg. done.
  - unfold processors. rewrite decide_False by lia. bool_cases; lia.
Qed.

Lemma negative_jobs_deadlock_witness :
  let o := Options "" "" false "" false "QUICK" false false "" "" false (-1) in
  ¬ finished (start_pool demo_jobs (processors o 8)).
Proof.
  intros o. apply (negative_jobs_deadlock demo_exec o 8 demo_jobs); [lia|by vm_compute|done|apply rtc_refl].
Defined.

(** ** Performance suites *)

Lemma remove_first_filter x l : NoDup l → remove_first x l = filter (λ y, y ≠ x) l.
Proof.
  induction 1 as [|y l Hy Hnd IH]; [done|]. cbn [remove_first]. rewrite filter_cons.
  destruct (decide (y = x)) as [->|Hne].
  - rewrite decide_False by naive_solver. clear IH Hnd. induction l as [|z l IHl]; [done|].
    rewrite filter_cons, decide_True by set_solver. f_equal. apply IHl. set_solver.
  - by rewrite decide_True, IH by done.
Qed.

(** Performance suites are taken out of a list without duplicates completely, and
    nothing else is: the other names stay, in order. *)
Theorem remove_performance_spec (performance_test_list suite_list : list string) :
  NoDup suite_list →
  remove_performance performance_test_list suite_list
  = filter (λ s, s ∉ performance_test_list) suite_list.
Proof.
  unfold remove_performance. revert suite_list.
  induction performance_test_list as [|p ps IH]; intros sl Hnd; cbn [foldl].
  - induction sl as [|x sl IHl]; [done|]. rewrite filter_cons, decide_True by set_solver. f_equal.
    apply IHl. by apply NoDup_cons in Hnd as [_ ?].
  - assert ((if decide (p ∈ sl) then remove_first p sl else sl) = filter (λ y, y ≠ p) sl) as ->.
    { case_decide as Hp; [by apply remove_first_filter|]. clear IH. induction sl as [|x sl IHl]; [done|].
      rewrite filter_cons, decide_True by set_solver. f_equal. apply IHl; [by apply NoDup_cons in Hnd as [_ ?]|].
      set_solver. }
    rewrite IH by (by apply NoDup_filter). rewrite list_filter_filter.
    apply list_filter_iff. intros x. set_solver.
Qed.

Lemma remove_performance_spec_witness :
  remove_performance ["perf"; ""] ["unit-a"; "perf"; "unit-b"; ""] = ["unit-a"; "unit-b"].
Proof.
  rewrite (remove_performance_spec ["perf"; ""] ["unit-a"; "perf"; "unit-b"; ""]); [by vm_compute|].
  by apply (bool_decide_unpack _).
Defined.
