(* ===== verification/TestReport.v ===== *)
(** * TestReport: the reports of [test.py]

    [read_test], [node_to_text], [translate_to_text] and [translate_to_html] on the element
    tree of the results file.  A report is the list of the strings given to [f.write]; an
    error loses it.  A small tag checker says what it means for the HTML report and for the
    results file that [TestJobs.collect] writes to be properly nested. *)

From stdpp Require Import base list strings gmap.
From Stdlib Require Import Ascii QArith.
From S2P Require Import Prelude TestJobs.
Open Scope nat_scope.

(** ** Element trees *)

(** An [ElementTree] element: tag, attributes, text ([None] when it has none), children. *)
Inductive element := Element (tag : string) (attrib : list (string * string)) (text : option string)
  (children : list element).
Definition tag (e : element) : string := let 'Element t _ _ _ := e in t.
Definition text (e : element) : option string := let 'Element _ _ t _ := e in t.
Definition children (e : element) : list element := let 'Element _ _ _ cs := e in cs.
Definition get (key : string) (e : element) : option string :=
  let 'Element _ at_ _ _ := e in snd <$> head (filter (λ kv, kv.1 = key) at_).

Definition findall (name : string) (e : element) : list element :=
  filter (λ c, tag c = name) (children e).
Definition find (name : string) (e : element) : option element := head (findall name e).

(** [e.find(name).text]: without such a child, [None] has no attribute [text]. *)
Definition find_text (name : string) (e : element) : py exn (option string) :=
  c ← or_raise AttributeError (find name e); Ok (text c).

(** ['%s' % x] and [if x] for a string or [None]. *)
Definition show (x : option string) : string := default "None" x.
Definition truthy (x : option string) : bool :=
  match x with Some s => bool_decide (s ≠ "") | None => false end.

Record test_info := TestInfo {
  ti_result : option string; ti_name : option string; ti_reason : option string; ti_time : option string
}.
Definition read_test (test : element) : py exn test_info :=
  result ← find_text "Result" test;
  name ← find_text "Name" test;
  let reason := match find "Reason" test with Some e => text e | None => Some "" end in
  let time_real := match find "Time" test with Some e => get "real" e | None => Some "" end in
  Ok (TestInfo result name reason time_real).

(** ** The text report *)

Definition detail_lines (details : element) : py exn (list string) :=
  message ← find_text "Message" details;
  condition ← find_text "Condition" details;
  actual ← find_text "Actual" details;
  limit ← find_text "Limit" details;
  file ← find_text "File" details;
  line ← find_text "Line" details;
  Ok [esc "    Details:\n";
      "      Message:   " +:+ show message +:+ nl; "      Condition: " +:+ show condition +:+ nl;
      "      Actual:    " +:+ show actual +:+ nl; "      Limit:     " +:+ show limit +:+ nl;
      "      File:      " +:+ show file +:+ nl; "      Line:      " +:+ show line +:+ nl].

(** The lines of one node, without its children. *)
Definition node_lines (test : element) (test_type : string) : py exn (list string) :=
  i ← read_test test;
  let reason := if truthy (ti_reason i) then " (" +:+ show (ti_reason i) +:+ ")" else show (ti_reason i) in
  let output := show (ti_result i) +:+ ": Test " +:+ test_type +:+ esc " \q" +:+ show (ti_name i) +:+ esc "\q (" +:+
                show (ti_time i) +:+ ")" +:+ reason +:+ nl in
  py_foldl (λ out d, w ← detail_lines d; Ok (out ++ w)) [output] (findall "FailureDetails" test).

Fixpoint node_to_text (test : element) (test_type : string) {struct test} : py exn (list string) :=
  own ← node_lines test test_type;
  let 'Element _ _ _ cs := test in
  rest ← (fix go (cs : list element) : py exn (list string) :=
            match cs with
            | [] => Ok []
            | c :: cs =>
                if decide (tag c = "Test") then a ← node_to_text c "Case"; b ← go cs; Ok (a ++ b)
                else go cs
            end) cs;
  Ok (own ++ rest).

Definition example_lines (example : element) : py exn (list string) :=
  result ← find_text "Result" example;
  name ← find_text "Name" example;
  let time_real := match find "Time" example with Some e => get "real" e | None => Some "" end in
  Ok [show result +:+ esc ": Example \q" +:+ show name +:+ esc "\q (" +:+ show time_real +:+ ")" +:+ nl].

Definition translate_to_text (et : element) : py exn (list string) :=
  out ← py_foldl (λ out t, w ← node_to_text t "Suite"; Ok (out ++ w)) [] (findall "Test" et);
  py_foldl (λ out e, w ← example_lines e; Ok (out ++ w)) out (findall "Example" et).

(** ** The HTML report *)

Definition is_str (x : option string) (s : string) : bool := bool_decide (x = Some s).

Definition suite_header (i : test_info) : string :=
  if is_str (ti_result i) "PASS" then
    esc "<h3 style=\qcolor:green\q>" +:+ show (ti_result i) +:+ ": " +:+ show (ti_name i) +:+ " (" +:+
    show (ti_time i) +:+ ")" +:+ esc "</h3>\n"
  else if is_str (ti_result i) "SKIP" then
    esc "<h3 style=\qcolor:#ff6600\q>" +:+ show (ti_result i) +:+ ": " +:+ show (ti_name i) +:+ " (" +:+
    show (ti_time i) +:+ ") (" +:+ show (ti_reason i) +:+ ")" +:+ esc "</h3>\n"
  else
    esc "<h3 style=\qcolor:red\q>" +:+ show (ti_result i) +:+ ": " +:+ show (ti_name i) +:+ " (" +:+
    show (ti_time i) +:+ ")" +:+ esc "</h3>\n".

(** One failure of a test case; [first_row] carries the result, name and time. *)
Definition failure_row (i : test_info) (first_row : bool) (details : element) : py exn (list string) :=
  message ← find_text "Message" details;
  condition ← find_text "Condition" details;
  actual ← find_text "Actual" details;
  limit ← find_text "Limit" details;
  file ← find_text "File" details;
  line ← find_text "Line" details;
  Ok ([esc "<tr>\n"] ++
      (if first_row then
         [esc "<td style=\qcolor:red\q>" +:+ show (ti_result i) +:+ esc "</td>\n";
          "<td>" +:+ show (ti_name i) +:+ esc "</td>\n"; "<td>" +:+ show (ti_time i) +:+ esc "</td>\n"]
       else [esc "<td></td>\n"; esc "<td></td>\n"; esc "<td></td>\n"]) ++
      ["<td>"; "<b>Message: </b>" +:+ show message +:+ ", "; "<b>Condition: </b>" +:+ show condition +:+ ", ";
       "<b>Actual: </b>" +:+ show actual +:+ ", "; "<b>Limit: </b>" +:+ show limit +:+ ", ";
       "<b>File: </b>" +:+ show file +:+ ", "; "<b>Line: </b>" +:+ show line; esc "</td>\n"; esc "</td>\n"]).

Fixpoint failure_rows (i : test_info) (first_row : bool) (ds : list element) : py exn (list string) :=
  match ds with
  | [] => Ok []
  | d :: ds => a ← failure_row i first_row d; b ← failure_rows i false ds; Ok (a ++ b)
  end.

Definition case_rows (case : element) : py exn (list string) :=
  i ← read_test case;
  if is_str (ti_result i) "FAIL" then failure_rows i true (findall "FailureDetails" case)
  else Ok [esc "<tr>\n"; esc "<td style=\qcolor:green\q>" +:+ show (ti_result i) +:+ esc "</td>\n";
           "<td>" +:+ show (ti_name i) +:+ esc "</td>\n"; "<td>" +:+ show (ti_time i) +:+ esc "</td>\n";
           "<td>" +:+ show (ti_reason i) +:+ esc "</td>\n"; esc "</tr>\n"].

Definition suite_html (suite : element) : py exn (list string) :=
  i ← read_test suite;
  let top := [suite_header i; esc "<table border=\q1\q>\n"; esc "<th> Result </th>\n"] in
  if is_str (ti_result i) "CRASH" || is_str (ti_result i) "SKIP" || is_str (ti_result i) "VALGR" then
    Ok (top ++
        [esc "<tr>\n";
         (if is_str (ti_result i) "SKIP" then esc "<td style=\qcolor:#ff6600\q>" else esc "<td style=\qcolor:red\q>")
           +:+ show (ti_result i) +:+ esc "</td>\n";
         esc "</tr>\n"; esc "</table>\n"])
  else
    rows ← py_foldl (λ out c, w ← case_rows c; Ok (out ++ w)) [] (findall "Test" suite);
    Ok (top ++ [esc "<th>Test Case Name</th>\n"; esc "<th> Time </th>\n"] ++
        (if is_str (ti_result i) "FAIL" then [esc "<th>Failure Details</th>\n"] else []) ++
        rows ++ [esc "</table>\n"]).

Definition example_row (example : element) : py exn (list string) :=
  i ← read_test example;
  Ok [esc "<tr>\n";
      (if is_str (ti_result i) "PASS" then
         esc "<td style=\qcolor:green\q>" +:+ show (ti_result i) +:+ esc "</td>\n"
       else if is_str (ti_result i) "SKIP" then
         esc "<td style=\qcolor:#ff6600\q>" +:+ show (ti_result i) +:+ esc "</fd>\n"
       else esc "<td style=\qcolor:red\q>" +:+ show (ti_result i) +:+ esc "</td>\n");
      "<td>" +:+ show (ti_name i) +:+ esc "</td>\n"; "<td>" +:+ show (ti_time i) +:+ esc "</td>\n";
      "<td>" +:+ show (ti_reason i) +:+ esc "</td>\n"; esc "</tr>\n"].

Definition translate_to_html (et : element) : py exn (list string) :=
  out ← py_foldl (λ out s, w ← suite_html s; Ok (out ++ w))
          [esc "<html>\n"; esc "<body>\n"; esc "<center><h1>ns-3 Test Results</h1></center>\n";
           esc "<h2>Test Suites</h2>\n"] (findall "Test" et);
  out ← py_foldl (λ out e, w ← example_row e; Ok (out ++ w))
          (out ++ [esc "<h2>Examples</h2>\n"; esc "<table border=\q1\q>\n"; esc "<th> Result </th>\n";
                   esc "<th>Example Name</th>\n"; esc "<th>Elapsed Time</th>\n"; esc "<th>Details</th>\n"])
          (findall "Example" et);
  Ok (out ++ [esc "</table>\n"; esc "</body>\n"; esc "</html>\n"]).

(** ** Nesting of tags *)

(** The open tags, innermost first, and the text of a tag being read. *)
Definition tag_state : Type := list string * option (list ascii).

(** At the end of a tag: self-closing tags and declarations leave the open tags alone, a
    closing tag must match, any other tag is opened.  The text of a tag is kept reversed. *)
Definition close_tag (stack : list string) (body : list ascii) : option (list string) :=
  let s := implode (reverse body) in
  if bool_decide (head body = Some "/"%char) || startswith s "?" then Some stack
  else match strip_prefix "/" s with
       | Some name =>
           match stack with
           | t :: stack => if decide (t = name) then Some stack else None
           | [] => None
           end
       | None => Some ((match split_once " " s with Some (name, _) => name | None => s end) :: stack)
       end.
Definition tag_char (st : tag_state) (c : ascii) : option tag_state :=
  let '(stack, inside) := st in
  match inside with
  | None => Some (if decide (c = "<"%char) then (stack, Some []) else (stack, None))
  | Some body =>
      if decide (c = ">"%char) then stack ← close_tag stack body; Some (stack, None)
      else Some (stack, Some (c :: body))
  end.
Fixpoint tag_run (st : tag_state) (cs : list ascii) : option tag_state :=
  match cs with [] => Some st | c :: cs => st ← tag_char st c; tag_run st cs end.

(** Every tag is closed, in the right order. *)
Definition nested (writes : list string) : bool :=
  bool_decide (tag_run ([], None) (chars (concat_str writes)) = Some ([], None)).

(** ** The text report lists the nodes in order *)

(** The tree below a node, the node first; children are test cases. *)
Fixpoint preorder (test : element) (test_type : string) {struct test} : list (element * string) :=
  (test, test_type) ::
  let 'Element _ _ _ cs := test in
  (fix go (cs : list element) : list (element * string) :=
     match cs with
     | [] => []
     | c :: cs => if decide (tag c = "Test") then preorder c "Case" ++ go cs else go cs
     end) cs.

(** The lines of a list of nodes, one after the other. *)
Fixpoint all_lines (nodes : list (element * string)) : py exn (list string) :=
  match nodes with
  | [] => Ok []
  | (e, ty) :: nodes => a ← node_lines e ty; b ← all_lines nodes; Ok (a ++ b)
  end.

Lemma all_lines_app l l' :
  all_lines (l ++ l') = (a ← all_lines l; b ← all_lines l'; Ok (a ++ b)).
Proof.
  induction l as [|[e ty] l IH]; cbn; [by destruct (all_lines l')|].
  destruct (node_lines e ty) as [a|]; cbn; [|done]. rewrite IH.
  destruct (all_lines l) as [b|]; cbn; [|done]. destruct (all_lines l') as [c|]; cbn; [|done].
  by rewrite app_assoc.
Qed.

(** Induction on trees. *)
Lemma element_rect' (P : element → Prop) :
  (∀ t a x cs, Forall P cs → P (Element t a x cs)) → ∀ e, P e.
Proof.
  intros H. fix IH 1. intros [t a x cs]. apply H. induction cs as [|c cs IHcs]; constructor; [apply IH|done].
Qed.

(** A node with the two children every result has, and complete failure details. *)
Definition has_text (names : list string) (e : element) : Prop := ∀ n, n ∈ names → is_Some (find n e).
Definition complete_node (e : element) : Prop :=
  has_text ["Result"; "Name"] e ∧
  Forall (has_text ["Message"; "Condition"; "Actual"; "Limit"; "File"; "Line"]) (findall "FailureDetails" e).

Lemma find_text_Ok n e : is_Some (find n e) → ∃ t, find_text n e = Ok t.
Proof. intros [c Hc]. exists (text c). unfold find_text. by rewrite Hc. Qed.

Lemma read_test_Ok e : has_text ["Result"; "Name"] e → ∃ i, read_test e = Ok i.
Proof.
  intros H. unfold read_test.
  destruct (find_text_Ok "Result" e) as [? ->]; [apply H; left|].
  destruct (find_text_Ok "Name" e) as [? ->]; [apply H; right; left|]. by eexists.
Qed.

Lemma detail_lines_Ok e :
  has_text ["Message"; "Condition"; "Actual"; "Limit"; "File"; "Line"] e →
  ∃ l, detail_lines e = Ok l ∧ length l = 7.
Proof.
  intros H. unfold detail_lines.
  destruct (find_text_Ok "Message" e) as [? ->]; [apply H; set_solver|].
  destruct (find_text_Ok "Condition" e) as [? ->]; [apply H; set_solver|].
  destruct (find_text_Ok "Actual" e) as [? ->]; [apply H; set_solver|].
  destruct (find_text_Ok "Limit" e) as [? ->]; [apply H; set_solver|].
  destruct (find_text_Ok "File" e) as [? ->]; [apply H; set_solver|].
  destruct (find_text_Ok "Line" e) as [? ->]; [apply H; set_solver|]. by eexists.
Qed.

Lemma node_lines_Ok e ty :
  complete_node e →
  ∃ l, node_lines e ty = Ok l ∧ length l = 1 + 7 * length (findall "FailureDetails" e).
Proof.
  intros [H1 H2]. unfold node_lines. destruct (read_test_Ok e H1) as [i ->]. cbn [mbind py_bind].
  set (o := _ +:+ _). clearbody o.
  enough (∀ out, ∃ l, py_foldl (λ out d, w ← detail_lines d; Ok (out ++ w)) out (findall "FailureDetails" e) = Ok l
    ∧ length l = length out + 7 * length (findall "FailureDetails" e)) as Hgen by (apply (Hgen [o])).
  induction H2 as [|d ds Hd _ IH]; intros out; cbn [py_foldl].
  - exists out. cbn. split; [done|lia].
  - destruct (detail_lines_Ok d Hd) as (l & -> & Hl). cbn [mbind py_bind].
    destruct (IH (out ++ l)) as (l' & -> & Hl'). exists l'. split; [done|].
    rewrite Hl', length_app, Hl. cbn [length]. lia.
Qed.

Lemma node_to_text_preorder e ty : node_to_text e ty = all_lines (preorder e ty).
Proof.
  revert ty. induction e as [t a x cs Hcs] using element_rect'. intros ty.
  cbn [node_to_text preorder all_lines].
  destruct (node_lines (Element t a x cs) ty) as [own|]; cbn [mbind py_bind]; [|done].
  match goal with |- (?f cs ≫= _) = (all_lines (?g cs) ≫= _) =>
    enough (f cs = all_lines (g cs)) as -> by done; set (go := f); set (go' := g) end.
  induction Hcs as [|c cs Hc _ IH]; [done|]. cbn. destruct (decide (tag c = "Test")); [|done].
  rewrite all_lines_app, Hc. destruct (all_lines (preorder c "Case")); cbn; [|done].
  fold go go'. by rewrite IH.
Qed.

(** The text report of a test prints its node and then all test cases below it in
    document order, one result line each and seven lines per failure; it succeeds whenever
    every node has a result and a name and every failure its six fields. *)
Theorem node_to_text_spec (e : element) (ty : string) :
  node_to_text e ty = all_lines (preorder e ty) ∧
  (Forall (λ et, complete_node et.1) (preorder e ty) →
   ∃ out, node_to_text e ty = Ok out ∧
     length out = sum_list_with (λ et, 1 + 7 * length (findall "FailureDetails" et.1)) (preorder e ty)).
Proof.
  split; [apply node_to_text_preorder|]. rewrite node_to_text_preorder.
  induction 1 as [|[e' ty'] l He _ IH]; cbn [all_lines sum_list_with].
  - by exists [].
  - destruct (node_lines_Ok e' ty' He) as (a & -> & Ha). destruct IH as (b & -> & Hb). cbn [mbind py_bind].
    exists (a ++ b). split; [done|]. rewrite length_app, Ha, Hb. done.
Qed.

Definition leaf (t x : string) : element := Element t [] (Some x) [].
Definition details : element :=
  Element "FailureDetails" [] None [leaf "Message" "m"; leaf "Condition" "c"; leaf "Actual" "1"; leaf "Limit" "2";
                                    leaf "File" "f.cc"; leaf "Line" "7"].
Definition sample_case (result : string) (ds : list element) : element :=
  Element "Test" [] None ([leaf "Name" "case"; leaf "Result" result; Element "Time" [("real", "0.1")] None []] ++ ds).
Definition sample_suite (result : string) (cases : list element) : element :=
  Element "Test" [] None ([leaf "Name" "suite"; leaf "Result" result] ++ cases).

(** [has_text] of a concrete element. *)
Ltac solve_has_text :=
  intros n Hn; repeat (apply elem_of_cons in Hn as [->|Hn]; [by eexists|]); by apply elem_of_nil in Hn.

Lemma node_to_text_spec_witness :
  let e := sample_suite "FAIL" [sample_case "PASS" []; sample_case "FAIL" [details]] in
  ∃ out, node_to_text e "Suite" = Ok out ∧ length out = 10.
Proof.
  intros e. destruct (proj2 (node_to_text_spec e "Suite")) as (out & H1 & H2); [|by exists out].
  repeat constructor; solve_has_text.
Defined.

(** ** Nesting of the HTML report *)

Lemma tag_run_app st a b : tag_run st (a ++ b) = tag_run st a ≫= λ st', tag_run st' b.
Proof. revert st; induction a as [|c a IH]; intros st; cbn; [done|]. by destruct (tag_char st c); cbn. Qed.

(** What a piece of the report does to the open tags: nothing, a push, a pop or (when
    [b] is false) an error. *)
Definition effect (w : string) (b : bool) : Prop :=
  ∀ stack, tag_run (stack, None) (chars w) = if b then Some (stack, None) else None.
Definition pushes (w t : string) : Prop :=
  ∀ stack, tag_run (stack, None) (chars w) = Some (t :: stack, None).
Definition pops (w t : string) : Prop :=
  ∀ stack, tag_run (t :: stack, None) (chars w) = Some (stack, None).

Definition no_lt (s : string) : bool := negb (has_char "<" s).

Lemma effect_text s : no_lt s = true → effect s true.
Proof.
  unfold no_lt. rewrite negb_true_iff. intros Hs stack. induction s as [|c s IH]; [done|]. cbn in *.
  apply orb_false_iff in Hs as [Hc Hs]. apply bool_decide_eq_false in Hc.
  rewrite decide_False by congruence. cbn. by apply IH.
Qed.

Lemma effect_app a b x y : effect a x → effect b y → effect (a +:+ b) (x && y).
Proof.
  intros Ha Hb stack. rewrite chars_app, tag_run_app, Ha. destruct x; cbn; [apply Hb|done].
Qed.

Lemma effect_wrap a x b t y : pushes a t → effect x y → pops b t → effect (a +:+ x +:+ b) y.
Proof.
  intros Ha Hx Hb stack. rewrite !chars_app, !tag_run_app, Ha. cbn [mbind option_bind].
  rewrite tag_run_app, Hx. destruct y; cbn; [apply Hb|done].
Qed.

Lemma effect_cons s l y : effect s true → effect (concat_str l) y → effect (concat_str (s :: l)) y.
Proof. intros Hs Hl. exact (effect_app s (concat_str l) true y Hs Hl). Qed.
Lemma effect_nil : effect (concat_str []) true.
Proof. by intros stack. Qed.

(** The pieces a loop writes. *)
Lemma effect_foldl {A} (f : A → py exn (list string)) (ok : A → bool) l out0 out :
  py_foldl (λ out c, w ← f c; Ok (out ++ w)) out0 l = Ok out →
  (∀ c w, c ∈ l → f c = Ok w → effect (concat_str w) (ok c)) →
  ∃ ws, out = out0 ++ ws ∧ effect (concat_str ws) (forallb ok l).
Proof.
  revert out0. induction l as [|c l IH]; intros out0 Hrun Hf; cbn in Hrun.
  - apply Ok_inj in Hrun as <-. exists []. split; [by rewrite app_nil_r|]. apply effect_nil.
  - apply py_bind_ok in Hrun as (o1 & (w & Hw & <-%Ok_inj)%py_bind_ok & Hrun).
    destruct (IH _ Hrun) as (ws & -> & Hws); [intros; apply Hf; [by right|done]|].
    exists (w ++ ws). split; [by rewrite app_assoc|]. rewrite concat_str_app. cbn.
    apply effect_app; [|done]. apply Hf; [left|done].
Qed.

(** Trees whose texts and attributes have no [<]. *)
Fixpoint plain (e : element) : bool :=
  let 'Element _ at_ x cs := e in
  no_lt (show x) && forallb (λ kv, no_lt kv.2) at_ && forallb plain cs.

Lemma plain_children e c : plain e = true → c ∈ children e → plain c = true.
Proof.
  destruct e as [t a x cs]. cbn. rewrite !andb_true_iff. intros [_ Hcs] Hc.
  rewrite forallb_forall in Hcs. by apply Hcs, list_elem_of_In.
Qed.
Lemma plain_findall e n c : plain e = true → c ∈ findall n e → plain c = true.
Proof. intros He [_ Hc]%list_elem_of_filter. by eapply plain_children. Qed.
Lemma plain_find e n c : plain e = true → find n e = Some c → plain c = true.
Proof.
  intros He Hc. apply (plain_findall e n); [done|]. unfold find in Hc.
  destruct (findall n e); [done|]. injection Hc as ->. left.
Qed.
Lemma plain_text e : plain e = true → no_lt (show (text e)) = true.
Proof. destruct e as [t a x cs]. cbn. rewrite !andb_true_iff. by intros [[? _] _]. Qed.
Lemma plain_get e k : plain e = true → no_lt (show (get k e)) = true.
Proof.
  destruct e as [t a x cs]. cbn. rewrite !andb_true_iff. intros [[_ Ha] _].
  destruct (head (filter (λ kv, kv.1 = k) a)) as [kv|] eqn:E; cbn; [|done].
  rewrite forallb_forall in Ha. apply Ha, list_elem_of_In.
  apply head_Some_elem_of, list_elem_of_filter in E as [_ ?]. done.
Qed.

Lemma plain_find_text e n x : plain e = true → find_text n e = Ok x → no_lt (show x) = true.
Proof.
  intros He (c & Hc & <-%Ok_inj)%py_bind_ok. unfold or_raise in Hc. destruct (find n e) eqn:E; [|done].
  apply Ok_inj in Hc as ->. by eapply plain_text, plain_find.
Qed.

Definition plain_info (i : test_info) : Prop :=
  no_lt (show (ti_result i)) = true ∧ no_lt (show (ti_name i)) = true ∧
  no_lt (show (ti_reason i)) = true ∧ no_lt (show (ti_time i)) = true.

Lemma read_test_plain e i : plain e = true → read_test e = Ok i → plain_info i.
Proof.
  intros He (r & Hr & (n & Hn & <-%Ok_inj)%py_bind_ok)%py_bind_ok. split_and!; cbn.
  - by eapply plain_find_text.
  - by eapply plain_find_text.
  - destruct (find "Reason" e) eqn:E; [|done]. by eapply plain_text, plain_find.
  - destruct (find "Time" e) eqn:E; [|done]. by eapply plain_get, plain_find.
Qed.

(** The [Result] of a node, as the conditions of the code see it. *)
Definition result_is (s : string) (e : element) : bool :=
  match find_text "Result" e with Ok r => is_str r s | Raise _ => false end.
Lemma read_test_result e i s : read_test e = Ok i → is_str (ti_result i) s = result_is s e.
Proof. intros (r & Hr & (n & Hn & <-%Ok_inj)%py_bind_ok)%py_bind_ok. unfold result_is. by rewrite Hr. Qed.

Lemma tag_run_text s stack : no_lt s = true → tag_run (stack, None) (chars s) = Some (stack, None).
Proof. intros Hs. exact (effect_text s Hs stack). Qed.

(** Run the checker over one written string: texts leave the tags alone, literals compute. *)
Ltac run_piece :=
  match goal with
  | |- tag_run _ (chars (?a +:+ ?b)) = _ => rewrite (chars_app a b), tag_run_app
  end;
  first
    [ rewrite tag_run_text by assumption
    | match goal with |- (tag_run ?st (chars ?l) ≫= _) = _ =>
        let r := eval vm_compute in (tag_run st (chars l)) in
        lazymatch r with Some _ => change (tag_run st (chars l)) with r | None => change (tag_run st (chars l)) with r end
      end ];
  cbn [mbind option_bind].
Ltac run_string := intros ?; repeat run_piece; first [ by rewrite tag_run_text by assumption | reflexivity ].

Lemma suite_header_effect i : plain_info i → effect (suite_header i) true.
Proof.
  intros (H1 & H2 & H3 & H4). unfold suite_header. destruct (is_str _ "PASS"); [run_string|].
  destruct (is_str _ "SKIP"); run_string.
Qed.

(** A row of a failed case closes a cell that is not open. *)
Lemma failure_row_effect i first_row d w :
  plain_info i → plain d = true → failure_row i first_row d = Ok w → effect (concat_str w) false.
Proof.
  intros (H1 & H2 & H3 & H4) Hd Hw. unfold failure_row in Hw.
  apply py_bind_ok in Hw as (m & Hm%(plain_find_text d) & Hw); [|done].
  apply py_bind_ok in Hw as (c & Hc%(plain_find_text d) & Hw); [|done].
  apply py_bind_ok in Hw as (a & Ha%(plain_find_text d) & Hw); [|done].
  apply py_bind_ok in Hw as (l & Hl%(plain_find_text d) & Hw); [|done].
  apply py_bind_ok in Hw as (f & Hf%(plain_find_text d) & Hw); [|done].
  apply py_bind_ok in Hw as (n & Hn%(plain_find_text d) & Hw); [|done].
  apply Ok_inj in Hw as <-. intros stack.
  destruct first_row; cbn [app concat_str]; rewrite <-!string_app_assoc; repeat run_piece; reflexivity.
Qed.

(** *** When the report is nested *)

Definition case_ok (case : element) : bool :=
  negb (result_is "FAIL" case && bool_decide (findall "FailureDetails" case ≠ [])).
Definition suite_ok (suite : element) : bool :=
  result_is "CRASH" suite || result_is "SKIP" suite || result_is "VALGR" suite ||
  forallb case_ok (findall "Test" suite).
Definition example_ok (example : element) : bool := negb (result_is "SKIP" example).

Lemma case_rows_effect case w :
  plain case = true → case_rows case = Ok w → effect (concat_str w) (case_ok case).
Proof.
  intros Hp (i & Hi & Hw)%py_bind_ok. pose proof (read_test_plain _ _ Hp Hi) as Hpi.
  rewrite (read_test_result _ _ "FAIL" Hi) in Hw. unfold case_ok. destruct (result_is "FAIL" case); cbn [andb].
  - assert (∀ d, d ∈ findall "FailureDetails" case → plain d = true) as Hpl by (intros d; by apply plain_findall).
    destruct (findall "FailureDetails" case) as [|d ds].
    + apply Ok_inj in Hw as <-. apply effect_nil.
    + cbn in Hw. apply py_bind_ok in Hw as (a & Ha & (b & _ & <-%Ok_inj)%py_bind_ok).
      rewrite bool_decide_eq_true_2, concat_str_app by done.
      intros stack. rewrite chars_app, tag_run_app.
      by rewrite (failure_row_effect i true d a Hpi (Hpl d ltac:(left)) Ha stack).
  - apply Ok_inj in Hw as <-. destruct Hpi as (H1 & H2 & H3 & H4). intros stack.
    cbn [concat_str]. rewrite <-!string_app_assoc. repeat run_piece. reflexivity.
Qed.

Lemma suite_html_effect suite w :
  plain suite = true → suite_html suite = Ok w → effect (concat_str w) (suite_ok suite).
Proof.
  intros Hp (i & Hi & Hw)%py_bind_ok. pose proof (read_test_plain _ _ Hp Hi) as Hpi.
  rewrite !(read_test_result _ _ _ Hi) in Hw. unfold suite_ok.
  destruct (result_is "CRASH" suite || result_is "SKIP" suite || result_is "VALGR" suite); cbn [orb].
  - apply Ok_inj in Hw as <-. rewrite concat_str_app. cbn [concat_str].
    intros stack. rewrite <-!string_app_assoc, chars_app, tag_run_app, (suite_header_effect i Hpi stack).
    destruct Hpi as (H1 & H2 & H3 & H4). cbn [mbind option_bind].
    destruct (result_is "SKIP" suite); repeat run_piece; reflexivity.
  - apply py_bind_ok in Hw as (rows & Hrows & <-%Ok_inj).
    destruct (effect_foldl case_rows case_ok _ _ _ Hrows) as (ws & -> & Hws).
    { intros c x Hc. apply case_rows_effect. by eapply plain_findall. }
    rewrite !concat_str_app. cbn [concat_str app]. intros stack.
    rewrite <-!string_app_assoc, chars_app, tag_run_app, (suite_header_effect i Hpi stack).
    cbn [mbind option_bind]. do 4 run_piece.
    destruct (result_is "FAIL" suite); cbn [concat_str]; rewrite ?string_app_nil_r; repeat run_piece;
      rewrite chars_app, tag_run_app, Hws; destruct (forallb case_ok _); reflexivity.
Qed.

Lemma example_row_effect example w :
  plain example = true → example_row example = Ok w → effect (concat_str w) (example_ok example).
Proof.
  intros Hp (i & Hi & <-%Ok_inj)%py_bind_ok. pose proof (read_test_plain _ _ Hp Hi) as (H1 & H2 & H3 & H4).
  rewrite !(read_test_result _ _ _ Hi). unfold example_ok.
  destruct (result_is "PASS" example) eqn:E1, (result_is "SKIP" example) eqn:E2.
  { unfold result_is in E1, E2. destruct (find_text "Result" example); [|done].
    apply bool_decide_eq_true in E1, E2. congruence. }
  all: intros stack; cbn [concat_str]; rewrite <-!string_app_assoc; repeat run_piece; reflexivity.
Qed.

(** What the HTML report reads: the suites and their cases, and the examples. *)
Definition complete_results (et : element) : Prop :=
  Forall (λ suite, complete_node suite ∧ Forall complete_node (findall "Test" suite)) (findall "Test" et) ∧
  Forall (has_text ["Result"; "Name"]) (findall "Example" et).

Lemma failure_row_Ok i first d :
  has_text ["Message"; "Condition"; "Actual"; "Limit"; "File"; "Line"] d →
  ∃ w, failure_row i first d = Ok w.
Proof.
  intros H. unfold failure_row.
  destruct (find_text_Ok "Message" d) as [? ->]; [apply H; set_solver|].
  destruct (find_text_Ok "Condition" d) as [? ->]; [apply H; set_solver|].
  destruct (find_text_Ok "Actual" d) as [? ->]; [apply H; set_solver|].
  destruct (find_text_Ok "Limit" d) as [? ->]; [apply H; set_solver|].
  destruct (find_text_Ok "File" d) as [? ->]; [apply H; set_solver|].
  destruct (find_text_Ok "Line" d) as [? ->]; [apply H; set_solver|]. by eexists.
Qed.

Lemma failure_rows_Ok i first ds :
  Forall (has_text ["Message"; "Condition"; "Actual"; "Limit"; "File"; "Line"]) ds →
  ∃ w, failure_rows i first ds = Ok w.
Proof.
  intros Hds. revert first. induction Hds as [|d ds Hd _ IH]; intros first; cbn [failure_rows]; [by eexists|].
  destruct (failure_row_Ok i first d Hd) as [w ->], (IH false) as [ws Hws]. cbn [mbind py_bind].
  rewrite Hws. by eexists.
Qed.

Lemma case_rows_Ok case : complete_node case → ∃ w, case_rows case = Ok w.
Proof.
  intros [H1 H2]. unfold case_rows. destruct (read_test_Ok case H1) as [i ->]. cbn [mbind py_bind].
  destruct (is_str _ _); [by apply failure_rows_Ok|by eexists].
Qed.

Lemma rows_Ok (f : element → py exn (list string)) out l :
  Forall (λ e, ∃ w, f e = Ok w) l → ∃ w, py_foldl (λ out e, w ← f e; Ok (out ++ w)) out l = Ok w.
Proof.
  intros Hl. apply py_foldl_returns. eapply Forall_impl; [exact Hl|]. intros e [w Hw] s. rewrite Hw. by eexists.
Qed.

Lemma suite_html_Ok suite :
  complete_node suite → Forall complete_node (findall "Test" suite) → ∃ w, suite_html suite = Ok w.
Proof.
  intros [H1 _] H2. unfold suite_html. destruct (read_test_Ok suite H1) as [i ->]. cbn [mbind py_bind].
  destruct (_ || _ || _); [by eexists|].
  destruct (rows_Ok case_rows [] (findall "Test" suite)) as [w ->]; [|by eexists].
  eapply Forall_impl; [exact H2|]. intros c. apply case_rows_Ok.
Qed.

Lemma translate_to_html_Ok et : complete_results et → ∃ out, translate_to_html et = Ok out.
Proof.
  intros [H1 H2]. unfold translate_to_html.
  edestruct (rows_Ok suite_html) as [w ->]; [eapply Forall_impl; [exact H1|]; intros s [? ?];
    by apply suite_html_Ok|].
  cbn [mbind py_bind]. edestruct (rows_Ok example_row) as [w' ->]; [|by eexists].
  eapply Forall_impl; [exact H2|]. intros e He. unfold example_row. destruct (read_test_Ok e He) as [i ->].
  by eexists.
Qed.

(** For complete results without [<] in a text, the HTML report is written, and it is
    properly nested exactly when no case with failure details is shown and no example was skipped: the row of a failure
    ends with a second [</td>] instead of [</tr>], and the cell of a skipped example with
    [</fd>]. *)
Theorem html_nested_iff (et : element) :
  plain et = true → complete_results et →
  ∃ out, translate_to_html et = Ok out ∧
  nested out = forallb suite_ok (findall "Test" et) && forallb example_ok (findall "Example" et).
Proof.
  intros Hp Hc. destruct (translate_to_html_Ok et Hc) as [out Hrun]. exists out. split; [done|].
  clear Hc. unfold translate_to_html in Hrun.
  apply py_bind_ok in Hrun as (o1 & H1 & (o2 & H2 & <-%Ok_inj)%py_bind_ok).
  destruct (effect_foldl suite_html suite_ok _ _ _ H1) as (ws1 & -> & E1).
  { intros c w Hc. apply suite_html_effect. by eapply plain_findall. }
  destruct (effect_foldl example_row example_ok _ _ _ H2) as (ws2 & -> & E2).
  { intros c w Hc. apply example_row_effect. by eapply plain_findall. }
  unfold nested. rewrite !concat_str_app. cbn [concat_str]. rewrite <-!string_app_assoc, !string_app_nil_r.
  match goal with |- bool_decide (?x = _) = _ =>
    enough (x = if forallb suite_ok (findall "Test" et) && forallb example_ok (findall "Example" et)
                then Some ([], None) else None) as -> end.
  { destruct (_ && _); [by apply bool_decide_eq_true_2|by apply bool_decide_eq_false_2]. }
  repeat run_piece. rewrite chars_app, tag_run_app, E1. destruct (forallb suite_ok _); [|done].
  cbn [mbind option_bind andb]. repeat run_piece. rewrite chars_app, tag_run_app, E2.
  destruct (forallb example_ok _); [|done]. cbn [mbind option_bind]. repeat run_piece. reflexivity.
Qed.

Lemma html_nested_iff_witness :
  let report cases := Element "Results" [] None [sample_suite "FAIL" cases] in
  (∃ out, translate_to_html (report [sample_case "PASS" []]) = Ok out ∧ nested out = true) ∧
  (∃ out, translate_to_html (report [sample_case "FAIL" [details]]) = Ok out ∧ nested out = false).
Proof.
  intros report. split.
  - destruct (html_nested_iff (report [sample_case "PASS" []])) as (out & Hout & Hn); [by vm_compute| |].
    { split; repeat constructor; solve_has_text. }
    exists out. split; [exact Hout|]. rewrite Hn. by vm_compute.
  - destruct (html_nested_iff (report [sample_case "FAIL" [details]])) as (out & Hout & Hn); [by vm_compute| |].
    { split; repeat constructor; solve_has_text. }
    exists out. split; [exact Hout|]. rewrite Hn. by vm_compute.
Defined.

(** ** Nesting of the results file *)

(** The file when the last job has been collected. *)
Definition results_file (s : summary) : list string := xml s ++ [esc "</Results>\n"].

Lemma close_tag_frame stack body stack' base :
  close_tag stack body = Some stack' → close_tag (stack ++ base) body = Some (stack' ++ base).
Proof.
  unfold close_tag. destruct (_ || _); [by intros [= ->]|].
  destruct (strip_prefix "/" _) as [name|]; [|by intros [= <-]].
  destruct stack as [|t stack]; [done|]. cbn. case_decide; [by intros [= ->]|done].
Qed.

Lemma tag_run_frame cs stack x stack' x' base :
  tag_run (stack, x) cs = Some (stack', x') → tag_run (stack ++ base, x) cs = Some (stack' ++ base, x').
Proof.
  revert stack x. induction cs as [|c cs IH]; intros stack x; cbn; [by intros [= -> ->]|].
  destruct x as [body|]; cbn.
  - case_decide; cbn; [|apply IH]. destruct (close_tag stack body) as [s1|] eqn:E; [|done].
    rewrite (close_tag_frame _ _ _ base E). cbn. apply IH.
  - case_decide; apply IH.
Qed.

Lemma nested_effect c : nested [c] = true → effect c true.
Proof.
  unfold nested. cbn. rewrite string_app_nil_r. intros Hc%bool_decide_eq_true stack.
  exact (tag_run_frame _ _ _ _ _ stack Hc).
Qed.

(** Text inside a tag. *)
Lemma tag_run_attr s stack body :
  has_char ">" s = false → tag_run (stack, Some body) (chars s) = Some (stack, Some (reverse (chars s) ++ body)).
Proof.
  revert body. induction s as [|c s IH]; intros body Hs; [done|]. cbn in Hs.
  apply orb_false_iff in Hs as [Hc Hs]. apply bool_decide_eq_false in Hc. cbn [chars tag_run tag_char].
  rewrite decide_False by congruence. cbn [mbind option_bind]. rewrite IH by done.
  by rewrite reverse_cons, <-app_assoc.
Qed.

Lemma status_no_lt st : no_lt (status_name st) = true.
Proof. by destruct st. Qed.

Lemma job_xml_effect fmt3 tmp j w :
  (∀ q, has_char ">" (fmt3 q) = false) → (∀ f c, tmp !! f = Some c → nested [c] = true) →
  no_lt (display_name j) = true → no_lt (skip_reason j) = true →
  job_xml fmt3 tmp j = Ok w → effect (concat_str w) true.
Proof.
  intros Hf Ht Hn Hr. unfold job_xml. pose proof (status_no_lt (job_status j)) as Hst.
  specialize (Hf (elapsed_time j)). destruct (is_example j || is_pyexample j).
  { intros <-%Ok_inj stack. cbn [concat_str]. rewrite <-!string_app_assoc. repeat run_piece.
    rewrite chars_app, tag_run_app, tag_run_attr by done. reflexivity. }
  destruct (is_skip j).
  { intros <-%Ok_inj stack. cbn [concat_str]. rewrite <-!string_app_assoc. repeat run_piece. reflexivity. }
  destruct (_ || _ || _).
  - intros (c & Hc & <-%Ok_inj)%py_bind_ok. unfold or_raise in Hc.
    destruct (tmp !! tmp_file_name j) eqn:E; [|done]. apply Ok_inj in Hc as ->.
    cbn. rewrite string_app_nil_r. by eapply nested_effect, Ht.
  - intros <-%Ok_inj stack. cbn [concat_str]. rewrite <-!string_app_assoc. repeat run_piece. reflexivity.
Qed.

Lemma collect_xml o use fmt3 tmp total l s0 s :
  (∀ q, has_char ">" (fmt3 q) = false) → (∀ f c, tmp !! f = Some c → nested [c] = true) →
  Forall (λ j, no_lt (display_name j) = true ∧ no_lt (skip_reason j) = true) l →
  py_foldl (collect o use fmt3 tmp total) s0 l = Ok s →
  ∃ ws, xml s = xml s0 ++ ws ∧ effect (concat_str ws) true.
Proof.
  intros Hf Ht Hl. revert s0. induction Hl as [|j l [Hn Hr] _ IH]; intros s0 Hrun; cbn in Hrun.
  - apply Ok_inj in Hrun as <-. exists []. split; [by rewrite app_nil_r|apply effect_nil].
  - apply py_bind_ok in Hrun as (s1 & H1 & H2). destruct (IH s1 H2) as (ws & Hx & Hws).
    assert (∃ w, xml s1 = xml s0 ++ w ∧ effect (concat_str w) true) as (w & Hw & Hew).
    { unfold collect in H1. destruct (is_break j).
      - apply Ok_inj in H1 as <-. exists []. split; [by rewrite app_nil_r|apply effect_nil].
      - apply py_bind_ok in H1 as (w & Hw & <-%Ok_inj). exists w. split; [|by eapply job_xml_effect].
        cbn. unfold count_job. by destruct (job_status j). }
    exists (w ++ ws). rewrite Hx, Hw, <-app_assoc. split; [done|]. rewrite concat_str_app.
    by apply (effect_app _ _ true true).
Qed.

(** When the files of the suites are there and properly nested, no name or reason has a
    [<] and no time a [>], the results file is written and is properly nested: whatever order
    the results came in, whatever their status, and whether or not jobs were abandoned. *)
Theorem results_file_nested (o : options) (use_color : bool) (fmt3 : Q → string)
    (tmp_files : gmap string string) (total : nat) (l : list job) :
  (∀ q, has_char ">" (fmt3 q) = false) → (∀ f c, tmp_files !! f = Some c → nested [c] = true) →
  Forall (λ j, no_lt (display_name j) = true ∧ no_lt (skip_reason j) = true) l →
  files_written tmp_files l →
  ∃ s, py_foldl (collect o use_color fmt3 tmp_files total) no_results l = Ok s ∧
    nested (results_file s) = true.
Proof.
  intros Hf Ht Hl Hw. destruct (collect_returns o use_color fmt3 tmp_files total l no_results Hw) as [s Hrun].
  exists s. split; [done|]. destruct (collect_xml _ _ _ _ _ _ _ _ Hf Ht Hl Hrun) as (ws & Hx & Hws).
  unfold nested, results_file. rewrite Hx. apply bool_decide_eq_true.
  rewrite !concat_str_app. cbn [concat_str xml no_results]. rewrite <-!string_app_assoc, string_app_nil_r.
  repeat run_piece. rewrite chars_app, tag_run_app, Hws. cbn [mbind option_bind]. reflexivity.
Qed.

Lemma results_file_nested_witness :
  ∃ s, py_foldl (collect demo_options false (λ _, "0.000") demo_tmp 2) no_results (results demo_end) = Ok s ∧
    nested (results_file s) = true.
Proof.
  apply (results_file_nested demo_options false (λ _, "0.000") demo_tmp 2 (results demo_end));
    [done| |by repeat constructor|by repeat constructor; intros _; eexists].
  intros f c Hc. unfold demo_tmp in Hc.
  apply lookup_insert_Some in Hc as [[_ <-]|[_ Hc]]; [done|]. by apply lookup_singleton_Some in Hc as [_ <-].
Defined.
