(* ===== verification/TestConfig.v ===== *)
(** * TestConfig: configuration files, paths and example lists

    [utils.py] ([get_list_from_file], [get_bool_from_file], [read_config_file]) and, from
    [test.py], [make_paths], [parse_examples_to_run_file] and the loops of [run_tests] over
    the example directories.  Evaluating the text of a Python expression is a parameter, as
    is the set of files that exist. *)

From stdpp Require Import base list strings gmap.
From Stdlib Require Import Ascii.
From S2P Require Import Prelude TestJobs.
Open Scope nat_scope.

(** ** [utils.py] *)

(** [if '#' in line: (line, comment) = line.split('#', 1)]. *)
Definition strip_comment (line : string) : string :=
  match split_once "#" line with Some (a, _) => a | None => line end.

(** [s.split('=', 1)[1].strip()]. *)
Definition right_side (s : string) : py exn string :=
  match split_once "=" s with Some (_, r) => Ok (strip r) | None => Raise IndexError end.

Section config_files.
Context {V : Type} (eval : string → py exn V).

(** The loop over the lines; [None] when it ends without having evaluated anything. *)
Fixpoint find_list (list_name list_string : string) (parsing_multiline_list : bool) (lines : list string)
    : py exn (option V) :=
  match lines with
  | [] => Ok None
  | line :: lines =>
      let line := strip_comment line in
      if has_sub list_name line || parsing_multiline_list then
        let list_string := list_string +:+ line in
        if has_char "]" list_string then
          r ← right_side list_string; v ← eval r; Ok (Some v)
        else find_list list_name list_string true lines
      else find_list list_name list_string parsing_multiline_list lines
  end.
(** [file] is the contents of the file by lines, [None] if it does not exist. *)
Definition get_list_from_file (file : option (list string)) (list_name : string) (empty : V) : py exn V :=
  match file with
  | None => Ok empty
  | Some lines => r ← find_list list_name "" false lines; Ok (default empty r)
  end.

Fixpoint find_bool (bool_name : string) (lines : list string) : py exn (option V) :=
  match lines with
  | [] => Ok None
  | line :: lines =>
      let line := strip_comment line in
      if has_sub bool_name line then r ← right_side line; v ← eval r; Ok (Some v)
      else find_bool bool_name lines
  end.
(** [bool_found] is only assigned when the file exists. *)
Definition get_bool_from_file (file : option (list string)) (bool_name : string) (value_if_missing : V)
    : py exn V :=
  match file with
  | None => Raise UnboundLocalError
  | Some lines => r ← find_bool bool_name lines; Ok (default value_if_missing r)
  end.
End config_files.

(** [read_config_file]: the files, the home directory, and the evaluation of list and
    boolean expressions. *)
Record ns3rc := Ns3rc {
  config_file_exists : bool; modules_enabled : list string; examples_enabled : bool; tests_enabled : bool
}.
Definition read_config_file (eval_list : string → py exn (list string)) (eval_bool : string → py exn bool)
    (fs : gmap string (list string)) (home : string) : py exn ns3rc :=
  let path := if decide (is_Some (fs !! ".ns3rc")) then ".ns3rc" else home +:+ ".ns3rc" in
  match fs !! path with
  | None => Ok (Ns3rc false ["all_modules"] false false)
  | Some lines =>
      modules ← get_list_from_file eval_list (Some lines) "modules_enabled" [];
      let modules := match modules with [] => ["all_modules"] | _ => modules end in
      examples ← get_bool_from_file eval_bool (Some lines) "examples_enabled" false;
      tests ← get_bool_from_file eval_bool (Some lines) "tests_enabled" false;
      Ok (Ns3rc true modules examples tests)
  end.

(** ** [make_paths] *)

(** [os.environ[key] += s], where the key exists. *)
Definition env_append (key s : string) (env : gmap string string) : gmap string string :=
  alter (λ v, v +:+ s) key env.
Definition add_library_path (key sep : string) (paths : list string) (have : bool)
    (env : gmap string string) : gmap string string :=
  let env := if have then env else <[key := ""]> env in
  foldl (λ env p, env_append key (sep +:+ p) env) env paths.

Definition make_paths (platform NS3_BUILDDIR : string) (NS3_MODULE_PATH : list string)
    (env : gmap string string) : gmap string string :=
  let have key := bool_decide (is_Some (env !! key)) in
  let have_DYLD_LIBRARY_PATH := have "DYLD_LIBRARY_PATH" in
  let have_LD_LIBRARY_PATH := have "LD_LIBRARY_PATH" in
  let have_PATH := have "PATH" in
  let have_PYTHONPATH := have "PYTHONPATH" in
  let pypath := Path.join (Path.join NS3_BUILDDIR "bindings") "python" in
  let env := <["PYTHONPATH" := pypath]> env in
  let env := if negb have_PYTHONPATH then <["PYTHONPATH" := pypath]> env
             else env_append "PYTHONPATH" (":" +:+ pypath) env in
  if decide (platform = "darwin") then
    add_library_path "DYLD_LIBRARY_PATH" ":" NS3_MODULE_PATH have_DYLD_LIBRARY_PATH env
  else if decide (platform = "win32") then add_library_path "PATH" ";" NS3_MODULE_PATH have_PATH env
  else if decide (platform = "cygwin") then add_library_path "PATH" ":" NS3_MODULE_PATH have_PATH env
  else add_library_path "LD_LIBRARY_PATH" ":" NS3_MODULE_PATH have_LD_LIBRARY_PATH env.

(** ** The example lists *)

(** [os.path.relpath(path, start)]. *)
Fixpoint drop_common (a b : list string) : list string * list string :=
  match a, b with
  | x :: a', y :: b' => if decide (x = y) then drop_common a' b' else (a, b)
  | _, _ => (a, b)
  end.
Definition relpath (getcwd path start : string) : string :=
  let comps p := filter (λ c, c ≠ "") (split_all "/" (Path.abspath getcwd p)) in
  let '(start_rest, path_rest) := drop_common (comps start) (comps path) in
  match (replicate (length start_rest) ".." ++ path_rest)%list with
  | [] => "."
  | l => join "/" l
  end.

(** The three lists that the function appends to. *)
Record example_lists := ExampleLists {
  example_tests : list (string * string * string * string);
  example_names_original : list string;
  python_tests : list (string * string)
}.

Section examples.
Context (c : config) (getcwd : string) (exists_ : string → bool).
(** The lists in an [examples-to-run] file, evaluated. *)
Context (cpp_examples : string → py exn (list (string * string * string)))
        (python_examples : string → py exn (list (string * string))).

(** [example_name.split(' ', 1)]: the name and its arguments, if any. *)
Definition name_args (example_name : string) : string * option string :=
  match split_once " " example_name with Some (n, a) => (n, Some a) | None => (example_name, None) end.
Definition with_args (s : string) (args : option string) : string :=
  match args with Some a => s +:+ " " +:+ a | None => s end.

Definition add_cpp (cpp_executable_dir : string) (ls : example_lists) (e : string * string * string)
    : example_lists :=
  let '(example_name_original, do_run, do_valgrind_run) := e in
  let '(example_name, args) := name_args example_name_original in
  let example_path := Path.join cpp_executable_dir (program_name c example_name) in
  let example_name := Path.join (relpath getcwd cpp_executable_dir (NS3_BUILDDIR c)) example_name in
  if exists_ example_path then
    ExampleLists (example_tests ls ++ [(with_args example_name args, with_args example_path args, do_run,
                                        do_valgrind_run)])
      (example_names_original ls ++ [example_name_original]) (python_tests ls)
  else ls.
Definition add_python (python_script_dir : string) (ls : example_lists) (e : string * string) : example_lists :=
  let '(example_name, do_run) := e in
  let '(example_name, args) := name_args example_name in
  let example_path := Path.join python_script_dir example_name in
  if exists_ example_path then
    ExampleLists (example_tests ls) (example_names_original ls)
      (python_tests ls ++ [(with_args example_path args, do_run)])
  else ls.

Definition parse_examples_to_run_file (examples_to_run_path cpp_executable_dir python_script_dir : string)
    (ls : example_lists) : py exn example_lists :=
  if exists_ examples_to_run_path then
    cpp ← cpp_examples examples_to_run_path;
    let ls := foldl (add_cpp cpp_executable_dir) ls cpp in
    python ← python_examples examples_to_run_path;
    Ok (foldl (add_python python_script_dir) ls python)
  else Ok ls.

(** The path arguments for a directory of [examples/] and for a module of [src/] or
    [contrib/], whose name loses its first four characters. *)
Definition directory_paths (directory : string) : string * string * string :=
  let example_directory := Path.join "examples" directory in
  (Path.join example_directory "examples-to-run.py", Path.join (NS3_BUILDDIR c) example_directory,
   example_directory).
Definition module_paths (top module : string) : string * string * string :=
  let module := implode (py_slice_from (chars module) 4) in
  let module_directory := Path.join top module in
  let example_directory := Path.join module_directory "examples" in
  (Path.join (Path.join module_directory "test") "examples-to-run.py",
   Path.join (NS3_BUILDDIR c) example_directory, example_directory).

Definition collect_examples (EXAMPLE_DIRECTORIES NS3_ENABLED_MODULES NS3_ENABLED_CONTRIBUTED_MODULES : list string)
    : py exn example_lists :=
  py_foldl (λ ls '(a, b, d), parse_examples_to_run_file a b d ls) (ExampleLists [] [] [])
    ((directory_paths <$> EXAMPLE_DIRECTORIES) ++ (module_paths "src" <$> NS3_ENABLED_MODULES) ++
     (module_paths "contrib" <$> NS3_ENABLED_CONTRIBUTED_MODULES)).
End examples.

(** ** Reading configuration files *)

Section find_facts.
Context {V : Type} (eval : string → py exn V).

(** The comments stripped and the lines joined. *)
Definition stripped (lines : list string) : string := concat_str (strip_comment <$> lines).

Lemma find_list_skip name acc pre lines :
  Forall (λ l, has_sub name (strip_comment l) = false) pre →
  find_list eval name acc false (pre ++ lines) = find_list eval name acc false lines.
Proof. induction 1 as [|l pre Hl _ IH]; cbn; [done|]. by rewrite Hl. Qed.

(** Once in a list, the loop reads up to the closing bracket. *)
Lemma find_list_multi name acc b bs post :
  has_char "]" (acc +:+ stripped (removelast (b :: bs))) = false →
  has_char "]" (acc +:+ stripped (b :: bs)) = true →
  find_list eval name acc true ((b :: bs) ++ post) =
  (r ← right_side (acc +:+ stripped (b :: bs)); v ← eval r; Ok (Some v)).
Proof.
  revert acc b. induction bs as [|b' bs IH]; intros acc b Hno Hyes; unfold stripped in *; cbn in *.
  - rewrite string_app_nil_r in Hyes |- *. rewrite orb_true_r. by rewrite Hyes.
  - rewrite orb_true_r. rewrite string_app_assoc, has_char_app in Hno.
    apply orb_false_iff in Hno as [Hno1 Hno2]. rewrite Hno1. rewrite string_app_assoc in Hyes |- *.
    apply IH; [|done]. by rewrite has_char_app, Hno1.
Qed.
End find_facts.

(** A list is found wherever it stands: after lines that do not mention the name, the
    text from the line with the name to the line with the first closing bracket, without
    comments, is evaluated from its first equals sign on, and what follows is not read.  A
    file without the name, and a missing file, give the empty list. *)
Theorem get_list_from_file_spec {V} (eval : string → py exn V) (name : string) (empty : V)
    (pre bs post : list string) (b : string) :
  Forall (λ l, has_sub name (strip_comment l) = false) pre →
  has_sub name (strip_comment b) = true →
  has_char "]" (stripped (removelast (b :: bs))) = false →
  has_char "]" (stripped (b :: bs)) = true →
  get_list_from_file eval (Some (pre ++ (b :: bs) ++ post)) name empty
    = (r ← right_side (stripped (b :: bs)); eval r) ∧
  get_list_from_file eval (Some pre) name empty = Ok empty ∧
  get_list_from_file eval None name empty = Ok empty.
Proof.
  intros Hpre Hb Hno Hyes. split_and!; [| |done].
  - unfold get_list_from_file. rewrite find_list_skip by done.
    assert (find_list eval name "" false ((b :: bs) ++ post) = find_list eval name "" true ((b :: bs) ++ post))
      as -> by (cbn; by rewrite Hb).
    rewrite find_list_multi by done. cbn [String.append].
    destruct (right_side (stripped (b :: bs))) as [r|]; cbn; [|done]. by destruct (eval r).
  - unfold get_list_from_file. rewrite <-(app_nil_r pre), find_list_skip by done. done.
Qed.

Lemma get_list_from_file_spec_witness :
  let lines := esc <$> ["# modules\n"; "modules_enabled = ['core', # first\n"; " 'wifi']\n"; "tests_enabled = False\n"] in
  get_list_from_file (λ s, Ok s) (Some lines) "modules_enabled" "" = Ok "['core',  'wifi']".
Proof.
  intros lines.
  destruct (get_list_from_file_spec (λ s, Ok s) "modules_enabled" "" [esc "# modules\n"] [esc " 'wifi']\n"]
    [esc "tests_enabled = False\n"] (esc "modules_enabled = ['core', # first\n")) as [H _].
  - by repeat constructor.
  - by vm_compute.
  - by vm_compute.
  - by vm_compute.
  - etrans; [exact H|by vm_compute].
Defined.

(** A boolean is the value of the first line that mentions its name, or the given
    default if no line does; but a missing file raises UnboundLocalError instead of
    returning the default. *)
Theorem get_bool_from_file_spec {V} (eval : string → py exn V) (name : string) (value_if_missing : V)
    (pre post : list string) (b : string) :
  Forall (λ l, has_sub name (strip_comment l) = false) pre → has_sub name (strip_comment b) = true →
  get_bool_from_file eval (Some (pre ++ b :: post)) name value_if_missing
    = (r ← right_side (strip_comment b); eval r) ∧
  get_bool_from_file eval (Some pre) name value_if_missing = Ok value_if_missing ∧
  get_bool_from_file eval None name value_if_missing = Raise UnboundLocalError.
Proof.
  intros Hpre Hb. split_and!; [| |done]; unfold get_bool_from_file.
  - assert (find_bool eval name (pre ++ b :: post) = (r ← right_side (strip_comment b); v ← eval r;
      Ok (Some v))) as ->.
    { induction Hpre as [|l pre Hl _ IH]; cbn; [by rewrite Hb|by rewrite Hl]. }
    destruct (right_side (strip_comment b)) as [r|]; cbn; [|done]. by destruct (eval r).
  - assert (find_bool eval name pre = Ok None) as ->; [|done].
    induction Hpre as [|l pre Hl _ IH]; cbn; [done|by rewrite Hl].
Qed.

Lemma get_bool_from_file_spec_witness :
  get_bool_from_file (λ s, Ok s) (Some (esc <$> ["# x\n"; "tests_enabled = True # yes\n"])) "tests_enabled" "False"
  = Ok "True".
Proof.
  etrans; [apply (get_bool_from_file_spec (λ s, Ok s) "tests_enabled" "False" [esc "# x\n"] []
    (esc "tests_enabled = True # yes\n")); [by repeat constructor|by vm_compute]|by vm_compute].
Defined.

(** ** Paths *)

Lemma add_library_path_value key sep paths have env :
  (have = false ∨ is_Some (env !! key)) →
  add_library_path key sep paths have env !! key =
    Some ((if have then default "" (env !! key) else "") +:+ concat_str ((λ p, sep +:+ p) <$> paths)) ∧
  ∀ k, k ≠ key → add_library_path key sep paths have env !! k = env !! k.
Proof.
  intros Hhave. unfold add_library_path. set (env0 := if have then env else _).
  assert (env0 !! key = Some (if have then default "" (env !! key) else "") ∧ ∀ k, k ≠ key → env0 !! k = env !! k)
    as [H1 H2].
  { unfold env0. destruct have.
    - destruct Hhave as [?|[v Hv]]; [done|]. by rewrite Hv.
    - split; [by rewrite lookup_insert_eq|]. intros k Hk. by rewrite lookup_insert_ne. }
  clearbody env0. revert H1. generalize (if have then default "" (env !! key) else "") as v.
  revert env0 H2. induction paths as [|p paths IH]; intros env0 H2 v H1; cbn [foldl fmap list_fmap concat_str].
  - by rewrite string_app_nil_r.
  - rewrite string_app_assoc. apply IH.
    + intros k Hk. unfold env_append. rewrite lookup_alter_ne by done. by apply H2.
    + unfold env_append. rewrite lookup_alter_eq, H1. done.
Qed.

(** On Linux, [make_paths] appends every module path to LD_LIBRARY_PATH and leaves all
    other variables alone but PYTHONPATH, which it replaces: a value the user had set is
    lost, and the path of the bindings then stands there twice. *)
Theorem make_paths_linux (builddir : string) (module_path : list string) (env : gmap string string) :
  let env' := make_paths "linux" builddir module_path env in
  let pypath := Path.join (Path.join builddir "bindings") "python" in
  env' !! "LD_LIBRARY_PATH" =
    Some (default "" (env !! "LD_LIBRARY_PATH") +:+ concat_str ((λ p, ":" +:+ p) <$> module_path)) ∧
  env' !! "PYTHONPATH" =
    Some (match env !! "PYTHONPATH" with Some _ => pypath +:+ ":" +:+ pypath | None => pypath end) ∧
  ∀ k, k ≠ "LD_LIBRARY_PATH" → k ≠ "PYTHONPATH" → env' !! k = env !! k.
Proof.
  cbn zeta. unfold make_paths. set (pypath := Path.join _ _). cbn [decide].
  set (env1 := if negb _ then _ else _).
  assert (env1 !! "PYTHONPATH" = Some (match env !! "PYTHONPATH" with Some _ => pypath +:+ ":" +:+ pypath | None => pypath end)
    ∧ ∀ k, k ≠ "PYTHONPATH" → env1 !! k = env !! k) as [H1 H2].
  { unfold env1, env_append. destruct (env !! "PYTHONPATH") as [v|]; cbn.
    - rewrite lookup_alter_eq, lookup_insert_eq. split; [done|]. intros k Hk.
      by rewrite lookup_alter_ne, lookup_insert_ne by done.
    - rewrite lookup_insert_eq. split; [done|]. intros k Hk. by rewrite !lookup_insert_ne by done. }
  clearbody env1. rewrite !decide_False by done.
  destruct (add_library_path_value "LD_LIBRARY_PATH" ":" module_path
    (bool_decide (is_Some (env !! "LD_LIBRARY_PATH"))) env1) as [H3 H4].
  { rewrite H2 by done. destruct (env !! "LD_LIBRARY_PATH"); [right; by eexists|by left]. }
  rewrite H3, !H4, H1, (H2 "LD_LIBRARY_PATH") by done. split_and!; [|done|].
  - by destruct (env !! "LD_LIBRARY_PATH").
  - intros k Hk1 Hk2. by rewrite H4, H2.
Qed.

(** ** Example lists *)

Lemma split_all_none c s : has_char c s = false → split_all c s = [s].
Proof.
  induction s as [|d s IH]; cbn; [done|]. rewrite orb_false_iff, bool_decide_eq_false. intros [Hc Hs].
  rewrite decide_False by done. by rewrite IH.
Qed.

Lemma split_all_nonnil c s : split_all c s ≠ [].
Proof. destruct s as [|d s]; cbn; [done|]. case_decide; [done|]. by destruct (split_all c s). Qed.

(** Cutting at one occurrence cuts the list of the pieces in two. *)
Lemma split_all_pieces c s : Forall (λ x, has_char c x = false) (split_all c s).
Proof.
  induction s as [|d s IH]; cbn; [by repeat constructor|]. case_decide as E; [by constructor|].
  destruct (split_all c s) as [|x l]; inversion IH; subst; repeat constructor; try done.
  all: cbn; rewrite bool_decide_eq_false_2 by congruence; done.
Qed.
Lemma split_all_app c a b : split_all c (a +:+ String c b) = split_all c a ++ split_all c b.
Proof.
  induction a as [|d a IH]; cbn; [by rewrite decide_True|]. rewrite IH. case_decide; [done|].
  destruct (split_all c a) eqn:E; [by apply split_all_nonnil in E|done].
Qed.

Lemma last_split_all c a b : last (split_all c (a +:+ String c b)) = last (split_all c b).
Proof.
  rewrite split_all_app. destruct (split_all c b) eqn:E; [by apply split_all_nonnil in E|].
  apply last_app_cons.
Qed.

Lemma basename_join dir p : has_char "/" p = false → Path.basename (Path.join dir p) = p.
Proof.
  intros Hp. assert (Path.basename p = p) as Hb by (unfold Path.basename; by rewrite split_all_none).
  unfold Path.join. destruct (startswith p "/"); [done|]. destruct (decide (dir = "")); [done|].
  assert (∀ a, Path.basename (a +:+ String "/" p) = p) as Hslash.
  { intros a. unfold Path.basename. by rewrite last_split_all, split_all_none. }
  unfold Path.ends_slash. destruct (last (chars dir)) as [ch|] eqn:El; [|apply Hslash].
  destruct (bool_decide_reflect (ch = "/"%char)) as [->|_]; [|apply Hslash].
  assert (∃ d, dir = d +:+ "/") as [d ->].
  { destruct (chars dir) as [|x l _] eqn:Ec using rev_ind; [done|]. rewrite last_snoc in El. injection El as ->.
    exists (implode l). by rewrite <-(implode_chars dir), Ec, implode_app. }
  rewrite <-string_app_assoc. apply (Hslash d).
Qed.

Lemma example_base_with_args p args :
  has_char " " p = false → example_base (with_args p args) = Path.basename p.
Proof.
  intros Hp. unfold example_base. destruct args as [a|]; unfold with_args.
  - by rewrite (proj2 (split_once_Some " " (p +:+ " " +:+ a) p a)).
  - by rewrite (proj2 (split_once_None _ _) Hp).
Qed.

Lemma has_char_join c a b :
  c ≠ "/"%char → has_char c a = false → has_char c b = false → has_char c (Path.join a b) = false.
Proof.
  intros Hc Ha Hb. unfold Path.join. destruct (startswith b "/"); [done|]. case_decide; [done|].
  destruct (Path.ends_slash a); rewrite !has_char_app, Ha, Hb; [done|]. cbn.
  by rewrite bool_decide_eq_false_2.
Qed.

(** An example that was built is put on the list, and the name under which [run_tests]
    looks it up among the runnable programs is the name of its program, whether or not it
    has arguments, provided the directory of the executables has no space in its path. *)
Theorem example_lookup_name (c : config) (getcwd : string) (exists_ : string → bool) (dir : string)
    (ls : example_lists) (original do_run do_valgrind_run : string) :
  let '(name, args) := name_args original in
  exists_ (Path.join dir (program_name c name)) = true →
  has_char " " dir = false → has_char " " (program_name c name) = false →
  has_char "/" (program_name c name) = false →
  ∃ shown test,
    example_tests (add_cpp c getcwd exists_ dir ls (original, do_run, do_valgrind_run))
      = example_tests ls ++ [(shown, test, do_run, do_valgrind_run)] ∧
    example_base test = program_name c name.
Proof.
  unfold add_cpp. destruct (name_args original) as [name args]. intros He Hd Hs Hp. rewrite He. cbn.
  eexists _, _. split; [done|]. rewrite example_base_with_args; [by apply basename_join|].
  by apply has_char_join.
Qed.

Lemma example_lookup_name_witness :
  ∃ shown test,
    example_tests (add_cpp demo_config "/ns3" (λ _, true) "/ns3/build/examples/udp" (ExampleLists [] [] [])
      ("udp-echo --n=3", "True", "True")) = [(shown, test, "True", "True")] ∧
    example_base test = "ns3.36-udp-echo-default".
Proof.
  apply (example_lookup_name demo_config "/ns3" (λ _, true) "/ns3/build/examples/udp" (ExampleLists [] [] [])
    "udp-echo --n=3" "True" "True"); by vm_compute.
Defined.

(** With a space in the path the lookup uses a different name, and the example is left out. *)
Lemma example_lookup_space :
  example_base (Path.join "/my ns3/build" (program_name demo_config "udp-echo")) = "my".
Proof. by vm_compute. Qed.

(** *** All the lists *)

(** What holds of the lists: the original names go with the C++ examples, and what is listed
    exists. *)
Definition lists_ok (exists_ : string → bool) (ls : example_lists) : Prop :=
  length (example_names_original ls) = length (example_tests ls) ∧
  Forall (λ e : string * string * string * string, ∃ path args, exists_ path = true ∧ e.1.1.2 = with_args path args)
    (example_tests ls) ∧
  Forall (λ e, ∃ path args, exists_ path = true ∧ e.1 = with_args path args) (python_tests ls).

Lemma add_cpp_ok c getcwd exists_ dir ls e :
  lists_ok exists_ ls → lists_ok exists_ (add_cpp c getcwd exists_ dir ls e).
Proof.
  intros (H1 & H2 & H3). unfold add_cpp. destruct e as [[orig do_run] do_vg].
  destruct (name_args orig) as [name args]. destruct (exists_ _) eqn:E; [|by split_and!].
  split_and!; cbn [example_tests example_names_original python_tests]; [by rewrite !length_app, H1| |done].
  apply Forall_app. split; [done|]. apply Forall_singleton. by eexists _, _.
Qed.
Lemma add_python_ok exists_ dir ls e : lists_ok exists_ ls → lists_ok exists_ (add_python exists_ dir ls e).
Proof.
  intros (H1 & H2 & H3). unfold add_python. destruct e as [orig do_run].
  destruct (name_args orig) as [name args]. destruct (exists_ _) eqn:E; [|by split_and!].
  split_and!; cbn [example_tests example_names_original python_tests]; [done|done|].
  apply Forall_app. split; [done|]. apply Forall_singleton. by eexists _, _.
Qed.

Lemma foldl_keeps {A B} (P : A → Prop) (f : A → B → A) l a :
  (∀ a b, P a → P (f a b)) → P a → P (foldl f a l).
Proof. intros Hf. revert a. induction l as [|b l IH]; intros a Ha; cbn; [done|]. by apply IH, Hf. Qed.

Lemma parse_examples_ok c getcwd exists_ cpp_examples python_examples a b d ls :
  lists_ok exists_ ls →
  match parse_examples_to_run_file c getcwd exists_ cpp_examples python_examples a b d ls with
  | Ok ls' => lists_ok exists_ ls'
  | Raise e => cpp_examples a = Raise e ∨ python_examples a = Raise e
  end.
Proof.
  intros Hls. unfold parse_examples_to_run_file. destruct (exists_ a); [|done].
  destruct (cpp_examples a) as [cpp|e]; cbn; [|by left].
  destruct (python_examples a) as [py|e]; cbn; [|by right].
  apply foldl_keeps; [intros; by apply add_python_ok|].
  apply foldl_keeps; [intros; by apply add_cpp_ok|done].
Qed.

(** The lists [run_tests] collects from the example directories and the modules keep
    the original names beside the C++ examples, one each, and every C++ or Python example on
    them is an existing file with the arguments of its entry. *)
Theorem collect_examples_ok (c : config) (getcwd : string) (exists_ : string → bool)
    (cpp_examples : string → py exn (list (string * string * string)))
    (python_examples : string → py exn (list (string * string)))
    (directories modules contributed : list string) :
  match collect_examples c getcwd exists_ cpp_examples python_examples directories modules contributed with
  | Ok ls => lists_ok exists_ ls
  | Raise e => (∃ p, cpp_examples p = Raise e) ∨ (∃ p, python_examples p = Raise e)
  end.
Proof.
  unfold collect_examples. set (paths := _ ++ _ ++ _). clearbody paths.
  assert (lists_ok exists_ (ExampleLists [] [] [])) as H0 by (by split_and!; cbn).
  revert H0. generalize (ExampleLists [] [] []).
  induction paths as [|[[a b] d] paths IH]; intros ls Hls; cbn [py_foldl]; [done|].
  pose proof (parse_examples_ok c getcwd exists_ cpp_examples python_examples a b d ls Hls) as Hparse.
  destruct (parse_examples_to_run_file _ _ _ _ _ a b d ls) as [ls'|e]; [by apply IH|].
  destruct Hparse; [left|right]; by exists a.
Qed.
