(* ===== verification/TestMain.v ===== *)
(** * TestMain: [run_tests] and [main] of [test.py], from the options to the exit status

    The phases of [run_tests] in order: the configuration, the build, the example lists, the
    options that only list tests, the selection of suites, the jobs, the pool of [TestJobs] and
    the summary.  The system around the program is the class [System].  The translation of the results and
    the temporary directory are in [TestReport] and [TestFinish]; the option parser and the lines that [--verbose]
    adds are left out. *)

From stdpp Require Import base list strings gmap relations.
From Stdlib Require Import Ascii QArith.
From S2P Require Import Prelude TestJobs TestConfig.
Open Scope nat_scope.

(** ** Options and configuration *)

Record command_line := CommandLine {
  opts : options; kinds : bool; list_ : bool; no_build : bool; nocolor : bool }.

(** The global variables that the build status file sets; three of them do not exist before. *)
Record globals := Globals {
  conf : config; EXAMPLE_DIRECTORIES : list string;
  NS3_ENABLED_MODULES : option (list string); NS3_ENABLED_CONTRIBUTED_MODULES : option (list string);
  NS3_MODULE_PATH : option (list string); ENABLE_TESTS : bool; VALGRIND_FOUND : bool }.

Definition core_kinds : list string := ["core"; "performance"; "system"; "unit"].
Definition interesting_config_items : list string :=
  ["NS3_ENABLED_MODULES"; "NS3_ENABLED_CONTRIBUTED_MODULES"; "NS3_MODULE_PATH"; "ENABLE_REAL_TIME";
   "ENABLE_THREADING"; "ENABLE_EXAMPLES"; "ENABLE_TESTS"; "EXAMPLE_DIRECTORIES"; "ENABLE_PYTHON_BINDINGS";
   "NSCLICK"; "ENABLE_BRITE"; "ENABLE_OPENFLOW"; "APPNAME"; "BUILD_PROFILE"; "VERSION"; "PYTHON";
   "VALGRIND_FOUND"].
(** The values before the file is read.  [ENABLE_PYTHON_BINDINGS] does not exist before either; it
    counts as false here if the file does not set it. *)
Definition initial_globals : globals :=
  Globals (Config "" "" "" "" "" "" true false) [] None None None true true.

(** What the program asks of Python, the shell and the file system: the build status file by lines ([None] when
    it is missing), the same file after the build, [eval] of a string and of a list, [exec] of an assignment,
    [subprocess.run], the shell of [run_job_synchronously], [os.path.exists], the contents of example lists,
    [eval] of the conditions, the text that [print] shows for the output of a command that cannot be decoded,
    the number of processors and the name of the output directory. *)
Class System := {
  platform : string; executable : string; getcwd : string;
  lock_file : option (list string); built_lock_file : option (list string);
  eval_string : string → py exn string;
  eval_list : string → py exn (list string);
  exec_line : globals → string → py exn globals;
  subprocess_run : string → Z;
  run_shell : shell;
  path_exists : string → bool;
  cpp_examples : string → py exn (list (string * string * string));
  python_examples : string → py exn (list (string * string));
  eval_cond : globals → string → py exn bool;
  undecoded : string → string;
  processors_online : Z;
  output_dir : string
}.

Record console := Console { out : list string; err : list string; environ : gmap string string }.

Section run_tests.
Context `{System, !DictIter string}.
Abbreviation M := (stx console exn).

Definition print (s : string) : M unit := modify_st (λ w, Console (out w ++ [s +:+ nl]) (err w) (environ w)).
Definition set_environ (f : gmap string string → gmap string string) : M unit :=
  modify_st (λ w, Console (out w) (err w) (f (environ w))).
Definition print_err (s : string) : M unit := modify_st (λ w, Console (out w) (err w ++ [s +:+ nl]) (environ w)).

(** ** [read_ns3_config] *)

(** [key, val = line.split('=')], then [eval(val.strip())]. *)
Definition assigned (line : string) : py exn string :=
  match split_all "="%char line with [_; v] => eval_string (strip v) | _ => Raise (ValueError "unpack") end.
Definition read_dirs (dirs : option string * option string) (line : string) : py exn (option string * option string) :=
  top ← (if startswith line "top_dir =" then Some <$> assigned line else Ok dirs.1);
  out ← (if startswith line "out_dir =" then Some <$> assigned line else Ok dirs.2);
  Ok (top, out).
Definition set_dirs (g : globals) (top out : string) : globals :=
  let c := conf g in
  Globals (Config top out (APPNAME c) (VERSION c) (BUILD_PROFILE c) (PYTHON c) (ENABLE_EXAMPLES c) (ENABLE_PYTHON_BINDINGS c))
    (EXAMPLE_DIRECTORIES g) (NS3_ENABLED_MODULES g) (NS3_ENABLED_CONTRIBUTED_MODULES g) (NS3_MODULE_PATH g)
    (ENABLE_TESTS g) (VALGRIND_FOUND g).
Definition exec_items (g : globals) (line : string) : py exn globals :=
  py_foldl (λ g item, if startswith line item then exec_line g line else Ok g) g interesting_config_items.

Definition read_ns3_config : M globals :=
  match lock_file with
  | None =>
      _ ← print_err "The .lock-ns3 file was not found.  You must configure before running test.py.";
      raise_st (SystemExit 2)
  | Some lines =>
      '(top_dir, out_dir) ← lift_py (py_foldl read_dirs (None, None) lines);
      top_dir ← lift_py (or_raise UnboundLocalError top_dir);
      out_dir ← lift_py (or_raise UnboundLocalError out_dir);
      lift_py (py_foldl exec_items (set_dirs initial_globals top_dir out_dir) lines)
  end.

(** ** The build *)

Definition build_command (cl : command_line) : string :=
  let o := opts cl in
  let build_cmd :=
    if kinds cl || list_ cl || bool_decide (constrain o ≠ "" ∧ constrain o ∈ core_kinds) then "./ns3 build test-runner"
    else if decide (example o ≠ "") then "./ns3 build " +:+ Path.basename (example o)
    else "./ns3" in
  if decide (platform = "win32") then executable +:+ " " +:+ build_cmd else build_cmd.
(** The code to return, if the build fails. *)
Definition build_step (cl : command_line) : M (option Z) :=
  if no_build cl then mret None else
  let rc := subprocess_run (build_command cl) in
  if decide (rc = 0%Z) then mret None
  else _ ← print_err "ns3 died. Not running tests"; mret (Some rc).

(** ** Runnable programs and examples *)

(** Keyed by the base name; a later program replaces an earlier one of the same name. *)
Definition programs_dictionary (programs : list string) : gmap string string :=
  foldl (λ d program, <[Path.basename program := program]> d) ∅ programs.
Definition read_status : M (gmap string string * list string) :=
  match built_lock_file with
  | Some lines =>
      programs ← lift_py (get_list_from_file eval_list (Some lines) "ns3_runnable_programs" []);
      scripts ← lift_py (get_list_from_file eval_list (Some lines) "ns3_runnable_scripts" []);
      mret (programs_dictionary programs, Path.basename <$> scripts)
  | None =>
      _ ← print_err "The build status file was not found.  You must configure before running test.py.";
      raise_st (SystemExit 2)
  end.

(** ** [--kinds] and [--list] *)

(** A command of the test runner: its return code and standard output.  The messages that
    [run_job_synchronously] prints about output that cannot be decoded are left out. *)
Definition runner (c : config) (args : string) : Z * option string :=
  let '(rc, o, _, _) :=
    run_job_synchronously run_shell c (Path.join "utils" (test_runner_name c +:+ args)) getcwd false false "" in
  (rc, o).
(** Output that could not be decoded is decoded again, which raises. *)
Definition UnicodeDecodeError : exn := Exception_ "UnicodeDecodeError".
Definition list_names (c : config) (path_cmd : string) : py exn string :=
  let '(_, o, _, _) := run_job_synchronously run_shell c path_cmd getcwd false false "" in
  or_raise UnicodeDecodeError o.

Definition print_kinds (c : config) : M unit :=
  let args := " --print-test-type-list" in
  print (default (undecoded (Path.join "utils" (test_runner_name c +:+ args))) (runner c args).2).
Definition list_args (o : options) : string :=
  " --print-test-name-list --print-test-types" +:+ (if decide (constrain o ≠ "") then " --test-type=" +:+ constrain o else "").
Definition print_list (c : config) (o : options) (example_names_original : list string) : M unit :=
  let '(rc, standard_out) := runner c (list_args o) in
  if decide (rc = 0%Z) then
    standard_out ← lift_py (or_raise UnicodeDecodeError standard_out);
    _ ← print "Test Type    Test Name";
    _ ← print "---------    ---------";
    _ ← for_st (λ item, if decide (strip item ≠ "") then print item else mret tt) (sort_names (split_all nl_char standard_out));
    _ ← for_st (λ item, print ("example      " +:+ item)) (sort_names example_names_original);
    print ""
  else
    _ ← print ("test.py error:  test-runner return code returned " +:+ str_of_Z rc);
    print (esc "To debug, try running './ns3 run \qtest-runner --print-test-name-list\q'\n").

(** ** The jobs *)

(** The examples of all directories and modules; a variable that does not exist raises when its loop
    is reached. *)
Definition read_examples (g : globals) : py exn example_lists :=
  let modules := NS3_ENABLED_MODULES g in
  let contributed := _ ← modules; NS3_ENABLED_CONTRIBUTED_MODULES g in
  ls ← collect_examples (conf g) getcwd path_exists cpp_examples python_examples
         (EXAMPLE_DIRECTORIES g) (default [] modules) (default [] contributed);
  _ ← or_raise NameError contributed;
  Ok ls.

Definition processors_line (o : options) : list string :=
  if decide (process_limit o = 0%Z) then []
  else if (processors_online <? process_limit o)%Z
       then ["Using all " +:+ str_of_Z processors_online +:+ " processors"]
       else ["Limiting to " +:+ str_of_Z (process_limit o) +:+ " worker processes"].
(** What is printed when no example has the name asked for. *)
Definition example_line (o : options) (jobs : list job) : list string :=
  match jobs with
  | [] => if decide (example o ≠ "") then ["No example matching the name " +:+ example o] else []
  | _ => []
  end.
Definition pyexample_line (o : options) (jobs : list job) : list string :=
  match jobs with
  | [] => if decide (pyexample o ≠ "")
          then ["Example " +:+ Path.basename (pyexample o) +:+ " is not runnable."] else []
  | _ => []
  end.


(** What follows the build, up to the pool: [inl] is the value returned early ([None] is status 0),
    [inr] the configuration and the jobs. *)
Definition after_build (cl : command_line) (g : globals) : M (Z + globals * list job) :=
  let o := opts cl in
  let c := conf g in
  _ ← set_environ (make_paths platform (NS3_BUILDDIR c) (default [] (NS3_MODULE_PATH g)));
  _ ← lift_py (or_raise NameError (NS3_MODULE_PATH g));
  '(programs, scripts) ← read_status;
  ls ← lift_py (read_examples g);
  _ ← set_environ <["NS_LOG" := ""]>;
  _ ← (if kinds cl then print_kinds c else mret tt);
  _ ← (if list_ cl then print_list c o (example_names_original ls) else mret tt);
  if kinds cl || list_ cl then mret (inl 0%Z) else
  match suite_list c o (list_names c) with
  | Raise (SystemExit code) =>
      _ ← print_err "The test suite was not run because an unknown test suite name was requested.";
      raise_st (SystemExit code)
  | Raise e => raise_st e
  | Ok sl =>
      _ ← for_st print (processors_line o);
      examples ← lift_py (example_jobs c o getcwd output_dir (eval_cond g) programs (example_tests ls));
      _ ← for_st print (example_line o examples);
      pyexamples ← lift_py (pyexample_jobs c o getcwd output_dir (eval_cond g) scripts (python_tests ls));
      _ ← for_st print (pyexample_line o pyexamples);
      mret (inr (g, (suite_jobs c o getcwd output_dir sl ++ examples ++ pyexamples)%list))
  end.
Definition prepare (cl : command_line) : M (Z + globals * list job) :=
  g ← read_ns3_config;
  build ← build_step cl;
  match build with
  | Some rc => mret (inl rc)
  | None => after_build cl g
  end.

(** The notes at the end. *)
Definition notes (g : globals) (o : options) : list string :=
  (λ line, line +:+ nl) <$>
  (if ENABLE_TESTS g && ENABLE_EXAMPLES (conf g) then [] else [""]) ++
  (if ENABLE_TESTS g then [] else
     ["***  Note: ns-3 tests are currently disabled. Enable them by adding";
      esc "***  \q--enable-tests\q to ./ns3 configure or modifying your .ns3rc file."; ""]) ++
  (if ENABLE_EXAMPLES (conf g) then [] else
     ["***  Note: ns-3 examples are currently disabled. Enable them by adding";
      esc "***  \q--enable-examples\q to ./ns3 configure or modifying your .ns3rc file."; ""]) ++
  (if valgrind o && negb (VALGRIND_FOUND g) then
     [""; "***  Note: you are trying to use valgrind, but valgrind could not be found";
      "***  on your machine.  All tests and examples will crash or be skipped."; ""] else []).

(** ** The program *)

(** [envcolor = os.environ.get('NOCOLOR','') and 'no' or 'auto' or 'yes']. *)
Definition use_color (cl : command_line) (w : console) : bool :=
  negb (nocolor cl || bool_decide (default "" (environ w !! "NOCOLOR") ≠ "")).

Context (fmt3 : Q → string) (tmp_files : gmap string string).

(** The runs of [main]: the pool is nondeterministic.  [tmp_files] are the files the suites wrote, and the
    boolean says whether the run was interrupted while the pool was at work.  After an exception of a condition
    the worker threads, which are started before, wait for jobs, and the interpreter waits for them: [main] has
    its outcome, but the process does not end. *)
Inductive main_runs (cl : command_line) (w : console) : bool → py exn Z → console → Prop :=
| main_early code w' : prepare cl w = (Ok (inl code), w') → main_runs cl w false (Ok code) w'
| main_error e w' : prepare cl w = (Raise e, w') → main_runs cl w false (Raise e) w'
| main_pool g jobs w' p s :
    prepare cl w = (Ok (inr (g, jobs)), w') →
    rtc (step (execute run_shell (conf g) (opts cl))) (start_pool jobs (processors (opts cl) processors_online)) p →
    finished p →
    py_foldl (collect (opts cl) (use_color cl w) fmt3 tmp_files (length jobs)) no_results (results p) = Ok s →
    main_runs cl w (thread_exit p) (Ok (exit_status (length jobs) s))
      (Console (out w' ++ printed s ++ final_lines (length jobs) s ++ notes g (opts cl)) (err w') (environ w'))
| main_collect g jobs w' p e :
    prepare cl w = (Ok (inr (g, jobs)), w') →
    rtc (step (execute run_shell (conf g) (opts cl))) (start_pool jobs (processors (opts cl) processors_online)) p →
    finished p →
    py_foldl (collect (opts cl) (use_color cl w) fmt3 tmp_files (length jobs)) no_results (results p) = Raise e →
    main_runs cl w (thread_exit p) (Raise e) w'.

(** [sys.exit(main(sys.argv))]. *)
Definition exit_code (r : py exn Z) : Z := match r with Ok c => c | Raise (SystemExit c) => c | Raise _ => 1%Z end.
End run_tests.

(** ** What a run does before the pool *)

Lemma stx_bind_ok {S E A B} (m : stx S E A) (f : A → stx S E B) s b s2 :
  (m ≫= f) s = (Ok b, s2) → ∃ a s1, m s = (Ok a, s1) ∧ f a s1 = (Ok b, s2).
Proof. unfold mbind, stx_bind. destruct (m s) as [[a|e] s1]; [eauto|done]. Qed.
Ltac stx_inv H x := apply stx_bind_ok in H as (x & ? & ? & H).

Section phases.
Context `{System, !DictIter string}.

Definition build_ok (cl : command_line) : Prop :=
  no_build cl = true ∨ subprocess_run (build_command cl) = 0%Z.

(** The jobs of a run with configuration [g]: those of the suites that the test runner lists, then the examples and the
    Python examples of the example lists that can be run according to the build status file. *)
Definition planned (cl : command_line) (g : globals) (jobs : list job) : Prop :=
  ∃ lines programs scripts ls sl examples pyexamples,
    built_lock_file = Some lines ∧
    get_list_from_file eval_list (Some lines) "ns3_runnable_programs" [] = Ok programs ∧
    get_list_from_file eval_list (Some lines) "ns3_runnable_scripts" [] = Ok scripts ∧
    read_examples g = Ok ls ∧
    suite_list (conf g) (opts cl) (list_names (conf g)) = Ok sl ∧
    example_jobs (conf g) (opts cl) getcwd output_dir (eval_cond g) (programs_dictionary programs)
      (example_tests ls) = Ok examples ∧
    pyexample_jobs (conf g) (opts cl) getcwd output_dir (eval_cond g) (Path.basename <$> scripts)
      (python_tests ls) = Ok pyexamples ∧
    jobs = (suite_jobs (conf g) (opts cl) getcwd output_dir sl ++ examples ++ pyexamples)%list.
(** There is at most one plan. *)
Lemma planned_unique cl g jobs jobs' : planned cl g jobs → planned cl g jobs' → jobs = jobs'.
Proof.
  intros (l & ps & sc & ls & sl & es & pes & E1 & E2 & E3 & E4 & E5 & E6 & E7 & ->).
  intros (l' & ps' & sc' & ls' & sl' & es' & pes' & F1 & F2 & F3 & F4 & F5 & F6 & F7 & ->).
  rewrite E1 in F1. injection F1 as <-. rewrite E2 in F2. injection F2 as <-. rewrite E3 in F3. injection F3 as <-.
  rewrite E4 in F4. injection F4 as <-. rewrite E5 in F5. injection F5 as <-. rewrite E6 in F6. injection F6 as <-.
  rewrite E7 in F7. by injection F7 as <-.
Qed.

Lemma read_status_ok w ps w' :
  read_status w = (Ok ps, w') → ∃ lines programs scripts, built_lock_file = Some lines ∧
    get_list_from_file eval_list (Some lines) "ns3_runnable_programs" [] = Ok programs ∧
    get_list_from_file eval_list (Some lines) "ns3_runnable_scripts" [] = Ok scripts ∧
    ps = (programs_dictionary programs, Path.basename <$> scripts).
Proof.
  unfold read_status. destruct built_lock_file as [lines|]; [|done]. intros Hr. stx_inv Hr programs.
  stx_inv Hr scripts.
  injection Hr as <- _. exists lines, programs, scripts. unfold lift_py in *. by simplify_eq.
Qed.

Lemma read_ns3_config_ok w g w' : read_ns3_config w = (Ok g, w') → w' = w ∧ is_Some lock_file.
Proof.
  unfold read_ns3_config. destruct lock_file as [lines|]; [|done]. intros Hg.
  stx_inv Hg d. destruct d. stx_inv Hg td. stx_inv Hg od. unfold lift_py in *. by simplify_eq.
Qed.

Lemma after_build_ok cl g w r w' :
  after_build cl g w = (Ok r, w') →
  ((kinds cl || list_ cl) = true ∧ r = inl 0%Z) ∨
  ((kinds cl || list_ cl) = false ∧ ∃ jobs, r = inr (g, jobs) ∧ planned cl g jobs).
Proof.
  unfold after_build. intros Hr. stx_inv Hr u1. stx_inv Hr u2. stx_inv Hr ps.
  match goal with Hp : read_status _ = _ |- _ => apply read_status_ok in Hp as (lines & programs & scripts & ? & ? & ? & ->) end.
  stx_inv Hr ls. stx_inv Hr u3. stx_inv Hr u4. stx_inv Hr u5.
  destruct (kinds cl || list_ cl); [left; by injection Hr as <- _|].
  right. split; [done|]. destruct (suite_list _ _ _) as [sl|e] eqn:Es; [|by destruct e]. stx_inv Hr u6.
  stx_inv Hr examples. stx_inv Hr u7. stx_inv Hr pyexamples. stx_inv Hr u8. injection Hr as <- _.
  eexists. split; [done|]. exists lines, programs, scripts, ls, sl, examples, pyexamples.
  unfold lift_py in *. by simplify_eq.
Qed.

Lemma prepare_ok cl w r w' :
  prepare cl w = (Ok r, w') →
  ∃ g, read_ns3_config w = (Ok g, w) ∧
    ((no_build cl = false ∧ subprocess_run (build_command cl) ≠ 0%Z ∧ r = inl (subprocess_run (build_command cl)))
     ∨ (build_ok cl ∧ (kinds cl || list_ cl) = true ∧ r = inl 0%Z)
     ∨ (build_ok cl ∧ (kinds cl || list_ cl) = false ∧ ∃ jobs, r = inr (g, jobs) ∧ planned cl g jobs)).
Proof.
  unfold prepare. intros Hr. stx_inv Hr g. 
  match goal with Hg : read_ns3_config w = _ |- _ => pose proof (read_ns3_config_ok _ _ _ Hg) as [-> _] end.
  exists g. split; [done|]. stx_inv Hr b.
  match goal with Hb : build_step _ _ = _ |- _ => unfold build_step in Hb; rename Hb into Hbuild end.
  unfold build_ok. destruct (no_build cl); [|case_decide].
  1, 2: injection Hbuild as <- <-; apply after_build_ok in Hr; naive_solver.
  injection Hbuild as <- <-. injection Hr as <- _. by left.
Qed.

Lemma planned_no_break cl g jobs : planned cl g jobs → Forall (λ j, is_break j = false) jobs.
Proof.
  intros (? & ? & ? & ? & sl & examples & pyexamples & _ & _ & _ & _ & _ & He & Hp & ->).
  apply Forall_app. split; [|apply Forall_app; split].
  - apply Forall_fmap, Forall_forall. intros t _. unfold suite_job; cbn. by case_match.
  - unfold example_jobs in He. repeat case_match; simplify_eq; try by constructor.
    + apply Forall_forall. intros j Hj. destruct (py_omap_elem _ _ _ _ He Hj) as ([[[? ?] ?] ?] & _ & Hf).
      unfold example_job in Hf. repeat case_match; simplify_eq; try done.
      all: apply py_bind_ok in Hf as ([] & _ & Hf); repeat case_match; simplify_eq; try done.
      all: apply py_bind_ok in Hf as ([] & _ & Hf); by simplify_eq.
    + apply Forall_forall. intros j (k & _ & Hj)%list_elem_of_omap. apply fmap_Some in Hj as (? & _ & ->). done.
  - unfold pyexample_jobs in Hp. repeat case_match; simplify_eq; try by repeat constructor.
    apply Forall_forall. intros j Hj. destruct (py_omap_elem _ _ _ _ Hp Hj) as ([? ?] & _ & Hf).
    unfold pyexample_job in Hf. case_decide; [|done].
    apply py_bind_ok in Hf as ([] & _ & Hf); repeat case_match; by simplify_eq.
Qed.
End phases.

(** ** The exit status *)

Section status.
Context `{System, !DictIter string} (fmt3 : Q → string) (tmp_files : gmap string string).
Abbreviation main_runs := (main_runs fmt3 tmp_files).

(** Results that are all good are those of jobs that were skipped or returned 0, also after an
    interrupt. *)
Lemma all_good_jobs sh c o jobs nproc p :
  Forall (λ j, is_break j = false) jobs → rtc (step (execute sh c o)) (start_pool jobs nproc) p → finished p →
  Forall (λ j, good j = true) (results p) →
  ∀ j, j ∈ jobs → is_skip j = true ∨ returncode (execute sh c o j) = 0%Z.
Proof.
  intros Hb Hr Hf Hg j Hj. destruct (pool_results_ok _ _ _ _ _ _ Hb Hr Hf) as [(done_ & Hp & Hd) _].
  rewrite <-Hp in Hj. apply list_elem_of_lookup in Hj as [i Hi].
  destruct (Forall2_lookup_l _ _ _ _ _ Hd Hi) as (j' & Hi' & Ho).
  assert (is_break j = false) as Hbj.
  { rewrite <-Hp in Hb. exact (Forall_lookup_1 _ _ _ _ Hb Hi). }
  apply (good_result sh c o j Hbj). pose proof (Forall_lookup_1 _ _ _ _ Hg Hi') as Hgj'.
  destruct Ho as [->|[_ ->]]; [done|]. unfold good in Hgj'. done.
Qed.

(** C1: [test.py] exits with 0 only when there is a build status file, the build succeeded or was not
    asked for, and the jobs of all suites, examples and Python examples that the configuration, the test runner, the
    build status file and the example lists determine were skipped or returned 0 (or it only listed tests), also
    when a run was interrupted. *)
Theorem main_exit_zero (cl : command_line) (w w' : console) (interrupted : bool) :
  main_runs cl w interrupted (Ok 0%Z) w' →
  is_Some lock_file ∧ build_ok cl ∧
  ((kinds cl || list_ cl) = true ∨
   ∃ g, read_ns3_config w = (Ok g, w) ∧ (∃ jobs, planned cl g jobs) ∧
     ∀ jobs, planned cl g jobs →
       ∀ j, j ∈ jobs → is_skip j = true ∨ returncode (execute run_shell (conf g) (opts cl) j) = 0%Z).
Proof.
  intros Hrun. remember (Ok 0%Z) as r eqn:Er.
  destruct Hrun as [code w1 Hp|e w1 Hp|g jobs w1 p s Hp Hr Hf Hs|e w1 p Hp]; try done; apply Ok_inj in Er as Hz.
  - destruct (prepare_ok _ _ _ _ Hp) as (g & Hg & Hcase). split; [by eapply read_ns3_config_ok|]. naive_solver.
  - destruct (prepare_ok _ _ _ _ Hp) as (g' & Hg & Hcase). split; [by eapply read_ns3_config_ok|].
    destruct Hcase as [(_ & _ & [=])|[(_ & _ & [=])|(Hb & _ & jobs' & [= <- <-] & Hpl)]]. split; [done|]. right.
    exists g. split_and!; [done|by exists jobs|]. intros jobs' Hpl'. rewrite (planned_unique _ _ _ _ Hpl' Hpl).
    pose proof (planned_no_break _ _ _ Hpl) as Hnb.
    eapply all_good_jobs; [done|exact Hr|done|]. apply counts_of_collect in Hs.
    destruct (pool_results_ok _ _ _ _ _ _ Hnb Hr Hf) as [(done_ & Hd & Hd') _].
    eapply exit_status_zero; [|exact Hs|done]. rewrite <-Hd. symmetry. by eapply Forall2_length.
Qed.

(** What happens before the pool decides a run that does not reach it. *)
Lemma main_runs_prepared cl w r w1 :
  prepare cl w = (r, w1) → (∀ g jobs, r ≠ Ok (inr (g, jobs))) →
  ∀ i r' w', main_runs cl w i r' w' ↔
    i = false ∧ w' = w1 ∧ r' = match r with Ok (inl code) => Ok code | Ok (inr _) => Raise NameError | Raise e => Raise e end.
Proof.
  intros Hp Hnot i r' w'. split.
  - inversion 1 as [code w2 Hp'|e w2 Hp'|g jobs w2 p s Hp'|g jobs w2 p e Hp']; subst; rewrite Hp in Hp';
      injection Hp' as -> ->; naive_solver.
  - intros (-> & -> & ->). destruct r as [[code|[g jobs]]|e];
      [by apply main_early|by destruct (Hnot g jobs)|by apply main_error].
Qed.

Definition with_err (w : console) (s : string) : console := Console (out w) (err w ++ [s +:+ nl]) (environ w).

(** [--list] and [--kinds] end with 0 whatever the test runner returned. *)
Lemma listing_status cl w i code w' :
  (kinds cl || list_ cl) = true → main_runs cl w i (Ok code) w' →
  code = 0%Z ∨ code = subprocess_run (build_command cl).
Proof.
  intros Hk Hrun. remember (Ok code) as r eqn:Er.
  destruct Hrun as [code' w1 Hp|e w1 Hp|g jobs w1 p s Hp|e w1 p Hp]; try done; apply Ok_inj in Er;
    destruct (prepare_ok _ _ _ _ Hp) as (g' & Hg & Hcase); naive_solver congruence.
Qed.

(** C29: the checks that end a run before any test is started.  Without the build status file
    the only outcome is status 2; when the build fails its status is returned and the environment
    is not touched; when tests are to be run, with a suite name that matches nothing no outcome is 0.  The last check is
    not made when the tests are only listed: then every status is 0 or that of the build. *)
Theorem main_stops (cl : command_line) (w : console) :
  (lock_file = None → ∀ i r w', main_runs cl w i r w' ↔
     i = false ∧ r = Raise (SystemExit 2) ∧
     w' = with_err w "The .lock-ns3 file was not found.  You must configure before running test.py.") ∧
  (∀ g, read_ns3_config w = (Ok g, w) → ¬ build_ok cl → ∀ i r w', main_runs cl w i r w' ↔
     i = false ∧ r = Ok (subprocess_run (build_command cl)) ∧ w' = with_err w "ns3 died. Not running tests") ∧
  ((kinds cl || list_ cl) = false → suite (opts cl) ≠ "" →
   (∀ g names, read_ns3_config w = (Ok g, w) →
      list_names (conf g) (Path.join "utils" (test_runner_name (conf g) +:+ " --print-test-name-list")) = Ok names →
      Fnmatch.filter (split_all nl_char names) (suite (opts cl)) = []) →
   ∀ i r w', main_runs cl w i r w' → r ≠ Ok 0%Z) ∧
  ((kinds cl || list_ cl) = true →
   ∀ i code w', main_runs cl w i (Ok code) w' → code = 0%Z ∨ code = subprocess_run (build_command cl)).
Proof.
  split_and!; [| | |by intros; eapply listing_status].
  - intros Hl i r w'. assert (prepare cl w = (Raise (SystemExit 2), with_err w
      "The .lock-ns3 file was not found.  You must configure before running test.py.")) as Hp.
    { unfold prepare, read_ns3_config. by rewrite Hl. }
    rewrite (main_runs_prepared _ _ _ _ Hp) by done. naive_solver.
  - intros g Hg Hb i r w'. assert (no_build cl = false ∧ subprocess_run (build_command cl) ≠ 0%Z) as [Hn Hz].
    { unfold build_ok in Hb. destruct (no_build cl); naive_solver. }
    assert (prepare cl w = (Ok (inl (subprocess_run (build_command cl))), with_err w "ns3 died. Not running tests")) as Hp.
    { unfold prepare, mbind, stx_bind. rewrite Hg. unfold build_step. rewrite Hn. by rewrite decide_False. }
    rewrite (main_runs_prepared _ _ _ _ Hp) by done. naive_solver.
  - intros Hk Hs Hnone i r w' Hrun ->. remember (Ok 0%Z) as r eqn:Er.
    destruct Hrun as [code w1 Hp|e w1 Hp|g jobs w1 p s Hp|e w1 p Hp]; try done; apply Ok_inj in Er;
      destruct (prepare_ok _ _ _ _ Hp) as (g' & Hg & Hcase); [naive_solver congruence|].
    destruct Hcase as [(_ & _ & [=])|[(_ & _ & [=])|(_ & _ & jobs' & [= <- <-] & Hpl)]].
    destruct Hpl as (? & ? & ? & ? & ? & ? & ? & _ & _ & _ & _ & Hsl & _).
    apply py_bind_ok in Hsl as (sel & Hsel & _). unfold select_suites in Hsel. rewrite decide_True in Hsel by done.
    apply py_bind_ok in Hsel as (names & En & Hsel). by rewrite (Hnone g names Hg En) in Hsel.
Qed.

(** *** Names of examples *)

Lemma tokens_lit fuel s c :
  c ≠ "*"%char → c ≠ "?"%char → "["%char ∉ s → length s ≤ fuel → c ∈ s → Fnmatch.Lit c ∈ Fnmatch.tokens fuel s.
Proof.
  intros H1 H2. revert s. induction fuel as [|fuel IH]; intros [|x s] Hb Hf Hc; cbn [length] in Hf; try lia.
  1, 2: by apply not_elem_of_nil in Hc.
  apply not_elem_of_cons in Hb as [Hx Hb]. apply elem_of_cons in Hc as [<-|Hc]; cbn [Fnmatch.tokens].
  - rewrite !decide_False by done. left.
  - repeat case_decide; try done; right; apply IH; (done || lia).
Qed.
Lemma some_suffix_elem k s : Fnmatch.some_suffix k s = true → ∃ pre suf, s = pre ++ suf ∧ k suf = true.
Proof.
  induction s as [|x s IH]; cbn; rewrite orb_true_iff.
  - intros [Hk|[=]]. by exists [], [].
  - intros [Hk|(pre & suf & -> & Hk)%IH]; [by exists [], (x :: s)|by exists (x :: pre), suf].
Qed.
Lemma matches_lit p s c : Fnmatch.Lit c ∈ p → Fnmatch.matches p s = true → c ∈ s.
Proof.
  revert s. induction p as [|t p IH]; intros s Hc Hm; [by apply not_elem_of_nil in Hc|].
  apply elem_of_cons in Hc as [<-|Hc].
  - destruct s as [|x s]; [done|]. cbn in Hm. apply andb_true_iff in Hm as [->%bool_decide_eq_true_1 _]. left.
  - destruct t; [|destruct s as [|x s]; [done|]..]; cbn [Fnmatch.matches] in Hm.
    + apply some_suffix_elem in Hm as (pre & suf & -> & Hm). apply elem_of_app. right. by apply IH.
    + right. by apply IH.
    + apply andb_true_iff in Hm as [_ Hm]. right. by apply IH.
    + apply andb_true_iff in Hm as [_ Hm]. right. by apply IH.
Qed.

Lemma basename_no_slash p : "/"%char ∉ chars (Path.basename p).
Proof.
  rewrite <-has_char_spec. unfold Path.basename. destruct (last (split_all "/" p)) as [x|] eqn:E; [cbn|by cbn].
  pose proof (proj1 (Forall_forall _ _) (split_all_pieces "/" p) x (last_Some_elem_of _ _ E)) as Hx. cbn in Hx.
  by rewrite Hx.
Qed.
Lemma programs_basenames programs k :
  is_Some (programs_dictionary programs !! k) → ∃ p, k = Path.basename p.
Proof.
  unfold programs_dictionary.
  assert (∀ d, (∀ k, is_Some (d !! k) → ∃ p, k = Path.basename p) →
    is_Some (foldl (λ (d : gmap string string) program, <[Path.basename program := program]> d) d programs !! k) →
    ∃ p, k = Path.basename p) as Hgen.
  { induction programs as [|p ps IH]; intros d Hd Hk; cbn in Hk; [by apply Hd|]. eapply IH; [|exact Hk].
    intros k' Hk'. destruct (decide (k' = Path.basename p)) as [->|Hne]; [by eexists|].
    rewrite lookup_insert_ne in Hk' by done. by apply Hd. }
  apply Hgen. intros k'. rewrite lookup_empty. by intros [? ?].
Qed.

(** A pattern with a slash outside a character set matches no base name. *)
Lemma path_matches_nothing programs pat :
  has_char "/" pat = true → has_char "[" pat = false →
  Fnmatch.filter (dict_keys 0 (programs_dictionary programs)) pat = [].
Proof.
  intros Hs Hb. unfold Fnmatch.filter. apply elem_of_nil_inv. intros k [Hm Hk]%list_elem_of_filter.
  apply elem_of_dict_keys, programs_basenames in Hk as [p ->]. apply (basename_no_slash p).
  eapply matches_lit; [|exact Hm]. apply tokens_lit; [done|done| | |by apply has_char_spec].
  - rewrite <-has_char_spec, Hb. done.
  - clear. induction pat; cbn; [done|]. unfold chars in *. lia.
Qed.

(** Every pool that reaches the dispatch with a worker can be run to its end without an interrupt. *)
Lemma pool_can_finish exec jobs n p :
  0 < n → pool_ok exec jobs n p → ∃ p', rtc (step exec) p p' ∧ finished p' ∧ thread_exit p' = thread_exit p.
Proof.
  intros Hn. remember (pool_weight p) as k eqn:Hk. revert p Hk.
  induction k as [k IH] using lt_wf_ind. intros p -> Hp.
  destruct (pool_progress exec jobs n p Hn Hp) as [(p1 & Hs & Hx)|Hf]; [|by exists p].
  destruct (IH (pool_weight p1)) with p1 as (p2 & Hr & Hf & Hx2);
    [by eapply step_weight|done|by eapply pool_ok_step|].
  exists p2. split_and!; [by eapply rtc_l|done|congruence].
Qed.
Lemma start_can_finish exec jobs nproc :
  Forall (λ j, is_break j = false) jobs → (1 <= nproc)%Z ∨ jobs = [] →
  ∃ p, rtc (step exec) (start_pool jobs nproc) p ∧ finished p ∧ thread_exit p = false.
Proof.
  intros Hj Hn. destruct (decide (1 <= nproc)%Z) as [Hn1|Hn1].
  - apply (pool_can_finish exec jobs (Z.to_nat nproc)); [lia|]. by apply pool_ok_start.
  - destruct Hn as [?| ->]; [done|]. eexists. split; [apply rtc_refl|]. unfold start_pool.
    rewrite Z2Nat.nonpos by lia. by repeat split.
Qed.

Lemma main_can_return (cl : command_line) (w w1 : console) (g : globals) (jobs : list job) :
  prepare cl w = (Ok (inr (g, jobs)), w1) →
  (1 <= processors (opts cl) processors_online)%Z ∨ jobs = [] →
  files_written tmp_files (result (execute run_shell (conf g) (opts cl)) <$> jobs) →
  ∃ code w', main_runs cl w false (Ok code) w' ∧
    (code = 0%Z ↔ ∀ j, j ∈ jobs → is_skip j = true ∨ returncode (execute run_shell (conf g) (opts cl) j) = 0%Z).
Proof.
  intros Hp Hn Hw. destruct (prepare_ok _ _ _ _ Hp) as (g' & Hg & Hcase).
  assert (planned cl g jobs) as Hpl by naive_solver. pose proof (planned_no_break _ _ _ Hpl) as Hb.
  destruct (start_can_finish (execute run_shell (conf g) (opts cl)) _ _ Hb Hn) as (p & Hr & Hf & Hx).
  destruct (pool_results_ok _ _ _ _ _ _ Hb Hr Hf) as [_ Hres].
  destruct (summary_run run_shell (conf g) (opts cl) jobs _ p (use_color cl w) fmt3 tmp_files Hb Hr Hf)
    as (s & Hs & _ & Hz).
  { unfold files_written. by rewrite (Hres Hx). }
  eexists _, _. split; [rewrite <-Hx; by eapply main_pool|]. by apply Hz.
Qed.


(** The jobs of [--example] with nothing else. *)
Lemma example_only c o names sl dir out cond programs scripts ls examples pyexamples :
  suite o = "" → pyexample o = "" → example o ≠ "" → suite_list c o names = Ok sl →
  Fnmatch.filter (dict_keys 0 programs) (program_name c (example o)) = [] →
  example_jobs c o dir out cond programs (example_tests ls) = Ok examples →
  pyexample_jobs c o dir out cond scripts (python_tests ls) = Ok pyexamples →
  suite_jobs c o dir out sl ++ examples ++ pyexamples = [].
Proof.
  intros Hs Hp He Hsl Hn. unfold example_jobs, pyexample_jobs. rewrite Hp, Hn.
  rewrite !(decide_False (P := _ ∧ _)) by naive_solver. rewrite (decide_True (P := example o ≠ "")) by done.
  rewrite decide_False by (by intros []). cbn. intros [= <-] [= <-]. rewrite !app_nil_r.
  unfold suite_list, select_suites in Hsl.
  rewrite (decide_False (P := suite o ≠ "")) in Hsl by (rewrite Hs; naive_solver).
  rewrite (decide_False (P := _ ∧ _)) in Hsl by naive_solver. cbn in Hsl.
  assert (∀ sl', Forall (λ t, strip t = "") sl' → suite_jobs c o dir out sl' = []) as Hnil.
  { intros sl' Hall. unfold suite_jobs. induction Hall as [|t l Ht _ IH]; [done|]. rewrite fmap_cons, filter_cons.
    rewrite decide_False by (rewrite Ht; naive_solver). exact IH. }
  apply Hnil. case_match; [|injection Hsl as <-; by repeat constructor].
  apply py_bind_ok in Hsl as (performance & _ & [= <-]). generalize (split_all nl_char performance). intros l.
  assert (∀ sl', Forall (λ t, strip t = "") sl' → Forall (λ t, strip t = "") (remove_performance l sl')) as Hrem.
  { unfold remove_performance. induction l as [|x l IH]; intros sl' Hsl'; cbn; [done|]. apply IH.
    destruct (decide (x ∈ sl')); [|done]. clear -Hsl'. induction Hsl' as [|t l' Ht ? IH]; cbn; [done|].
    case_decide; [done|by constructor]. }
  apply Hrem. by repeat constructor.
Qed.

(** An example named by its path, as the comment above the selection writes it
    ([--example=examples/udp/udp-echo]), is never run: the pattern contains a slash and the programs
    are known by base name.  No job is planned, and [test.py] reports success. *)
Theorem example_path_ignored (cl : command_line) (w w1 : console) (g : globals) (jobs : list job) :
  prepare cl w = (Ok (inr (g, jobs)), w1) →
  suite (opts cl) = "" → pyexample (opts cl) = "" → has_char "/" (example (opts cl)) = true →
  has_char "[" (program_name (conf g) (example (opts cl))) = false →
  jobs = [] ∧ (∃ i w', main_runs cl w i (Ok 0%Z) w') ∧ ∀ i r w', main_runs cl w i r w' → r = Ok 0%Z.
Proof.
  intros Hp Hs Hpy He Hb. destruct (prepare_ok _ _ _ _ Hp) as (g' & Hg & Hcase).
  assert (planned cl g jobs) as (? & programs & scripts & ls & sl & es & pes & _ & _ & _ & _ & Hsl & Hes & Hpes & Ej) by naive_solver.
  assert (jobs = []) as ->.
  { rewrite Ej. eapply example_only; [done|done|by intros E; rewrite E in He|done| |done|done].
    apply path_matches_nothing; [|done]. unfold program_name. rewrite !has_char_app, He.
    by rewrite orb_true_l, !orb_true_r. }
  split; [done|].
  assert (∀ p, rtc (step (execute run_shell (conf g) (opts cl)))
     (start_pool [] (processors (opts cl) processors_online)) p → finished p → results p = []) as Hres.
  { intros p Hr Hf. destruct (pool_results_ok _ _ _ _ _ _ (Forall_nil_2 _) Hr Hf) as [(d & Hd & Hd') _].
    apply Permutation_nil_r in Hd as ->. by inversion Hd'. }
  split.
  - destruct (start_can_finish (execute run_shell (conf g) (opts cl)) [] (processors (opts cl) processors_online))
      as (p & Hr & Hf & _); [constructor|by right|].
    eexists _, _. eapply (main_pool fmt3 tmp_files cl w g [] w1 p no_results); [done|done|done|].
    by rewrite (Hres _ Hr Hf).
  - inversion 1 as [code w2 Hp'|e w2 Hp'|g2 jobs w2 p s Hp' Hr Hf Hc|g2 jobs w2 p e Hp' Hr Hf Hc]; subst;
      rewrite Hp in Hp'; [done|done|injection Hp' as <- <- <-; rewrite (Hres _ Hr Hf) in Hc..]; [|done].
    injection Hc as <-. done.
Qed.

End status.

(** *** A small installation *)

Module Demo.
Definition line (s : string) : string := s +:+ nl.
Definition text : list string :=
  [line "top_dir = '/ns3'"; line "out_dir = '/ns3/build'"; line "APPNAME = 'ns'";
   line "ns3_runnable_programs = ['/ns3/build/ns3.36-udp-echo-default']"; line "ns3_runnable_scripts = []"].
Definition unquote (s : string) : string := implode (py_slice (chars s) 1 (-1)).
Definition unlist (s : string) : list string :=
  if decide (s = "[]") then [] else [implode (py_slice (chars s) 2 (-2))].
(** The runner knows one suite; the build fails if [broken]. *)
Definition runner : shell := λ cmd _,
  (0%Z, Some (if has_sub "--print-test-name-list" cmd && negb (has_sub "performance" cmd) then line "good" else ""),
   Some "", 0%Q).
Definition system (file : option (list string)) (broken : bool) : System := {|
  platform := "linux"; executable := "python3"; getcwd := "/ns3"; lock_file := file; built_lock_file := file;
  eval_string s := Ok (unquote s); eval_list s := Ok (unlist s);
  exec_line g _ := Ok (Globals demo_config [] (Some []) (Some []) (Some []) true true);
  subprocess_run _ := if broken then 1%Z else 0%Z; run_shell := runner; path_exists _ := false;
  cpp_examples _ := Ok []; python_examples _ := Ok []; eval_cond _ _ := Ok true; undecoded _ := ""; processors_online := 1;
  output_dir := "out" |}.
Definition ready : System := system (Some text) false.
Definition start : console := Console [] [] ∅.
Definition with_options (suite example : string) : command_line :=
  CommandLine (Options "" "" false example false "QUICK" false false "" suite false 0) false false false false.
Definition plain : command_line := with_options "" "".
Definition files : gmap string string := {[ "out/good.xml" := "<Test/>" ]}.
Definition globals_ : globals := Globals demo_config [] (Some []) (Some []) (Some []) true true.
#[export] Existing Instance ready.
Definition plan (cl : command_line) : list job :=
  match (prepare cl start).1 with Ok (inr (_, jobs)) => jobs | _ => [] end.

Lemma prepared : prepare plain start = (Ok (inr (globals_, plan plain)), (prepare plain start).2).
Proof. by vm_compute. Qed.
Lemma written : files_written files (result (execute run_shell (conf globals_) (opts plain)) <$> plan plain).
Proof. apply Forall_singleton. intros _. by eexists. Qed.
Lemma returns_zero : ∃ w', main_runs (λ _, "0.000") files plain start false (Ok 0%Z) w'.
Proof.
  destruct (main_can_return (λ _, "0.000") files plain _ _ _ _ prepared) as (code & w' & Hr & Hz);
    [left; done|exact written|].
  assert (code = 0%Z) as ->; [|by exists w']. apply Hz. intros j Hj. apply list_elem_of_singleton in Hj as ->.
  by right.
Qed.
End Demo.

Lemma main_exit_zero_witness :
  let _ := Demo.ready in is_Some lock_file ∧ build_ok Demo.plain ∧ (kinds Demo.plain || list_ Demo.plain) = false ∧
  ∃ g, ∃ jobs, planned Demo.plain g jobs.
Proof.
  destruct Demo.returns_zero as [w' Hrun].
  destruct (main_exit_zero (H := Demo.ready) (λ _, "0.000") Demo.files Demo.plain Demo.start w' false Hrun)
    as (Hl & Hb & [[=]|(g & _ & Hp & _)]).
  split_and!; [done|done|done|by exists g].
Defined.

Lemma main_stops_witness :
  let w := Demo.start in
  (let _ := Demo.system None false in ∀ i r w', main_runs (λ _, "") ∅ Demo.plain w i r w' → r = Raise (SystemExit 2)) ∧
  (let _ := Demo.system (Some Demo.text) true in ∀ i r w', main_runs (λ _, "") ∅ Demo.plain w i r w' → r = Ok 1%Z) ∧
  (∀ i r w', main_runs (H := Demo.ready) (λ _, "") ∅ (Demo.with_options "nix" "") w i r w' → r ≠ Ok 0%Z).
Proof.
  cbn zeta. split_and!.
  - intros i r w' Hr. by apply (proj1 (main_stops (H := Demo.system None false) _ _ _ _)) in Hr as (_ & -> & _).
  - intros i r w' Hr. apply (proj1 (proj2 (main_stops (H := Demo.system (Some Demo.text) true) _ _ _ _)) Demo.globals_) in Hr
      as (_ & -> & _); [done|by vm_compute|by intros [[=]|[=]]].
  - apply (main_stops (H := Demo.ready)); [done|done|]. intros g names Hg.
    assert (g = Demo.globals_) as -> by (by vm_compute in Hg; injection Hg as <-). vm_compute. by intros [= <-].
Defined.


Lemma example_path_ignored_witness :
  let cl := Demo.with_options "" "examples/udp/udp-echo" in
  (∃ i w', main_runs (H := Demo.ready) (λ _, "") ∅ cl Demo.start i (Ok 0%Z) w') ∧
  Demo.plan (Demo.with_options "" "udp-echo") ≠ [].
Proof.
  cbn zeta. split; [|by vm_compute].
  apply (example_path_ignored (H := Demo.ready) (λ _, "") ∅ (Demo.with_options "" "examples/udp/udp-echo") Demo.start
    (prepare (H := Demo.ready) (Demo.with_options "" "examples/udp/udp-echo") Demo.start).2 Demo.globals_ []);
      by vm_compute.
Defined.
