(* ===== verification/TestFinish.v ===== *)
(** * TestFinish: the files of a run of [test.py]

    The temporary directory of a run, the results file in it, the reports that are made of the results at the end,
    and the removal of the directory: the parts of [run_tests] and of the [translate_to_...] functions of [TestReport]
    that read and write files.  The file system may refuse to open a file, to make a directory or to remove
    one (class [Refusals]). *)

From stdpp Require Import base list strings gmap.
From Stdlib Require Import Ascii.
From S2P Require Import Prelude TestJobs TestReport.
Open Scope nat_scope.

(** ** Files *)

(** [--html], [--text], [--xml] and [--retain]. *)
Record report_options := ReportOptions { html : string; text_report : string; xml_report : string; retain : bool }.
Record disk := Disk { files : gmap string string; dirs : gset string; shown : list string }.
Abbreviation D := (stx disk exn).

(** What the file system refuses: to open a file for writing, because its directory is missing or for want of
    permission; to make a directory; and to remove a tree, in which case the files and directories with the
    given property are left.  What is opened can be written. *)
Class Refusals := { may_open : string → bool; may_make : string → bool; rmtree_leaves : option (string → bool) }.

Section disk.
Context `{Refusals}.

(** [open(name, 'w')] and the writing of the contents. *)
Definition put_file (name contents : string) : D unit :=
  if may_open name then modify_st (λ d, Disk (<[name := contents]> (files d)) (dirs d) (shown d)) else raise_st OSError.
Definition read_file (name : string) : D string := d ← get_st; lift_py (or_raise OSError (files d !! name)).
(** [open(name, 'a')]: the file is made if it is missing. *)
Definition append_file (name text : string) : D unit := d ← get_st; put_file name (default "" (files d !! name) +:+ text).
Definition show_ (s : string) : D unit := modify_st (λ d, Disk (files d) (dirs d) (shown d ++ [s])).
Definition exists_ (p : string) (d : disk) : bool := bool_decide (p ∈ dirs d ∨ p ∈ dom (files d)).
(** [os.makedirs] of a path whose parents exist. *)
Definition make_dir (p : string) : D unit :=
  if may_make p then modify_st (λ d, Disk (files d) ({[p]} ∪ dirs d) (shown d)) else raise_st OSError.
Definition under (dir f : string) : bool := startswith f (dir +:+ "/").
Definition rmtree (dir : string) : D unit :=
  d ← get_st;
  if decide (dir ∈ dirs d) then
    match rmtree_leaves with
    | None => modify_st (λ d, Disk (filter (λ kv, under dir kv.1 = false) (files d))
                                (filter (λ p, p ≠ dir ∧ under dir p = false) (dirs d)) (shown d))
    | Some keep =>
        _ ← modify_st (λ d, Disk (filter (λ kv, under dir kv.1 = false ∨ keep kv.1 = true) (files d))
                             (filter (λ p, under dir p = false ∨ keep p = true) (dirs d)) (shown d));
        raise_st OSError
    end
  else raise_st OSError.
Definition copyfile (src dst : string) : D unit :=
  if decide (src = dst) then raise_st OSError else x ← read_file src; put_file dst x.

(** ** The start of a run *)

Definition TMP_OUTPUT_DIR : string := "testpy-output".
Definition testpy_output_dir (date_and_time : string) : string := Path.join TMP_OUTPUT_DIR date_and_time.
Definition xml_results_file (date_and_time : string) : string := Path.join (testpy_output_dir date_and_time) "results.xml".
Definition begin_output (date_and_time : string) : D unit :=
  d ← get_st;
  _ ← (if exists_ TMP_OUTPUT_DIR d then mret tt else make_dir TMP_OUTPUT_DIR);
  d ← get_st;
  _ ← (if exists_ (testpy_output_dir date_and_time) d then mret tt else make_dir (testpy_output_dir date_and_time));
  put_file (xml_results_file date_and_time) (esc "<?xml version=\q1.0\q?>\n<Results>\n").

(** ** The reports *)

(** [ElementTree.parse], and what a report that fails has written before. *)
Context (parse : string → py exn element) (partial : string → string).

(** What is written before the results are parsed. *)
Definition html_start : string := esc "<html>\n<body>\n<center><h1>ns-3 Test Results</h1></center>\n".
Definition write_lines (name : string) (lines : py exn (list string)) : D unit :=
  match lines with
  | Ok l => put_file name (concat_str l)
  | Raise e => _ ← put_file name (partial name); raise_st e
  end.
Definition text_to (results name : string) : D unit :=
  let name := name +:+ ".txt" in
  _ ← show_ (esc "Writing results to text file \q" +:+ name +:+ esc "\q...");
  x ← read_file results;
  et ← lift_py (parse x);
  _ ← write_lines name (translate_to_text et);
  show_ (esc "done.\n").
Definition html_to (results name : string) : D unit :=
  let name := name +:+ ".html" in
  _ ← show_ ("Writing results to html file " +:+ name +:+ "...");
  _ ← put_file name html_start;
  x ← read_file results;
  et ← lift_py (parse x);
  _ ← write_lines name (translate_to_html et);
  show_ (esc "done.\n").
Definition xml_to (results name : string) : D unit :=
  let name := name +:+ ".xml" in
  _ ← show_ ("Writing results to xml file " +:+ name +:+ "...");
  _ ← copyfile results name;
  show_ (esc "done.\n").
Definition when_given (x : string) (m : D unit) : D unit := if decide (x = "") then mret tt else m.

(** The reports that are asked for, one after the other. *)
Definition make_reports (results : string) (o : report_options) : D unit :=
  _ ← when_given (html o +:+ text_report o +:+ xml_report o) (show_ nl);
  _ ← when_given (html o) (html_to results (html o));
  _ ← when_given (text_report o) (text_to results (text_report o));
  when_given (xml_report o) (xml_to results (xml_report o)).
(** What is written and printed after the end of the worker threads; [note_lines] are the notes of [TestMain]. *)
Definition finish_output (date_and_time : string) (o : report_options) (total_tests : nat) (s : summary) (note_lines : list string) : D unit :=
  let results := xml_results_file date_and_time in
  _ ← append_file results (esc "</Results>\n");
  _ ← for_st show_ (final_lines total_tests s);
  _ ← make_reports results o;
  for_st show_ note_lines.
(** From the end of the worker threads to the exit status. *)
Definition finish_run (date_and_time : string) (o : report_options) (total_tests : nat) (s : summary) (note_lines : list string) : D Z :=
  _ ← finish_output date_and_time o total_tests s note_lines;
  _ ← (if retain o then mret tt else rmtree (testpy_output_dir date_and_time));
  mret (exit_status total_tests s).

(** ** What is left of a run *)

(** The file [f] at the end: [before] is what it held before the reports. *)
Definition left_after (date : string) (o : report_options) (results htext ttext : string) (before : option string) (f : string) : option string :=
  if negb (retain o) && under (testpy_output_dir date) f then None
  else if decide (xml_report o ≠ "" ∧ f = xml_report o +:+ ".xml") then Some results
  else if decide (text_report o ≠ "" ∧ f = text_report o +:+ ".txt") then Some ttext
  else if decide (html o ≠ "" ∧ f = html o +:+ ".html") then Some htext
  else if decide (f = xml_results_file date) then Some results
  else before.

(** Both hold the same files. *)
Definition same_disk (d d' : disk) : Prop := files d' = files d ∧ dirs d' = dirs d.
Lemma shows s d : runs (show_ s) d (λ _ d', same_disk d d').
Proof. by apply runs_modify. Qed.
Lemma shows_all l d : runs (for_st show_ l) d (λ _ d', same_disk d d').
Proof.
  revert d. induction l as [|x l IH]; intros d; [by apply runs_ret|]. eapply runs_bind; [apply shows|].
  intros [] d1 [E1 E2]. eapply runs_weaken; [apply IH|]. intros [] d2 [E3 E4]. split; congruence.
Qed.
(** The disk with one file written. *)
Definition with_file (name x : string) (d d' : disk) : Prop := files d' = <[name := x]> (files d) ∧ dirs d' = dirs d.
Lemma puts name x d : may_open name = true → runs (put_file name x) d (λ _ d', with_file name x d d').
Proof. intros Hm. unfold put_file. rewrite Hm. by apply runs_modify. Qed.
Lemma reads name x d : files d !! name = Some x → runs (read_file name) d (λ y d', y = x ∧ d' = d).
Proof. intros Hx. exists x, d. unfold read_file, mbind, stx_bind, get_st, lift_py. by rewrite Hx. Qed.
Lemma lifts {A} (a : A) d : runs (lift_py (Ok a) : D A) d (λ b d', b = a ∧ d' = d).
Proof. by exists a, d. Qed.
Lemma show_done name x d d1 : with_file name x d d1 → runs (show_ (esc "done.\n")) d1 (λ _ d', with_file name x d d').
Proof. intros [E1 E2]. eapply runs_weaken; [apply shows|]. intros [] d2 [E3 E4]. split; congruence. Qed.
Lemma html_to_runs results name d x et l :
  may_open (name +:+ ".html") = true →
  results ≠ name +:+ ".html" → files d !! results = Some x → parse x = Ok et → translate_to_html et = Ok l →
  runs (html_to results name) d (λ _ d', with_file (name +:+ ".html") (concat_str l) d d').
Proof.
  intros Hm Hne Hx Hp Hl. unfold html_to. eapply runs_bind; [apply shows|]. intros [] d1 [E1 E2].
  eapply runs_bind; [by apply puts|]. intros [] d2 [E3 E4].
  eapply runs_bind; [apply (reads results x); rewrite E3, E1; by rewrite lookup_insert_ne|].
  intros ? ? [-> ->]. rewrite Hp.
  eapply runs_bind; [apply lifts|]. intros ? ? [-> ->]. rewrite Hl.
  eapply runs_bind; [by apply puts|]. intros [] d3 [E5 E6]. apply show_done. split; [|congruence].
  by rewrite E5, E3, E1, insert_insert_eq.
Qed.
Lemma text_to_runs results name d x et l :
  may_open (name +:+ ".txt") = true → files d !! results = Some x → parse x = Ok et → translate_to_text et = Ok l →
  runs (text_to results name) d (λ _ d', with_file (name +:+ ".txt") (concat_str l) d d').
Proof.
  intros Hm Hx Hp Hl. unfold text_to. eapply runs_bind; [apply shows|]. intros [] d1 [E1 E2].
  eapply runs_bind; [apply (reads results x); by rewrite E1|]. intros ? ? [-> ->]. rewrite Hp.
  eapply runs_bind; [apply lifts|]. intros ? ? [-> ->]. rewrite Hl.
  eapply runs_bind; [by apply puts|]. intros [] d3 [E5 E6]. apply show_done. split; [|congruence]. by rewrite E5, E1.
Qed.
Lemma xml_to_runs results name d x : may_open (name +:+ ".xml") = true → results ≠ name +:+ ".xml" → files d !! results = Some x →
  runs (xml_to results name) d (λ _ d', with_file (name +:+ ".xml") x d d').
Proof.
  intros Hm Hne Hx. unfold xml_to. eapply runs_bind; [apply shows|]. intros [] d1 [E1 E2].
  eapply runs_bind with (Q := λ _ d', with_file (name +:+ ".xml") x d d'); [|intros [] d2 H2; by apply show_done].
  unfold copyfile. rewrite decide_False by done.
  eapply runs_bind; [apply (reads results x); by rewrite E1|]. intros ? ? [-> ->].
  eapply runs_weaken; [by apply puts|]. intros [] d3 [E5 E6]. split; [|congruence]. by rewrite E5, E1.
Qed.
(** A report that may not be asked for. *)
Definition with_report (given name x : string) (d d' : disk) : Prop :=
  files d' = (if decide (given = "") then files d else <[name := x]> (files d)) ∧ dirs d' = dirs d.
Lemma when_given_runs given m name x d :
  (given ≠ "" → runs m d (λ _ d', with_file name x d d')) → runs (when_given given m) d (λ _ d', with_report given name x d d').
Proof. unfold when_given, with_report. destruct (decide (given = "")); intros Hm; [by apply runs_ret|by apply Hm]. Qed.
Lemma with_report_ne given name x d d' f : with_report given name x d d' → f ≠ name → files d' !! f = files d !! f.
Proof. intros [-> _] Hf. destruct (decide _); [done|]. by rewrite lookup_insert_ne. Qed.

(** The results file has the name of no report in HTML or text. *)
Lemma suffix_differs a b : a +:+ "/results.xml" ≠ b +:+ ".html" ∧ a +:+ "/results.xml" ≠ b +:+ ".txt".
Proof.
  split; intros E; apply (f_equal chars) in E; rewrite !chars_app in E; apply (f_equal reverse) in E;
    rewrite !reverse_app in E; done.
Qed.
Lemma no_slash_ends a b : has_char "/" b = false → b ≠ "" → Path.ends_slash (a +:+ b) = false.
Proof.
  intros Hb Hne. unfold Path.ends_slash. rewrite chars_app, last_app.
  destruct (last (chars b)) as [c|] eqn:E; [|apply last_None in E; by destruct b].
  apply bool_decide_eq_false. intros ->. apply last_Some_elem_of, has_char_spec in E. congruence.
Qed.
Lemma results_path date : has_char "/" date = false → date ≠ "" →
  testpy_output_dir date = TMP_OUTPUT_DIR +:+ "/" +:+ date ∧ xml_results_file date = testpy_output_dir date +:+ "/results.xml".
Proof.
  intros Hs Hne. assert (testpy_output_dir date = TMP_OUTPUT_DIR +:+ "/" +:+ date) as E.
  { unfold testpy_output_dir, Path.join. destruct (startswith date "/") eqn:E; [|done].
    apply startswith_spec in E as [r ->]. by cbn in Hs. }
  split; [done|]. unfold xml_results_file, Path.join. rewrite E.
  change (startswith "results.xml" "/") with false. cbv iota. rewrite decide_False by done.
  rewrite (string_app_assoc TMP_OUTPUT_DIR "/" date), no_slash_ends by done. done.
Qed.

Lemma appends name x t d : may_open name = true → files d !! name = Some x → runs (append_file name t) d (λ _ d', with_file name (x +:+ t) d d').
Proof.
  intros Hm Hx. exists tt. eexists. unfold append_file, mbind, stx_bind, get_st. rewrite Hx. unfold put_file.
  rewrite Hm.
  split; [reflexivity|]. by cbn.
Qed.
Lemma closed_results s : concat_str (xml s) +:+ esc "</Results>\n" = concat_str (results_file s).
Proof. unfold results_file. rewrite concat_str_app. cbn [concat_str]. by rewrite string_app_nil_r. Qed.
Lemma with_report_dir given name x d d' : with_report given name x d d' → dirs d' = dirs d.
Proof. by intros [_ ?]. Qed.

Lemma rmtree_removes dir d : rmtree_leaves = None → dir ∈ dirs d →
  runs (rmtree dir) d (λ _ d', (∀ f, files d' !! f = if under dir f then None else files d !! f) ∧
    (∀ p, p ∈ dirs d' ↔ p ∈ dirs d ∧ p ≠ dir ∧ under dir p = false)).
Proof.
  intros Hl Hd. eexists tt, _. unfold rmtree, mbind, stx_bind, get_st. rewrite decide_True, Hl by done.
  split; [reflexivity|]. cbn [files dirs]. split.
  - intros f. rewrite map_lookup_filter. destruct (files d !! f); cbn; [|by destruct (under dir f)].
    case_guard as Hg; cbn in *; [by rewrite Hg|]. by destruct (under dir f).
  - intros p. rewrite elem_of_filter. naive_solver.
Qed.
Lemma report_lookup given name x (m : gmap string string) f :
  (if decide (given = "") then m else <[name := x]> m) !! f = if decide (given ≠ "" ∧ f = name) then Some x else m !! f.
Proof.
  destruct (decide (given = "")); [by rewrite decide_False by naive_solver|]. destruct (decide (f = name)) as [->|].
  - rewrite decide_True by done. by rewrite lookup_insert_eq.
  - rewrite decide_False by naive_solver. by rewrite lookup_insert_ne.
Qed.
(** The three reports, one after the other. *)
Lemma reports_run results x et o hl tl d :
  (html o ≠ "" → may_open (html o +:+ ".html") = true) → (text_report o ≠ "" → may_open (text_report o +:+ ".txt") = true) →
  (xml_report o ≠ "" → may_open (xml_report o +:+ ".xml") = true) →
  results ≠ html o +:+ ".html" → results ≠ text_report o +:+ ".txt" → results ≠ xml_report o +:+ ".xml" →
  files d !! results = Some x → parse x = Ok et →
  (html o ≠ "" → translate_to_html et = Ok hl) → (text_report o ≠ "" → translate_to_text et = Ok tl) →
  runs (make_reports results o) d
    (λ _ d', dirs d' = dirs d ∧ ∀ f, files d' !! f =
      if decide (xml_report o ≠ "" ∧ f = xml_report o +:+ ".xml") then Some x
      else if decide (text_report o ≠ "" ∧ f = text_report o +:+ ".txt") then Some (concat_str tl)
      else if decide (html o ≠ "" ∧ f = html o +:+ ".html") then Some (concat_str hl) else files d !! f).
Proof.
  intros Hm1 Hm2 Hm3 Hh Ht Hxm Hx Hp Hhl Htl. unfold make_reports.
  eapply runs_bind with (Q := λ _ d', same_disk d d').
  { unfold when_given. case_decide; [by apply runs_ret|apply shows]. }
  intros [] d0 [E1 E2]. rewrite <-E1, <-E2. rewrite <-E1 in Hx. clear E1 E2 d. rename d0 into d.
  eapply runs_bind; [apply when_given_runs; intros Hg; by apply (html_to_runs results _ d x et hl); auto|].
  intros [] d1 H1.
  pose proof (with_report_ne _ _ _ _ _ results H1 Hh) as R1. rewrite Hx in R1.
  eapply runs_bind; [apply when_given_runs; intros Hg; by apply (text_to_runs results _ d1 x et tl); auto|].
  intros [] d2 H2.
  pose proof (with_report_ne _ _ _ _ _ results H2 Ht) as R2. rewrite R1 in R2.
  eapply runs_weaken; [apply when_given_runs; intros Hg; by apply (xml_to_runs results _ d2 x); auto|].
  intros [] d3 H3.
  split; [apply with_report_dir in H1, H2, H3; congruence|]. intros f.
  destruct H3 as [-> _], H2 as [-> _], H1 as [-> _].
  by rewrite !report_lookup.
Qed.

(** The file system lets the files of the run be opened. *)
Definition all_open (date : string) (o : report_options) : Prop :=
  may_open (xml_results_file date) = true ∧ (html o ≠ "" → may_open (html o +:+ ".html") = true) ∧
  (text_report o ≠ "" → may_open (text_report o +:+ ".txt") = true) ∧ (xml_report o ≠ "" → may_open (xml_report o +:+ ".xml") = true).
Lemma finish_output_runs date o total s note_lines d et hl tl :
  has_char "/" date = false → date ≠ "" → all_open date o →
  files d !! xml_results_file date = Some (concat_str (xml s)) → xml_results_file date ≠ xml_report o +:+ ".xml" →
  parse (concat_str (results_file s)) = Ok et →
  (html o ≠ "" → translate_to_html et = Ok hl) → (text_report o ≠ "" → translate_to_text et = Ok tl) →
  runs (finish_output date o total s note_lines) d (λ _ d', dirs d' = dirs d ∧
    ∀ f, files d' !! f = left_after date (ReportOptions (html o) (text_report o) (xml_report o) true)
      (concat_str (results_file s)) (concat_str hl) (concat_str tl) (files d !! f) f).
Proof.
  intros Hs Hne (Hm & Hm1 & Hm2 & Hm3) Hx Hxm Hp Hhl Htl. destruct (results_path date Hs Hne) as [_ Epath].
  destruct (suffix_differs (testpy_output_dir date) (html o)) as [Hh _].
  destruct (suffix_differs (testpy_output_dir date) (text_report o)) as [_ Ht]. rewrite <-Epath in Hh, Ht.
  unfold finish_output. eapply runs_bind; [by apply appends|]. intros [] d1 [E1 D1]. rewrite closed_results in E1.
  eapply runs_bind; [apply shows_all|]. intros [] d2 [E2 D2].
  eapply runs_bind; [apply (reports_run _ (concat_str (results_file s)) et o hl tl); try done; rewrite E2, E1;
    by rewrite lookup_insert_eq|].
  intros [] d3 [D3 E3]. eapply runs_weaken; [apply shows_all|]. intros [] d4 [E4 D4]. split; [congruence|].
  intros f. rewrite E4, E3, E2, E1. unfold left_after. cbn [retain negb andb html text_report xml_report].
  destruct (decide (f = xml_results_file date)) as [->|]; [by rewrite lookup_insert_eq|by rewrite lookup_insert_ne].
Qed.

(** *** Whatever fails *)

(** The files that a run may write. *)
Definition written_by (date : string) (o : report_options) (f : string) : Prop :=
  f = xml_results_file date ∨ f = html o +:+ ".html" ∨ f = text_report o +:+ ".txt" ∨ f = xml_report o +:+ ".xml".
Definition framed (date : string) (o : report_options) (d d' : disk) : Prop :=
  dirs d' = dirs d ∧ ∀ f, ¬ written_by date o f → files d' !! f = files d !! f.
Section framed.
Context (date : string) (o : report_options) (d0 : disk).
Abbreviation keeps m := (inv_run (framed date o d0) m (λ _, True)).
Lemma keeps_show s : keeps (show_ s).
Proof. by apply inv_modify. Qed.
Lemma keeps_shows l : keeps (for_st show_ l).
Proof. apply inv_for. intros x _. apply keeps_show. Qed.
Lemma keeps_put name x : written_by date o name → keeps (put_file name x).
Proof.
  intros Hw. unfold put_file. destruct (may_open name); [|apply inv_raise]. apply inv_modify; [|done].
  intros d [E Hf]. split; [done|]. intros f Hn. cbn. rewrite lookup_insert_ne by (intros ->; done). by apply Hf.
Qed.
Lemma keeps_read_file name : keeps (read_file name).
Proof. eapply inv_bind; [apply inv_get|]. intros ? _. by apply inv_lift. Qed.
Lemma keeps_lift_py {A} (r : py exn A) : keeps (lift_py r).
Proof. by apply inv_lift. Qed.
Lemma keeps_when given m : keeps m → keeps (when_given given m).
Proof. intros Hm. unfold when_given. case_decide; [by apply inv_ret|done]. Qed.
Lemma keeps_lines name l : written_by date o name → keeps (write_lines name l).
Proof.
  intros Hw. destruct l as [l|e]; cbn; [by apply keeps_put|]. eapply inv_bind; [by apply keeps_put|].
  intros _ _. apply inv_raise.
Qed.
Lemma keeps_reports results : keeps (make_reports results o).
Proof.
  unfold make_reports. eapply inv_bind; [apply keeps_when, keeps_show|intros _ _].
  eapply inv_bind; [apply keeps_when|intros _ _; eapply inv_bind; [apply keeps_when|intros _ _; apply keeps_when]].
  - unfold html_to. eapply inv_bind; [apply keeps_show|intros _ _].
    eapply inv_bind; [apply keeps_put; by right; left|intros _ _].
    eapply inv_bind; [apply keeps_read_file|intros x _]. eapply inv_bind; [apply keeps_lift_py|intros et _].
    eapply inv_bind; [apply keeps_lines; by right; left|intros _ _]. apply keeps_show.
  - unfold text_to. eapply inv_bind; [apply keeps_show|intros _ _].
    eapply inv_bind; [apply keeps_read_file|intros x _]. eapply inv_bind; [apply keeps_lift_py|intros et _].
    eapply inv_bind; [apply keeps_lines; by do 2 right; left|intros _ _]. apply keeps_show.
  - unfold xml_to. eapply inv_bind; [apply keeps_show|intros _ _]. eapply inv_bind; [|intros _ _; apply keeps_show].
    unfold copyfile. case_decide; [apply inv_raise|]. eapply inv_bind; [apply keeps_read_file|intros x _].
    apply keeps_put. by do 3 right.
Qed.
Lemma keeps_output total s note_lines : keeps (finish_output date o total s note_lines).
Proof.
  unfold finish_output. eapply inv_bind; [|intros _ _].
  - eapply inv_bind; [apply inv_get|intros d _]. apply keeps_put. by left.
  - eapply inv_bind; [apply keeps_shows|intros _ _]. eapply inv_bind; [apply keeps_reports|intros _ _].
    apply keeps_shows.
Qed.
End framed.
(** Removing the tree removes nothing but what is in it, and the directory itself only if it returns. *)
Lemma rmtree_frame dir d r d' : rmtree dir d = (r, d') →
  (∀ f, files d' !! f = files d !! f ∨ under dir f = true ∧ files d' !! f = None) ∧
  (∀ e p, r = Raise e → under dir p = false → (p ∈ dirs d' ↔ p ∈ dirs d)).
Proof.
  unfold rmtree, mbind, stx_bind, get_st, modify_st, raise_st. destruct (decide (dir ∈ dirs d)).
  2: { intros [= <- <-]. split; [by left|done]. }
  destruct rmtree_leaves as [keep|]; intros [= <- <-]; cbn [files dirs].
  all: split; [|intros ? p [=] Hu; rewrite elem_of_filter; naive_solver].
  all: intros f; rewrite map_lookup_filter.
  all: destruct (files d !! f) as [x|]; cbn; [|by left]; case_guard as Hg; [by left|right]; cbn in *;
    destruct (under dir f); naive_solver.
Qed.

(** C22: The end of a run.  When the results can be parsed and translated and the file system refuses nothing
    that is needed, the results are closed and every report that is asked for is made of them, the copy in XML
    being the whole file; the status is that of the tests; and unless [--retain] is given exactly the files of
    the directory of this run are removed, every other file that is no report is as it was.  Whatever fails, a
    file that is neither the results file nor a report is as it was or, without [--retain], was in the directory
    and is removed; a run that returns has the status of the tests, and one that raises leaves the directory and
    every other one. *)
Theorem finish_run_spec (date : string) (o : report_options) (total : nat) (s : summary) (note_lines : list string) (d : disk) :
  (∀ et hl tl,
    has_char "/" date = false → date ≠ "" → all_open date o → rmtree_leaves = None → testpy_output_dir date ∈ dirs d →
    files d !! xml_results_file date = Some (concat_str (xml s)) → xml_results_file date ≠ xml_report o +:+ ".xml" →
    parse (concat_str (results_file s)) = Ok et →
    (html o ≠ "" → translate_to_html et = Ok hl) → (text_report o ≠ "" → translate_to_text et = Ok tl) →
    ∃ d', finish_run date o total s note_lines d = (Ok (exit_status total s), d') ∧
      (∀ f, files d' !! f = left_after date o (concat_str (results_file s)) (concat_str hl) (concat_str tl) (files d !! f) f) ∧
      (∀ p, p ∈ dirs d' ↔ p ∈ dirs d ∧ (retain o = true ∨ (p ≠ testpy_output_dir date ∧ under (testpy_output_dir date) p = false)))) ∧
  ∀ r d', finish_run date o total s note_lines d = (r, d') →
    (∀ f, ¬ written_by date o f →
       files d' !! f = files d !! f ∨ retain o = false ∧ under (testpy_output_dir date) f = true ∧ files d' !! f = None) ∧
    match r with
    | Ok z => z = exit_status total s
    | Raise _ => ∀ p, under (testpy_output_dir date) p = false → (p ∈ dirs d' ↔ p ∈ dirs d)
    end.
Proof.
  split.
  - intros et hl tl Hs Hne Ho Hrm Hdir Hx Hxm Hp Hhl Htl.
    destruct (finish_output_runs date o total s note_lines d et hl tl Hs Hne Ho Hx Hxm Hp Hhl Htl) as ([] & d4 & Erun & Ed & Ef).
    unfold finish_run, mbind, stx_bind. rewrite Erun.
    unfold left_after in *. cbn [retain negb andb html text_report xml_report] in Ef.
    destruct (retain o) eqn:Er.
    + exists d4. split; [done|]. split; [done|]. intros p. rewrite Ed. naive_solver.
    + destruct (rmtree_removes (testpy_output_dir date) d4 Hrm) as ([] & d5 & E5 & F5 & D5); [by rewrite Ed|].
      rewrite E5.
      exists d5. split; [done|]. split; [intros f; rewrite F5; cbn; destruct (under _ f); [done|]; apply Ef|].
      intros p. rewrite D5, Ed. naive_solver.
  - intros r d'. unfold finish_run, mbind, stx_bind. destruct (finish_output _ _ _ _ _ d) as [r1 d1] eqn:E1.
    destruct (keeps_output date o d total s note_lines d r1 d1) as [[Hd Hf] _]; [done|exact E1|].
    destruct r1 as [[]|e]; [|intros [= <- <-]; split; [left; auto|intros p _; by rewrite Hd]].
    destruct (retain o); [intros [= <- <-]; by split; [left; auto|]|].
    destruct (rmtree _ d1) as [r2 d2] eqn:E2. destruct (rmtree_frame _ _ _ _ E2) as [F2 D2].
    destruct r2 as [[]|e]; intros [= <- <-]; (split; [intros f Hn; rewrite <-(Hf f Hn); naive_solver|]); [done|].
    intros p Hp. rewrite (D2 e p) by done. by rewrite Hd.
Qed.

(** The directory is made and the results begin, and nothing else changes. *)
Lemma begin_output_spec date d : (∀ p, may_make p = true) → may_open (xml_results_file date) = true → ∃ d', begin_output date d = (Ok tt, d') ∧
  files d' = <[xml_results_file date := esc "<?xml version=\q1.0\q?>\n<Results>\n"]> (files d) ∧ dirs d ⊆ dirs d'.
Proof.
  intros Hm Ho. unfold begin_output, mbind, stx_bind, get_st, make_dir, put_file. rewrite Ho, !Hm.
  destruct (exists_ TMP_OUTPUT_DIR d); cbn.
  all: destruct (exists_ (testpy_output_dir date) _); eexists; (split; [reflexivity|]); cbn; (split;
    [done|set_solver]).
Qed.
(** The name of the directory is the time in seconds: a run that starts within the same second as another one
    writes over its results. *)
Lemma same_second date d x : (∀ p, may_make p = true) → may_open (xml_results_file date) = true → files d !! xml_results_file date = Some x →
  files (begin_output date d).2 !! xml_results_file date = Some (esc "<?xml version=\q1.0\q?>\n<Results>\n").
Proof. intros Hm Ho _. destruct (begin_output_spec date d Hm Ho) as (d' & -> & E & _). cbn. by rewrite E, lookup_insert_eq. Qed.
(** Results that cannot be parsed, or a report that cannot be opened, end the run with an exception. *)
Lemma failing_report date o total s note_lines d x :
  may_open (xml_results_file date) = true → html o ≠ "" → files d !! xml_results_file date = Some x →
  xml_results_file date ≠ html o +:+ ".html" →
  may_open (html o +:+ ".html") = false ∨ (∃ e, parse (x +:+ esc "</Results>\n") = Raise e) →
  ∃ e d', finish_run date o total s note_lines d = (Raise e, d').
Proof.
  intros Hm Hh Hx Hne Hp. unfold finish_run, finish_output.
  destruct (appends _ _ (esc "</Results>\n") d Hm Hx) as ([] & d1 & E1 & F1 & D1).
  unfold mbind, stx_bind. rewrite E1.
  destruct (shows_all (final_lines total s) d1) as ([] & d2 & E2 & F2 & D2). rewrite E2.
  unfold make_reports, mbind, stx_bind, when_given.
  rewrite !decide_False by (done || by destruct o as [[|c h] ? ? ?]).
  unfold html_to, show_, modify_st, put_file, read_file, get_st, lift_py, mbind, stx_bind.
  destruct (may_open (html o +:+ ".html")); [|by eexists _, _]. destruct Hp as [|[e Hp]]; [done|].
  unfold modify_st. cbn [files dirs]. rewrite lookup_insert_ne by done. rewrite F2, F1, lookup_insert_eq.
  cbn [or_raise].
  rewrite Hp. by eexists _, _.
Qed.
End disk.

(** ** Examples *)

Module FinishDemo.
Definition tree : element := Element "Results" [] None [].
Definition before : disk :=
  Disk {[ xml_results_file "now" := concat_str (xml no_results); "src/a.cc" := "x" ]} {[ "testpy-output"; "testpy-output/now"; "src" ]} [].
#[export] Instance permissive : Refusals := {| may_open _ := true; may_make _ := true; rmtree_leaves := None |}.
Definition given : report_options := ReportOptions "" "out" "copy" false.
End FinishDemo.
Import FinishDemo.
Lemma finish_run_spec_witness : ∃ d', finish_run (λ _, Ok tree) (λ _, "") "now" given 0 no_results [] before = (Ok 0%Z, d') ∧
  files d' !! "src/a.cc" = Some "x" ∧ files d' !! "copy.xml" = Some (concat_str (results_file no_results)) ∧
  files d' !! "testpy-output/now/results.xml" = None ∧ "testpy-output/now" ∉ dirs d'.
Proof.
  destruct (proj1 (finish_run_spec (λ _, Ok tree) (λ _, "") "now" given 0 no_results [] before) tree [] []) as (d' & E & Hf & Hd).
  - reflexivity.
  - done.
  - by repeat split.
  - reflexivity.
  - vm_compute. set_solver.
  - reflexivity.
  - done.
  - reflexivity.
  - done.
  - reflexivity.
  - exists d'. split; [exact E|]. split; [exact (Hf "src/a.cc")|]. split; [exact (Hf "copy.xml")|].
    split; [exact (Hf "testpy-output/now/results.xml")|]. intros Hin. apply Hd in Hin. cbn in Hin. naive_solver.
Defined.
