(* ===== verification/ModuleTemplates.v ===== *)
(** * ModuleTemplates: the templates of [utils/create-module.py] and [str.format]

    The nine triple-quoted templates, line by line, and the part of [str.format] they use:
    doubled braces and plain field names.  A template is cut into tokens once, so that what
    holds of the files for every module name is decided on the tokens of the template. *)

From stdpp Require Import base list strings gmap.
From Stdlib Require Import Ascii.
From S2P Require Import Prelude.
Open Scope nat_scope.

(** A triple-quoted literal from its lines, each of which ends with a newline. *)
Definition template (ls : list string) : string := concat_str ((λ l, esc l +:+ nl) <$> ls).

(** ** The templates *)

Definition CMAKELISTS_TEMPLATE : string := template
  ["check_include_file_cxx(stdint.h HAVE_STDINT_H)";
   "if(HAVE_STDINT_H)";
   "    add_definitions(-DHAVE_STDINT_H)";
   "endif()";
   "";
   "set(examples_as_tests_sources)";
   "if(${{ENABLE_EXAMPLES}})";
   "    set(examples_as_tests_sources    ";
   "        #test/{MODULE}-examples-test-suite.cc";
   "        )";
   "endif()    ";
   "";
   "build_lib(";
   "    LIBNAME {MODULE}";
   "    SOURCE_FILES model/{MODULE}.cc";
   "                 helper/{MODULE}-helper.cc ";
   "    HEADER_FILES model/{MODULE}.h";
   "                 helper/{MODULE}-helper.h";
   "    LIBRARIES_TO_LINK ${{libcore}}";
   "    TEST_SOURCES test/{MODULE}-test-suite.cc";
   "                 ${{examples_as_tests_sources}}";
   ")";
   "    "].

Definition MODEL_CC_TEMPLATE : string := template
  ["/* -*- Mode:C++; c-file-style:\qgnu\q; indent-tabs-mode:nil; -*- */";
   "";
   "#include \q{MODULE}.h\q";
   "";
   "namespace ns3 {{";
   "";
   "/* ... */";
   "";
   "";
   "}}";
   ""].

Definition MODEL_H_TEMPLATE : string := template
  ["/* -*- Mode:C++; c-file-style:\qgnu\q; indent-tabs-mode:nil; -*- */";
   "#ifndef {INCLUDE_GUARD}";
   "#define {INCLUDE_GUARD}";
   "";
   "namespace ns3 {{";
   "";
   "/* ... */";
   "";
   "}}";
   "";
   "#endif /* {INCLUDE_GUARD} */";
   ""].

Definition HELPER_CC_TEMPLATE : string := template
  ["/* -*- Mode:C++; c-file-style:\qgnu\q; indent-tabs-mode:nil; -*- */";
   "";
   "#include \q{MODULE}-helper.h\q";
   "";
   "namespace ns3 {{";
   "";
   "/* ... */";
   "";
   "";
   "}}";
   ""].

Definition HELPER_H_TEMPLATE : string := template
  ["/* -*- Mode:C++; c-file-style:\qgnu\q; indent-tabs-mode:nil; -*- */";
   "#ifndef {INCLUDE_GUARD}";
   "#define {INCLUDE_GUARD}";
   "";
   "#include \qns3/{MODULE}.h\q";
   "";
   "namespace ns3 {{";
   "";
   "/* ... */";
   "";
   "}}";
   "";
   "#endif /* {INCLUDE_GUARD} */";
   ""].

Definition EXAMPLES_CMAKELISTS_TEMPLATE : string := template
  ["build_lib_example(";
   "    NAME {MODULE}-example";
   "    SOURCE_FILES {MODULE}-example.cc";
   "    LIBRARIES_TO_LINK ${{lib{MODULE}}}";
   ")";
   ""].

Definition EXAMPLE_CC_TEMPLATE : string := template
  ["/* -*- Mode:C++; c-file-style:\qgnu\q; indent-tabs-mode:nil; -*- */";
   "";
   "#include \qns3/core-module.h\q";
   "#include \qns3/{MODULE}-helper.h\q";
   "";
   "using namespace ns3;";
   "";
   "";
   "int ";
   "main (int argc, char *argv[])";
   "{{";
   "  bool verbose = true;";
   "";
   "  CommandLine cmd (__FILE__);";
   "  cmd.AddValue (\qverbose\q, \qTell application to log if true\q, verbose);";
   "";
   "  cmd.Parse (argc,argv);";
   "";
   "  /* ... */";
   "";
   "  Simulator::Run ();";
   "  Simulator::Destroy ();";
   "  return 0;";
   "}}";
   "";
   ""].

Definition TEST_CC_TEMPLATE : string := template
  ["/* -*- Mode:C++; c-file-style:\qgnu\q; indent-tabs-mode:nil; -*- */";
   "";
   "// Include a header file from your module to test.";
   "#include \qns3/{MODULE}.h\q";
   "";
   "// An essential include is test.h";
   "#include \qns3/test.h\q";
   "";
   "// Do not put your test classes in namespace ns3.  You may find it useful";
   "// to use the using directive to access the ns3 namespace directly";
   "using namespace ns3;";
   "";
   "// This is an example TestCase.";
   "class {CAPITALIZED}TestCase1 : public TestCase";
   "{{";
   "public:";
   "  {CAPITALIZED}TestCase1 ();";
   "  virtual ~{CAPITALIZED}TestCase1 ();";
   "";
   "private:";
   "  virtual void DoRun (void);";
   "}};";
   "";
   "// Add some help text to this case to describe what it is intended to test";
   "{CAPITALIZED}TestCase1::{CAPITALIZED}TestCase1 ()";
   "  : TestCase (\q{CAPITALIZED} test case (does nothing)\q)";
   "{{";
   "}}";
   "";
   "// This destructor does nothing but we include it as a reminder that";
   "// the test case should clean up after itself";
   "{CAPITALIZED}TestCase1::~{CAPITALIZED}TestCase1 ()";
   "{{";
   "}}";
   "";
   "//";
   "// This method is the pure virtual method from class TestCase that every";
   "// TestCase must implement";
   "//";
   "void";
   "{CAPITALIZED}TestCase1::DoRun (void)";
   "{{";
   "  // A wide variety of test macros are available in src/core/test.h";
   "  NS_TEST_ASSERT_MSG_EQ (true, true, \qtrue doesn't equal true for some reason\q);";
   "  // Use this one for floating point comparisons";
   "  NS_TEST_ASSERT_MSG_EQ_TOL (0.01, 0.01, 0.001, \qNumbers are not equal within tolerance\q);";
   "}}";
   "";
   "// The TestSuite class names the TestSuite, identifies what type of TestSuite,";
   "// and enables the TestCases to be run.  Typically, only the constructor for";
   "// this class must be defined";
   "//";
   "class {CAPITALIZED}TestSuite : public TestSuite";
   "{{";
   "public:";
   "  {CAPITALIZED}TestSuite ();";
   "}};";
   "";
   "{CAPITALIZED}TestSuite::{CAPITALIZED}TestSuite ()";
   "  : TestSuite (\q{MODULE}\q, UNIT)";
   "{{";
   "  // TestDuration for TestCase can be QUICK, EXTENSIVE or TAKES_FOREVER";
   "  AddTestCase (new {CAPITALIZED}TestCase1, TestCase::QUICK);";
   "}}";
   "";
   "// Do not forget to allocate an instance of this TestSuite";
   "static {CAPITALIZED}TestSuite s{COMPOUND}TestSuite;";
   ""].

Definition DOC_RST_TEMPLATE : string := template
  ["Example Module Documentation";
   "----------------------------";
   "";
   ".. include:: replace.txt";
   ".. highlight:: cpp";
   "";
   ".. heading hierarchy:";
   "   ------------- Chapter";
   "   ************* Section (#.#)";
   "   ============= Subsection (#.#.#)";
   "   ############# Paragraph (no number)";
   "";
   "This is a suggested outline for adding new module documentation to |ns3|.";
   "See ``src/click/doc/click.rst`` for an example.";
   "";
   "The introductory paragraph is for describing what this code is trying to";
   "model.";
   "";
   "For consistency (italicized formatting), please use |ns3| to refer to";
   "ns-3 in the documentation (and likewise, |ns2| for ns-2).  These macros";
   "are defined in the file ``replace.txt``.";
   "";
   "Model Description";
   "*****************";
   "";
   "The source code for the new module lives in the directory ``{MODULE_DIR}``.";
   "";
   "Add here a basic description of what is being modeled.";
   "";
   "Design";
   "======";
   "";
   "Briefly describe the software design of the model and how it fits into ";
   "the existing ns-3 architecture. ";
   "";
   "Scope and Limitations";
   "=====================";
   "";
   "What can the model do?  What can it not do?  Please use this section to";
   "describe the scope and limitations of the model.";
   "";
   "References";
   "==========";
   "";
   "Add academic citations here, such as if you published a paper on this";
   "model, or if readers should read a particular specification or other work.";
   "";
   "Usage";
   "*****";
   "";
   "This section is principally concerned with the usage of your model, using";
   "the public API.  Focus first on most common usage patterns, then go";
   "into more advanced topics.";
   "";
   "Building New Module";
   "===================";
   "";
   "Include this subsection only if there are special build instructions or";
   "platform limitations.";
   "";
   "Helpers";
   "=======";
   "";
   "What helper API will users typically use?  Describe it here.";
   "";
   "Attributes";
   "==========";
   "";
   "What classes hold attributes, and what are the key ones worth mentioning?";
   "";
   "Output";
   "======";
   "";
   "What kind of data does the model generate?  What are the key trace";
   "sources?   What kind of logging output can be enabled?";
   "";
   "Advanced Usage";
   "==============";
   "";
   "Go into further details (such as using the API outside of the helpers)";
   "in additional sections, as needed.";
   "";
   "Examples";
   "========";
   "";
   "What examples using this new code are available?  Describe them here.";
   "";
   "Troubleshooting";
   "===============";
   "";
   "Add any tips for avoiding pitfalls, etc.";
   "";
   "Validation";
   "**********";
   "";
   "Describe how the model has been tested/validated.  What tests run in the";
   "test suite?  How much API and code is covered by the tests?  Again, ";
   "references to outside published work may help here."].

(** ** [str.format] *)

Inductive token := Lit (c : ascii) | Field (name : string) | Bad (msg : string).

(** [field] holds the characters of a field name being read, last one first. *)
Fixpoint tokens (s : list ascii) (field : option (list ascii)) : list token :=
  match s, field with
  | [], None => []
  | [], Some _ => [Bad "expected '}' before end of string"]
  | "}"%char :: r, Some acc => Field (implode (reverse acc)) :: tokens r None
  | c :: r, Some acc => tokens r (Some (c :: acc))
  | "{"%char :: "{"%char :: r, None => Lit "{" :: tokens r None
  | "}"%char :: "}"%char :: r, None => Lit "}" :: tokens r None
  | "{"%char :: r, None => tokens r (Some [])
  | "}"%char :: _, None => [Bad "Single '}' encountered in format string"]
  | c :: r, None => Lit c :: tokens r None
  end.

(** The first field without a value, or the first syntax error, raises. *)
Fixpoint render (env : gmap string string) (ts : list token) : py exn string :=
  match ts with
  | [] => Ok ""
  | Lit c :: ts => s ← render env ts; Ok (String c s)
  | Field n :: ts => v ← or_raise KeyError (env !! n); s ← render env ts; Ok (v +:+ s)
  | Bad msg :: _ => Raise (ValueError msg)
  end.
Definition format (t : string) (env : gmap string string) : py exn string :=
  render env (tokens (chars t) None).

(** ** Rendering *)

(** The text of a token, and of a template whose fields all have a value. *)
Definition value (env : gmap string string) (t : token) : string :=
  match t with Lit c => String c "" | Field n => default "" (env !! n) | Bad _ => "" end.
Definition expand (env : gmap string string) (ts : list token) : string := concat_str (value env <$> ts).

Definition bound (fields : list string) (ts : list token) : bool :=
  forallb (λ t, match t with Lit _ => true | Field n => bool_decide (n ∈ fields) | Bad _ => false end) ts.

Lemma render_expand env fields ts :
  bound fields ts = true → (∀ n, n ∈ fields → is_Some (env !! n)) → render env ts = Ok (expand env ts).
Proof.
  intros Hb Hf. induction ts as [|t ts IH]; [done|]. apply andb_true_iff in Hb as [Ht Hb].
  unfold expand in *. destruct t as [c|n|]; cbn; [by rewrite IH| |done].
  apply bool_decide_eq_true in Ht. destruct (Hf n Ht) as [v ->]. cbn. by rewrite IH.
Qed.

(** *** Words *)

(** The words of a text between spaces and newlines, [acc] being the current one (reversed). *)
Definition is_blank_char (c : ascii) : bool := bool_decide (c = " "%char) || bool_decide (c = nl_char).
Fixpoint words_from (acc : list ascii) (s : list ascii) : list string :=
  match s with
  | [] => match acc with [] => [] | _ => [implode (reverse acc)] end
  | c :: s =>
      if is_blank_char c then
        match acc with [] => words_from [] s | _ => implode (reverse acc) :: words_from [] s end
      else words_from (c :: acc) s
  end.
Definition words (s : string) : list string := words_from [] (chars s).

(** The same on tokens: a field is part of a word. *)
Fixpoint token_words (acc : list token) (ts : list token) : list (list token) :=
  match ts with
  | [] => match acc with [] => [] | _ => [reverse acc] end
  | Lit c :: ts =>
      if is_blank_char c then
        match acc with [] => token_words [] ts | _ => reverse acc :: token_words [] ts end
      else token_words (Lit c :: acc) ts
  | t :: ts => token_words (t :: acc) ts
  end.

(** Field values that words cannot see: no blank in them, and not empty. *)
Definition solid (env : gmap string string) : Prop :=
  ∀ n v, env !! n = Some v → v ≠ "" ∧ forallb (λ c, negb (is_blank_char c)) (chars v) = true.

Lemma words_from_solid acc v s :
  forallb (λ c, negb (is_blank_char c)) v = true → words_from acc (v ++ s) = words_from (reverse v ++ acc) s.
Proof.
  revert acc. induction v as [|c v IH]; intros acc Hv; [done|]. cbn in Hv. apply andb_true_iff in Hv as [Hc Hv].
  cbn [app words_from]. apply negb_true_iff in Hc. rewrite Hc, IH by done. by rewrite reverse_cons, <-app_assoc.
Qed.

Lemma expand_app env a b : expand env (a ++ b) = expand env a +:+ expand env b.
Proof. unfold expand. by rewrite fmap_app, concat_str_app. Qed.

Lemma expand_words env fields ts :
  solid env → bound fields ts = true → (∀ n, n ∈ fields → is_Some (env !! n)) →
  words (expand env ts) = expand env <$> token_words [] ts.
Proof.
  intros Hsolid Hb Hf. unfold words.
  enough (∀ acc, Forall (λ t, value env t ≠ "") acc →
    words_from (reverse (chars (expand env (reverse acc)))) (chars (expand env ts))
    = expand env <$> token_words acc ts) as Hgen by (by apply (Hgen [])).
  assert (∀ acc, Forall (λ t, value env t ≠ "") acc → acc ≠ [] →
    reverse (chars (expand env (reverse acc))) ≠ []) as Hne.
  { intros [|t acc] Hacc Hnil; [done|]. apply Forall_cons in Hacc as [Ht _]. intros E.
    apply (f_equal reverse) in E. rewrite reverse_involutive, reverse_cons, expand_app, chars_app in E.
    apply app_eq_nil in E as [_ E]. unfold expand in E. cbn [fmap list_fmap concat_str] in E.
    rewrite string_app_nil_r in E. by destruct (value env t). }
  induction ts as [|t ts IH]; intros acc Hacc.
  - change (chars (expand env [])) with (@nil ascii). cbn [words_from token_words].
    destruct acc as [|t acc]; [done|]. specialize (Hne _ Hacc ltac:(done)).
    destruct (reverse (chars _)) eqn:E; [done|]. by rewrite <-E, reverse_involutive, implode_chars.
  - apply andb_true_iff in Hb as [Ht Hb]. specialize (IH Hb).
    assert (∀ t', value env t' ≠ "" → forallb (λ c, negb (is_blank_char c)) (chars (value env t')) = true →
      words_from (reverse (chars (expand env (reverse acc)))) (chars (value env t') ++ chars (expand env ts))
      = expand env <$> token_words (t' :: acc) ts) as Hword.
    { intros t' Hv Hs. rewrite words_from_solid by done. rewrite <-IH by (by constructor). f_equal.
      rewrite reverse_cons, expand_app, chars_app, reverse_app. f_equal. cbn. by rewrite string_app_nil_r. }
    change (chars (expand env (t :: ts))) with (chars (value env t +:+ expand env ts)). rewrite chars_app.
    destruct t as [c|n|]; [|apply Hword|done].
    + cbn [token_words]. destruct (is_blank_char c) eqn:Ec; [|apply Hword; cbn; [done|by rewrite Ec]].
      cbn [value chars app words_from]. rewrite Ec. specialize (IH [] (Forall_nil_2 _)). cbn in IH.
      destruct acc as [|t acc]; [by rewrite <-IH|]. specialize (Hne _ Hacc ltac:(done)).
      destruct (reverse (chars _)) eqn:E; [done|]. rewrite <-E, reverse_involutive, implode_chars.
      cbn [fmap list_fmap]. f_equal. exact IH.
    + apply bool_decide_eq_true in Ht. destruct (Hf n Ht) as [v Hv]. cbn. rewrite Hv. by apply (Hsolid n).
    + apply bool_decide_eq_true in Ht. destruct (Hf n Ht) as [v Hv]. cbn. rewrite Hv. by apply (Hsolid n).
Qed.

(** *** Braces *)

(** The number of open braces after a text; [None] when one is closed that was not open. *)
Fixpoint brace_depth (n : nat) (s : list ascii) : option nat :=
  match s with
  | [] => Some n
  | "{"%char :: s => brace_depth (S n) s
  | "}"%char :: s => match n with O => None | S n => brace_depth n s end
  | _ :: s => brace_depth n s
  end.
Definition balanced (s : string) : Prop := brace_depth 0 (chars s) = Some 0.

Definition no_braces (s : string) : Prop := has_char "{" s = false ∧ has_char "}" s = false.

Lemma brace_depth_no_braces n v s : no_braces v → brace_depth n (chars v ++ s) = brace_depth n s.
Proof.
  intros [H1 H2]. induction v as [|c v IH]; [done|]. cbn in H1, H2.
  apply orb_false_iff in H1 as [Hc1 H1], H2 as [Hc2 H2]. apply bool_decide_eq_false in Hc1, Hc2.
  rewrite <-(IH H1 H2). cbn. by destruct c as [[] [] [] [] [] [] [] []].
Qed.

(** The literal characters decide. *)
Definition literals (ts : list token) : list ascii := omap (λ t, match t with Lit c => Some c | _ => None end) ts.

Lemma expand_balanced env ts :
  (∀ n v, env !! n = Some v → no_braces v) → brace_depth 0 (literals ts) = Some 0 → balanced (expand env ts).
Proof.
  intros Henv Hts. unfold balanced. rewrite <-Hts. clear Hts. generalize 0.
  induction ts as [|t ts IH]; intros n; [done|].
  change (chars (expand env (t :: ts))) with (chars (value env t +:+ expand env ts)). rewrite chars_app.
  destruct t as [c|f|msg]; cbn [value literals omap list_omap].
  - cbn [chars app]. change (omap _ ts) with (literals ts).
    destruct c as [[] [] [] [] [] [] [] []]; cbn [brace_depth]; try apply IH. destruct n; [done|apply IH].
  - rewrite brace_depth_no_braces; [apply IH|]. destruct (env !! f) eqn:E; [by eapply Henv|done].
  - apply IH.
Qed.
