(* ===== verification/CreateModule.v ===== *)
(** * CreateModule: [utils/create-module.py]

    The script that generates the skeleton of a new module.  The file system is a map from
    absolute paths (lists of components) to directories and files; what the operating system
    may refuse is the class [Faults], without any law, so the theorems hold for every pattern
    of failures.  Names are ASCII strings. *)

From stdpp Require Import base list strings gmap.
From Stdlib Require Import Ascii.
From S2P Require Import Prelude TestJobs TestConfig ModuleTemplates.
Open Scope nat_scope.

(** ** The file system *)

Abbreviation path := (list string).
Inductive node := Dir | File (text : string).
#[global] Instance node_eq_dec : EqDecision node.
Proof. solve_decision. Defined.
Abbreviation fs := (gmap path node).

(** [denied m p]: creating the entry [p] fails (permissions, quota); [full m p]: writing to the
    new file [p] fails; [leftover m p]: the entries at or below [p] that [rmtree] leaves behind
    when it fails. *)
Class Faults := {
  denied : fs → path → bool;
  full : fs → path → bool;
  leftover : fs → path → list path
}.

Record world := World { disk : fs; printed_out : list string; printed_err : list string }.

(** [Path.parent] of a path that is not the root. *)
Definition parent (p : path) : path := take (length p - 1) p.
(** [Path(s).parts] without the root. *)
Definition parts (s : string) : path := filter (λ c, c ≠ "" ∧ c ≠ ".") (split_all "/" s).
Definition path_str (p : path) : string := "/" +:+ join "/" p.
(** [Path(p, s)]: an absolute [s] replaces [p]. *)
Definition joinpath (p : path) (s : string) : path :=
  if startswith s "/" then parts s else p ++ parts s.

(** [with_suffix]: a suffix starts at the last dot, if that is neither the first nor the last
    character of the name. *)
Definition split_suffix (name : string) : option (string * string) :=
  match split_once "." (implode (reverse (chars name))) with
  | Some (b, a) =>
      if decide (a ≠ "" ∧ b ≠ "") then Some (implode (reverse (chars a)), implode (reverse (chars b))) else None
  | None => None
  end.
Definition with_suffix (p : path) (suffix : string) : py exn path :=
  match last p with
  | None => Raise (ValueError "has an empty name")
  | Some name =>
      let stem := match split_suffix name with Some (a, _) => a | None => name end in
      Ok (parent p ++ [stem +:+ suffix])
  end.

(** ** Names *)

(** [s.capitalize()]. *)
Definition lower_char (c : ascii) : ascii :=
  let n := nat_of_ascii c in if (65 <=? n) && (n <=? 90) then ascii_of_nat (n + 32) else c.
Definition capitalize (s : string) : string :=
  match s with
  | "" => ""
  | String c r => upper (String c "") +:+ implode (lower_char <$> chars r)
  end.
(** [s.replace('-', '_')]. *)
Definition dash_to_underscore (s : string) : string :=
  implode ((λ c, if decide (c = "-"%char) then "_"%char else c) <$> chars s).

(** The template parameters. *)
Definition guard (modname : string) : string := upper (dash_to_underscore modname) +:+ "_H".
Definition helper_guard (modname : string) : string := upper (dash_to_underscore modname) +:+ "_HELPER_H".
Definition capitalized (modname : string) : string := concat_str (capitalize <$> split_all "-" modname).
Definition compound (modname : string) : string :=
  match split_all "-" modname with
  | [] => ""
  | word :: ws => word +:+ concat_str (capitalize <$> ws)
  end.

(** ** Operations *)

Section operations.
Context `{Faults}.
Abbreviation M := (stx world exn).

Definition set_disk (f : fs → fs) : M unit :=
  modify_st (λ w, World (f (disk w)) (printed_out w) (printed_err w)).
Definition print (s : string) : M unit :=
  modify_st (λ w, World (disk w) (printed_out w ++ [s +:+ nl]) (printed_err w)).
Definition print_stderr (s : string) : M unit :=
  modify_st (λ w, World (disk w) (printed_out w) (printed_err w ++ [s +:+ nl])).
Definition lookup_path (p : path) : M (option node) := w ← get_st; mret (disk w !! p).

(** [os.mkdir]. *)
Definition os_mkdir (p : path) : M unit :=
  d ← lookup_path (parent p);
  n ← lookup_path p;
  w ← get_st;
  match d, n with
  | Some Dir, None => if denied (disk w) p then raise_st OSError else set_disk <[p := Dir]>
  | _, _ => raise_st OSError
  end.
(** The first [n] components of [p], with [exist_ok]. *)
Fixpoint ensure_dir (p : path) (n : nat) : M unit :=
  match n with
  | O => mret tt
  | S n' =>
      d ← lookup_path (take n p);
      match d with
      | Some Dir => mret tt
      | Some (File _) => raise_st OSError
      | None => _ ← ensure_dir p n'; os_mkdir (take n p)
      end
  end.
(** [p.mkdir(parents=True)]. *)
Definition mkdir_parents (p : path) : M unit :=
  d ← lookup_path p;
  match d with
  | Some _ => raise_st OSError
  | None => _ ← ensure_dir p (length p - 1); os_mkdir p
  end.

(** [open("wt")], then the formatting, then the write. *)
Definition create_file (p : path) (t : string) (kwargs : gmap string string) : M unit :=
  d ← lookup_path (parent p);
  n ← lookup_path p;
  w ← get_st;
  match d, n with
  | Some Dir, (None | Some (File _)) =>
      if denied (disk w) p then raise_st OSError else
      _ ← set_disk <[p := File ""]>;
      text ← lift_py (format t kwargs);
      w ← get_st;
      if full (disk w) p then raise_st OSError else set_disk <[p := File text]>
  | _, _ => raise_st OSError
  end.

(** [shutil.rmtree]: everything at and below the directory [p], or an error with some of it left;
    an entry that is left keeps the directories it lies in. *)
Definition rmtree (p : path) : M unit :=
  d ← lookup_path p;
  match d with
  | Some Dir =>
      w ← get_st;
      let left := filter (λ q, p `prefix_of` q ∧ is_Some (disk w !! q)) (leftover (disk w) p) in
      _ ← set_disk (λ m, filter (λ qn, ¬ p `prefix_of` qn.1 ∨ Exists (λ l, qn.1 `prefix_of` l) left) m);
      match left with [] => mret tt | _ => raise_st OSError end
  | _ => raise_st OSError
  end.

Definition make_cmakelists (moduledir : path) (modname : string) : M bool :=
  _ ← create_file (moduledir ++ ["CMakeLists.txt"]) CMAKELISTS_TEMPLATE {[ "MODULE" := modname ]};
  mret true.

Definition make_model (moduledir : path) (modname : string) : M bool :=
  let modelpath := moduledir ++ ["model"] in
  _ ← mkdir_parents modelpath;
  srcfile_path ← lift_py (with_suffix (joinpath modelpath modname) ".cc");
  _ ← create_file srcfile_path MODEL_CC_TEMPLATE {[ "MODULE" := modname ]};
  hfile_path ← lift_py (with_suffix (joinpath modelpath modname) ".h");
  _ ← create_file hfile_path MODEL_H_TEMPLATE {[ "MODULE" := modname; "INCLUDE_GUARD" := guard modname ]};
  mret true.

Definition make_test (moduledir : path) (modname : string) : M bool :=
  let testpath := moduledir ++ ["test"] in
  _ ← mkdir_parents testpath;
  file_path ← lift_py (with_suffix (joinpath testpath (modname +:+ "-test-suite")) ".cc");
  _ ← create_file file_path TEST_CC_TEMPLATE
        {[ "MODULE" := modname; "CAPITALIZED" := capitalized modname; "COMPOUND" := compound modname ]};
  mret true.

Definition make_helper (moduledir : path) (modname : string) : M bool :=
  let helperpath := moduledir ++ ["helper"] in
  _ ← mkdir_parents helperpath;
  srcfile_path ← lift_py (with_suffix (joinpath helperpath (modname +:+ "-helper")) ".cc");
  _ ← create_file srcfile_path HELPER_CC_TEMPLATE {[ "MODULE" := modname ]};
  h_file_path ← lift_py (with_suffix (joinpath helperpath (modname +:+ "-helper")) ".h");
  _ ← create_file h_file_path HELPER_H_TEMPLATE
        {[ "MODULE" := modname; "INCLUDE_GUARD" := helper_guard modname ]};
  mret true.

Definition make_examples (moduledir : path) (modname : string) : M bool :=
  let examplespath := moduledir ++ ["examples"] in
  _ ← mkdir_parents examplespath;
  _ ← create_file (examplespath ++ ["CMakeLists.txt"]) EXAMPLES_CMAKELISTS_TEMPLATE {[ "MODULE" := modname ]};
  examplesfile_path ← lift_py (with_suffix (joinpath examplespath (modname +:+ "-example")) ".cc");
  _ ← create_file examplesfile_path EXAMPLE_CC_TEMPLATE {[ "MODULE" := modname ]};
  mret true.

(** [cwd] is the current directory, for [os.path.relpath]. *)
Definition make_doc (cwd : path) (moduledir : path) (modname : string) : M bool :=
  let docpath := moduledir ++ ["doc"] in
  _ ← mkdir_parents docpath;
  let mod_relpath := relpath (path_str cwd) (path_str moduledir) (path_str cwd) in
  let file_path := joinpath docpath (modname +:+ ".rst") in
  _ ← create_file file_path DOC_RST_TEMPLATE {[ "MODULE" := modname; "MODULE_DIR" := mod_relpath ]};
  mret true.

(** [all(...)] over a generator stops at the first value that is not true. *)
Fixpoint all_st (ms : list (M bool)) : M bool :=
  match ms with
  | [] => mret true
  | m :: ms => b ← m; if b : bool then all_st ms else mret false
  end.
(** [try: m except Exception as e: h(e)]: SystemExit is not an [Exception]. *)
Definition try_except {A} (m : M A) (h : exn → M A) : M A := λ w,
  match m w with
  | (Ok a, w) => (Ok a, w)
  | (Raise (SystemExit c), w) => (Raise (SystemExit c), w)
  | (Raise e, w) => h e w
  end.

(** [repr] and [str(e)] are Python's texts for a string and for an exception. *)
Context (repr : string → string) (str_ : exn → string) (cwd : path).

Definition make_module (modpath : path) (modname : string) : M bool :=
  let modulepath := joinpath modpath modname in
  d ← lookup_path modulepath;
  match d with
  | Some _ => _ ← print_stderr ("Module " +:+ repr modname +:+ " already exists"); mret false
  | None =>
      _ ← print ("Creating module " +:+ path_str modulepath);
      let functions := [make_cmakelists; make_model; make_test; make_helper; make_examples; make_doc cwd] in
      try_except
        (_ ← mkdir_parents modulepath;
         success ← all_st ((λ func, func modulepath modname) <$> functions);
         if success : bool then mret true
         else raise_st (ValueError "Generating module artifacts failed"))
        (λ e,
           d ← lookup_path modulepath;
           _ ← match d with Some _ => rmtree modulepath | None => mret tt end;
           _ ← print_stderr ("Creating module " +:+ repr modname +:+ " failed: " +:+ str_ e);
           mret false)
  end.

(** [^(\w|-)+$]: [$] also matches before a newline at the end. *)
Definition word_char (c : ascii) : bool :=
  let n := nat_of_ascii c in
  (97 <=? n) && (n <=? 122) || (65 <=? n) && (n <=? 90) || (48 <=? n) && (n <=? 57) || (n =? 95).
Definition name_char (c : ascii) : bool := word_char c || bool_decide (c = "-"%char).
Definition valid_name (s : string) : bool := bool_decide (s ≠ "") && forallb name_char (chars s).
Definition allowedRE (s : string) : bool :=
  valid_name s ||
  match reverse (chars s) with
  | c :: r => bool_decide (c = nl_char) && valid_name (implode (reverse r))
  | [] => false
  end.

(** [name.strip(os.sep)]. *)
Fixpoint drop_seps (l : list ascii) : list ascii :=
  match l with c :: r => if decide (c = "/"%char) then drop_seps r else l | [] => [] end.
Definition strip_seps (s : string) : string :=
  implode (reverse (drop_seps (reverse (drop_seps (chars s))))).

(** [parser.error]: [usage] is what argparse prints before the message. *)
Context (usage : string).
Definition parser_error {A} (msg : string) : M A := _ ← print_stderr (usage +:+ msg); raise_st (SystemExit 2).

Definition check_top_dir (p : path) : M unit :=
  d ← lookup_path p;
  match d with
  | Some Dir => mret tt
  | _ => parser_error ("Cannot find the directory '" +:+ path_str p +:+ "'." +:+ nl +:+ "Please run this " +:+
           "script from the top level of the ns3 directory")
  end.

(** The option [--project]; a path that starts with exactly two slashes is not relative to [/]. *)
Definition read_project (project : string) : M (option path) :=
  if decide (project = "") then mret None
  else if startswith project "//" && negb (startswith project "///") then
    raise_st (ValueError "is not in the subpath of '/'")
  else if forallb allowedRE (parts project) then mret (Some (parts project))
  else parser_error "Project path may only contain the characters [a-zA-Z0-9_-].".

(** One name of the loop: the module it asks for, or [None] when it is skipped. *)
Definition read_name (project : string) (project_path : option path) (name : string) : M (option (path * string)) :=
  let name := strip_seps name in
  if decide (name = "") then mret None else
  let name_path := parts name in
  if 2 <? length name_path then
    _ ← print ("Skipping " +:+ name +:+ ": module name can not be a path"); mret None
  else
  first ← lift_py (or_raise IndexError (head name_path));
  if decide (first = "src" ∧ project ≠ "") then
    parser_error (name +:+ ": Cannot specify src/ in a module name when --project option is used")
  else
  let '(modpath, name_path) :=
    if decide (first = "src") then (cwd ++ ["src"], tail name_path)
    else if decide (first = "contrib") then (cwd ++ ["contrib"], tail name_path)
    else (cwd ++ ["contrib"], name_path) in
  let modpath := match project_path with Some p => cwd ++ ["contrib"] ++ p | None => modpath end in
  modname ← lift_py (or_raise IndexError (head name_path));
  if allowedRE modname then mret (Some (modpath, modname))
  else _ ← print ("Skipping " +:+ modname +:+ ": module name may only contain the characters [a-zA-Z0-9_-]");
       mret None.

Definition main (project : string) (modnames : list string) : M Z :=
  _ ← check_top_dir (cwd ++ ["src"]);
  _ ← check_top_dir (cwd ++ ["contrib"]);
  project_path ← read_project project;
  modules ← map_st (read_name project project_path) modnames;
  ok ← all_st ((λ '(modpath, modname), make_module modpath modname) <$> omap id modules);
  _ ← (if ok : bool then
         _ ← print ""; _ ← print "Successfully created new modules";
         print "Run './ns3 configure' to include them in the build"
       else mret tt);
  mret 0%Z.

(** The exit status of the script. *)
Definition script (project : string) (modnames : list string) (w : world) : Z * world :=
  match main project modnames w with
  | (Ok code, w) => (code, w)
  | (Raise (SystemExit code), w) => (code, w)
  | (Raise e, w) =>
      (1%Z, World (disk w) (printed_out w) (printed_err w ++ ["Exception: '" +:+ str_ e +:+ "'" +:+ nl]))
  end.
End operations.

(** ** Names and paths *)

(** What the paths need of a module name: the names [allowedRE] accepts have it. *)
Definition path_name (s : string) : Prop := s ≠ "" ∧ has_char "/" s = false ∧ has_char "." s = false.

Lemma name_char_has c s :
  name_char c = false → forallb name_char (chars s) = true → has_char c s = false.
Proof.
  intros Hc. induction s as [|x s IH]; cbn; [done|]. intros [Hx Hs]%andb_true_iff. rewrite (IH Hs), orb_false_r.
  apply bool_decide_eq_false. intros ->. congruence.
Qed.

Lemma valid_path_name s : valid_name s = true → path_name s.
Proof.
  unfold valid_name. intros [Hne Hs]%andb_true_iff. apply bool_decide_eq_true in Hne.
  split_and!; [done|by apply name_char_has..].
Qed.

Lemma allowed_path_name s : allowedRE s = true → path_name s.
Proof.
  unfold allowedRE. intros [Hs|Hs]%orb_true_iff; [by apply valid_path_name|].
  destruct (reverse (chars s)) as [|c r] eqn:E; [done|]. apply andb_true_iff in Hs as [Hc Hv].
  apply bool_decide_eq_true in Hc as ->. destruct (valid_path_name _ Hv) as (H1 & H2 & H3).
  apply (f_equal reverse) in E. rewrite reverse_involutive, reverse_cons in E.
  rewrite <-(implode_chars s), E, implode_app. split_and!; [|by rewrite has_char_app, ?H2, ?H3..].
  destruct (implode (reverse r)); [done|]. done.
Qed.

Lemma parts_name s : s ≠ "" → s ≠ "." → has_char "/" s = false → parts s = [s].
Proof. intros H1 H2 H3. unfold parts. rewrite split_all_none by done. by rewrite filter_cons_True. Qed.

Lemma joinpath_name d s : s ≠ "" → s ≠ "." → has_char "/" s = false → joinpath d s = d ++ [s].
Proof.
  intros H1 H2 H3. unfold joinpath. rewrite parts_name by done.
  destruct (startswith s "/") eqn:E; [|done]. apply startswith_spec in E as [t ->]. done.
Qed.

Lemma parent_snoc d x : parent (d ++ [x]) = d.
Proof. unfold parent. rewrite length_app. cbn. rewrite Nat.add_sub. by rewrite take_app_length. Qed.

(** The files of the module have the name of the module, a fixed end and a suffix. *)
Lemma module_file d m x suffix :
  path_name m → has_char "/" x = false → has_char "." x = false →
  with_suffix (joinpath d (m +:+ x)) suffix = Ok (d ++ [m +:+ x +:+ suffix]).
Proof.
  intros (H1 & H2 & H3) Hx1 Hx2.
  assert (has_char "." (m +:+ x) = false) as Hdot by (by rewrite has_char_app, H3, Hx2).
  rewrite joinpath_name.
  - unfold with_suffix. rewrite last_snoc, parent_snoc. unfold split_suffix.
    rewrite (proj2 (split_once_None "." (implode (reverse (chars (m +:+ x)))))); [by rewrite string_app_assoc|].
    apply not_true_iff_false. rewrite has_char_spec, chars_implode, elem_of_reverse, <-has_char_spec. by rewrite Hdot.
  - by destruct m.
  - intros E. by rewrite E in Hdot.
  - by rewrite has_char_app, H2, Hx1.
Qed.

(** ** Faults only turn success into failure *)

(** A file system that refuses nothing. *)
Definition no_faults : Faults := {| denied _ _ := false; full _ _ := false; leftover _ _ := [] |}.

(** When [m] returns, [m'] does the same. *)
Definition simulated {A} (m m' : stx world exn A) : Prop :=
  ∀ w a w', m w = (Ok a, w') → m' w = (Ok a, w').

Create HintDb simulated.

Lemma simulated_refl {A} (m : stx world exn A) : simulated m m.
Proof. by intros w a w'. Qed.
Lemma simulated_bind {A B} (m m' : stx world exn A) (f f' : A → stx world exn B) :
  simulated m m' → (∀ a, simulated (f a) (f' a)) → simulated (m ≫= f) (m' ≫= f').
Proof.
  intros Hm Hf w b w'. unfold mbind, stx_bind. destruct (m w) as [[a|e] w1] eqn:E; [|done].
  rewrite (Hm _ _ _ E). apply Hf.
Qed.
Lemma simulated_raise {A} e (m : stx world exn A) : simulated (raise_st e) m.
Proof. by intros w a w'. Qed.
#[export] Hint Resolve simulated_refl simulated_bind simulated_raise : simulated.

Section simulation.
Context `{F : Faults}.

Lemma simulated_os_mkdir p : simulated (os_mkdir p) (os_mkdir (H := no_faults) p).
Proof.
  unfold os_mkdir. apply simulated_bind; [auto with simulated|]. intros d.
  apply simulated_bind; [auto with simulated|].
  intros n. apply simulated_bind; [auto with simulated|]. intros w.
  destruct d as [[|]|], n; cbn; auto with simulated. destruct (denied (disk w) p); auto with simulated.
Qed.
#[local] Hint Resolve simulated_os_mkdir : simulated.

Lemma simulated_ensure_dir p n : simulated (ensure_dir p n) (ensure_dir (H := no_faults) p n).
Proof.
  induction n as [|n IH]; cbn [ensure_dir]; [auto with simulated|]. apply simulated_bind; [auto with simulated|].
  intros [[|]|]; auto with simulated.
Qed.
#[local] Hint Resolve simulated_ensure_dir : simulated.

Lemma simulated_mkdir p : simulated (mkdir_parents p) (mkdir_parents (H := no_faults) p).
Proof. apply simulated_bind; [auto with simulated|]. intros [d|]; auto with simulated. Qed.

Lemma simulated_create p t kw : simulated (create_file p t kw) (create_file (H := no_faults) p t kw).
Proof.
  unfold create_file. apply simulated_bind; [auto with simulated|]. intros d.
  apply simulated_bind; [auto with simulated|].
  intros n. apply simulated_bind; [auto with simulated|]. intros w.
  destruct d as [[|]|]; [|auto with simulated..].
  destruct n as [[|text0]|]; [auto with simulated| |]; cbn; (destruct (denied (disk w) p); [auto with simulated|]).
  all: apply simulated_bind; [auto with simulated|]; intros _; apply simulated_bind; [auto with simulated|];
    intros text; apply simulated_bind; [auto with simulated|]; intros w1; destruct (full (disk w1) p);
      auto with simulated.
Qed.
#[local] Hint Resolve simulated_mkdir simulated_create : simulated.

Lemma simulated_all (ms ms' : list (stx world exn bool)) :
  Forall2 simulated ms ms' → simulated (all_st ms) (all_st ms').
Proof.
  induction 1 as [|m m' ms ms' Hm _ IH]; cbn [all_st]; [auto with simulated|].
  apply simulated_bind; [done|]. intros []; auto with simulated.
Qed.
End simulation.
#[export] Hint Resolve simulated_mkdir simulated_create : simulated.

(** The part of [make_module] inside its [try]. *)
Definition body `{Faults} (cwd p : path) (m : string) : stx world exn bool :=
  _ ← mkdir_parents p;
  success ← all_st ((λ func, func p m) <$>
              [make_cmakelists; make_model; make_test; make_helper; make_examples; make_doc cwd]);
  if success : bool then mret true else raise_st (ValueError "Generating module artifacts failed").

Lemma body_simulated `{F : Faults} cwd p m : simulated (body cwd p m) (body (H := no_faults) cwd p m).
Proof.
  apply simulated_bind; [auto with simulated|]. intros _. apply simulated_bind; [|auto with simulated].
  apply simulated_all. cbn. repeat constructor; unfold make_cmakelists, make_model, make_test, make_helper,
    make_examples, make_doc; repeat (apply simulated_bind; [auto with simulated|]; intros ?); auto with simulated.
Qed.

(** ** What the operations leave alone *)

(** The root is a directory, and what exists lies in a directory. *)
Definition fs_wf (m : fs) : Prop :=
  m !! [] = Some Dir ∧ ∀ q x, is_Some (m !! (q ++ [x])) → m !! q = Some Dir.

(** Outside of [p], [m'] is [m], but for directories on the way to [p] that were missing. *)
Definition frame (p : path) (m m' : fs) : Prop :=
  ∀ q, ¬ p `prefix_of` q →
    m' !! q = m !! q ∨ q `prefix_of` p ∧ m !! q = None ∧ m' !! q = Some Dir.

Lemma frame_refl p m : frame p m m.
Proof. intros q _. by left. Qed.

Lemma wf_insert m p n :
  p ≠ [] → m !! parent p = Some Dir → m !! p ≠ Some Dir → fs_wf m → fs_wf (<[p := n]> m).
Proof.
  intros Hp Hpar Hnd [Hroot Hwf]. split; [by rewrite lookup_insert_ne|].
  intros q x. destruct (decide (p = q ++ [x])) as [->|Hne].
  - rewrite parent_snoc in Hpar. intros _. rewrite lookup_insert_ne; [done|].
    intros E. apply (f_equal length) in E. rewrite length_app in E. cbn in E. lia.
  - rewrite lookup_insert_ne by done. intros Hq. apply Hwf in Hq. rewrite lookup_insert_ne; [done|].
    intros ->. done.
Qed.

(** Nothing lies below a path that does not exist. *)
Lemma wf_below m p k : fs_wf m → m !! p = None → m !! (p ++ k) = None.
Proof.
  intros [_ Hwf] Hp. induction k as [|x k IH] using rev_ind; [by rewrite app_nil_r|].
  rewrite app_assoc. apply eq_None_not_Some. intros Hx.
  assert (m !! (p ++ k) = Some Dir) as Hd by (by apply (Hwf _ x)). congruence.
Qed.

(** What every step keeps: [p] itself never becomes a file. *)
Definition frame_inv (p : path) (m : fs) (w : world) : Prop :=
  fs_wf (disk w) ∧ frame p m (disk w) ∧ ∀ t, disk w !! p ≠ Some (File t).

(** Adding an entry on the way to [p] or below it. *)
Lemma frame_insert p m w q n :
  q ≠ [] → (p `prefix_of` q ∧ (q = p → n = Dir) ∨ q `prefix_of` p ∧ disk w !! q = None ∧ n = Dir) →
  disk w !! parent q = Some Dir → disk w !! q ≠ Some Dir → frame_inv p m w →
  frame_inv p m (World (<[q := n]> (disk w)) (printed_out w) (printed_err w)).
Proof.
  intros Hq Hside Hpar Hnd (Hwf & Hfr & Hf). split_and!; cbn; [by apply wf_insert| |].
  - intros k Hk. cbn.
    destruct (decide (q = k)) as [->|Hne]; [|rewrite lookup_insert_ne by done; by apply Hfr].
    destruct Hside as [[? _]|(Hpre & Hnone & ->)]; [done|]. right. rewrite lookup_insert_eq.
    destruct (Hfr k Hk) as [E|(_ & _ & E)]; [|congruence]. split_and!; [done|congruence|done].
  - intros t. destruct (decide (q = p)) as [->|Hne]; [|by rewrite lookup_insert_ne].
    rewrite lookup_insert_eq. naive_solver.
Qed.

(** A prefix of a path on the way to or below [p] is so itself. *)
Lemma prefix_take_side (p q : path) n :
  p `prefix_of` q ∨ q `prefix_of` p → p `prefix_of` take n q ∨ take n q `prefix_of` p.
Proof.
  intros [Hq|Hq].
  - destruct (prefix_weak_total p (take n q) q) as [?|?]; [done|by apply prefix_take|by left|by right].
  - right. etrans; [|done]. by apply prefix_take.
Qed.

(** *** The runs of the operations that add an entry *)

Section entry_runs.
Context `{Faults}.

Lemma inv_lookup_path (Inv : world → Prop) (q : path) : inv_run Inv (lookup_path q) (λ _, True).
Proof. eapply inv_bind; [apply inv_get|]. intros w _. by apply inv_ret. Qed.

Lemma os_mkdir_run q w r w' :
  os_mkdir q w = (r, w') →
  w' = w ∧ r = Raise OSError ∨
  r = Ok tt ∧ disk w !! parent q = Some Dir ∧ disk w !! q = None ∧
  w' = World (<[q := Dir]> (disk w)) (printed_out w) (printed_err w).
Proof.
  unfold os_mkdir, lookup_path, mbind, stx_bind, get_st, mret, stx_ret. cbn.
  destruct (disk w !! parent q) as [[|]|], (disk w !! q); cbn; try (intros [= <- <-]; left; by eauto).
  destruct (denied (disk w) q); intros [= <- <-]; [left; by eauto|by right].
Qed.

Lemma create_file_run q t kw w r w' :
  create_file q t kw w = (r, w') →
  w' = w ∧ r = Raise OSError ∨
  disk w !! parent q = Some Dir ∧ disk w !! q ≠ Some Dir ∧
  (r = Ok tt ∨ r = Raise OSError ∨ ∃ e, format t kw = Raise e ∧ r = Raise e) ∧
  ∃ text, w' = World (<[q := File text]> (disk w)) (printed_out w) (printed_err w).
Proof.
  unfold create_file, lookup_path, mbind, stx_bind, get_st, mret, stx_ret. cbn.
  destruct (disk w !! parent q) as [[|]|]; [|intros [= <- <-]; left; by eauto..].
  unfold set_disk, modify_st, lift_py. cbn.
  destruct (disk w !! q) as [[|old]|]; [intros [= <- <-]; left; by eauto| |]; cbn;
    (destruct (denied (disk w) q); [intros [= <- <-]; left; by eauto|]);
    (destruct (format t kw) as [text|e]; [|intros [= <- <-]; right; naive_solver]); cbn;
    (destruct (full _ q); intros [= <- <-]; right; cbn; rewrite ?insert_insert_eq; naive_solver).
Qed.

(** [mkdir] with parents, for an invariant that every directory it may add keeps. *)
Lemma inv_ensure_dir (Inv : world → Prop) q n :
  (∀ k, k < length q → inv_run Inv (os_mkdir (take (S k) q)) (λ _, True)) →
  n ≤ length q → inv_run Inv (ensure_dir q n) (λ _, True).
Proof.
  intros Hstep. induction n as [|n IH]; intros Hn; cbn [ensure_dir]; [by apply inv_ret|].
  eapply inv_bind; [apply inv_lookup_path|].
  intros [[|]|] _; [by apply inv_ret|apply inv_raise|]. eapply inv_bind; [apply IH; lia|]. intros _ _.
  apply Hstep. lia.
Qed.

Lemma inv_mkdir (Inv : world → Prop) q :
  q ≠ [] → (∀ k, k < length q → inv_run Inv (os_mkdir (take (S k) q)) (λ _, True)) →
  inv_run Inv (mkdir_parents q) (λ _, True).
Proof.
  intros Hq Hstep. eapply inv_bind; [apply inv_lookup_path|]. intros [d|] _; [apply inv_raise|].
  eapply inv_bind; [apply inv_ensure_dir; [done|lia]|]. intros _ _.
  assert (length q ≠ 0) by (by destruct q). specialize (Hstep (length q - 1) ltac:(lia)).
  rewrite take_ge in Hstep by lia. done.
Qed.
End entry_runs.

Section invariants.
Context `{Faults} (p : path) (m : fs).
Abbreviation Inv := (frame_inv p m).

Lemma frame_os_mkdir q :
  q ≠ [] → (p `prefix_of` q ∨ q `prefix_of` p) → inv_run Inv (os_mkdir q) (λ _, True).
Proof.
  intros Hq Hside w r w' Hw [[-> _]|(_ & Hpar & Hn & ->)]%os_mkdir_run; (split; [|done]); [done|].
  apply frame_insert; try done; [|congruence]. destruct Hside; [by left|by right].
Qed.

Lemma frame_mkdir q :
  q ≠ [] → (p `prefix_of` q ∨ q `prefix_of` p) → inv_run Inv (mkdir_parents q) (λ _, True).
Proof.
  intros Hq Hside. apply inv_mkdir; [done|]. intros k Hk.
  apply frame_os_mkdir; [by destruct q|]. by apply prefix_take_side.
Qed.

Lemma frame_create k x t kw : inv_run Inv (create_file (p ++ k ++ [x]) t kw) (λ _, True).
Proof.
  intros w r w' Hw [[-> _]|(Hpar & Hnd & _ & text & ->)]%create_file_run; (split; [|done]); [done|].
  apply frame_insert; try done; [by destruct p, k|]. left. split; [by apply prefix_app_r|].
  intros E. apply (f_equal length) in E. rewrite !length_app in E. cbn in E. lia.
Qed.

(** A directory new at [p] is empty. *)
Lemma empty_mkdir :
  p ≠ [] → inv_run (λ w, ∀ x k, disk w !! (p ++ x :: k) = None) (mkdir_parents p) (λ _, True).
Proof.
  intros Hp. apply inv_mkdir; [done|]. intros i Hi w r w' Hw Hrun.
  apply os_mkdir_run in Hrun as [[-> _]|(_ & _ & _ & ->)]; (split; [|done]); [done|].
  intros x k. cbn. rewrite lookup_insert_ne; [apply Hw|].
  intros E. apply (f_equal length) in E. rewrite length_app, length_take in E. cbn [length] in E. lia.
Qed.
End invariants.

Lemma all_st_ext (ms ms' : list (stx world exn bool)) w :
  Forall2 (λ m m', ∀ w, m w = m' w) ms ms' → all_st ms w = all_st ms' w.
Proof.
  intros Hms. revert w. induction Hms as [|m m' ms ms' Hm _ IH]; intros w; [done|]. cbn [all_st].
  unfold mbind, stx_bind. rewrite Hm. destruct (m' w) as [[[]|] w']; [apply IH|done..].
Qed.

(** ** The generated tree *)

(** A file of a module: its name, its template and the parameters of the template. *)
Abbreviation file_spec := (string * string * gmap string string)%type.
Definition text_of (t : string) (kwargs : gmap string string) : node := File (expand kwargs (tokens (chars t) None)).
Abbreviation env1 m := ({[ "MODULE" := m ]} : gmap string string).

(** The directories of the module [m] with their files; [rel] is the path named in the
    documentation. *)
Definition module_dirs (rel m : string) : list (string * list file_spec) :=
  [("model", [(m +:+ ".cc", MODEL_CC_TEMPLATE, env1 m);
              (m +:+ ".h", MODEL_H_TEMPLATE, {[ "MODULE" := m; "INCLUDE_GUARD" := guard m ]})]);
   ("test", [(m +:+ "-test-suite.cc", TEST_CC_TEMPLATE,
              {[ "MODULE" := m; "CAPITALIZED" := capitalized m; "COMPOUND" := compound m ]})]);
   ("helper", [(m +:+ "-helper.cc", HELPER_CC_TEMPLATE, env1 m);
               (m +:+ "-helper.h", HELPER_H_TEMPLATE, {[ "MODULE" := m; "INCLUDE_GUARD" := helper_guard m ]})]);
   ("examples", [("CMakeLists.txt", EXAMPLES_CMAKELISTS_TEMPLATE, env1 m);
                 (m +:+ "-example.cc", EXAMPLE_CC_TEMPLATE, env1 m)]);
   ("doc", [(m +:+ ".rst", DOC_RST_TEMPLATE, {[ "MODULE" := m; "MODULE_DIR" := rel ]})])].

Definition file_entry (d : string) (f : file_spec) : path * node :=
  let '(x, t, kw) := f in ([d; x], text_of t kw).
Definition dir_entries (dfs : string * list file_spec) : list (path * node) :=
  ([dfs.1], Dir) :: (file_entry dfs.1 <$> dfs.2).
(** Everything below the module directory. *)
Definition module_entries (rel m : string) : list (path * node) :=
  (["CMakeLists.txt"], text_of CMAKELISTS_TEMPLATE (env1 m)) :: (module_dirs rel m ≫= dir_entries).

(** The entries put below [p]. *)
Definition puts (p : path) (es : list (path * node)) (m : fs) : fs :=
  foldl (λ m kn, <[p ++ kn.1 := kn.2]> m) m es.
Definition module_tree (rel m : string) : fs := puts [] (([], Dir) :: module_entries rel m) ∅.

Lemma puts_app p es es' m : puts p (es ++ es') m = puts p es' (puts p es m).
Proof. apply foldl_app. Qed.

Lemma puts_other p es m q : (∀ k n, (k, n) ∈ es → p ++ k ≠ q) → puts p es m !! q = m !! q.
Proof.
  induction es as [|[k n] es IH] using rev_ind; intros Hq; [done|]. rewrite puts_app. cbn.
  rewrite lookup_insert_ne by (apply (Hq k n); set_solver). apply IH. intros k' n' Hk. apply (Hq k' n'). set_solver.
Qed.

(** Below [p] only the entries count. *)
Lemma puts_below p es m m' k :
  m !! (p ++ k) = m' !! k → puts p es m !! (p ++ k) = puts [] es m' !! k.
Proof.
  intros Hm. induction es as [|[k' n] es IH] using rev_ind; [done|]. rewrite !puts_app. cbn.
  destruct (decide (k' = k)) as [->|Hne]; [by rewrite !lookup_insert_eq|].
  rewrite lookup_insert_ne by (intros E; by apply app_inv_head in E). by rewrite lookup_insert_ne.
Qed.

(** The entries of one directory do not touch the others. *)
Lemma puts_dir_other p dfs m q :
  (∀ k, q ≠ p ++ dfs.1 :: k) → puts p (dir_entries dfs) m !! q = m !! q.
Proof.
  intros Hq. apply puts_other. intros k n Hk <-. unfold dir_entries in Hk.
  apply elem_of_cons in Hk as [[= -> ->]|([[x t] kw] & [= -> ->] & _)%list_elem_of_fmap]; by eapply Hq.
Qed.

(** *** The functions have one form *)

Section new_dir.
Context `{Faults} (p : path).

Definition fill (d : string) (files : list file_spec) : stx world exn unit :=
  for_st (λ '(x, t, kw), create_file (p ++ [d; x]) t kw) files.
Definition new_dir (dfs : string * list file_spec) : stx world exn bool :=
  _ ← mkdir_parents (p ++ [dfs.1]); _ ← fill dfs.1 dfs.2; mret true.

Ltac same_run :=
  cbn [app String.append]; unfold new_dir, fill, mbind, stx_bind, lift_py; cbn [for_st fst snd];
  unfold mbind, stx_bind;
  repeat match goal with
         | |- context [mkdir_parents ?q ?w] => destruct (mkdir_parents q w) as [[[]|?] ?]; [|reflexivity]
         | |- context [create_file ?q ?t ?kw ?w] => destruct (create_file q t kw w) as [[[]|?] ?]; [|reflexivity]
         end; reflexivity.

Lemma functions_dirs cwd m w :
  path_name m →
  all_st ((λ func, func p m) <$> [make_cmakelists; make_model; make_test; make_helper; make_examples; make_doc cwd]) w =
  all_st (make_cmakelists p m :: (new_dir <$> module_dirs (relpath (path_str cwd) (path_str p) (path_str cwd)) m)) w.
Proof.
  intros Hm. pose proof (module_file (p ++ ["model"]) m "" ".cc" Hm eq_refl eq_refl) as E1.
  pose proof (module_file (p ++ ["model"]) m "" ".h" Hm eq_refl eq_refl) as E2.
  rewrite string_app_nil_r in E1, E2.
  assert (joinpath (p ++ ["doc"]) (m +:+ ".rst") = (p ++ ["doc"]) ++ [m +:+ ".rst"]) as E3.
  { destruct Hm as (H1 & H2 & H3). apply joinpath_name; [by destruct m|destruct m as [|? []]; done|].
    by rewrite has_char_app, H2. }
  apply all_st_ext. unfold make_model, make_test, make_helper, make_examples, make_doc.
  cbn [fmap list_fmap module_dirs]. rewrite !Forall2_cons.
  split_and!; [..|by apply Forall2_nil]; intros w'; [done|..];
    rewrite ?E1, ?E2, ?E3, ?module_file, <-!app_assoc by done; same_run.
Qed.
End new_dir.

(** ** The body under any faults *)

(** Every exception that [m] raises has [P]. *)
Definition raises {A} (P : exn → Prop) (m : stx world exn A) : Prop := ∀ w w' e, m w = (Raise e, w') → P e.
Definition no_exit (e : exn) : Prop := ∀ c, e ≠ SystemExit c.

Section raises.
Context (P : exn → Prop).

Lemma raises_ret {A} (a : A) : raises P (mret a).
Proof. by intros w w' c. Qed.
Lemma raises_raise {A} e : P e → raises P (raise_st e : stx world exn A).
Proof. by intros He w w' c [= <-]. Qed.
Lemma raises_lift {A} (r : py exn A) : (∀ e, r = Raise e → P e) → raises P (lift_py r : stx world exn A).
Proof. intros Hr w w' e [= -> ->]. by apply Hr. Qed.
Lemma raises_modify f : raises P (modify_st f : stx world exn unit).
Proof. by intros w w' c. Qed.
Lemma raises_print s : raises P (print s).
Proof. apply raises_modify. Qed.
Lemma raises_print_stderr s : raises P (print_stderr s).
Proof. apply raises_modify. Qed.
Lemma raises_lookup p : raises P (lookup_path p).
Proof. by intros w w' c. Qed.
Lemma raises_bind {A B} (m : stx world exn A) (f : A → stx world exn B) :
  raises P m → (∀ a, raises P (f a)) → raises P (m ≫= f).
Proof.
  intros Hm Hf w w' c. unfold mbind, stx_bind. destruct (m w) as [[a|e] w1] eqn:E; [apply Hf|].
  intros [= -> ->]. by eapply Hm.
Qed.
Lemma raises_for {A} (f : A → stx world exn unit) l : (∀ x, raises P (f x)) → raises P (for_st f l).
Proof. intros Hf. induction l as [|x l IH]; [apply raises_ret|]. apply raises_bind; [apply Hf|done]. Qed.
Lemma raises_map {A B} (f : A → stx world exn B) l : (∀ x, raises P (f x)) → raises P (map_st f l).
Proof.
  intros Hf. induction l as [|x l IH]; [apply raises_ret|]. apply raises_bind; [apply Hf|]. intros y.
  apply raises_bind; [done|]. intros ys. apply raises_ret.
Qed.
Lemma raises_all ms : Forall (raises P) ms → raises P (all_st ms).
Proof.
  induction 1 as [|m ms Hm _ IH]; [apply raises_ret|]. apply raises_bind; [done|].
  intros []; [done|apply raises_ret].
Qed.
End raises.

Lemma render_no_exit env ts c : render env ts ≠ Raise (SystemExit c).
Proof.
  induction ts as [|[x|n|msg] ts IH]; cbn; try done; [|destruct (env !! n); cbn; [|done]];
    (destruct (render env ts); cbn; [done|congruence]).
Qed.

Create HintDb raises.
#[export] Hint Resolve raises_ret raises_print raises_print_stderr raises_lookup raises_bind raises_for raises_map raises_all : raises.

Section body.
Context `{Faults} (p : path) (m0 : fs).
Abbreviation Inv := (frame_inv p m0).

Lemma no_exit_os_mkdir q : raises no_exit (os_mkdir q).
Proof. by intros w w' e [[_ [= ->]]|[? _]]%os_mkdir_run. Qed.
Lemma no_exit_create q t kw : raises no_exit (create_file q t kw).
Proof.
  intros w w' e [[_ [= ->]]|(_ & _ & [?|[[= ->]|(e' & He & [= <-])]] & _)]%create_file_run; try done.
  intros c ->. by apply render_no_exit in He.
Qed.
#[local] Hint Resolve no_exit_os_mkdir no_exit_create : raises.
Lemma no_exit_mkdir q : raises no_exit (mkdir_parents q).
Proof.
  apply raises_bind; [auto with raises|]. intros [d|]; [by apply (raises_raise no_exit)|].
  apply raises_bind; [|auto with raises]. induction (length q - 1) as [|n IH]; cbn [ensure_dir];
    [auto with raises|]. apply raises_bind; [auto with raises|]. intros [[|]|]; [auto with raises..|].
  - by apply (raises_raise no_exit).
  - auto with raises.
Qed.
#[local] Hint Resolve no_exit_mkdir : raises.

Lemma no_exit_new_dir dfs : raises no_exit (new_dir p dfs).
Proof.
  apply raises_bind; [auto with raises|]. intros _. apply raises_bind; [|auto with raises].
  apply raises_for. intros [[x t] kw]. auto with raises.
Qed.

Lemma frame_new_dir dfs : inv_run Inv (new_dir p dfs) (λ b, b = true).
Proof.
  eapply inv_bind; [apply (frame_mkdir p m0); [by destruct p|left; by apply prefix_app_r]|]. intros _ _.
  eapply inv_bind; [|intros _ _; by apply inv_ret].
  apply inv_for. intros [[x t] kw] _. apply (frame_create p m0 [dfs.1] x).
Qed.

Lemma frame_all ms : Forall (λ m, inv_run Inv m (λ b, b = true)) ms → inv_run Inv (all_st ms) (λ b, b = true).
Proof.
  induction 1 as [|m ms Hm _ IH]; [by apply inv_ret|]. eapply inv_bind; [apply Hm|]. by intros b ->.
Qed.

(** The body keeps the frame, raises no SystemExit and returns nothing but [True]. *)
Lemma body_frame cwd m :
  path_name m → p ≠ [] → inv_run Inv (body cwd p m) (λ b, b = true) ∧ raises no_exit (body cwd p m).
Proof.
  intros Hm Hp. split.
  - eapply inv_bind; [apply (frame_mkdir p m0); [done|by left]|]. intros _ _. eapply inv_bind.
    + intros w r w' Hw. rewrite functions_dirs by done. revert Hw. apply frame_all. constructor.
      * eapply inv_bind; [apply (frame_create p m0 [])|]. intros _ _. by apply inv_ret.
      * apply Forall_fmap, Forall_true. intros dfs. apply frame_new_dir.
    + intros b ->. by apply inv_ret.
  - apply raises_bind; [auto with raises|]. intros _. apply raises_bind.
    + intros w w' e. rewrite functions_dirs by done. revert w w' e. apply raises_all. constructor.
      * apply raises_bind; auto with raises.
      * apply Forall_fmap, Forall_true. intros dfs. apply no_exit_new_dir.
    + intros []; [auto with raises|by apply (raises_raise no_exit)].
Qed.
End body.

(** ** The body without faults *)

Section faultless.
#[local] Existing Instance no_faults.

Lemma ensure_dir_exists q n w : disk w !! take n q = Some Dir → ensure_dir q n w = (Ok tt, w).
Proof.
  destruct n as [|n]; [done|]. intros Hd. cbn [ensure_dir].
  unfold lookup_path, mbind, stx_bind, get_st, mret, stx_ret. by rewrite Hd.
Qed.

(** [os.mkdir] succeeds when the parent is a directory and the entry is new. *)
Lemma runs_os_mkdir q w :
  disk w !! parent q = Some Dir → disk w !! q = None →
  runs (os_mkdir q) w (λ _ w', disk w' = <[q := Dir]> (disk w)).
Proof.
  intros Hd Hn. exists tt, (World (<[q := Dir]> (disk w)) (printed_out w) (printed_err w)). split; [|done].
  unfold os_mkdir, lookup_path, mbind, stx_bind, get_st, mret, stx_ret. by rewrite Hd, Hn.
Qed.

Lemma runs_mkdir d x w :
  disk w !! d = Some Dir → disk w !! (d ++ [x]) = None →
  runs (mkdir_parents (d ++ [x])) w (λ _ w', disk w' = <[d ++ [x] := Dir]> (disk w)).
Proof.
  intros Hd Hn. destruct (runs_os_mkdir (d ++ [x]) w) as (u & w' & Hrun & Hw'); [by rewrite parent_snoc|done|].
  exists u, w'. split; [|done]. unfold mkdir_parents, lookup_path, mbind, stx_bind, get_st, mret, stx_ret. rewrite Hn.
  rewrite length_app. cbn [length]. rewrite Nat.add_sub.
  by rewrite (ensure_dir_exists _ _ w) by (by rewrite take_app_length).
Qed.

(** No file is on the way to [q]. *)
Definition clear_way (q : path) (m : fs) : Prop := ∀ n t, m !! take n q ≠ Some (File t).

Lemma parent_take (q : path) n : S n ≤ length q → parent (take (S n) q) = take n q.
Proof. intros Hn. unfold parent. rewrite length_take, take_take. f_equal. lia. Qed.

Lemma runs_ensure_dir q n w :
  fs_wf (disk w) → clear_way q (disk w) → n ≤ length q →
  runs (ensure_dir q n) w (λ _ w',
    disk w' !! take n q = Some Dir ∧ ∀ k, n < k → k ≤ length q → disk w !! take k q = None → disk w' !! take k q = None).
Proof.
  intros Hwf Hclear. induction n as [|n IH]; intros Hn; cbn [ensure_dir].
  - apply runs_ret. split; [by destruct Hwf|done].
  - unfold lookup_path. eapply runs_bind; [by apply (runs_ret _ _ (λ d w', d = disk w !! take (S n) q ∧ w' = w))|].
    intros d w1 [-> ->]. destruct (disk w !! take (S n) q) as [[|t]|] eqn:E.
    + apply runs_ret. naive_solver.
    + by apply Hclear in E.
    + eapply runs_bind; [apply IH; lia|]. cbn. intros _ w1 [H1 H2].
      eapply runs_weaken; [apply runs_os_mkdir; [by rewrite parent_take|by apply H2; [lia..|]]|].
      cbn. intros _ w2 ->. rewrite lookup_insert_eq. split; [done|]. intros k Hk1 Hk2 Hk.
      rewrite lookup_insert_ne; [apply H2; [lia..|done]|]. intros E'. apply (f_equal length) in E'.
      rewrite !length_take in E'. lia.
Qed.

Lemma runs_mkdir_parents p w :
  p ≠ [] → fs_wf (disk w) → clear_way p (disk w) → disk w !! p = None →
  runs (mkdir_parents p) w (λ _ w', disk w' !! p = Some Dir).
Proof.
  intros Hp Hwf Hclear Hn. unfold mkdir_parents, lookup_path.
  eapply runs_bind; [by apply (runs_ret _ _ (λ d w', d = disk w !! p ∧ w' = w))|]. intros d w1 [-> ->]. rewrite Hn.
  assert (length p ≠ 0) by (by destruct p).
  eapply runs_bind; [apply (runs_ensure_dir p (length p - 1)); [done..|lia]|]. cbn. intros _ w1 [H1 H2].
  specialize (H2 (length p) ltac:(lia) ltac:(lia)). rewrite firstn_all in H2.
  eapply runs_weaken; [apply runs_os_mkdir; [done|by apply H2]|]. cbn. intros _ w2 ->. by rewrite lookup_insert_eq.
Qed.

(** A template whose fields all have a value. *)
Definition complete (f : file_spec) : Prop :=
  let '(_, t, kw) := f in bound (elements (dom kw)) (tokens (chars t) None) = true.

Lemma runs_create d x t kw w :
  complete (x, t, kw) → disk w !! d = Some Dir → disk w !! (d ++ [x]) = None →
  runs (create_file (d ++ [x]) t kw) w (λ _ w', disk w' = <[d ++ [x] := text_of t kw]> (disk w)).
Proof.
  intros Hb Hd Hn. exists tt, (World (<[d ++ [x] := text_of t kw]> (disk w)) (printed_out w) (printed_err w)).
  split; [|done]. unfold create_file, lookup_path, mbind, stx_bind, get_st, mret, stx_ret.
  rewrite parent_snoc, Hd, Hn.
  unfold format. rewrite (render_expand _ _ _ Hb); [|intros n Hk; by apply elem_of_elements, elem_of_dom in Hk].
  unfold set_disk, modify_st, lift_py, text_of. cbn. by rewrite insert_insert_eq.
Qed.

Context (p : path).

Lemma runs_fill d files w :
  Forall complete files → NoDup (files.*1.*1) → disk w !! (p ++ [d]) = Some Dir →
  (∀ x, x ∈ files.*1.*1 → disk w !! (p ++ [d; x]) = None) →
  runs (fill p d files) w (λ _ w', disk w' = puts p (file_entry d <$> files) (disk w)).
Proof.
  intros Hc. revert w. induction Hc as [|[[x t] kw] files Hx _ IH]; intros w Hnd Hd Hn; [by apply runs_ret|].
  cbn in Hnd. apply NoDup_cons in Hnd as [Hin Hnd]. unfold fill. cbn [for_st].
  assert (p ++ [d; x] = (p ++ [d]) ++ [x]) as E by (by rewrite <-app_assoc).
  eapply runs_bind.
  - rewrite E. apply runs_create; [done|done|rewrite <-E; apply Hn; left].
  - cbn. intros _ w1 H1. eapply runs_weaken; [apply IH|]; [done| | |].
    + rewrite H1, lookup_insert_ne; [done|]. intros E'. apply (f_equal length) in E'. rewrite length_app in E'.
      cbn in E'. lia.
    + intros y Hy. rewrite H1, <-E, lookup_insert_ne; [apply Hn; by right|]. intros E'.
      apply app_inv_head in E' as [= ->]. done.
    + cbn. intros _ w2 ->. by rewrite H1, <-E.
Qed.

Definition proper_dir (dfs : string * list file_spec) : Prop := Forall complete dfs.2 ∧ NoDup (dfs.2.*1.*1).

Lemma runs_new_dir dfs w :
  proper_dir dfs → disk w !! p = Some Dir → (∀ k, disk w !! (p ++ dfs.1 :: k) = None) →
  runs (new_dir p dfs) w (λ b w', b = true ∧ disk w' = puts p (dir_entries dfs) (disk w)).
Proof.
  destruct dfs as [d files]. cbn. intros [Hc Hnd] Hp Hd.
  eapply runs_bind; [by apply runs_mkdir|]. cbn. intros _ w1 H1. eapply runs_bind.
  - apply runs_fill; try done; [by rewrite H1, lookup_insert_eq|].
    intros x _. rewrite H1, lookup_insert_ne; [apply Hd|intros E; by apply app_inv_head in E].
  - cbn. intros _ w2 H2. apply runs_ret. by rewrite H2, H1.
Qed.

Lemma runs_dirs dirs w :
  Forall proper_dir dirs → NoDup (dirs.*1) → disk w !! p = Some Dir →
  (∀ d k, d ∈ dirs.*1 → disk w !! (p ++ d :: k) = None) →
  runs (all_st (new_dir p <$> dirs)) w (λ b w', b = true ∧ disk w' = puts p (dirs ≫= dir_entries) (disk w)).
Proof.
  intros Hc. revert w. induction Hc as [|dfs dirs Hx _ IH]; intros w Hnd Hp Hn; [by apply runs_ret|].
  cbn in Hnd. apply NoDup_cons in Hnd as [Hin Hnd]. cbn [fmap list_fmap all_st].
  eapply runs_bind; [apply runs_new_dir; [done..|]; intros k; apply Hn; left|].
  intros b w1 [-> H1].
  eapply runs_weaken; [apply IH|]; [done| | |].
  - rewrite H1, puts_dir_other; [done|]. intros k E. apply (f_equal length) in E. rewrite length_app in E.
    cbn in E. lia.
  - intros d k Hd. rewrite H1, puts_dir_other; [apply Hn; by right|]. intros k' E. apply app_inv_head in E.
    naive_solver.
  - intros b' w2 [-> ->]. split; [done|].
    change ((dfs :: dirs) ≫= dir_entries) with (dir_entries dfs ++ (dirs ≫= dir_entries)).
    by rewrite puts_app, H1.
Qed.
End faultless.

(** *** The tree that a successful body leaves *)

Lemma proper_module_dirs rel m : Forall proper_dir (module_dirs rel m) ∧ NoDup ((module_dirs rel m).*1).
Proof.
  split; [|by apply (bool_decide_unpack _); vm_compute].
  unfold module_dirs. repeat constructor; cbn; try (by vm_compute); try set_solver;
    (apply not_elem_of_cons; split; [|apply not_elem_of_nil]); intros E; [by apply (inj (String.append m)) in E..|].
  apply (f_equal (λ s, head (reverse (chars s)))) in E. by rewrite chars_app, reverse_app in E.
Qed.

Lemma module_tree_root rel m : module_tree rel m !! [] = Some Dir.
Proof.
  unfold module_tree. change (puts [] (([], Dir) :: ?es) ∅) with (puts [] es (<[[] := Dir]> ∅)).
  rewrite puts_other, lookup_insert_eq; [done|]. cbn [app]. intros k n Hk ->.
  apply elem_of_cons in Hk as [?|(dfs & Hk & _)%list_elem_of_bind]; [done|]. unfold dir_entries in Hk.
  by apply elem_of_cons in Hk as [?|([[x t] kw] & ? & _)%list_elem_of_fmap].
Qed.

Section faultless_body.
#[local] Existing Instance no_faults.
Context (cwd p : path) (m : string) (Hm : path_name m).
Abbreviation rel := (relpath (path_str cwd) (path_str p) (path_str cwd)).

Lemma runs_functions w :
  disk w !! p = Some Dir → (∀ x k, disk w !! (p ++ x :: k) = None) →
  runs (all_st ((λ func, func p m) <$>
          [make_cmakelists; make_model; make_test; make_helper; make_examples; make_doc cwd])) w
    (λ b w', b = true ∧ disk w' = puts p (module_entries rel m) (disk w)).
Proof.
  intros Hp Hn. destruct (proper_module_dirs rel m) as [Hproper Hnd].
  enough (runs (all_st (make_cmakelists p m :: (new_dir p <$> module_dirs rel m))) w
    (λ b w', b = true ∧ disk w' = puts p (module_entries rel m) (disk w))) as (b & w' & Hrun & HQ).
  { exists b, w'. by rewrite functions_dirs. }
  cbn [all_st]. eapply (runs_bind _ _ _ (λ b w1, b = true ∧
    disk w1 = <[p ++ ["CMakeLists.txt"] := text_of CMAKELISTS_TEMPLATE (env1 m)]> (disk w))).
  - eapply runs_bind; [apply runs_create; [by vm_compute|done..]|]. intros u w1 H1.
    by apply runs_ret.
  - intros b w1 [-> H1]. eapply runs_weaken; [apply runs_dirs; try done|].
    + rewrite H1, lookup_insert_ne; [done|]. intros E. apply (f_equal length) in E. rewrite length_app in E.
      cbn in E. lia.
    + intros d k Hd. rewrite H1, lookup_insert_ne; [apply Hn|]. intros E.
      apply app_inv_head in E as [= Ed _]. rewrite <-Ed in Hd. cbn in Hd. set_solver.
    + intros b w2 [-> ->]. by rewrite H1.
Qed.

(** When nothing is in the way the body succeeds. *)
Lemma runs_body w :
  p ≠ [] → fs_wf (disk w) → clear_way p (disk w) → disk w !! p = None → runs (body cwd p m) w (λ b _, b = true).
Proof.
  intros Hp Hwf Hclear Hn. unfold body.
  destruct (runs_mkdir_parents p w Hp Hwf Hclear Hn) as (u & w1 & Hrun & H1).
  destruct (empty_mkdir p Hp w (Ok u) w1) as [Hempty _]; [intros x k; by apply wf_below|done|].
  destruct (runs_functions w1 H1 Hempty) as (b & w2 & Hrun2 & -> & _). exists true, w2. split; [|done].
  unfold mbind, stx_bind. by rewrite Hrun, Hrun2.
Qed.
End faultless_body.

Lemma mkdir_ok `{Faults} p w u w' : mkdir_parents p w = (Ok u, w') → disk w' !! p = Some Dir.
Proof.
  unfold mkdir_parents, lookup_path, mbind, stx_bind, get_st, mret, stx_ret. destruct (disk w !! p); [done|].
  destruct (ensure_dir p _ w) as [[[]|e] w0]; [|done].
  intros [[_ ?]|(_ & _ & _ & ->)]%os_mkdir_run; [done|]. cbn. by rewrite lookup_insert_eq.
Qed.

(** Below [p] a successful body leaves the module tree, whatever faults there were. *)
Lemma body_tree `{F : Faults} cwd p m w w' :
  path_name m → p ≠ [] → fs_wf (disk w) → disk w !! p = None → body cwd p m w = (Ok true, w') →
  ∀ k, disk w' !! (p ++ k) = module_tree (relpath (path_str cwd) (path_str p) (path_str cwd)) m !! k.
Proof.
  intros Hm Hp Hwf Hn Hrun k. apply body_simulated in Hrun. unfold body, mbind, stx_bind in Hrun.
  destruct (mkdir_parents (H := no_faults) p w) as [[[]|e] w1] eqn:E1; [|done].
  destruct (empty_mkdir (H := no_faults) p Hp w (Ok tt) w1) as [Hempty _]; [intros x k'; by apply wf_below|done|].
  pose proof (mkdir_ok _ _ _ _ E1) as Hd.
  destruct (runs_functions cwd p m Hm w1 Hd Hempty) as (b & w2 & Hrun2 & -> & H2).
  rewrite Hrun2 in Hrun. apply (f_equal snd) in Hrun. cbn in Hrun. rewrite <-Hrun, H2. unfold module_tree.
  change (puts [] (([], Dir) :: ?es) ∅) with (puts [] es (<[[] := Dir]> ∅)). apply puts_below.
  destruct k as [|x k]; [by rewrite app_nil_r, lookup_insert_eq|]. by rewrite Hempty, lookup_insert_ne.
Qed.

(** ** Creating a module is atomic *)

(** What [make_module] promises, on the file system alone: [r] is its result and [m'] the file
    system after it, when the module directory is [p] and its contents [tree].  Only when the
    clean-up itself fails is something left at [p], and then an exception says so. *)
Inductive creates (p : path) (tree m : fs) : py exn bool → fs → Prop :=
| CreatesExists : is_Some (m !! p) → creates p tree m (Ok false) m
| CreatesDone m' :
    m !! p = None → frame p m m' → (∀ k, m' !! (p ++ k) = tree !! k) → creates p tree m (Ok true) m'
| CreatesUndone m' :
    m !! p = None → frame p m m' → (∀ k, m' !! (p ++ k) = None) → creates p tree m (Ok false) m'
| CreatesStuck m' :
    m !! p = None → frame p m m' → m' !! p = Some Dir → creates p tree m (Raise OSError) m'.

Lemma creates_done p tree m m' :
  creates p tree m (Ok true) m' → m !! p = None ∧ frame p m m' ∧ ∀ k, m' !! (p ++ k) = tree !! k.
Proof. by inversion 1. Qed.

(** Where [rmtree] keeps an entry. *)
Lemma rmtree_run `{Faults} p m0 w r w' :
  p ≠ [] → frame_inv p m0 w → rmtree p w = (r, w') → is_Some (disk w !! p) →
  frame_inv p m0 w' ∧
  (r = Ok tt ∧ (∀ k, disk w' !! (p ++ k) = None) ∨ r = Raise OSError ∧ disk w' !! p = Some Dir).
Proof.
  intros Hp (Hwf & Hfr & Hf) Hrun [[|t] Hd]; [|by apply Hf in Hd].
  unfold rmtree, lookup_path, mbind, stx_bind, get_st, mret, stx_ret in Hrun. rewrite Hd in Hrun.
  unfold set_disk, modify_st in Hrun.
  set (left := filter (λ q, p `prefix_of` q ∧ is_Some (disk w !! q)) (leftover (disk w) p)) in Hrun.
  set (kept := λ qn : path * node, ¬ p `prefix_of` qn.1 ∨ Exists (λ l, qn.1 `prefix_of` l) left).
  assert (∀ q n, filter kept (disk w) !! q = Some n ↔ disk w !! q = Some n ∧ kept (q, n)) as Hlook
    by (intros; by rewrite map_lookup_filter_Some).
  assert (w' = World (filter kept (disk w)) (printed_out w) (printed_err w)) as ->
    by (destruct left; by injection Hrun).
  split; [split_and!; cbn|].
  - destruct Hwf as [Hroot Hwf]. split.
    + apply Hlook. split; [done|]. left. cbn. intros Hpre. by apply prefix_nil_inv in Hpre.
    + intros q x [n [Hn Hk]%Hlook]. apply Hlook. split; [by eapply Hwf|]. destruct Hk as [Hk|Hk]; cbn in Hk.
      * left. cbn. intros Hpre. apply Hk. by apply prefix_app_r.
      * right. eapply Exists_impl; [done|]. cbn. intros l Hl. etrans; [|done]. by apply prefix_app_r.
  - intros q Hq. destruct (Hfr q Hq) as [E|(H1 & H2 & E)]; [left|right; split_and!; try done; apply Hlook;
      by split; [|left]].
    rewrite <-E. apply option_eq. intros n. rewrite Hlook. split; [by intros [? _]|by intros ?; split; [|left]].
  - intros t [Ht _]%Hlook. congruence.
  - cbn. destruct left as [|l left'] eqn:El; cbn in Hrun; [left|right]; injection Hrun as <-; (split; [done|]).
    + intros k. apply eq_None_not_Some. intros [n [_ [Hk|Hk]]%Hlook]; [|by apply Exists_nil in Hk].
      apply Hk. by apply prefix_app_r.
    + apply Hlook. split; [done|]. right. apply Exists_cons. left. cbn.
      assert (l ∈ left) as Hl by (rewrite El; left). unfold left in Hl.
      by apply list_elem_of_filter in Hl as [[? _] _].
Qed.

Section make_module.
Context `{F : Faults} (repr : string → string) (str_ : exn → string) (cwd : path).

(** The module directory, and the contents it gets. *)
Definition module_path (modpath : path) (m : string) : path := modpath ++ [m].
Definition module_contents (modpath : path) (m : string) : fs :=
  module_tree (relpath (path_str cwd) (path_str (module_path modpath m)) (path_str cwd)) m.

(** [make_module] with the body named, for an allowed name. *)
Lemma make_module_body modpath m w :
  path_name m →
  let p := module_path modpath m in
  ∃ out err, make_module repr str_ cwd modpath m w =
    match disk w !! p with
    | Some _ => (Ok false, World (disk w) (printed_out w) err)
    | None => try_except (body cwd p m) (λ e,
        d ← lookup_path p;
        _ ← match d with Some _ => rmtree p | None => mret tt end;
        _ ← print_stderr ("Creating module " +:+ repr m +:+ " failed: " +:+ str_ e);
        mret false) (World (disk w) out (printed_err w))
    end.
Proof.
  intros (H1 & H2 & H3). unfold make_module, module_path.
  rewrite joinpath_name; [|done|intros ->; done|done].
  unfold lookup_path, print_stderr, print, mbind, stx_bind, modify_st, get_st, mret, stx_ret.
  destruct (disk w !! (modpath ++ [m])); [by eexists (printed_out w), _|by eexists _, (printed_err w)].
Qed.

Lemma make_module_creates modpath m w r w' :
  path_name m → fs_wf (disk w) → make_module repr str_ cwd modpath m w = (r, w') →
  creates (module_path modpath m) (module_contents modpath m) (disk w) r (disk w') ∧ fs_wf (disk w').
Proof.
  intros Hm Hwf. destruct (make_module_body modpath m w Hm) as (out & err & ->).
  unfold module_contents. set (p := module_path modpath m). assert (p ≠ []) as Hp by (by destruct modpath).
  destruct (disk w !! p) eqn:Hn; [intros [= <- <-]; split; [by apply CreatesExists; eexists|done]|].
  set (w0 := World (disk w) out (printed_err w)).
  assert (frame_inv p (disk w) w0) as Hinv by (split_and!; [done|apply frame_refl|cbn; congruence]).
  destruct (body_frame p (disk w) cwd m Hm Hp) as [Hfr Hord]. unfold try_except.
  destruct (body cwd p m w0) as [[b|e] w1] eqn:Hbody.
  - destruct (Hfr _ _ _ Hinv Hbody) as [(Hwf1 & Hfr1 & _) Hb]. specialize (Hb b eq_refl) as ->.
    intros [= <- <-]. split; [|done]. apply CreatesDone; [done..|]. by eapply (body_tree _ _ _ w0).
  - destruct (Hfr _ _ _ Hinv Hbody) as [Hinv1 _]. pose proof Hinv1 as (Hwf1 & Hfr1 & _).
    unfold lookup_path, print_stderr, mbind, stx_bind, modify_st, get_st, mret, stx_ret.
    intros Hrun.
    assert (∃ r1 w2, match disk w1 !! p with Some _ => rmtree p | None => λ s, (Ok tt, s) end w1 = (r1, w2) ∧
      r = match r1 with Ok _ => Ok false | Raise e => Raise e end ∧ disk w' = disk w2) as (r1 & w2 & Hrm & -> & ->).
    { destruct e; try (destruct (match disk w1 !! p with Some _ => rmtree p | None => λ s, (Ok tt, s) end w1) as [[[]|e'] w2];
        injection Hrun as <- <-; by eexists _, _). by destruct (Hord _ _ _ Hbody code). }
    destruct (disk w1 !! p) eqn:Hd.
    + destruct (rmtree_run p (disk w) w1 r1 w2) as [(Hwf2 & Hfr2 & _) [[-> Hk]|[-> Hk]]]; try done.
      * split; [|done]. by apply CreatesUndone.
      * split; [|done]. by apply CreatesStuck.
    + injection Hrm as <- <-. split; [|done]. apply CreatesUndone; [done..|]. intros k. by apply wf_below.
Qed.

(** When a module was created, no file was on the way to it. *)
Lemma created_clear_way (p : path) (m m' : fs) :
  m !! p = None → fs_wf m → fs_wf m' → frame p m m' → m' !! p = Some Dir → clear_way p m.
Proof.
  intros Hn Hwf [_ Hwf'] Hfr Hd n t Hfile.
  destruct (decide (n < length p)) as [Hlt|Hge]; [|rewrite take_ge in Hfile by lia; congruence].
  assert (m' !! take n p = Some Dir) as Hdir.
  { clear Hfile. remember (length p - n) as d eqn:E. revert n Hlt E. induction d as [|d IH]; intros n Hlt E; [lia|].
    destruct (lookup_lt_is_Some_2 p n Hlt) as [x Hx]. apply (Hwf' _ x). rewrite <-take_S_r by done.
    destruct (decide (S n < length p)); [rewrite IH by lia; by eexists|]. rewrite take_ge by lia. by eexists. }
  destruct (Hfr (take n p)) as [E|(_ & E & _)]; [|congruence|congruence].
  intros Hpre%prefix_length. rewrite length_take in Hpre. lia.
Qed.
End make_module.

(** *** The refinement *)

(** C9: For every pattern of failures of the file system, [make_module] called with an allowed
    name ends, and what it does to the file system is an outcome that the specification [creates]
    allows: the module directory existed and nothing changed; or it did not and now has exactly the
    generated tree, and [True] was returned; or it does not exist, and [False] was returned; or
    removing the incomplete directory failed, and that error was raised.  Outside the module
    directory nothing changes but that missing directories on the way to it are created. *)
Theorem make_module_refines `{F : Faults} repr str_ cwd modpath m w :
  allowedRE m = true → fs_wf (disk w) →
  ∃ r w', make_module repr str_ cwd modpath m w = (r, w') ∧
    creates (module_path modpath m) (module_contents cwd modpath m) (disk w) r (disk w').
Proof.
  intros Hm%allowed_path_name Hwf. destruct (make_module repr str_ cwd modpath m w) as [r w'] eqn:E.
  exists r, w'. split; [done|]. by eapply make_module_creates.
Qed.

(** A file system for the examples: the top directory with [src] and [contrib]. *)
Definition top : path := ["ns3"].
Definition empty_tree : fs :=
  {[ [] := Dir; ["ns3"] := Dir; ["ns3"; "src"] := Dir; ["ns3"; "contrib"] := Dir ]}.
Lemma empty_tree_wf : fs_wf empty_tree.
Proof.
  split; [done|]. intros q x [n Hn]. unfold empty_tree in Hn.
  do 3 (apply lookup_insert_Some in Hn as [[E _]|[_ Hn]];
    [destruct q as [|a [|b [|c q]]]; cbn in E; simplify_eq; vm_compute; reflexivity|]).
  apply lookup_singleton_Some in Hn as [E _].
  destruct q as [|a [|b [|c q]]]; cbn in E; simplify_eq; vm_compute; reflexivity.
Qed.

(** The outcome with a full disk: the third write fails. *)
Definition full_disk : Faults := {| denied _ _ := false; full m _ := bool_decide (10 < size m); leftover _ _ := [] |}.

Lemma make_module_refines_witness :
  fst (make_module (H := full_disk) id (λ _, "") top ["ns3"; "contrib"] "my-mod" (World empty_tree [] [])) = Ok false ∧
  ∃ r w', make_module (H := full_disk) id (λ _, "") top ["ns3"; "contrib"] "my-mod" (World empty_tree [] []) = (r, w') ∧
    creates (module_path ["ns3"; "contrib"] "my-mod") (module_contents top ["ns3"; "contrib"] "my-mod")
      empty_tree r (disk w').
Proof.
  split; [vm_compute; reflexivity|].
  apply (make_module_refines (F := full_disk) id (λ _, "") top ["ns3"; "contrib"] "my-mod" (World empty_tree [] []));
    [reflexivity|apply empty_tree_wf].
Defined.

(** When the file system refuses nothing, a module is created if and only if its directory does
    not exist and no file is on the way to it. *)
Theorem make_module_succeeds repr str_ cwd modpath m w :
  allowedRE m = true → fs_wf (disk w) →
  fst (make_module (H := no_faults) repr str_ cwd modpath m w) = Ok true ↔
  disk w !! module_path modpath m = None ∧ clear_way (module_path modpath m) (disk w).
Proof.
  intros Hm%allowed_path_name Hwf. destruct (make_module (H := no_faults) _ _ _ _ _ _) as [r w'] eqn:E. split.
  - cbn. intros ->. destruct (make_module_creates _ _ _ _ _ _ _ _ Hm Hwf E) as [Hc Hwf'].
    apply creates_done in Hc as (Hn & Hfr & Htree). split; [done|].
    apply (created_clear_way _ _ (disk w')); try done. specialize (Htree []).
    rewrite app_nil_r in Htree. rewrite Htree. apply module_tree_root.
  - intros [Hn Hclear]. destruct (make_module_body (F := no_faults) repr str_ cwd modpath m w Hm) as (out & err & E').
    rewrite E', Hn in E. unfold try_except in E.
    destruct (runs_body cwd (module_path modpath m) m Hm (World (disk w) out (printed_err w))) as (b & w1 & Hb & ->);
      [by destruct modpath|done..|]. rewrite Hb in E. by injection E as <- <-.
Qed.

Lemma make_module_succeeds_witness :
  fst (make_module (H := no_faults) id (λ _, "") top ["ns3"; "contrib"] "my-mod" (World empty_tree [] [])) = Ok true ↔
  empty_tree !! ["ns3"; "contrib"; "my-mod"] = None ∧ clear_way ["ns3"; "contrib"; "my-mod"] empty_tree.
Proof.
  apply (make_module_succeeds id (λ _, "") top ["ns3"; "contrib"] "my-mod" (World empty_tree [] []));
    [reflexivity|apply empty_tree_wf].
Defined.

(** ** The script *)

(** Creating modules one after the other: the first that is not created is the last. *)
Inductive creates_all (cwd : path) : list (path * string) → fs → py exn bool → fs → Prop :=
| CreatesNil m : creates_all cwd [] m (Ok true) m
| CreatesNext d n rest m m1 r m2 :
    creates (module_path d n) (module_contents cwd d n) m (Ok true) m1 →
    creates_all cwd rest m1 r m2 → creates_all cwd ((d, n) :: rest) m r m2
| CreatesStop d n rest m r m1 :
    creates (module_path d n) (module_contents cwd d n) m r m1 → r ≠ Ok true →
    creates_all cwd ((d, n) :: rest) m r m1.

(** The results that [make_module] can have. *)
Lemma creates_result p tree m r m' :
  creates p tree m r m' → r = Ok true ∨ r = Ok false ∨ r = Raise OSError.
Proof. destruct 1; auto. Qed.

Section main_runs.
Context `{F : Faults} (repr : string → string) (str_ : exn → string) (cwd : path) (usage : string).

Lemma all_creates mods w r w' :
  Forall (λ dn, path_name dn.2) mods → fs_wf (disk w) →
  all_st ((λ '(modpath, modname), make_module repr str_ cwd modpath modname) <$> mods) w = (r, w') →
  creates_all cwd mods (disk w) r (disk w') ∧ fs_wf (disk w').
Proof.
  intros Hmods. revert w. induction Hmods as [|[d n] mods Hn _ IH]; intros w Hwf; cbn [fmap list_fmap all_st].
  - intros [= <- <-]. split; [constructor|done].
  - unfold mbind, stx_bind. destruct (make_module repr str_ cwd d n w) as [rb w1] eqn:E.
    destruct (make_module_creates _ _ _ _ _ _ _ _ Hn Hwf E) as [Hc Hwf1].
    destruct rb as [[]|e].
    + intros Hrest. destruct (IH w1 Hwf1 Hrest) as [Hall Hwf2]. split; [by eapply CreatesNext|done].
    + intros [= <- <-]. split; [by apply CreatesStop|done].
    + intros [= <- <-]. split; [by apply CreatesStop|done].
Qed.

(** Where a module may go. *)
Definition in_tree (p : path) : Prop := cwd ++ ["src"] `prefix_of` p ∨ cwd ++ ["contrib"] `prefix_of` p.
Definition good_module (dn : path * string) : Prop := in_tree dn.1 ∧ allowedRE dn.2 = true.

Lemma inv_parser_error Inv {A} msg (Q : A → Prop) :
  (∀ w out err, Inv w → Inv (World (disk w) out err)) → inv_run Inv (parser_error usage msg) Q.
Proof.
  intros HInv. eapply inv_bind; [by apply (inv_modify _ _ (λ _, True)); [intros s; apply HInv|]|]. intros _ _.
  apply inv_raise.
Qed.

Lemma read_name_good m0 project project_path name :
  inv_run (λ w, disk w = m0) (read_name cwd usage project project_path name)
    (λ o, ∀ dn, o = Some dn → good_module dn).
Proof.
  assert (∀ s, inv_run (λ w, disk w = m0) (print s) (λ _, True)) as Hprint by (intros s; by apply inv_modify).
  unfold read_name. destruct (decide _) as [_|_]; [by apply inv_ret|].
  destruct (2 <? _); [eapply inv_bind; [apply Hprint|]; intros _ _; by apply inv_ret|].
  eapply inv_bind; [by apply (inv_lift _ _ (λ _, True))|]. intros first _.
  destruct (decide _) as [_|_]; [apply inv_parser_error; naive_solver|].
  set (dn := if decide (first = "src") then _ else _).
  assert (in_tree (match project_path with Some p => cwd ++ ["contrib"] ++ p | None => dn.1 end)) as Hin.
  { destruct project_path as [p|]; [right; rewrite app_assoc; by apply prefix_app_r|].
    unfold dn. repeat case_decide; cbn; [by left|by right..]. }
  destruct dn as [d ns]. eapply inv_bind; [by apply (inv_lift _ _ (λ _, True))|]. intros modname _.
  destruct (allowedRE modname) eqn:Ha; [apply inv_ret; by intros dn [= <-]|].
  eapply inv_bind; [apply Hprint|]. intros _ _. by apply inv_ret.
Qed.
End main_runs.

(** *** The phases of [main] *)

Section main_phases.
Context `{F : Faults} (repr : string → string) (str_ : exn → string) (cwd : path) (usage : string).
Abbreviation main_ := (main repr str_ cwd usage).

(** The exceptions before the first module is created. *)
Definition usage_error (e : exn) : Prop := e = IndexError ∨ (∃ msg, e = ValueError msg) ∨ e = SystemExit 2.

Lemma raises_parser_error {A} msg : raises usage_error (parser_error (A := A) usage msg).
Proof. unfold parser_error. apply raises_bind; [auto with raises|]. intros ?. apply raises_raise. by right; right. Qed.
#[local] Hint Resolve raises_parser_error : raises.

Lemma raises_read_project project : raises usage_error (read_project usage project).
Proof.
  unfold read_project. destruct (decide _); [auto with raises|].
  destruct (_ && _); [apply raises_raise; right; left; by eexists|]. destruct (forallb _ _); auto with raises.
Qed.
Lemma raises_read_name project project_path name : raises usage_error (read_name cwd usage project project_path name).
Proof.
  assert (∀ l : list string, raises usage_error (lift_py (or_raise IndexError (head l)))) as Hhead.
  { intros l. apply raises_lift. intros e. destruct l; [|done]. intros [= <-]. by left. }
  unfold read_name. destruct (decide _) as [_|_]; [auto with raises|]. destruct (2 <? _); [auto with raises|].
  apply raises_bind; [done|]. intros first. destruct (decide _) as [_|_]; [auto with raises|].
  destruct (if decide (first = "src") then _ else _) as [d ns]. apply raises_bind; [done|]. intros modname.
  destruct (allowedRE modname); auto with raises.
Qed.

Lemma read_project_disk m0 project : inv_run (λ w, disk w = m0) (read_project usage project) (λ _, True).
Proof.
  unfold read_project. destruct (decide _); [by apply inv_ret|].
  destruct (_ && _); [apply inv_raise|]. destruct (forallb _ _); [by apply inv_ret|].
  apply inv_parser_error. naive_solver.
Qed.

(** What [main] does before it creates modules: the modules to create. *)
Definition prepare (project : string) (modnames : list string) : stx world exn (list (path * string)) :=
  _ ← check_top_dir usage (cwd ++ ["src"]);
  _ ← check_top_dir usage (cwd ++ ["contrib"]);
  project_path ← read_project usage project;
  modules ← map_st (read_name cwd usage project project_path) modnames;
  mret (omap id modules).

Lemma main_prepare project modnames w :
  main_ project modnames w =
  (mods ← prepare project modnames;
   ok ← all_st ((λ '(modpath, modname), make_module repr str_ cwd modpath modname) <$> mods);
   _ ← (if ok : bool then
          _ ← print ""; _ ← print "Successfully created new modules";
          print "Run './ns3 configure' to include them in the build"
        else mret tt);
   mret 0%Z) w.
Proof.
  unfold main, prepare, mbind, stx_bind, mret, stx_ret.
  destruct (check_top_dir usage (cwd ++ ["src"]) w) as [[]]; [|done].
  destruct (check_top_dir usage (cwd ++ ["contrib"]) _) as [[]]; [|done].
  destruct (read_project usage project _) as [[]]; [|done].
  by destruct (map_st _ modnames _) as [[]].
Qed.

Lemma raises_prepare project modnames : raises usage_error (prepare project modnames).
Proof.
  assert (∀ p, raises usage_error (check_top_dir usage p)) as Htop.
  { intros p. apply raises_bind; [auto with raises|]. intros [[|]|]; auto with raises. }
  do 2 (apply raises_bind; [done|]; intros ?). apply raises_bind; [apply raises_read_project|]. intros pp.
  apply raises_bind; [|auto with raises]. apply raises_map. intros name. apply raises_read_name.
Qed.

(** It changes nothing on the disk, and checks that the two directories exist. *)
Lemma prepare_run project modnames w r w' :
  prepare project modnames w = (r, w') →
  disk w' = disk w ∧ ∀ mods, r = Ok mods →
    Forall (good_module cwd) mods ∧ disk w !! (cwd ++ ["src"]) = Some Dir ∧ disk w !! (cwd ++ ["contrib"]) = Some Dir.
Proof.
  assert (∀ p, inv_run (λ w', disk w' = disk w) (check_top_dir usage p) (λ _, disk w !! p = Some Dir)) as Htop.
  { intros p w0 r0 w0' Hw0. unfold check_top_dir, lookup_path, mbind, stx_bind, get_st, mret, stx_ret.
    rewrite Hw0. destruct (disk w !! p) as [[|]|].
    - by intros [= <- <-].
    - by intros [= <- <-].
    - by intros [= <- <-]. }
  intros Hrun. unfold prepare in Hrun. revert Hrun.
  cut (inv_run (λ w', disk w' = disk w) (prepare project modnames) (λ mods, Forall (good_module cwd) mods ∧
    disk w !! (cwd ++ ["src"]) = Some Dir ∧ disk w !! (cwd ++ ["contrib"]) = Some Dir)).
  { intros Hinv Hrun. by apply (Hinv w). }
  eapply inv_bind; [apply Htop|]. intros ? H1. eapply inv_bind; [apply Htop|]. intros ? H2.
  eapply inv_bind; [apply read_project_disk|]. intros pp _.
  eapply inv_bind; [apply inv_map; intros name _; apply read_name_good|]. intros mods Hmods. apply inv_ret.
  split_and!; [|done..]. apply Forall_forall. intros dn Hdn. apply list_elem_of_omap in Hdn as (o & Ho & [= ->]).
  apply list_elem_of_lookup in Ho as [i Hi]. destruct (Forall2_lookup_r _ _ _ _ _ Hmods Hi) as (name & _ & Hgood).
  by apply Hgood.
Qed.
End main_phases.

(** *** What the whole script does to the file system *)

Lemma creates_grows p tree m r m' q n :
  creates p tree m r m' → fs_wf m → m !! q = Some n → m' !! q = Some n.
Proof.
  intros Hc Hwf Hq.
  assert (m !! p = None → frame p m m' → m' !! q = Some n) as Hframe.
  { intros Hn Hfr. destruct (Hfr q) as [E|(_ & E & _)]; [|congruence|congruence].
    intros [k ->]. rewrite wf_below in Hq by done. congruence. }
  destruct Hc; by auto.
Qed.

Lemma creates_where p tree m r m' q :
  creates p tree m r m' → m' !! q ≠ m !! q → p `prefix_of` q ∨ q `prefix_of` p ∧ m !! q = None.
Proof.
  intros Hc Hq. destruct (decide (p `prefix_of` q)) as [|Hp]; [by left|right].
  destruct Hc as [|m' _ Hfr|m' _ Hfr|m' _ Hfr]; [done|..]; destruct (Hfr q Hp) as [|(? & ? & _)]; done.
Qed.

(** A change on the way to [p] or below it, when [d] exists and [p] is below [d], is below [d]. *)
Lemma change_below (d p q : path) (m : fs) :
  d `prefix_of` p → fs_wf m → is_Some (m !! d) → p `prefix_of` q ∨ q `prefix_of` p ∧ m !! q = None → d `prefix_of` q.
Proof.
  intros Hdp Hwf Hd [Hpq|[Hqp Hn]]; [by etrans|]. destruct (prefix_weak_total d q p) as [|[k ->]]; [done..|].
  rewrite wf_below in Hd by done. by destruct Hd.
Qed.

(** The file system [m] with more below [src] and [contrib]. *)
Definition grown (cwd : path) (m : fs) (w : world) : Prop :=
  fs_wf (disk w) ∧ (∀ q n, m !! q = Some n → disk w !! q = Some n) ∧ (∀ q, disk w !! q ≠ m !! q → in_tree cwd q).

Section script.
Context `{F : Faults} (repr : string → string) (str_ : exn → string) (cwd : path) (usage : string).

Lemma grown_module m0 d n :
  is_Some (m0 !! (cwd ++ ["src"])) → is_Some (m0 !! (cwd ++ ["contrib"])) → good_module cwd (d, n) →
  inv_run (grown cwd m0) (make_module repr str_ cwd d n) (λ _, True).
Proof.
  intros Hsrc Hcontrib [Hin Hn%allowed_path_name] w r w' (Hwf & Hgrow & Hwhere) Hrun. split; [|done].
  destruct (make_module_creates _ _ _ _ _ _ _ _ Hn Hwf Hrun) as [Hc Hwf']. split_and!; [done| |].
  - intros q x Hq. by eapply creates_grows, Hgrow.
  - intros q Hq. destruct (decide (disk w !! q = m0 !! q)) as [E|]; [|by apply Hwhere].
    rewrite <-E in Hq. apply (creates_where _ _ _ _ _ _ Hc) in Hq.
    destruct Hsrc as [x1 H1%Hgrow], Hcontrib as [x2 H2%Hgrow].
    destruct Hin as [Hin|Hin]; [left|right]; (eapply change_below; [| |by eexists|exact Hq]); try done;
      by apply prefix_app_r.
Qed.

Lemma inv_all_st (Inv : world → Prop) ms :
  Forall (λ m, inv_run Inv m (λ _, True)) ms → inv_run Inv (all_st ms) (λ _, True).
Proof.
  induction 1 as [|m ms Hm _ IH]; [by apply inv_ret|]. eapply inv_bind; [apply Hm|].
  intros [] _; [done|by apply inv_ret].
Qed.

Lemma creates_all_result mods m r m' :
  creates_all cwd mods m r m' → r = Ok true ∨ r = Ok false ∨ r = Raise OSError.
Proof. induction 1 as [| |d n rest m r m1 Hc _]; [by left|done|by apply creates_result in Hc]. Qed.

(** A run of [main]: an error before anything is created, or the modules one after the other. *)
Lemma main_run project modnames w r w' :
  fs_wf (disk w) → main repr str_ cwd usage project modnames w = (r, w') →
  disk w' = disk w ∧ (∃ e, prepare cwd usage project modnames w = (Raise e, w') ∧ r = Raise e ∧ usage_error e) ∨
  ∃ mods w1 rb,
    prepare cwd usage project modnames w = (Ok mods, w1) ∧ grown cwd (disk w) w' ∧
    creates_all cwd mods (disk w) rb (disk w') ∧
    r = match rb with Ok _ => Ok 0%Z | Raise e => Raise e end.
Proof.
  intros Hwf. rewrite main_prepare. unfold mbind at 1, stx_bind at 1.
  destruct (prepare cwd usage project modnames w) as [[mods|e] w1] eqn:E.
  2: { intros [= <- <-]. left. split; [by apply prepare_run in E as [? _]|].
       exists e. split_and!; [done..|]. by eapply raises_prepare. }
  apply prepare_run in E as Hp. destruct Hp as [Hdisk Hmods]. destruct (Hmods mods eq_refl) as (Hgood & Hsrc & Hcon).
  assert (grown cwd (disk w) w1) as Hg1 by (rewrite <-Hdisk in *; split_and!; done).
  unfold mbind at 1, stx_bind at 1.
  destruct (all_st _ w1) as [rb w2] eqn:Eall. intros Hrun. right. exists mods, w1, rb. split; [done|].
  assert (grown cwd (disk w) w2) as Hg2.
  { eapply (inv_all_st (grown cwd (disk w))); [|exact Hg1|exact Eall]. apply Forall_fmap. eapply Forall_impl; [done|].
    intros [d n] Hdn. cbn. apply grown_module; [by eexists..|done]. }
  apply all_creates in Eall as [Hall _]; [|by eapply Forall_impl; [done|];
    intros [d n] [_ ?%allowed_path_name]|by rewrite Hdisk].
  rewrite Hdisk in Hall. destruct rb as [[]|e]; injection Hrun as <- <-; (split; [exact Hg2|done]).
Qed.
End script.

(** *** Requests *)

(** The ways to ask for a module that the help text lists. *)
Inductive request := Plain (m : string) | InSrc (m : string) | InContrib (m : string).
Definition request_str (r : request) : string :=
  match r with Plain m => m | InSrc m => "src/" +:+ m | InContrib m => "contrib/" +:+ m end.
Definition valid_request (project : string) (r : request) : Prop :=
  match r with
  | Plain m => valid_name m = true ∧ m ≠ "src" ∧ m ≠ "contrib"
  | InSrc m => valid_name m = true ∧ project = ""
  | InContrib m => valid_name m = true
  end.
(** The directory and the name of the module that is asked for. *)
Definition target (cwd : path) (project : string) (r : request) : path * string :=
  let in_contrib := if decide (project = "") then cwd ++ ["contrib"] else cwd ++ ["contrib"] ++ parts project in
  match r with
  | Plain m => (in_contrib, m)
  | InSrc m => (cwd ++ ["src"], m)
  | InContrib m => (in_contrib, m)
  end.
Definition valid_project (project : string) : Prop :=
  project = "" ∨ startswith project "/" = false ∧ forallb allowedRE (parts project) = true.

Lemma drop_seps_none l : "/"%char ∉ l → drop_seps l = l.
Proof. destruct l as [|c l]; [done|]. cbn. intros Hl. case_decide; [set_solver|done]. Qed.

Lemma strip_seps_none a b :
  has_char "/" a = false → has_char "/" b = false → a ≠ "" → b ≠ "" → strip_seps (a +:+ "/" +:+ b) = a +:+ "/" +:+ b.
Proof.
  intros Ha Hb Hna Hnb. apply not_true_iff_false in Ha, Hb. rewrite has_char_spec in Ha, Hb.
  assert (∀ l r : list ascii, l ≠ [] → "/"%char ∉ l → drop_seps (l ++ r) = l ++ r) as Hdrop.
  { intros [|c l] r Hl Hin; [done|]. cbn. case_decide; [set_solver|done]. }
  unfold strip_seps. rewrite !chars_app. rewrite Hdrop; [|by destruct a|done].
  rewrite !reverse_app, <-app_assoc. rewrite Hdrop.
  - rewrite !reverse_app, !reverse_involutive, <-app_assoc, !implode_app, !implode_chars. done.
  - intros E. apply (f_equal reverse) in E. rewrite reverse_involutive in E. by destruct b.
  - by rewrite elem_of_reverse.
Qed.

Lemma strip_seps_id a : has_char "/" a = false → strip_seps a = a.
Proof.
  intros Ha. apply not_true_iff_false in Ha. rewrite has_char_spec in Ha. unfold strip_seps.
  rewrite (drop_seps_none (chars a)) by done. rewrite drop_seps_none by (by rewrite elem_of_reverse).
  by rewrite reverse_involutive, implode_chars.
Qed.

Lemma parts_pair a b :
  has_char "/" a = false → has_char "/" b = false → a ≠ "" → a ≠ "." → b ≠ "" → b ≠ "." →
  parts (a +:+ "/" +:+ b) = [a; b].
Proof.
  intros Ha Hb ????. unfold parts. change (a +:+ "/" +:+ b) with (a +:+ String "/" b).
  rewrite split_all_app, (split_all_none _ a), (split_all_none _ b) by done. cbn [app].
  by rewrite !filter_cons_True.
Qed.

Section requests.
Context (cwd : path) (usage : string) (project : string).
Abbreviation pp := (if decide (project = "") then None else Some (parts project)).

Lemma read_project_valid w : valid_project project → read_project usage project w = (Ok pp, w).
Proof.
  intros [->|[Hs Hparts]]; [done|]. unfold read_project. destruct (decide (project = "")); [done|].
  assert (startswith project "//" = false) as ->; [|by rewrite Hparts].
  apply not_true_iff_false. intros [t ->]%startswith_spec. apply not_true_iff_false in Hs. apply Hs.
  apply startswith_spec. by exists ("/" +:+ t).
Qed.

Lemma valid_allowed m : valid_name m = true → allowedRE m = true.
Proof. intros Hm. unfold allowedRE. by rewrite Hm. Qed.

Lemma read_name_request r w :
  valid_request project r →
  read_name cwd usage project pp (request_str r) w = (Ok (Some (target cwd project r)), w).
Proof.
  assert (∀ m, valid_name m = true → m ≠ "" ∧ m ≠ "." ∧ has_char "/" m = false ∧ allowedRE m = true) as Hname.
  { intros m Hm. destruct (valid_path_name _ Hm) as (H1 & H2 & H3).
    split_and!; [done|by intros ->|done|by apply valid_allowed]. }
  destruct r as [m|m|m]; cbn [valid_request request_str target].
  - intros (Hm & Hsrc & Hcon). destruct (Hname m Hm) as (H1 & H2 & H3 & H4). unfold read_name.
    rewrite strip_seps_id by done. rewrite decide_False by done. rewrite parts_name by done. cbn.
    unfold mbind, stx_bind, lift_py. cbn. rewrite decide_False by naive_solver.
    rewrite !(decide_False (P := m = _)) by done. cbn. rewrite H4. by destruct (decide (project = "")).
  - intros (Hm & ->). destruct (Hname m Hm) as (H1 & H2 & H3 & H4). unfold read_name.
    change ("src/" +:+ m) with ("src" +:+ "/" +:+ m). rewrite strip_seps_none by done.
    rewrite parts_pair, decide_False by done. cbn -[allowedRE]. unfold mbind, stx_bind, lift_py. cbn -[allowedRE].
    rewrite decide_False, decide_True by naive_solver. cbn -[allowedRE]. by rewrite H4.
  - intros Hm. destruct (Hname m Hm) as (H1 & H2 & H3 & H4). unfold read_name.
    change ("contrib/" +:+ m) with ("contrib" +:+ "/" +:+ m). rewrite strip_seps_none by done.
    rewrite parts_pair, decide_False by done. cbn -[allowedRE]. unfold mbind, stx_bind, lift_py. cbn -[allowedRE].
    rewrite decide_False by naive_solver. rewrite decide_False, decide_True by done. cbn -[allowedRE]. rewrite H4.
    by destruct (decide (project = "")).
Qed.

Lemma read_requests reqs w :
  Forall (valid_request project) reqs →
  map_st (read_name cwd usage project pp) (request_str <$> reqs) w = (Ok (Some ∘ target cwd project <$> reqs), w).
Proof.
  induction 1 as [|r reqs Hr _ IH]; [done|]. cbn [fmap list_fmap map_st]. unfold mbind, stx_bind.
  rewrite read_name_request by done. unfold mbind, stx_bind in IH. by rewrite IH.
Qed.
End requests.

(** *** The theorems on the script *)

Lemma script_run `{F : Faults} repr str_ cwd usage project modnames w :
  fs_wf (disk w) →
  let '(code, w') := script repr str_ cwd usage project modnames w in
  fs_wf (disk w') ∧
  (∀ q n, disk w !! q = Some n → disk w' !! q = Some n) ∧
  (∀ q, disk w' !! q ≠ disk w !! q → in_tree cwd q) ∧
  (code = 0%Z ∨ code = 1%Z ∨ code = 2%Z) ∧ (code = 2%Z → disk w' = disk w).
Proof.
  intros Hwf. unfold script. destruct (main _ _ _ _ _ _ _) as [r w'] eqn:E. apply main_run in E; [|done].
  destruct E as [[Hd (e & _ & -> & He)]|(mods & w1 & rb & _ & (H1 & H2 & H3) & Hall & ->)].
  - destruct He as [->|[[msg ->]| ->]]; cbn; rewrite Hd; naive_solver.
  - apply creates_all_result in Hall as [->|[->| ->]]; cbn; naive_solver.
Qed.

(** C13: For every pattern of failures and all arguments, the script never removes or changes what
    exists: everything on the disk before is there afterwards, what is new lies below [src] or
    [contrib] of the current directory, the exit status is 0, 1 or 2, and with status 2 (a usage
    error) nothing was written. *)
Theorem script_safe `{F : Faults} repr str_ cwd usage project modnames w :
  fs_wf (disk w) →
  let '(code, w') := script repr str_ cwd usage project modnames w in
  (∀ q n, disk w !! q = Some n → disk w' !! q = Some n) ∧
  (∀ q, disk w' !! q ≠ disk w !! q → in_tree cwd q) ∧
  (code = 0%Z ∨ code = 1%Z ∨ code = 2%Z) ∧ (code = 2%Z → disk w' = disk w).
Proof.
  intros Hwf. pose proof (script_run repr str_ cwd usage project modnames w Hwf) as Hrun.
  destruct (script _ _ _ _ _ _ w). apply Hrun.
Qed.

Lemma script_safe_witness :
  let '(code, w') := script (H := full_disk) id (λ _, "") top "" "" ["my-mod"; "src/other"] (World empty_tree [] []) in
  (∀ q n, empty_tree !! q = Some n → disk w' !! q = Some n) ∧
  (∀ q, disk w' !! q ≠ empty_tree !! q → in_tree top q) ∧
  (code = 0%Z ∨ code = 1%Z ∨ code = 2%Z) ∧ (code = 2%Z → disk w' = empty_tree).
Proof.
  exact (script_safe (F := full_disk) id (λ _, "") top "" "" ["my-mod"; "src/other"] (World empty_tree [] [])
    empty_tree_wf).
Defined.

(** With [src] and [contrib] in the current directory, a valid project and requests of the forms
    that the help lists, the script creates the modules asked for in the order of the arguments, each
    in its directory, and stops at the first that is not created; it returns 0 also then, and raises
    only when an incomplete module could not be removed. *)
Theorem main_requests `{F : Faults} repr str_ cwd usage project reqs w :
  fs_wf (disk w) → disk w !! (cwd ++ ["src"]) = Some Dir → disk w !! (cwd ++ ["contrib"]) = Some Dir →
  valid_project project → Forall (valid_request project) reqs →
  ∃ rb w', main repr str_ cwd usage project (request_str <$> reqs) w =
      (match rb with Ok _ => Ok 0%Z | Raise e => Raise e end, w') ∧
    creates_all cwd (target cwd project <$> reqs) (disk w) rb (disk w').
Proof.
  intros Hwf Hsrc Hcon Hproject Hreqs.
  assert (prepare cwd usage project (request_str <$> reqs) w = (Ok (target cwd project <$> reqs), w)) as Hprep.
  { unfold prepare, check_top_dir, lookup_path, mbind, stx_bind, get_st, mret, stx_ret. rewrite Hsrc, Hcon.
    rewrite read_project_valid, read_requests by done. do 2 f_equal. induction reqs; [done|]. cbn. f_equal.
    apply Forall_cons in Hreqs as [_ ?]. auto. }
  destruct (main repr str_ cwd usage project (request_str <$> reqs) w) as [r w'] eqn:E.
  apply main_run in E as Hrun; [|done]. destruct Hrun as [[_ (e & Hp & _)]|(mods & w1 & rb & Hp & _ & Hall & ->)].
  - by rewrite Hprep in Hp.
  - rewrite Hprep in Hp. injection Hp as <- <-. by exists rb, w'.
Qed.

Lemma main_requests_witness :
  let reqs := [Plain "my-mod"; InSrc "other"; InContrib "my-mod"] in
  ∃ rb w', main (H := no_faults) id (λ _, "") top "" "" (request_str <$> reqs) (World empty_tree [] []) =
      (match rb with Ok _ => Ok 0%Z | Raise e => Raise e end, w') ∧
    creates_all top (target top "" <$> reqs) empty_tree rb (disk w').
Proof.
  apply (main_requests (F := no_faults) id (λ _, "") top "" "" [Plain "my-mod"; InSrc "other"; InContrib "my-mod"]
           (World empty_tree [] [])); [apply empty_tree_wf|reflexivity..|by left|].
  repeat constructor; discriminate.
Defined.

(** A name that is only a directory: after [src] or [contrib] is removed nothing is left. *)
Definition bare (project name : string) : Prop :=
  name = "src" ∧ project = "" ∨ name = "contrib" ∨ name = ".".

Lemma read_name_bare cwd usage project pp name w :
  bare project name → read_name cwd usage project pp name w = (Raise IndexError, w).
Proof. intros [[-> ->]|[->| ->]]; destruct pp; reflexivity. Qed.

(** A name that is only [src], [contrib] or [.] ends the script with the IndexError of an empty
    path, caught at the top level: status 1, and no module is created, not even those asked for
    before it. *)
Theorem script_bare_directory `{F : Faults} repr str_ cwd usage project reqs name rest w :
  disk w !! (cwd ++ ["src"]) = Some Dir → disk w !! (cwd ++ ["contrib"]) = Some Dir →
  valid_project project → Forall (valid_request project) reqs → bare project name →
  script repr str_ cwd usage project ((request_str <$> reqs) ++ name :: rest) w =
  (1%Z, World (disk w) (printed_out w) (printed_err w ++ ["Exception: '" +:+ str_ IndexError +:+ "'" +:+ nl])).
Proof.
  intros Hsrc Hcon Hproject Hreqs Hbare. unfold script. rewrite main_prepare.
  unfold prepare, check_top_dir, lookup_path, mbind, stx_bind, get_st, mret, stx_ret. rewrite Hsrc, Hcon.
  rewrite read_project_valid by done.
  by rewrite (map_st_raise _ (request_str <$> reqs) name rest _ _ _ _ _ (read_requests _ _ _ _ _ Hreqs)
    (read_name_bare _ _ _ _ _ _ Hbare)).
Qed.

Lemma script_bare_directory_witness :
  script (H := no_faults) id (λ _, "IndexError") top "" "" ["my-mod"; "src"] (World empty_tree [] []) =
  (1%Z, World empty_tree [] ["Exception: 'IndexError'" +:+ nl]).
Proof.
  apply (script_bare_directory (F := no_faults) id (λ _, "IndexError") top "" "" [Plain "my-mod"] "src" []
           (World empty_tree [] [])); [reflexivity..|by left| |by left].
  repeat constructor; discriminate.
Defined.
