(* ===== verification/ModuleFiles.v ===== *)
(** * ModuleFiles: what [utils/create-module.py] generates

    The contents of a generated module: which files the build files name, the balance of the
    braces in the C++ files and the identifiers that the templates form from the module name. *)

From stdpp Require Import base list strings gmap.
From Stdlib Require Import Ascii.
From S2P Require Import Prelude TestJobs TestConfig ModuleTemplates CreateModule.
Open Scope nat_scope.

(** ** The generated files *)

Lemma puts_lookup es k n : NoDup (es.*1) → puts [] es ∅ !! k = Some n ↔ (k, n) ∈ es.
Proof.
  induction es as [|[k' n'] es IH] using rev_ind; [set_solver|]. rewrite fmap_app, NoDup_app. cbn.
  intros (Hnd & Hin & _). rewrite puts_app. cbn. rewrite elem_of_app, list_elem_of_singleton, <-(IH Hnd).
  destruct (decide (k' = k)) as [->|Hne].
  - rewrite lookup_insert_eq. split; [intros [= ->]; by right|]. intros [E|[= ->]]; [|done].
    apply (IH Hnd) in E. destruct (Hin k); [|by left]. apply list_elem_of_fmap. by exists (k, n).
  - rewrite lookup_insert_ne by done. split; [by left|]. intros [?|[= <- <-]]; done.
Qed.

Lemma module_paths_NoDup rel m : NoDup ((([], Dir) :: module_entries rel m).*1).
Proof.
  assert ("CMakeLists.txt" ≠ m +:+ "-example.cc") as Hcm.
  { intros E. apply (f_equal (λ s, head (reverse (chars s)))) in E. by rewrite chars_app, reverse_app in E. }
  cbn. repeat (apply NoDup_cons_2; [repeat (apply not_elem_of_cons; split); try apply not_elem_of_nil|]);
    try apply NoDup_nil_2; intros [=]; try done;
    match goal with E : _ +:+ _ = _ +:+ _ |- _ => by apply (inj (String.append m)) in E end.
Qed.

Lemma module_tree_spec rel m k n :
  module_tree rel m !! k = Some n ↔ (k, n) ∈ ([], Dir) :: module_entries rel m.
Proof. apply puts_lookup, module_paths_NoDup. Qed.



(** C++ files, and the words of a CMake file that name files: not part of a call or a comment. *)
Definition cpp_file (k : path) : bool :=
  match last k with
  | Some name => match split_suffix name with Some (_, suffix) => bool_decide (suffix ∈ ["cc"; "h"]) | None => false end
  | None => false
  end.







(** *** Identifiers *)

Definition identifier (s : string) : bool :=
  match chars s with c :: r => word_char c && negb (is_digit c) && forallb word_char r | [] => false end.
(** The first character that is not a dash. *)
Definition starts_with_digit (s : string) : bool :=
  match chars s with c :: _ => is_digit c | [] => false end.
Fixpoint drop_dashes (s : string) : string :=
  match s with String c r => if decide (c = "-"%char) then drop_dashes r else s | "" => "" end.

Abbreviation word_str s := (forallb word_char (chars s) = true).

Lemma forallb_chars_map P Q f s :
  (∀ c, P c = true → Q (f c) = true) → forallb P (chars s) = true → forallb Q (chars (implode (f <$> chars s))) = true.
Proof. intros Hf Hs. rewrite chars_implode. induction (chars s) as [|c l IH]; [done|]. cbn in *. apply andb_true_iff in Hs as [??]. rewrite Hf, IH by done. done. Qed.

Lemma forallb_chars_app P a b : forallb P (chars (a +:+ b)) = forallb P (chars a) && forallb P (chars b).
Proof. by rewrite chars_app, forallb_app. Qed.

Ltac all_chars := intros c; destruct c as [[] [] [] [] [] [] [] []]; vm_compute; done.

Lemma word_dash m : valid_name m = true → word_str (dash_to_underscore m).
Proof. unfold valid_name. intros [_ Hm]%andb_true_iff. eapply forallb_chars_map; [|exact Hm]. all_chars. Qed.
Lemma word_upper s : word_str s → word_str (upper s).
Proof. apply forallb_chars_map. all_chars. Qed.
Lemma word_capitalize s : word_str s → word_str (capitalize s).
Proof.
  destruct s as [|x s]; [done|]. cbn [chars forallb]. intros [Hx Hs]%andb_true_iff. cbn [capitalize].
  rewrite forallb_chars_app. apply andb_true_iff. split.
  - apply (word_upper (String x "")). cbn. by rewrite Hx.
  - eapply forallb_chars_map; [|exact Hs]. all_chars.
Qed.

(** The pieces of a name between dashes. *)
Lemma word_pieces m : valid_name m = true → Forall (λ s, word_str s) (split_all "-" m).
Proof.
  unfold valid_name. intros [_ Hm]%andb_true_iff. induction m as [|c m IH]; [by repeat constructor|].
  cbn [chars forallb] in Hm. apply andb_true_iff in Hm as [Hc Hm]. specialize (IH Hm). cbn [split_all].
  case_decide as Hd; [by constructor|]. assert (word_char c = true) as Hw.
  { unfold name_char in Hc. apply orb_true_iff in Hc as [?|Hc]; [done|]. apply bool_decide_eq_true in Hc.
    congruence. }
  destruct IH as [|w ws Hws ?]; (constructor; [cbn [chars forallb]; by rewrite Hw|done]).
Qed.

Lemma word_concat ws : Forall (λ s, word_str s) ws → word_str (concat_str ws).
Proof. induction 1 as [|w ws Hw _ IH]; [done|]. cbn. by rewrite forallb_chars_app, Hw. Qed.

Lemma word_capitalized m : valid_name m = true → word_str (capitalized m).
Proof.
  intros Hm%word_pieces. apply word_concat, Forall_fmap. eapply Forall_impl; [done|]. apply word_capitalize.
Qed.
Lemma word_compound m : valid_name m = true → word_str (compound m).
Proof.
  intros Hm%word_pieces. unfold compound. destruct Hm as [|w ws Hw Hws]; [done|].
  rewrite forallb_chars_app, Hw. apply word_concat, Forall_fmap. eapply Forall_impl; [done|]. apply word_capitalize.
Qed.
Lemma word_guard m x : valid_name m = true → word_str x → word_str (upper (dash_to_underscore m) +:+ x).
Proof. intros Hm Hx. rewrite forallb_chars_app, word_upper by (by apply word_dash). done. Qed.

Lemma word_identifier s : word_str s → s ≠ "" → identifier s = negb (starts_with_digit s).
Proof.
  unfold identifier, starts_with_digit. destruct s as [|c s]; [done|]. cbn [chars forallb].
  intros [-> ->]%andb_true_iff _. by rewrite andb_true_r.
Qed.

(** The guards start like the name, the class names like its first piece that is not empty. *)
Lemma guard_digit m x : m ≠ "" → starts_with_digit (upper (dash_to_underscore m) +:+ x) = starts_with_digit m.
Proof.
  destruct m as [|c m]; [done|]. intros _. unfold upper, dash_to_underscore. cbn [chars fmap list_fmap implode].
  unfold starts_with_digit. cbn [chars String.append]. revert c. all_chars.
Qed.

Lemma capitalized_digit m x :
  starts_with_digit x = false → starts_with_digit (capitalized m +:+ x) = starts_with_digit (drop_dashes m).
Proof.
  intros Hx. unfold capitalized. induction m as [|c m IH]; [done|]. cbn [split_all drop_dashes].
  destruct (decide ("-"%char = c)) as [<-|Hne]; [exact IH|]. rewrite decide_False by done.
  assert (∀ w t, starts_with_digit (capitalize (String c w) +:+ t) = is_digit c) as Hcap.
  { intros w t. unfold capitalize, upper. cbn [chars fmap list_fmap implode String.append starts_with_digit].
    clear. revert c. all_chars. }
  destruct (split_all "-" m); cbn [fmap list_fmap concat_str]; rewrite <-string_app_assoc; apply Hcap.
Qed.

(** *** The C++ files of a module *)


Lemma split_suffix_name a x :
  a ≠ "" → x ≠ "" → has_char "." x = false → split_suffix (a +:+ "." +:+ x) = Some (a, x).
Proof.
  intros Ha Hx Hdot. unfold split_suffix. rewrite !chars_app, !reverse_app, <-app_assoc, !implode_app.
  rewrite (proj2 (split_once_Some "." _ (implode (reverse (chars x))) (implode (reverse (chars a))))).
  - rewrite decide_True; [by rewrite !chars_implode, !reverse_involutive, !implode_chars|].
    split; intros E; apply (f_equal chars) in E; rewrite chars_implode in E; apply (f_equal reverse) in E;
      rewrite reverse_involutive in E; [by destruct a|by destruct x].
  - split; [done|]. apply not_true_iff_false. rewrite has_char_spec, chars_implode, elem_of_reverse, <-has_char_spec.
    by rewrite Hdot.
Qed.



Lemma cpp_file_name m d x y :
  m ≠ "" → has_char "." y = false → y ≠ "" → cpp_file [d; m +:+ x +:+ "." +:+ y] = bool_decide (y ∈ ["cc"; "h"]).
Proof.
  intros Hm Hy Hne. unfold cpp_file. cbn [last].
  rewrite string_app_assoc, split_suffix_name; [done|by destruct m|done..].
Qed.






(** The contents of a directory on the disk. *)
Definition contents (m : fs) (p : path) (tree : fs) : Prop := ∀ k, m !! (p ++ k) = tree !! k.

Lemma made_contents `{F : Faults} repr str_ cwd modpath m w w' :
  valid_name m = true → fs_wf (disk w) → make_module repr str_ cwd modpath m w = (Ok true, w') →
  contents (disk w') (module_path modpath m) (module_contents cwd modpath m).
Proof.
  intros Hm%valid_path_name Hwf E. destruct (make_module_creates _ _ _ _ _ _ _ _ Hm Hwf E) as [Hc _].
  by apply creates_done in Hc as (_ & _ & Htree).
Qed.


Definition demo_world : world := World empty_tree [] [].
Definition demo_make (m : string) : py exn bool * world :=
  make_module (H := no_faults) id (λ _, "") top ["ns3"; "contrib"] m demo_world.
Lemma demo_made m : fst (demo_make m) = Ok true → demo_make m = (Ok true, snd (demo_make m)).
Proof. by destruct (demo_make m) as [? ?]; cbn; intros ->. Qed.


(** *** Well-formed sources *)

Lemma word_no_braces s : forallb name_char (chars s) = true → no_braces s.
Proof. intros Hs. split; by apply name_char_has. Qed.
Lemma word_str_name s : word_str s → forallb name_char (chars s) = true.
Proof. rewrite !forallb_forall. intros Hs c Hc. unfold name_char. by rewrite Hs. Qed.

(** Values made of the module name are safe in every template. *)
Definition plain_values (kw : gmap string string) : Prop := map_Forall (λ _ v, forallb name_char (chars v) = true) kw.
Definition sound_file (d : string) (f : file_spec) : Prop :=
  let '(x, t, kw) := f in
  cpp_file [d; x] → plain_values kw ∧ brace_depth 0 (literals (tokens (chars t) None)) = Some 0.

Lemma sound_files rel m :
  valid_name m = true → Forall (λ dfs, Forall (sound_file dfs.1) dfs.2) (module_dirs rel m).
Proof.
  intros Hm. pose proof (valid_path_name _ Hm) as Hp.
  assert (forallb name_char (chars m) = true) as Hname by (unfold valid_name in Hm;
    by apply andb_true_iff in Hm as [_ ?]).
  assert (word_str (guard m)) as H1 by (by apply word_guard).
  assert (word_str (helper_guard m)) as H2 by (by apply word_guard).
  pose proof (word_capitalized m Hm) as H3. pose proof (word_compound m Hm) as H4.
  apply word_str_name in H1, H2, H3, H4.
  assert (∀ d x t kw, plain_values kw → brace_depth 0 (literals (tokens (chars t) None)) = Some 0 → sound_file d (x, t, kw))
    as Hsound by done.
  unfold module_dirs. repeat (apply Forall_cons; split); try apply Forall_nil; try exact I.
  8: { unfold sound_file. cbn [fst]. intros Hf.
     pose proof (cpp_file_name m "doc" "" "rst" (proj1 Hp) eq_refl ltac:(done)) as E.
       cbn [String.append] in E. by rewrite E in Hf. }
  all: apply Hsound; [|by vm_compute]; repeat (apply map_Forall_insert_2; [done|]); apply map_Forall_empty.
Qed.

Lemma tree_balanced rel m k t :
  valid_name m = true → module_tree rel m !! k = Some (File t) → cpp_file k → balanced t.
Proof.
  intros Hm Hk Hf. apply module_tree_spec in Hk. apply elem_of_cons in Hk as [?|Hk]; [done|].
  apply elem_of_cons in Hk as [[= -> _]|(dfs & Hk & Hd)%list_elem_of_bind]; [by vm_compute in Hf|].
  apply elem_of_cons in Hk as [?|(f & E & Hin)%list_elem_of_fmap]; [done|].
  pose proof (proj1 (Forall_forall _ _) (sound_files rel m Hm) dfs Hd) as Hdir. cbn in Hdir.
  pose proof (proj1 (Forall_forall _ _) Hdir f Hin) as Hsound. destruct f as [[x t'] kw]. injection E as -> ->.
  destruct (Hsound Hf) as [Hkw Ht]. apply expand_balanced; [|done]. intros n v Hv. apply word_no_braces.
  by eapply Hkw.
Qed.

Lemma generated_names m :
  valid_name m = true →
  identifier ("s" +:+ compound m +:+ "TestSuite") = true ∧
  identifier (guard m) = negb (starts_with_digit m) ∧
  identifier (helper_guard m) = negb (starts_with_digit m) ∧
  identifier (capitalized m +:+ "TestCase1") = negb (starts_with_digit (drop_dashes m)) ∧
  identifier (capitalized m +:+ "TestSuite") = negb (starts_with_digit (drop_dashes m)).
Proof.
  intros Hm.
  assert (m ≠ "") as Hne by (unfold valid_name in Hm; by apply andb_true_iff in Hm as [?%bool_decide_eq_true _]).
  pose proof (word_capitalized m Hm) as Hcap. pose proof (word_compound m Hm) as Hcomp. split_and!.
  - rewrite word_identifier; [done| |done]. by rewrite !forallb_chars_app, Hcomp.
  - unfold guard. rewrite word_identifier; [by rewrite guard_digit|by apply word_guard|by destruct m].
  - unfold helper_guard. rewrite word_identifier; [by rewrite guard_digit|by apply word_guard|by destruct m].
  - rewrite word_identifier; [by rewrite capitalized_digit|by rewrite forallb_chars_app, Hcap|by destruct (capitalized m)].
  - rewrite word_identifier; [by rewrite capitalized_digit|by rewrite forallb_chars_app, Hcap|by destruct (capitalized m)].
Qed.

(** The help text promises valid C++.  After a successful [make_module] the braces of every C++ file
    of the module are balanced.  The names that the templates build from the module name consist of
    letters, digits and underscores; the name of the test suite object is always an identifier, the
    guards are so if and only if the module name does not start with a digit, and the class names if
    and only if its first character that is not a dash is not a digit. *)
Theorem generated_cpp `{F : Faults} repr str_ cwd modpath m w w' :
  valid_name m = true → fs_wf (disk w) → make_module repr str_ cwd modpath m w = (Ok true, w') →
  (∀ k t, disk w' !! (module_path modpath m ++ k) = Some (File t) → cpp_file k → balanced t) ∧
  identifier ("s" +:+ compound m +:+ "TestSuite") = true ∧
  identifier (guard m) = negb (starts_with_digit m) ∧
  identifier (helper_guard m) = negb (starts_with_digit m) ∧
  identifier (capitalized m +:+ "TestCase1") = negb (starts_with_digit (drop_dashes m)) ∧
  identifier (capitalized m +:+ "TestSuite") = negb (starts_with_digit (drop_dashes m)).
Proof.
  intros Hm Hwf E. split; [|by apply generated_names]. intros k t. rewrite (made_contents _ _ _ _ _ _ _ Hm Hwf E k).
  by apply tree_balanced.
Qed.

Lemma generated_cpp_witness :
  identifier (guard "5g-nr") = false ∧ identifier (capitalized "my-mod" +:+ "TestCase1") = true.
Proof.
  split.
  - destruct (generated_cpp (F := no_faults) id (λ _, "") top ["ns3"; "contrib"] "5g-nr" demo_world
      (snd (demo_make "5g-nr"))) as (_ & _ & -> & _); [reflexivity|apply empty_tree_wf| |reflexivity].
    apply demo_made. vm_compute. reflexivity.
  - destruct (generated_cpp (F := no_faults) id (λ _, "") top ["ns3"; "contrib"] "my-mod" demo_world
      (snd (demo_make "my-mod"))) as (_ & _ & _ & _ & -> & _); [reflexivity|apply empty_tree_wf| |reflexivity].
    apply demo_made. vm_compute. reflexivity.
Defined.

(** The guard of the helper of a module is the guard of the model of the module with the name
    [m-helper]: of two such modules in one program, one header is skipped. *)
Lemma guard_collision m : guard (m +:+ "-helper") = helper_guard m.
Proof.
  unfold guard, helper_guard, dash_to_underscore, upper. rewrite !chars_app, !fmap_app, !implode_app, !chars_implode.
  rewrite chars_app, fmap_app, implode_app, !chars_implode. by rewrite <-string_app_assoc.
Qed.
