(* ===== verification/FlowMon.v ===== *)
(** * FlowMon: [src/flow-monitor/examples/flowmon-parse-results.py]

    The script reads the XML file of the flow monitor, computes bit rates, delays and loss ratios
    per flow, attaches to every flow its addresses and the counts of the probes, and prints a
    summary.  A [Flow] object is in the list of flows and in a dictionary by identifier; both hold
    the same object, so the list is the store of the objects and the dictionary holds positions.
    Floats are finite: they are rationals, and every operation rounds with [rnd].  The element
    trees are those of [TestReport]. *)

From stdpp Require Import base list strings gmap.
From Stdlib Require Import Ascii QArith Lqa.
From S2P Require Import Prelude PyNum TestReport.
Open Scope nat_scope.

(** ** Numbers in attributes *)

(** Digits with single underscores between them, as [int] and [float] accept them: the value, the
    number of digits and the rest.  [None] when there is no digit or a misplaced underscore. *)
Fixpoint digits (s : list ascii) (acc : Z) (n : nat) : option (Z * nat * list ascii) :=
  match s with
  | c :: r =>
      if is_digit c then digits r (10 * acc + (nat_of_ascii c - 48))%Z (S n)
      else if decide (c = "_"%char) then
        match n, r with
        | S _, d :: _ => if is_digit d then digits r acc n else None
        | _, _ => None
        end
      else Some (acc, n, s)
  | [] => Some (acc, n, [])
  end.
Definition sign (s : list ascii) : Z * list ascii :=
  match s with
  | c :: r => if decide (c = "-"%char) then ((-1)%Z, r) else if decide (c = "+"%char) then (1%Z, r) else (1%Z, s)
  | [] => (1%Z, s)
  end.

(** [int(s)]; [None] is a TypeError. *)
Definition int_text (s : string) : option Z :=
  let '(sg, l) := sign (chars (strip s)) in
  match digits l 0 0 with Some (v, S _, []) => Some (sg * v)%Z | _ => None end.
Definition py_int (s : option string) : py exn Z :=
  s ← or_raise TypeError s; or_raise (ValueError s) (int_text s).

Definition Q10 (e : Z) : Q := Qpower (10 # 1) e.
(** The exponent after the mantissa: nothing, or [e] and an integer up to the end. *)
Definition exponent (l : list ascii) : option Z :=
  match l with
  | [] => Some 0%Z
  | c :: r =>
      if decide (c = "e"%char ∨ c = "E"%char) then
        let '(sg, r) := sign r in
        match digits r 0 0 with Some (v, S _, []) => Some (sg * v)%Z | _ => None end
      else None
  end.
(** [float(s)] for a decimal number; the texts for infinities and NaN are left out. *)
Definition float_text (s : string) : option Q :=
  let '(sg, l) := sign (chars (strip s)) in
  '(whole, n, l) ← digits l 0 0;
  '(value, n, l) ←
    match l with
    | c :: r =>
        if decide (c = "."%char) then
          '(v, k, r') ← digits r 0 0; Some ((inject_Z whole + inject_Z v / Q10 (Z.of_nat k))%Q, n + k, r')
        else Some (inject_Z whole, n, l)
    | [] => Some (inject_Z whole, n, l)
    end;
  e ← exponent l;
  if n is O then None else Some (inject_Z sg * value * Q10 e)%Q.

Section flow_monitor.
Context `{Rounding}.

Definition py_float (s : option string) : py exn Q :=
  s ← or_raise TypeError s; rnd <$> or_raise (ValueError s) (float_text s).
Definition fsub (a b : Q) : Q := rnd (a - b).
Definition fadd (a b : Q) : Q := rnd (a + b).
Definition fmul (a b : Q) : Q := rnd (a * b).
Definition fdiv (a b : Q) : py exn Q := if Qeq_bool b 0 then Raise ZeroDivisionError else Ok (rnd (a / b)).
Definition flit (q : Q) : Q := rnd q.

(** [s[:-2]]. *)
Definition cut2 (s : string) : string := implode (py_slice_to (chars s) (-2)).
Definition endswith (s suffix : string) : bool :=
  bool_decide (drop (length (chars s) - length (chars suffix)) (chars s) = chars suffix).
Definition parse_time_ns (tm : option string) : py exn Q :=
  tm ← or_raise AttributeError tm;
  if endswith tm "ns" then py_float (Some (cut2 tm)) else Raise (ValueError tm).

(** ** The objects *)

Record FiveTuple := mkFiveTuple {
  sourceAddress : option string; destinationAddress : option string; protocol : Z;
  sourcePort : Z; destinationPort : Z }.
Definition new_FiveTuple (el : element) : py exn FiveTuple :=
  sport ← py_int (get "sourcePort" el);
  dport ← py_int (get "destinationPort" el);
  proto ← py_int (get "protocol" el);
  Ok (mkFiveTuple (get "sourceAddress" el) (get "destinationAddress" el) proto sport dport).

(** The bins: start, width and count. *)
Definition Histogram := list (Q * Q * Z).
Fixpoint py_map {A B} (f : A → py exn B) (l : list A) : py exn (list B) :=
  match l with [] => Ok [] | x :: l => y ← f x; ys ← py_map f l; Ok (y :: ys) end.
Definition new_Histogram (el : element) : py exn Histogram :=
  py_map (λ bin,
    start ← py_float (get "start" bin);
    width ← py_float (get "width" bin);
    count ← py_int (get "count" bin);
    Ok (start, width, count)) (findall "bin" el).

Record ProbeFlowStats := mkProbeFlowStats {
  probeId : Z; packets : Z; bytes : Q; delayFromFirstProbe : Q }.

(** [fiveTuple] is [None] until it is set. *)
Record Flow := mkFlow {
  flowId : Z; delayMean : option Q; packetLossRatio : option Q; rxBitrate : option Q; txBitrate : option Q;
  fiveTuple : option FiveTuple; packetSizeMean : option Q; probe_stats_unsorted : list ProbeFlowStats;
  hopCount : Q; flowInterruptionsHistogram : option Histogram; rx_duration : Q }.
Definition set_fiveTuple (t : FiveTuple) (f : Flow) : Flow :=
  mkFlow (flowId f) (delayMean f) (packetLossRatio f) (rxBitrate f) (txBitrate f) (Some t) (packetSizeMean f)
    (probe_stats_unsorted f) (hopCount f) (flowInterruptionsHistogram f) (rx_duration f).
Definition append_stats (s : ProbeFlowStats) (f : Flow) : Flow :=
  mkFlow (flowId f) (delayMean f) (packetLossRatio f) (rxBitrate f) (txBitrate f) (fiveTuple f) (packetSizeMean f)
    (probe_stats_unsorted f ++ [s]) (hopCount f) (flowInterruptionsHistogram f) (rx_duration f).

Definition nonzero (q : Q) : bool := negb (Qeq_bool q 0).
Definition positive (q : Q) : bool := negb (Qle_bool q 0).
Definition duration (first last : option string) : py exn Q :=
  b ← parse_time_ns last;
  a ← parse_time_ns first;
  Ok (fmul (fsub b a) (flit (1 # 1000000000))).
Definition bitrate (bytes : option string) (duration : Q) : py exn (option Q) :=
  if positive duration then
    b ← py_float bytes;
    Some <$> fdiv (fmul b 8) duration
  else Ok None.
Definition loss_ratio (rxPackets lost : Q) : py exn (option Q) :=
  if Qeq_bool rxPackets 0 then Ok None else Some <$> fdiv lost (fadd rxPackets lost).

Definition new_Flow (flow_el : element) : py exn Flow :=
  let at_ name := get name flow_el in
  flowId ← py_int (at_ "flowId");
  rxPackets ← py_float (at_ "rxPackets");
  _ ← py_float (at_ "txPackets");
  tx_duration ← duration (at_ "timeFirstTxPacket") (at_ "timeLastTxPacket");
  rx_duration ← duration (at_ "timeFirstRxPacket") (at_ "timeLastRxPacket");
  hopCount ← (if nonzero rxPackets then
      t ← py_float (at_ "timesForwarded");
      q ← fdiv t rxPackets;
      Ok (fadd q 1)
    else Ok (-1000 # 1)%Q);
  '(delayMean, packetSizeMean) ← (if nonzero rxPackets then
      s ← or_raise TypeError (at_ "delaySum");
      d ← py_float (Some (cut2 s));
      q ← fdiv d rxPackets;
      b ← py_float (at_ "rxBytes");
      m ← fdiv b rxPackets;
      Ok (Some (fmul q (flit (1 # 1000000000))), Some m)
    else Ok (None, None));
  rxBitrate ← bitrate (at_ "rxBytes") rx_duration;
  txBitrate ← bitrate (at_ "txBytes") tx_duration;
  lost ← py_float (at_ "lostPackets");
  packetLossRatio ← loss_ratio rxPackets lost;
  hist ← match find "flowInterruptionsHistogram" flow_el with
         | None => Ok None
         | Some e => Some <$> new_Histogram e
         end;
  Ok (mkFlow flowId delayMean packetLossRatio rxBitrate txBitrate None packetSizeMean [] hopCount hist rx_duration).

(** ** [Simulation] *)

Record sim := Sim { flows : list Flow; flow_map : gmap Z nat }.
Definition findall2 (a b : string) (e : element) : list element := findall a e ≫= findall b.

Definition add_flow (s : sim) (flow_el : element) : py exn sim :=
  flow ← new_Flow flow_el;
  Ok (Sim (flows s ++ [flow]) (<[flowId flow := length (flows s)]> (flow_map s))).
(** [flow_map[i]] is changed in place. *)
Definition update_flow (s : sim) (i : Z) (f : Flow → Flow) : py exn sim :=
  p ← or_raise KeyError (flow_map s !! i);
  Ok (Sim (alter f p (flows s)) (flow_map s)).
Definition classify (s : sim) (flow_cls : element) : py exn sim :=
  i ← py_int (get "flowId" flow_cls);
  t ← new_FiveTuple flow_cls;
  update_flow s i (set_fiveTuple t).
Definition new_stats (probeId : Z) (stats : element) : py exn ProbeFlowStats :=
  p ← py_int (get "packets" stats);
  b ← py_float (get "bytes" stats);
  d ← (if (0 <? p)%Z then
         t ← parse_time_ns (get "delayFromFirstProbeSum" stats); fdiv t (rnd (inject_Z p))
       else Ok 0%Q);
  Ok (mkProbeFlowStats probeId p b d).
Definition add_stats (probeId : Z) (s : sim) (stats : element) : py exn sim :=
  i ← py_int (get "flowId" stats);
  st ← new_stats probeId stats;
  update_flow s i (append_stats st).
Definition add_probe (s : sim) (probe_elem : element) : py exn sim :=
  probeId ← py_int (get "index" probe_elem);
  py_foldl (add_stats probeId) s (findall "FlowStats" probe_elem).

Definition Simulation (simulation_el : element) : py exn (list Flow) :=
  FlowClassifier_el ← match findall "Ipv4FlowClassifier" simulation_el with
                      | [e] => Ok e
                      | _ => Raise (ValueError "unpack")
                      end;
  s ← py_foldl add_flow (Sim [] ∅) (findall2 "FlowStats" "Flow" simulation_el);
  s ← py_foldl classify s (findall "Flow" FlowClassifier_el);
  s ← py_foldl add_probe s (findall2 "FlowProbes" "FlowProbe" simulation_el);
  Ok (flows s).

(** ** [main] *)

(** The events of [iterparse] for a tree. *)
Inductive xml_event := Start | End_ (e : element).
Fixpoint events (e : element) : list xml_event :=
  Start :: (fix all cs := match cs with [] => [] | c :: cs => (events c ++ all cs)%list end) (children e) ++ [End_ e].

(** What is written to the standard output. *)
Abbreviation M := (stx (list string) exn).
Definition write (t : string) : M unit := modify_st (λ out, out ++ [t]).
(** The loop over them: the level and the simulations. *)
Fixpoint read_events (level : Z) (sim_list : list (list Flow)) (es : list xml_event) : M (list (list Flow)) :=
  match es with
  | [] => mret sim_list
  | Start :: es => read_events (level + 1) sim_list es
  | End_ e :: es =>
      let level := (level - 1)%Z in
      if decide (level = 0%Z ∧ tag e = "FlowMonitor") then
        sim ← lift_py (Simulation e);
        _ ← write ".";
        read_events level (sim_list ++ [sim]) es
      else read_events level sim_list es
  end.

(** [fmt2] is the format [%.2f]. *)
Context (fmt2 : Q → string).
Definition proto_name (p : Z) : py exn string :=
  or_raise KeyError (({[ 6%Z := "TCP"; 17%Z := "UDP" ]} : gmap Z string) !! p).
Definition value_line (label unit : string) (factor : Q) (v : option Q) : string :=
  String tab_char label +:+ ": " +:+
  match v with None => "None" | Some q => fmt2 (fmul q factor) +:+ " " +:+ unit end.
Definition flow_lines (f : Flow) : py exn (list string) :=
  t ← or_raise AttributeError (fiveTuple f);
  proto ← proto_name (protocol t);
  Ok ["FlowID: " +:+ str_of_Z (flowId f) +:+ " (" +:+ proto +:+ " " +:+ show (sourceAddress t) +:+ "/" +:+
      str_of_Z (sourcePort t) +:+ " --> " +:+ show (destinationAddress t) +:+ "/" +:+
      str_of_Z (destinationPort t) +:+ ")";
      value_line "TX bitrate" "kbit/s" (flit (1 # 1000)) (txBitrate f);
      value_line "RX bitrate" "kbit/s" (flit (1 # 1000)) (rxBitrate f);
      value_line "Mean Delay" "ms" (flit 1000) (delayMean f);
      value_line "Packet Loss Ratio" "%" 100 (packetLossRatio f)].
Definition print_flow (f : Flow) : M unit :=
  lines ← lift_py (flow_lines f); for_st (λ l, write (l +:+ nl)) lines.
Definition main (root : element) : M unit :=
  _ ← write "Reading XML file  ";
  sim_list ← read_events 0 [] (events root);
  _ ← write (" done." +:+ nl);
  for_st (for_st print_flow) sim_list.
End flow_monitor.

(** ** The event loop *)

Section reading.
Context `{Rounding}.

(** Inside another element the loop only counts. *)
Lemma read_events_inner e : ∀ level sims es,
  (1 <= level)%Z → read_events level sims (events e ++ es) = read_events level sims es.
Proof.
  induction e as [t a x cs IH] using element_rect'. intros level sims es Hl.
  cbn [events children app read_events]. rewrite <-app_assoc.
  assert (∀ es', read_events (level + 1) sims ((fix all cs := match cs with
      | [] => [] | c :: cs => (events c ++ all cs)%list end) cs ++ es') = read_events (level + 1) sims es') as Hcs.
  { induction IH as [|c cs Hc _ IHcs]; intros es'; [done|]. rewrite <-app_assoc, Hc by lia. apply IHcs. }
  rewrite Hcs. cbn [app read_events]. replace (level + 1 - 1)%Z with level by lia.
  by rewrite decide_False by lia.
Qed.

(** The loop reads the root, if it is a [FlowMonitor], and nothing else. *)
Lemma read_events_root e :
  read_events 0 [] (events e) =
  if decide (tag e = "FlowMonitor") then sim ← lift_py (Simulation e); _ ← write "."; mret [sim] else mret [].
Proof.
  destruct e as [t a x cs]. cbn [events children app read_events].
  assert (∀ es', read_events (0 + 1) [] ((fix all cs := match cs with
      | [] => [] | c :: cs => (events c ++ all cs)%list end) cs ++ es') = read_events (0 + 1) [] es') as Hcs.
  { induction cs as [|c cs IH]; intros es'; [done|]. by rewrite <-app_assoc, read_events_inner. }
  rewrite Hcs. cbn [read_events]. change (0 + 1 - 1)%Z with 0%Z.
  case_decide as E; [destruct E; by rewrite decide_True|rewrite decide_False; [done|naive_solver]].
Qed.
End reading.

(** ** Attaching addresses and probe counts *)

Section attaching.
Context `{Rounding}.

(** The entries of the classifier and of a probe, with the identifier of their flow. *)
Definition read_class (e : element) : py exn (Z * FiveTuple) :=
  i ← py_int (get "flowId" e); t ← new_FiveTuple e; Ok (i, t).
Definition read_stats (probeId : Z) (e : element) : py exn (Z * ProbeFlowStats) :=
  i ← py_int (get "flowId" e); s ← new_stats probeId e; Ok (i, s).
Definition read_probe (e : element) : py exn (list (Z * ProbeFlowStats)) :=
  probeId ← py_int (get "index" e); py_map (read_stats probeId) (findall "FlowStats" e).

(** The entries of one flow. *)
Definition of_flow {A} (i : Z) (l : list (Z * A)) : list A := snd <$> filter (λ x, x.1 = i) l.
Definition attach (cls : list (Z * FiveTuple)) (sts : list (Z * ProbeFlowStats)) (f : Flow) : Flow :=
  mkFlow (flowId f) (delayMean f) (packetLossRatio f) (rxBitrate f) (txBitrate f) (last (of_flow (flowId f) cls))
    (packetSizeMean f) (of_flow (flowId f) sts) (hopCount f) (flowInterruptionsHistogram f) (rx_duration f).

(** The dictionary gives the position of the flow with an identifier. *)
Definition indexed (s : sim) : Prop :=
  NoDup (flowId <$> flows s) ∧
  ∀ i p, flow_map s !! i = Some p ↔ (flowId <$> flows s) !! p = Some i.

(** Changing the flow with identifier [i]. *)
Definition touch (g : Flow → Flow) (i : Z) (f : Flow) : Flow := if decide (flowId f = i) then g f else f.

Lemma alter_touch (l : list Flow) g p i :
  NoDup (flowId <$> l) → (flowId <$> l) !! p = Some i → alter g p l = touch g i <$> l.
Proof.
  revert p. induction l as [|f l IH]; intros p Hnd Hp; [done|].
  rewrite fmap_cons in Hnd, Hp. apply NoDup_cons in Hnd as [Hf Hnd]. rewrite fmap_cons. unfold touch at 1.
  destruct p as [|p]; cbn in Hp.
  - injection Hp as <-. rewrite decide_True by done. cbn. f_equal. symmetry.
    rewrite <-(list_fmap_id l) at 2. apply list_fmap_ext. intros k x Hx. unfold touch.
    rewrite decide_False; [done|]. intros E. apply Hf, list_elem_of_fmap. exists x. split; [done|].
    by eapply list_elem_of_lookup_2.
  - rewrite decide_False; [cbn; f_equal; by apply IH|]. intros E. apply Hf. rewrite E.
    by eapply list_elem_of_lookup_2.
Qed.
Lemma touch_ids g i (l : list Flow) : (∀ f, flowId (g f) = flowId f) → flowId <$> (touch g i <$> l) = flowId <$> l.
Proof.
  intros Hg. rewrite <-list_fmap_compose. apply list_fmap_ext. intros k f _. cbn. unfold touch.
  case_decide; [apply Hg|done].
Qed.

Lemma update_flow_touch s i g :
  indexed s → (∀ f, flowId (g f) = flowId f) →
  if decide (i ∈ flowId <$> flows s) then
    update_flow s i g = Ok (Sim (touch g i <$> flows s) (flow_map s)) ∧
    indexed (Sim (touch g i <$> flows s) (flow_map s))
  else update_flow s i g = Raise KeyError.
Proof.
  intros [Hnd Hmap] Hg. unfold update_flow. case_decide as Hi.
  - apply list_elem_of_lookup in Hi as [p Hp]. rewrite (proj2 (Hmap i p) Hp). cbn.
    rewrite (alter_touch _ _ _ _ Hnd Hp).
    split; [done|]. unfold indexed. cbn. by rewrite touch_ids.
  - destruct (flow_map s !! i) as [p|] eqn:E; [|done]. apply Hmap in E. destruct Hi. by eapply list_elem_of_lookup_2.
Qed.

(** A list of changes, each to one flow. *)
Definition known {A} (ids : list Z) (l : list (Z * A)) : Prop := Forall (λ x, x.1 ∈ ids) l.
#[global] Instance known_dec {A} ids (l : list (Z * A)) : Decision (known ids l).
Proof. unfold known. apply _. Defined.

Lemma foldl_touch {A} (g : A → Flow → Flow) (step : sim → Z * A → py exn sim) l s :
  (∀ s x, step s x = update_flow s x.1 (g x.2)) → (∀ a f, flowId (g a f) = flowId f) → indexed s →
  if decide (known (flowId <$> flows s) l) then
    ∃ s', py_foldl step s l = Ok s' ∧ indexed s' ∧
      flows s' = (λ f, foldl (λ f x, touch (g x.2) x.1 f) f l) <$> flows s
  else py_foldl step s l = Raise KeyError.
Proof.
  intros Hstep Hg. revert s. induction l as [|x l IH]; intros s Hs; cbn [py_foldl foldl].
  { rewrite decide_True by constructor. exists s. by rewrite list_fmap_id. }
  pose proof (update_flow_touch s x.1 (g x.2) Hs (Hg x.2)) as Hu. rewrite Hstep.
  destruct (decide (x.1 ∈ flowId <$> flows s)) as [Hx|Hx].
  - destruct Hu as [-> Hs']. cbn. specialize (IH _ Hs'). cbn [flows] in IH. rewrite touch_ids in IH by done.
    destruct (decide (known (flowId <$> flows s) l)) as [Hl|Hl].
    + rewrite decide_True by (by constructor). destruct IH as (s' & E & Hi & Hf). exists s'. split_and!; [done|done|].
      by rewrite Hf, <-list_fmap_compose.
    + rewrite decide_False; [exact IH|]. intros Hk. apply Hl. by inversion Hk.
  - rewrite Hu. rewrite decide_False; [done|]. intros Hk. apply Hx. by inversion Hk.
Qed.

Lemma py_foldl_map {A B S} (rd : A → py exn B) (f : S → A → py exn S) (step : S → B → py exn S) s l xs :
  py_map rd l = Ok xs → (∀ s a b, rd a = Ok b → f s a = step s b) → py_foldl f s l = py_foldl step s xs.
Proof.
  intros Hm Hf. revert s xs Hm. induction l as [|a l IH]; intros s xs Hm; cbn in *; [by injection Hm as <-|].
  apply py_bind_ok in Hm as (b & Hb & (bs & Hbs & [= <-])%py_bind_ok). cbn. rewrite (Hf _ _ _ Hb).
  destruct (step s b); cbn; [by apply IH|done].
Qed.
Lemma py_foldl_concat {E A S} (f : S → A → py E S) s ls :
  py_foldl (py_foldl f) s ls = py_foldl f s (concat ls).
Proof.
  revert s. induction ls as [|l ls IH]; intros s; cbn; [done|]. rewrite py_foldl_app.
  destruct (py_foldl f s l); cbn; [apply IH|done].
Qed.

Lemma add_flows_ok els fs s :
  py_map new_Flow els = Ok fs → indexed s → NoDup (flowId <$> flows s ++ fs) →
  ∃ s', py_foldl add_flow s els = Ok s' ∧ indexed s' ∧ flows s' = flows s ++ fs.
Proof.
  revert fs s. induction els as [|e els IH]; intros fs s Hm Hs Hnd; cbn [py_map] in Hm.
  { injection Hm as <-. exists s. by rewrite app_nil_r. }
  apply py_bind_ok in Hm as (f & Hf & (fs' & Hfs & [= <-])%py_bind_ok). cbn [py_foldl].
  assert (add_flow s e = Ok (Sim (flows s ++ [f]) (<[flowId f := length (flows s)]> (flow_map s)))) as ->
    by (unfold add_flow; by rewrite Hf).
  cbn [mbind py_bind].
  destruct (IH fs' (Sim (flows s ++ [f]) (<[flowId f := length (flows s)]> (flow_map s)))) as (s' & E & Hi & Hfl);
    [done| |cbn [flows]; by rewrite <-app_assoc|exists s'; cbn [flows] in Hfl; by rewrite <-app_assoc in Hfl].
  destruct Hs as [Hn Hmap]. rewrite cons_middle, app_assoc, fmap_app in Hnd. apply NoDup_app in Hnd as (Hnd & _ & _).
  split; cbn [flows flow_map]; [done|]. intros i p. rewrite fmap_app in Hnd |- *.
  apply NoDup_app in Hnd as (_ & Hnew & _). rewrite lookup_insert_Some, Hmap, lookup_app_Some. cbn.
  rewrite list_lookup_singleton_Some, length_fmap. split.
  - intros [[<- <-]|[Hne Hp]]; [right|by left]. split_and!; [lia|lia|done].
  - intros [Hp|(? & ? & ->)]; [right|left; split; [done|lia]]. split; [|done]. intros E.
    apply (Hnew i); [by eapply list_elem_of_lookup_2|rewrite <-E; left].
Qed.

Lemma new_Flow_fresh e f : new_Flow e = Ok f → fiveTuple f = None ∧ probe_stats_unsorted f = [].
Proof.
  unfold new_Flow. intros Hf.
  repeat match type of Hf with
  | _ ≫= _ = _ => apply py_bind_ok in Hf as (? & _ & Hf)
  | (match ?x with (_, _) => _ end) = _ => destruct x
  end.
  by injection Hf as <-.
Qed.

Lemma of_flow_cons {A} i (x : Z * A) l : of_flow i (x :: l) = if decide (x.1 = i) then x.2 :: of_flow i l else of_flow i l.
Proof. unfold of_flow. rewrite filter_cons. by case_decide. Qed.

(** The changes of all entries, seen from one flow. *)
Lemma touch_all cls sts f :
  foldl (λ f x, touch (append_stats x.2) x.1 f) (foldl (λ f x, touch (set_fiveTuple x.2) x.1 f) f cls) sts =
  mkFlow (flowId f) (delayMean f) (packetLossRatio f) (rxBitrate f) (txBitrate f)
    (match last (of_flow (flowId f) cls) with Some t => Some t | None => fiveTuple f end)
    (packetSizeMean f) (probe_stats_unsorted f ++ of_flow (flowId f) sts) (hopCount f)
    (flowInterruptionsHistogram f) (rx_duration f).
Proof.
  revert f. induction cls as [|x cls IH]; intros f; cbn [foldl].
  - revert f. induction sts as [|x sts IH]; intros f; cbn [foldl]; [by destruct f; cbn; rewrite app_nil_r|].
    rewrite IH, of_flow_cons. unfold touch. destruct (decide (flowId f = x.1)); cbn.
    + rewrite decide_True by done. cbn. f_equal. by rewrite <-app_assoc.
    + by rewrite decide_False.
  - rewrite IH, of_flow_cons. unfold touch. destruct (decide (flowId f = x.1)); cbn.
    + rewrite decide_True by done. rewrite last_cons. by destruct (last (of_flow (flowId f) cls)).
    + by rewrite decide_False.
Qed.

(** What reading a simulation gives when its parts can be read. *)
Lemma Simulation_attach root cl fs cls stss :
  findall "Ipv4FlowClassifier" root = [cl] → py_map new_Flow (findall2 "FlowStats" "Flow" root) = Ok fs →
  NoDup (flowId <$> fs) → py_map read_class (findall "Flow" cl) = Ok cls →
  py_map read_probe (findall2 "FlowProbes" "FlowProbe" root) = Ok stss →
  Simulation root =
    if decide (known (flowId <$> fs) cls ∧ known (flowId <$> fs) (concat stss))
    then Ok (attach cls (concat stss) <$> fs) else Raise KeyError.
Proof.
  intros Hcl Hfs Hnd Hcls Hsts. unfold Simulation. rewrite Hcl. cbn [mbind py_bind].
  destruct (add_flows_ok _ fs (Sim [] ∅) Hfs) as (s1 & -> & Hi1 & Hf1); [|done|].
  { split; [constructor|]. intros i p. cbn [flow_map]. by rewrite lookup_empty. }
  cbn [mbind py_bind flows app] in *.
  rewrite (py_foldl_map read_class classify (λ s x, update_flow s x.1 (set_fiveTuple x.2)) s1 _ cls Hcls).
  2:{ intros s e x Hx. unfold read_class in Hx. apply py_bind_ok in Hx as (i & Hi & (t & Ht & [= <-])%py_bind_ok).
      unfold classify. rewrite Hi. cbn. by rewrite Ht. }
  pose proof (foldl_touch set_fiveTuple (λ s x, update_flow s x.1 (set_fiveTuple x.2)) cls s1 ltac:(done) ltac:(done) Hi1)
    as H1. rewrite Hf1 in H1. destruct (decide (known (flowId <$> fs) cls)) as [Hk1|Hk1].
  2:{ rewrite H1. rewrite decide_False by (by intros []). done. }
  destruct H1 as (s2 & -> & Hi2 & Hf2). cbn [mbind py_bind].
  rewrite (py_foldl_map read_probe add_probe (py_foldl (λ s x, update_flow s x.1 (append_stats x.2))) s2 _ stss Hsts).
  2:{ intros s e l Hl. unfold read_probe in Hl. apply py_bind_ok in Hl as (i & Hi & Hl). unfold add_probe. rewrite Hi.
      cbn [mbind py_bind]. apply (py_foldl_map (read_stats i)); [done|]. clear. intros s e x Hx.
      unfold read_stats in Hx.
      apply py_bind_ok in Hx as (j & Hj & (t & Ht & [= <-])%py_bind_ok). unfold add_stats. rewrite Hj. cbn.
      by rewrite Ht. }
  rewrite py_foldl_concat.
  pose proof (foldl_touch append_stats (λ s x, update_flow s x.1 (append_stats x.2)) (concat stss) s2 ltac:(done)
    ltac:(done) Hi2) as H2.
  assert (flowId <$> flows s2 = flowId <$> fs) as Eids.
  { rewrite Hf2, <-list_fmap_compose. apply list_fmap_ext. intros k f _. cbn.
    pose proof (touch_all cls [] f) as E. cbn in E. by rewrite E. }
  rewrite Eids in H2. destruct (decide (known (flowId <$> fs) (concat stss))) as [Hk2|Hk2].
  - rewrite decide_True by done. destruct H2 as (s3 & -> & _ & Hf3). cbn. f_equal.
    rewrite Hf3, Hf2, <-list_fmap_compose.
    apply list_fmap_ext. intros k f Hf. cbn. rewrite touch_all.
    assert (fiveTuple f = None ∧ probe_stats_unsorted f = []) as [-> ->]; [|unfold attach; cbn;
      by destruct (last (of_flow (flowId f) cls))].
    clear -Hfs Hf. revert k fs Hfs Hf. induction (findall2 "FlowStats" "Flow" root) as [|e l IH]; intros k fs Hfs Hf.
    + by injection Hfs as <-.
    + cbn [py_map] in Hfs. apply py_bind_ok in Hfs as (g & Hg & (gs & Hgs & [= <-])%py_bind_ok).
      destruct k as [|k]; [injection Hf as <-; by eapply new_Flow_fresh|by eapply IH].
  - rewrite decide_False by (by intros []). by rewrite H2.
Qed.
End attaching.

(** ** The report *)

Section report.
Context `{Rounding} (fmt2 : Q → string).

Definition printable (f : Flow) : Prop := ∃ t, fiveTuple f = Some t ∧ (protocol t = 6%Z ∨ protocol t = 17%Z).
Definition report (f : Flow) : list string :=
  match flow_lines fmt2 f with Ok ls => (λ l, l +:+ nl) <$> ls | Raise _ => [] end.
Definition header : list string := ["Reading XML file  "; "."; " done." +:+ nl].

Lemma proto_name_ok p : is_Some (match proto_name p with Ok s => Some s | Raise _ => None end) ↔ p = 6%Z ∨ p = 17%Z.
Proof.
  unfold proto_name. destruct (decide (p = 6%Z)) as [->|H6]; [by split; [left|eexists]|].
  destruct (decide (p = 17%Z)) as [->|H17]; [by split; [right|eexists]|].
  rewrite lookup_insert_ne, lookup_singleton_ne by done. split; [by intros []|naive_solver].
Qed.

(** Printing one flow. *)
Lemma flow_lines_cases f :
  (printable f ∧ ∃ ls, flow_lines fmt2 f = Ok ls) ∨
  (¬ printable f ∧ flow_lines fmt2 f = Raise (match fiveTuple f with None => AttributeError | Some _ => KeyError end)).
Proof.
  unfold flow_lines, printable. destruct (fiveTuple f) as [t|]; cbn; [|right; split; [naive_solver|done]].
  pose proof (proto_name_ok (protocol t)) as Hp. destruct (proto_name (protocol t)) as [s|e] eqn:E.
  - left. split; [|by eexists]. exists t. split; [done|]. apply Hp. by eexists.
  - right. split; [intros (t' & [= <-] & Hpr); by apply Hp in Hpr as []|]. cbn. f_equal.
    unfold proto_name, or_raise in E. by case_match; simplify_eq.
Qed.

Lemma write_all ls out : for_st (λ l, write (l +:+ nl)) ls out = (Ok tt, out ++ ((λ l, l +:+ nl) <$> ls)).
Proof.
  revert out. induction ls as [|l ls IH]; intros out; cbn; [by rewrite app_nil_r|].
  unfold mbind, stx_bind, write, modify_st in *. rewrite IH. by rewrite <-app_assoc.
Qed.

Lemma print_flow_bind {A} f (m : unit → stx (list string) exn A) out :
  (print_flow fmt2 f ≫= m) out =
  match flow_lines fmt2 f with Ok _ => m tt (out ++ report f) | Raise e => (Raise e, out) end.
Proof.
  unfold print_flow, mbind, stx_bind, lift_py, report. destruct (flow_lines fmt2 f); [|done].
  by rewrite write_all.
Qed.

Lemma print_flows fs out :
  (Forall printable fs ∧ for_st (print_flow fmt2) fs out = (Ok tt, out ++ (fs ≫= report))) ∨
  (∃ pre f post, fs = pre ++ f :: post ∧ Forall printable pre ∧ ¬ printable f ∧
    for_st (print_flow fmt2) fs out =
      (Raise (match fiveTuple f with None => AttributeError | Some _ => KeyError end), out ++ (pre ≫= report))).
Proof.
  revert out. induction fs as [|f fs IH]; intros out; [left; split; [constructor|by rewrite app_nil_r]|].
  cbn [for_st]. rewrite print_flow_bind. destruct (flow_lines_cases f) as [(Hf & ls & E)|[Hf E]]; rewrite E.
  - destruct (IH (out ++ report f)) as [[Hall ->]|(pre & g & post & -> & Hpre & Hg & ->)].
    + left. split; [by constructor|]. by rewrite <-app_assoc.
    + right. exists (f :: pre), g, post. split_and!; [done|by constructor|done|]. by rewrite <-app_assoc.
  - right. exists [], f, fs. split_and!; [done|constructor|done|]. cbn. by rewrite app_nil_r.
Qed.

Lemma flow_main_run root out :
  tag root = "FlowMonitor" →
  main fmt2 root out =
  match Simulation root with
  | Ok fs => for_st (print_flow fmt2) fs (out ++ header)
  | Raise e => (Raise e, out ++ ["Reading XML file  "])
  end.
Proof.
  intros Htag. unfold main. rewrite read_events_root, decide_True by done. unfold mbind, stx_bind, lift_py.
  unfold write, modify_st, mret, stx_ret. destruct (Simulation root) as [fs|e]; [|done].
  cbn [for_st]. unfold mbind, stx_bind. rewrite <-!app_assoc. cbn [app]. fold header.
  by destruct (for_st (print_flow fmt2) fs (out ++ header)) as [[[]|e] out'].
Qed.

(** C40: The summary of a results file whose parts can be read: every flow is listed once, in the order
    of the file, with the last addresses the IPv4 classifier gives for it, and with the counts of its own
    probes; unless an entry is for an unknown flow, which is a KeyError before anything is printed.
    The first flow that the classifier does not know (an IPv6 flow) ends the script with
    AttributeError, the first that is neither TCP nor UDP with KeyError, after the flows before it. *)
Theorem report_spec root cl fs cls stss out :
  tag root = "FlowMonitor" →
  findall "Ipv4FlowClassifier" root = [cl] → py_map new_Flow (findall2 "FlowStats" "Flow" root) = Ok fs →
  NoDup (flowId <$> fs) → py_map read_class (findall "Flow" cl) = Ok cls →
  py_map read_probe (findall2 "FlowProbes" "FlowProbe" root) = Ok stss →
  let fs' := attach cls (concat stss) <$> fs in
  (¬ (known (flowId <$> fs) cls ∧ known (flowId <$> fs) (concat stss)) ∧
     main fmt2 root out = (Raise KeyError, out ++ ["Reading XML file  "])) ∨
  (Forall printable fs' ∧ main fmt2 root out = (Ok tt, out ++ header ++ (fs' ≫= report))) ∨
  (∃ pre f post, fs' = pre ++ f :: post ∧ Forall printable pre ∧ ¬ printable f ∧
     main fmt2 root out = (Raise (match fiveTuple f with None => AttributeError | Some _ => KeyError end),
                           out ++ header ++ (pre ≫= report))).
Proof.
  intros Htag Hcl Hfs Hnd Hcls Hsts fs'. pose proof (Simulation_attach _ _ _ _ _ Hcl Hfs Hnd Hcls Hsts) as Hsim.
  rewrite flow_main_run, Hsim by done. case_decide as Hk; [right|by left]. fold fs'.
  destruct (print_flows fs' (out ++ header)) as [[Hall E]|(pre & f & post & H1 & H2 & H3 & E)];
    rewrite E, <-app_assoc; [by left|right]. by exists pre, f, post.
Qed.
End report.

(** A file with two flows, the second of which has no entry of the IPv4 classifier. *)
Definition demo_flow (id : string) : element :=
  Element "Flow" [("flowId", id); ("timeFirstTxPacket", "+1000000000.0ns"); ("timeFirstRxPacket", "+1e9ns");
    ("timeLastTxPacket", "+2000000000.0ns"); ("timeLastRxPacket", "+3.0e+09ns"); ("delaySum", "+4e7ns");
    ("txBytes", "3000"); ("rxBytes", "2000"); ("txPackets", "3"); ("rxPackets", "2"); ("lostPackets", "1");
    ("timesForwarded", "4")] None [].
Definition demo_class (id : string) : element :=
  Element "Flow" [("flowId", id); ("sourceAddress", "10.1.1.1"); ("destinationAddress", "10.1.1.2");
    ("protocol", "17"); ("sourcePort", "49153"); ("destinationPort", "9")] None [].
Definition demo_probe : element :=
  Element "FlowProbe" [("index", "0")] None
    [Element "FlowStats" [("flowId", "2"); ("packets", "3"); ("bytes", "30");
       ("delayFromFirstProbeSum", "+0.0ns")] None []].
Definition demo_classifier : element := Element "Ipv4FlowClassifier" [] None [demo_class "1"].
Definition demo_file : element :=
  Element "FlowMonitor" [] None
    [Element "FlowStats" [] None [demo_flow "1"; demo_flow "2"]; demo_classifier;
     Element "FlowProbes" [] None [demo_probe]].
Definition ok_list {A} (r : py exn (list A)) : list A := match r with Ok l => l | Raise _ => [] end.

Definition demo_flows : list Flow := ok_list (py_map (new_Flow (H := exact)) [demo_flow "1"; demo_flow "2"]).
Definition demo_classes : list (Z * FiveTuple) := ok_list (py_map read_class [demo_class "1"]).
Definition demo_stats : list (list (Z * ProbeFlowStats)) := ok_list (py_map (read_probe (H := exact)) [demo_probe]).

Lemma report_spec_witness :
  ∃ pre f post, attach demo_classes (concat demo_stats) <$> demo_flows = pre ++ f :: post ∧
    Forall printable pre ∧ ¬ printable f ∧ (main (H := exact) (λ _, "1.00") demo_file []).1 = Raise AttributeError.
Proof.
  assert ((main (H := exact) (λ _, "1.00") demo_file []).1 = Raise AttributeError) as Ea by (by vm_compute).
  destruct (report_spec (H := exact) (λ _, "1.00") demo_file demo_classifier demo_flows demo_classes demo_stats [])
    as [[_ E]|[[_ E]|(pre & f & post & H1 & H2 & H3 & _)]]; [reflexivity..| |reflexivity|reflexivity| | |].
  - apply (bool_decide_unpack _). vm_compute. exact I.
  - exfalso. rewrite E in Ea. clear -Ea. discriminate.
  - exfalso. rewrite E in Ea. clear -Ea. discriminate.
  - exists pre, f, post. split_and!; [exact H1|exact H2|exact H3|exact Ea].
Defined.

(** ** The loss ratio *)

(** Without rounding the ratio of two counts is between 0 and 1.  When no packet arrives it is not
    reported, although then all packets may be lost. *)
Lemma loss_ratio_spec (rx lost : Q) :
  (0 <= rx)%Q → (0 <= lost)%Q →
  match loss_ratio (H := exact) rx lost with
  | Ok None => (rx == 0)%Q
  | Ok (Some q) => (0 <= q <= 1)%Q ∧ (0 < rx)%Q
  | Raise _ => False
  end.
Proof.
  intros Hrx Hl. unfold loss_ratio, fdiv, fadd, rnd, exact. destruct (Qeq_bool rx 0) eqn:E; [by apply Qeq_bool_iff|].
  assert (0 < rx)%Q as Hpos.
  { apply Qle_lteq in Hrx as [?|Hz]; [done|]. symmetry in Hz. apply Qeq_bool_iff in Hz. congruence. }
  destruct (Qeq_bool (rx + lost) 0) eqn:E'; [apply Qeq_bool_iff in E'; lra|]. cbn. split; [|done]. split.
  - apply Qle_shift_div_l; lra.
  - apply Qle_shift_div_r; lra.
Qed.
