(* ===== verification/PyStr.v ===== *)
(** * Methods of [str] that the wrapper script uses

    [str.replace], [str.split] without an argument, [str.lower], [int] of a text, and the position of
    the last occurrence of a character, which is what a greedy regular expression finds; with the
    facts about them that the components share. *)

From stdpp Require Import base list strings.
From Stdlib Require Import Ascii.
From S2P Require Import Prelude.
Open Scope nat_scope.

(** ** Replacing *)

(** [s.replace(old, new)]: the occurrences that do not overlap, from the left; [skip] characters of
    the occurrence just replaced are still to be passed over. *)
Fixpoint replace_go (old new : string) (skip : nat) (s : string) : string :=
  match s with
  | "" => ""
  | String c r =>
      match skip with
      | S k => replace_go old new k r
      | 0 => if startswith s old then new +:+ replace_go old new (String.length old - 1) r
             else String c (replace_go old new 0 r)
      end
  end.
(** An empty [old] matches between all characters. *)
Definition replace_all (old new s : string) : string :=
  if decide (old = "") then new +:+ concat_str ((λ c, String c new) <$> chars s)
  else replace_go old new 0 s.

(** ** Splitting *)

(** [s.split()]: the maximal runs of characters that are not white space. *)
Fixpoint words_go (cur : list ascii) (l : list ascii) : list string :=
  match l with
  | [] => if decide (cur = []) then [] else [implode (reverse cur)]
  | c :: l =>
      if is_space c then if decide (cur = []) then words_go [] l else implode (reverse cur) :: words_go [] l
      else words_go (c :: cur) l
  end.
Definition words (s : string) : list string := words_go [] (chars s).

(** The parts before and after the last occurrence of [c]. *)
Fixpoint split_last (c : ascii) (s : string) : option (string * string) :=
  match s with
  | "" => None
  | String d r =>
      match split_last c r with
      | Some (a, b) => Some (String d a, b)
      | None => if decide (c = d) then Some ("", r) else None
      end
  end.

(** The parts before and after the first occurrence of a text. *)
Fixpoint split_first (sub s : string) : option (string * string) :=
  match strip_prefix sub s with
  | Some r => Some ("", r)
  | None => match s with
            | "" => None
            | String c s => match split_first sub s with Some (a, b) => Some (String c a, b) | None => None end
            end
  end.

(** ** [str.lower] and [int] *)

Definition lower (s : string) : string :=
  implode ((λ c, let n := nat_of_ascii c in if (65 <=? n) && (n <=? 90) then ascii_of_nat (n + 32) else c) <$> chars s).

(** The digits of [int(s)] may be separated by single underscores. *)
Fixpoint drop_underscores (after_digit : bool) (l : list ascii) : option (list ascii) :=
  match l with
  | [] => if after_digit then Some [] else None
  | c :: l =>
      if decide (c = "_"%char) then if after_digit then drop_underscores false l else None
      else if is_digit c then cons c <$> drop_underscores true l else None
  end.
(** [int(s)] in base ten: white space around, a sign, digits; [None] is ValueError. *)
Definition py_int (s : string) : option Z :=
  let number l := drop_underscores false l ≫= λ d, int_of_str (implode d) in
  match chars (strip s) with
  | "-"%char :: l => Z.opp <$> number l
  | "+"%char :: l => number l
  | l => number l
  end.

Example replace_slashes : replace_all "/" "_" "/scratch/a/b" = "_scratch_a_b".
Proof. reflexivity. Qed.
Example replace_overlap : replace_all "aa" "b" "aaaaa" = "bba".
Proof. reflexivity. Qed.
Example words_example : words "  a bc  d " = ["a"; "bc"; "d"].
Proof. reflexivity. Qed.
Example py_int_example : py_int " -1_0 " = Some (-10)%Z ∧ py_int "1__0" = None ∧ py_int "3.5" = None.
Proof. repeat split; reflexivity. Qed.

(** ** Facts *)

Lemma split_last_Some c s a b :
  split_last c s = Some (a, b) ↔ s = a +:+ String c b ∧ has_char c b = false.
Proof.
  revert a b. induction s as [|d s IH]; intros a b; cbn.
  - split; [done|]. intros [H _]. by destruct a.
  - destruct (split_last c s) as [[a' b']|] eqn:E.
    + destruct (proj1 (IH a' b') eq_refl) as [-> Hb']. split.
      * by intros [= <- <-].
      * intros [H Hb]. destruct a as [|x a]; cbn in H; injection H as -> H.
        -- subst b. rewrite has_char_app in Hb. cbn in Hb. rewrite bool_decide_true in Hb by done.
           by rewrite orb_true_r in Hb.
        -- destruct (IH a b) as [_ IH']. by injection (IH' (conj H Hb)) as -> ->.
    + split.
      * case_decide as Hc; [|done]. intros [= <- <-]. subst d. split; [done|].
        destruct (has_char c s) eqn:Hs; [|done]. exfalso. clear IH.
        revert E. induction s as [|e s IHs]; [done|]. cbn in *. destruct (split_last c s) as [[]|]; [done|].
        destruct (decide (c = e)); [done|]. rewrite bool_decide_false in Hs by done. cbn in Hs. auto.
      * intros [H Hb]. destruct a as [|x a]; cbn in H; injection H as -> H.
        -- subst b. by rewrite decide_True.
        -- exfalso. destruct (IH a b) as [_ IH']. by specialize (IH' (conj H Hb)).
Qed.

Lemma split_last_None c s : split_last c s = None ↔ has_char c s = false.
Proof.
  induction s as [|d s IH]; cbn; [done|]. destruct (split_last c s) as [[a b]|] eqn:E.
  - apply split_last_Some in E as [-> _]. rewrite has_char_app. cbn.
    rewrite (bool_decide_true (c = c)) by done. by rewrite !orb_true_r.
  - destruct IH as [IH _]. rewrite IH by done.
    case_decide; [rewrite bool_decide_true|rewrite bool_decide_false]; done.
Qed.

Lemma split_first_Some sub s a b : split_first sub s = Some (a, b) → s = a +:+ sub +:+ b.
Proof.
  revert a b. induction s as [|c s IH]; intros a b; cbn; destruct (strip_prefix sub _) as [r|] eqn:E.
  1,3: intros [= <- <-]; by apply strip_prefix_Some in E.
  - done.
  - destruct (split_first sub s) as [[a' b']|]; [|done]. intros [= <- <-]. by rewrite (IH _ _ eq_refl).
Qed.

Lemma has_sub_split sub s : has_sub sub s = true ↔ is_Some (split_first sub s).
Proof.
  induction s as [|c s IH]; cbn; unfold startswith; destruct (strip_prefix sub _) as [r|] eqn:E.
  1,3: rewrite bool_decide_true by eauto; cbn; split; eauto.
  - rewrite bool_decide_false by (by intros []). cbn. split; [done|by intros []].
  - rewrite bool_decide_false by (by intros []). cbn. rewrite IH.
    destruct (split_first sub s) as [[]|]; split; intros []; eauto; done.
Qed.
Lemma has_sub_spec sub s : has_sub sub s = true ↔ ∃ a b, s = a +:+ sub +:+ b.
Proof.
  split.
  - intros [[a b] H]%has_sub_split. exists a, b. by apply split_first_Some.
  - intros (a & b & ->). induction a as [|c a IH].
    + change ("" +:+ sub +:+ b) with (sub +:+ b).
      assert (startswith (sub +:+ b) sub = true) as Hs by (apply startswith_spec; by eexists).
      destruct (sub +:+ b); cbn [has_sub]; by rewrite Hs.
    + cbn [has_sub String.append]. apply orb_true_iff. right. exact IH.
Qed.

(** Nothing is replaced where [old] does not occur. *)
Lemma replace_absent old new s : old ≠ "" → has_sub old s = false → replace_all old new s = s.
Proof.
  intros Ho. unfold replace_all. rewrite decide_False by done. induction s as [|c s IH]; [done|].
  cbn [has_sub replace_go]. intros [-> H]%orb_false_iff. by rewrite IH.
Qed.
Lemma replace_skip old new a r : replace_go old new (String.length a) (a +:+ r) = replace_go old new 0 r.
Proof. induction a as [|c a IH]; [done|]. exact IH. Qed.
(** An occurrence at the front is replaced first. *)
Lemma replace_front old new r : old ≠ "" → replace_all old new (old +:+ r) = new +:+ replace_all old new r.
Proof.
  intros Ho. unfold replace_all. rewrite !decide_False by done.
  assert (startswith (old +:+ r) old = true) as Hs by (apply startswith_spec; by eexists).
  destruct old as [|c old]; [done|]. cbn [String.append] in *. cbn [replace_go]. rewrite Hs. f_equal.
  cbn [String.length Nat.sub]. rewrite Nat.sub_0_r. apply replace_skip.
Qed.
