(* ===== verification/Ns3Args.v ===== *)
(** * The command line of the wrapper script [ns3]

    The tables of options that [parse_args] declares, the namespace that argparse returns, the merging
    of the options that every sub-command repeats, and the arguments that [configure_cmake] passes on
    to CMake.  How argparse splits a command line is the class [Argparse]; its law is that the
    namespace has one attribute of the declared kind for every argument of the main parser and of the
    sub-command. *)

From stdpp Require Import base list strings gmap.
From Stdlib Require Import Ascii.
From S2P Require Import Prelude PyStr TestJobs TestConfig.
Open Scope nat_scope.

(** ** Values and namespaces *)

(** The values of attributes of [args] and of variables of the lock file. *)
Inductive val := VNone | VBool (b : bool) | VInt (z : Z) | VStr (s : string) | VList (l : list string).
#[export] Instance val_eq_dec : EqDecision val.
Proof. solve_decision. Defined.

Definition truthy (v : val) : bool :=
  match v with
  | VNone => false
  | VBool b => b
  | VInt z => bool_decide (z ≠ 0%Z)
  | VStr s => bool_decide (s ≠ "")
  | VList l => bool_decide (l ≠ [])
  end.
(** [str(v)]. *)
Definition str_of_val (v : val) : string :=
  match v with
  | VNone => "None"
  | VBool b => if b then "True" else "False"
  | VInt z => str_of_Z z
  | VStr s => s
  | VList l => "[" +:+ join ", " ((λ x, "'" +:+ x +:+ "'") <$> l) +:+ "]"
  end.
(** [v == True]: the integer 1 is equal to it as well. *)
Definition equals_true (v : val) : bool := bool_decide (v = VBool true ∨ v = VInt 1).

Abbreviation namespace := (gmap string val).
Definition getattr (args : namespace) (name : string) : py exn val := or_raise AttributeError (args !! name).

(** ** The declared arguments *)

Inductive action := StoreTrue | Store | StoreMany.
#[export] Instance action_eq_dec : EqDecision action.
Proof. solve_decision. Defined.
Record argument := Argument {
  positional : bool; dest : string; act : action; default_value : val; choices : list string }.

(** argparse takes the name of the attribute from the first long option, or from the first one. *)
Fixpoint lstrip_dashes (s : string) : string :=
  match s with String c r => if decide (c = "-"%char) then lstrip_dashes r else s | "" => "" end.
Definition dest_of (flags : list string) : string :=
  let body s := replace_all "-" "_" (lstrip_dashes s) in
  match filter (λ s, startswith s "--" = true) flags with
  | s :: _ => body s
  | [] => match flags with s :: _ => body s | [] => "" end
  end.

(** A parser: its [prog], and its arguments in the order of the calls of [add_argument]. *)
Record parser := Parser { prog : string; arguments : list argument }.
Definition option_ (flags : list string) (a : action) : argument := Argument false (dest_of flags) a VNone [].
Definition option_to (d : string) (a : action) (v : val) : argument := Argument false d a v [].
Definition positional_ (d : string) (a : action) (v : val) : argument := Argument true d a v [].

Definition on_off_argument (p : parser) (option_name : string) : parser :=
  Parser (prog p) (arguments p ++ [option_ ["--enable-" +:+ option_name] StoreTrue;
                                   option_ ["--disable-" +:+ option_name] StoreTrue]).

Definition subparser_name (prog : string) : string := strip (replace_all "ns3" "" prog).
Definition destination (prog dest : string) : string :=
  if decide (subparser_name prog = "") then dest else subparser_name prog +:+ "_" +:+ dest.
(** The sub-parsers are objects that [parsers] names; here [progs] names them. *)
Definition add_argument_to_subparsers (progs : list string) (dest : string) (a : action) (v : val)
    (ps : list parser) : list parser :=
  (λ p, if decide (prog p ∈ progs) then Parser (prog p) (arguments p ++ [option_to (destination (prog p) dest) a v])
        else p) <$> ps.

Definition on_off_options : list string :=
  ["asserts"; "des-metrics"; "build-version"; "dpdk"; "examples"; "gcov"; "gsl"; "gtk"; "logs"; "monolib";
   "mpi"; "python-bindings"; "tests"; "sanitizers"; "static"; "sudo"; "verbose"; "warnings"; "werror"].

Definition parser_configure : parser :=
  let p := Parser "ns3 configure" [
    positional_ "configure" StoreTrue (VBool false);
    Argument false "build_profile" Store VNone ["debug"; "default"; "release"; "optimized"];
    option_ ["-G"] Store; option_ ["--cxx-standard"] Store] in
  let p := foldl on_off_argument p on_off_options in
  Parser (prog p) (arguments p ++ [
    option_ ["--enable-modules"] Store; option_ ["--disable-modules"] Store;
    option_ ["--lcov-report"] StoreTrue; option_ ["--lcov-zerocounters"] StoreTrue;
    option_to "output_directory" Store VNone; option_ ["--with-brite"] Store;
    option_ ["--with-click"] Store; option_ ["--with-openflow"] Store;
    option_ ["--force-refresh"] StoreTrue; option_ ["--prefix"] Store;
    option_to "trace_cmake_perf" StoreTrue VNone]).

Definition parser_run : parser :=
  Parser "ns3 run" [
    positional_ "run" Store (VStr ""); option_to "no_build" StoreTrue (VBool false);
    option_ ["--command-template"] Store; option_ ["--cwd"] Store; option_ ["--gdb"] StoreTrue;
    option_ ["--lldb"] StoreTrue; option_ ["--valgrind"] StoreTrue; option_to "visualize" StoreTrue VNone;
    option_to "enable_sudo" StoreTrue (VBool false)].

(** Every parser before the repeated arguments are added. *)
Definition own_parsers : list parser := [
  Parser "ns3" [option_to "help" StoreTrue VNone];
  Parser "ns3 build" [positional_ "build" StoreMany VNone];
  parser_configure;
  Parser "ns3 clean" [positional_ "clean" StoreTrue (VBool false)];
  Parser "ns3 install" [positional_ "install" StoreTrue (VBool false)];
  Parser "ns3 uninstall" [positional_ "uninstall" StoreTrue (VBool false)];
  parser_run;
  Parser "ns3 shell" [positional_ "shell" StoreTrue (VBool false)];
  Parser "ns3 docs" [Argument true "docs" Store VNone
    ["manual"; "models"; "tutorial"; "contributing"; "sphinx"; "doxygen-no-build"; "doxygen"; "all"]];
  Parser "ns3 show" [Argument true "show" Store VNone ["profile"; "version"; "config"]]].

(** [max_cpu_threads = max(1, os.cpu_count() - 1)]. *)
Definition max_cpu_threads (cpu_count : Z) : Z := Z.max 1 (cpu_count - 1).

Definition all_parsers (cpu_count : Z) : list parser :=
  add_argument_to_subparsers ["ns3"; "ns3 build"; "ns3 configure"; "ns3 docs"; "ns3 run"] "verbose" StoreTrue (VBool false) $
  add_argument_to_subparsers ["ns3"; "ns3 build"; "ns3 configure"; "ns3 run"; "ns3 show"] "quiet" StoreTrue VNone $
  add_argument_to_subparsers ["ns3"; "ns3 build"; "ns3 run"] "jobs" Store (VInt (max_cpu_threads cpu_count)) $
  add_argument_to_subparsers ["ns3"; "ns3 build"; "ns3 configure"; "ns3 clean"; "ns3 docs"; "ns3 run"; "ns3 show"]
    "dry_run" StoreTrue VNone own_parsers.

(** The arguments that a run with the given sub-command can set. *)
Definition arguments_of (cpu_count : Z) (command : option string) : list argument :=
  ps ← filter (λ p, prog p = "ns3" ∨ Some (prog p) = (λ c, "ns3 " +:+ c) <$> command) (all_parsers cpu_count);
  arguments ps.
Definition commands : list string :=
  ["build"; "configure"; "clean"; "install"; "uninstall"; "run"; "shell"; "docs"; "show"].

(** ** What argparse promises *)

(** A value that the action of the argument stores. *)
Definition stored (a : argument) (v : val) : bool :=
  match act a, v with
  | StoreTrue, VBool true => true
  | Store, VStr s => bool_decide (choices a = [] ∨ s ∈ choices a)
  | StoreMany, VList _ => true
  | _, _ => false
  end.
(** A positional argument is always stored, an option only when it is given. *)
Definition fits (a : argument) (v : val) : bool :=
  stored a v || negb (positional a) && bool_decide (v = default_value a).
Definition well_formed (cpu_count : Z) (command : option string) (args : namespace) : Prop :=
  (∀ a, a ∈ arguments_of cpu_count command → ∃ v, args !! dest a = Some v ∧ fits a v = true) ∧
  (∀ k, is_Some (args !! k) → k ∈ dest <$> arguments_of cpu_count command).

Class Argparse (cpu_count : Z) := {
  (** The namespace and the arguments that no parser knows; argparse itself ends the process on an
      error, or after printing the help of a sub-command. *)
  parse_known_args : list string → py exn (namespace * list string);
  (** The text that [--help] prints. *)
  help_text : list string;
  parse_known_args_fits : ∀ argv args unknown, parse_known_args argv = Ok (args, unknown) →
    ∃ command, (∀ c, command = Some c → c ∈ commands) ∧ well_formed cpu_count command args
}.

(** ** [parse_args] *)

(** The names that [args.__dir__()] lists besides the attributes of the instance. *)
Definition class_attributes : list string :=
  ["__module__"; "__doc__"; "__init__"; "__eq__"; "__contains__"; "__dict__"; "__weakref__"; "__hash__";
   "__repr__"; "_get_kwargs"; "_get_args"; "__getattribute__"; "__setattr__"; "__delattr__"; "__lt__"; "__le__";
   "__ne__"; "__gt__"; "__ge__"; "__new__"; "__reduce_ex__"; "__reduce__"; "__subclasshook__";
   "__init_subclass__"; "__format__"; "__sizeof__"; "__dir__"; "__class__"; "__str__"].
Definition dir (args : namespace) : list string := (map_to_list args).*1 ++ class_attributes.
Definition filtered_attributes (args : namespace) : list string :=
  filter (λ x, has_sub "disable" x = false ∧ has_sub "enable" x = false) (dir args).

(** [int(v)]. *)
Definition int_of_val (v : val) : py exn Z :=
  match v with
  | VInt z => Ok z
  | VBool b => Ok (if b then 1 else 0)%Z
  | VStr s => or_raise (ValueError "invalid literal for int()") (py_int s)
  | _ => Raise TypeError
  end.

Fixpoint py_map {A B} (f : A → py exn B) (l : list A) : py exn (list B) :=
  match l with [] => Ok [] | x :: l => y ← f x; ys ← py_map f l; Ok (y :: ys) end.

(** One round of the loop for [dry_run], [verbose] and [quiet]; [names] is computed before it. *)
Definition merge_flag (names : list string) (args : namespace) (attribute : string) : py exn namespace :=
  vs ← py_map (λ x, if has_sub attribute x then getattr args x else Ok VNone) names;
  Ok (<[ attribute := VBool (existsb equals_true vs) ]> args).
Definition minimum (l : list Z) : py exn Z :=
  match l with [] => Raise (ValueError "min() arg is an empty sequence") | x :: l => Ok (foldl Z.min x l) end.
Definition merge_jobs (cpu_count : Z) (args : namespace) : py exn namespace :=
  zs ← py_map (λ x, if has_sub "jobs" x then v ← getattr args x; int_of_val v else Ok (max_cpu_threads cpu_count))
         (filtered_attributes args);
  z ← minimum zs;
  Ok (<[ "jobs" := VInt z ]> args).
Definition positionals : list string := ["clean"; "configure"; "docs"; "install"; "run"; "shell"; "uninstall"; "show"].
Definition set_missing (args : namespace) (name : string) : namespace :=
  match args !! name with Some _ => args | None => <[ name := VBool false ]> args end.
(** [if args.run and args.enable_sudo is None]. *)
Definition default_sudo (args : namespace) : py exn namespace :=
  run ← getattr args "run";
  if truthy run then
    sudo ← getattr args "enable_sudo";
    Ok (if decide (sudo = VNone) then <[ "enable_sudo" := VBool true ]> args else args)
  else Ok args.

(** The arguments after the first [--]; [None] (ValueError) when there is none. *)
Fixpoint after_separator (argv : list string) : option (list string) :=
  match argv with
  | [] => None
  | x :: l => if decide (x = "--") then Some l else after_separator l
  end.
Definition unknown_message (args : namespace) (unknown_args : list string) : string :=
  let options := join ", " unknown_args in
  "Unknown options were given: " +:+ options +:+ "." +:+ nl +:+
  "To see the allowed options add the `--help` option." +:+ nl +:+
  "To forward configuration or runtime options, put them after '--'." +:+ nl +:+
  (if truthy (default VNone (args !! "run"))
   then "Try: ./ns3 run " +:+ str_of_val (default VNone (args !! "run")) +:+ " -- " +:+ options +:+ nl else "") +:+
  (if truthy (default VNone (args !! "configure")) then "Try: ./ns3 configure -- " +:+ options +:+ nl else "").
Definition program_arguments (argv unknown_args : list string) (args : namespace) : py exn namespace :=
  let args := <[ "program_args" := VList [] ]> args in
  if decide (unknown_args = []) then Ok args
  else match after_separator argv with
       | Some l => Ok (<[ "program_args" := VList l ]> args)
       | None => Raise (Exception_ (unknown_message args unknown_args))
       end.

(** Everything that [parse_args] does to the namespace of argparse. *)
Definition complete_args (cpu_count : Z) (argv unknown_args : list string) (args : namespace) : py exn namespace :=
  args ← py_foldl (merge_flag (filtered_attributes args)) args ["dry_run"; "verbose"; "quiet"];
  args ← merge_jobs cpu_count args;
  let args := foldl set_missing args positionals in
  args ← default_sudo args;
  program_arguments argv unknown_args args.

(** The help is printed and ends the process with status 0. *)
Definition parse_args `{Argparse cpu_count} (argv : list string) : list string * py exn namespace :=
  match parse_known_args argv with
  | Raise e => ([], Raise e)
  | Ok (args, unknown_args) =>
      match getattr args "help" with
      | Raise e => ([], Raise e)
      | Ok v => if truthy v then (help_text, Raise (SystemExit 0)) else ([], complete_args cpu_count argv unknown_args args)
      end
  end.

(** ** The arguments for CMake *)

Definition on_off (condition : bool) : string := if condition then "ON" else "OFF".

Definition on_off_condition (args : namespace) (cmake_flag option_name : string) : py exn (option string) :=
  enable_option ← getattr args ("enable_" +:+ option_name);
  disable_option ← getattr args ("disable_" +:+ option_name);
  Ok (if decide (enable_option ≠ VNone ∨ disable_option ≠ VNone)
      then Some ("-DNS3_" +:+ cmake_flag +:+ "=" +:+ on_off (truthy enable_option && negb (truthy disable_option)))
      else None).

Definition cmake_options : list (string * string) :=
  [("ASSERT", "asserts"); ("COVERAGE", "gcov"); ("DES_METRICS", "des_metrics"); ("DPDK", "dpdk");
   ("ENABLE_BUILD_VERSION", "build_version"); ("ENABLE_SUDO", "sudo"); ("EXAMPLES", "examples");
   ("GSL", "gsl"); ("GTK3", "gtk"); ("LOG", "logs"); ("MONOLIB", "monolib"); ("MPI", "mpi");
   ("PYTHON_BINDINGS", "python_bindings"); ("SANITIZE", "sanitizers"); ("STATIC", "static");
   ("TESTS", "tests"); ("VERBOSE", "verbose"); ("WARNINGS", "warnings"); ("WARNINGS_AS_ERRORS", "werror")].

Definition build_type_flags (build_profile : string) : list string :=
  words (if decide (build_profile = "debug") then
           "-DCMAKE_BUILD_TYPE=debug -DNS3_ASSERT=ON -DNS3_LOG=ON -DNS3_WARNINGS_AS_ERRORS=ON"
         else if decide (build_profile = "default") then
           "-DCMAKE_BUILD_TYPE=default -DNS3_ASSERT=ON -DNS3_LOG=ON -DNS3_WARNINGS_AS_ERRORS=OFF"
         else "-DCMAKE_BUILD_TYPE=release -DNS3_ASSERT=OFF -DNS3_LOG=OFF -DNS3_WARNINGS_AS_ERRORS=OFF").

(** The defaults and flags of a project that has no cache yet; [args] is changed. *)
Definition fresh_arguments (current_cmake_generator : string) (args : namespace) : py exn (namespace * list string) :=
  profile ← getattr args "build_profile";
  let args := if decide (profile = VNone) then <[ "build_profile" := VStr "default" ]> args else args in
  g ← getattr args "G";
  let args := if decide (g = VNone) then <[ "G" := VStr current_cmake_generator ]> args else args in
  standard ← getattr args "cxx_standard";
  let standard_args := if decide (standard = VNone) then [] else ["-DCMAKE_CXX_STANDARD=" +:+ str_of_val standard] in
  profile ← getattr args "build_profile";
  match profile with
  | VStr p =>
      let p := lower p in
      let args := <[ "build_profile" := VStr p ]> args in
      if decide (p ∈ ["debug"; "default"; "release"; "optimized"]) then
        Ok (args, standard_args ++ build_type_flags p ++
                  ["-DNS3_NATIVE_OPTIMIZATIONS=" +:+ on_off (bool_decide (p = "optimized"))])
      else Raise (Exception_ "Unknown build type")
  | VNone => Ok (args, standard_args)
  | _ => Raise AttributeError
  end.

Definition option_arguments (args : namespace) : py exn (list string) :=
  flags ← py_map (λ fo, on_off_condition args fo.1 fo.2) cmake_options;
  Ok (omap (M := list) id flags).
(** [if args.X is not None: cmake_args.append(...)]. *)
Definition given (args : namespace) (name prefix : string) : py exn (list string) :=
  v ← getattr args name;
  Ok (if decide (v = VNone) then [] else [prefix +:+ str_of_val v]).
(** [if args.X: cmake_args.append(...)]. *)
Definition nonempty (args : namespace) (name prefix : string) : py exn (list string) :=
  v ← getattr args name;
  Ok (if truthy v then [prefix +:+ str_of_val v] else []).

Section cmake_args.
Context (getcwd ns3_path : string).

(** What follows the options, up to the [..] for the source directory. *)
Definition directory_arguments (args : namespace) : py exn (list string) :=
  zero ← getattr args "lcov_zerocounters";
  let zero_args := if decide (zero = VNone) then [] else ["-DNS3_COVERAGE_ZERO_COUNTERS=" +:+ on_off (truthy zero)] in
  a1 ← given args "output_directory" "-DNS3_OUTPUT_DIRECTORY=";
  a2 ← given args "with_brite" "-DNS3_WITH_BRITE=";
  a3 ← given args "with_click" "-DNS3_WITH_CLICK=";
  a4 ← given args "with_openflow" "-DNS3_WITH_OPENFLOW=";
  a5 ← given args "prefix" "-DCMAKE_INSTALL_PREFIX=";
  a6 ← nonempty args "enable_modules" "-DNS3_ENABLED_MODULES=";
  a7 ← nonempty args "disable_modules" "-DNS3_DISABLED_MODULES=";
  Ok (zero_args ++ a1 ++ a2 ++ a3 ++ a4 ++ a5 ++ a6 ++ a7).
Definition generator_arguments (args : namespace) (current_cmake_cache_folder : string) : py exn (list string) :=
  g ← getattr args "G";
  trace ← getattr args "trace_cmake_perf";
  Ok ((if truthy g then ["-G"; str_of_val g] else []) ++
      (if truthy trace
       then ["--profiling-format=google-trace";
             "--profiling-output=" +:+ Path.join (relpath getcwd ns3_path current_cmake_cache_folder) "cmake_performance_trace.log"]
       else [])).
Definition forwarded (args : namespace) : py exn (list string) :=
  v ← getattr args "program_args";
  match v with VList l => Ok l | _ => Raise TypeError end.

(** The list [cmake_args]; [configured] is the answer of [project_configured], and the folder is the
    one CMake will be run in. *)
Definition cmake_arguments (cmake : string) (args : namespace) (configured : bool)
    (current_cmake_cache_folder current_cmake_generator : string) : py exn (list string) :=
  '(args, fresh) ← (if configured then Ok (args, []) else fresh_arguments current_cmake_generator args);
  options ← option_arguments args;
  directories ← directory_arguments args;
  generator ← generator_arguments args current_cmake_cache_folder;
  extra ← forwarded args;
  Ok (cmake :: fresh ++ options ++ directories ++ generator ++ extra ++ [".."]).
End cmake_args.

(** ** The merged options *)

(** The options that are merged. *)
Definition flags : list string := ["dry_run"; "verbose"; "quiet"].

(** One case for each element of a list that is written out. *)
Ltac elem_cases H := repeat (apply elem_of_cons in H as [->|H]); [..|by apply not_elem_of_nil in H].
Ltac absent :=
  let H := fresh in intros H; unfold flags in H;
  repeat (apply elem_of_cons in H as [H|H]); [discriminate H..|by apply not_elem_of_nil in H].

Lemma getattr_ok args k v : args !! k = Some v → getattr args k = Ok v.
Proof. unfold getattr. by intros ->. Qed.
Lemma py_map_ok {A B} (f : A → py exn B) l ys : py_map f l = Ok ys ↔ Forall2 (λ x y, f x = Ok y) l ys.
Proof.
  revert ys. induction l as [|x l IH]; intros ys; cbn [py_map].
  - split; [by intros [= <-]|by inversion 1].
  - split.
    + intros H. py_inv. subst. constructor; [done|]. by apply IH.
    + inversion 1 as [|? y ? ys' Hy Hys]; subst. rewrite Hy. cbn. by rewrite (proj2 (IH ys') Hys).
Qed.
Lemma py_map_total {A B} (f : A → py exn B) l :
  (∀ x, x ∈ l → ∃ y, f x = Ok y) → ∃ ys, py_map f l = Ok ys.
Proof.
  intros Hf. enough (∃ ys, Forall2 (λ x y, f x = Ok y) l ys) as [ys Hys] by (exists ys; by apply py_map_ok).
  induction l as [|x l IH]; [by exists []|]. destruct (Hf x) as [y Hy]; [left|].
  destruct IH as [ys Hys]; [intros z Hz; apply Hf; by right|]. exists (y :: ys). by constructor.
Qed.

Lemma minimum_ok l z : minimum l = Ok z ↔ z ∈ l ∧ ∀ y, y ∈ l → (z ≤ y)%Z.
Proof.
  assert (∀ l x, (foldl Z.min x l = x ∨ foldl Z.min x l ∈ l) ∧ (foldl Z.min x l ≤ x)%Z
                 ∧ ∀ y, y ∈ l → (foldl Z.min x l ≤ y)%Z) as Hmin.
  { clear. induction l as [|y l IH]; intros x; cbn; [split; [by left|split; [lia|set_solver]]|].
    destruct (IH (Z.min x y)) as (Hin & Hle & Hall). split; [|split; [lia|]].
    - destruct Hin as [->|?]; [|set_solver]. destruct (Z.min_spec x y) as [[_ ->]|[_ ->]]; set_solver.
    - intros w [->|Hw]%elem_of_cons; [lia|auto]. }
  destruct l as [|x l]; cbn; [split; [done|set_solver]|]. destruct (Hmin l x) as (Hin & Hle & Hall).
  split.
  - intros [= <-]. split; [set_solver|]. intros y [->|?]%elem_of_cons; auto.
  - intros [Hz Hy]. f_equal. apply Z.le_antisymm.
    + apply elem_of_cons in Hz as [->|?]; auto.
    + apply Hy. set_solver.
Qed.

Definition mergeable (k : string) : bool := negb (has_sub "disable" k) && negb (has_sub "enable" k).
Lemma elem_of_filtered args k :
  k ∈ filtered_attributes args ↔ mergeable k = true ∧ (is_Some (args !! k) ∨ k ∈ class_attributes).
Proof.
  unfold filtered_attributes, dir, mergeable.
  rewrite list_elem_of_filter, elem_of_app, list_elem_of_fmap, andb_true_iff, !negb_true_iff.
  apply and_iff_compat_l. apply or_iff_compat_r. split.
  - intros ([k' v] & -> & Hv%elem_of_map_to_list). by exists v.
  - intros [v Hv]. exists (k, v). by rewrite elem_of_map_to_list.
Qed.

(** The names that the flag [f], or the number of jobs, is merged from. *)
Definition variants (command : option string) (f : string) : list string :=
  f :: match command with Some c => [c +:+ "_" +:+ f] | None => [] end.
Definition flag_argument (a : argument) : bool :=
  bool_decide (act a = StoreTrue) && bool_decide (default_value a = VNone ∨ default_value a = VBool false).

Lemma command_cases (command : option string) :
  (∀ c, command = Some c → c ∈ commands) → command ∈ None :: (Some <$> commands).
Proof. intros Hc. destruct command as [c|]; [right; apply list_elem_of_fmap_2; auto|left]. Qed.
Lemma flag_arguments cpu command f a :
  (∀ c, command = Some c → c ∈ commands) → f ∈ flags →
  a ∈ arguments_of cpu command → has_sub f (dest a) = true → mergeable (dest a) = true →
  flag_argument a = true ∧ dest a ∈ variants command f.
Proof.
  intros Hc Hf Ha Hs Hm.
  assert (∀ l, forallb (λ a, implb (has_sub f (dest a) && mergeable (dest a))
                              (flag_argument a && bool_decide (dest a ∈ variants command f))) l = true →
           a ∈ l → flag_argument a = true ∧ dest a ∈ variants command f) as Hgen.
  { clear -Hs Hm. intros l Hl Hin. rewrite forallb_forall in Hl. specialize (Hl a). rewrite Hs, Hm in Hl.
    apply list_elem_of_In in Hin. apply Hl in Hin. cbn in Hin.
    apply andb_true_iff in Hin as [? ?%bool_decide_eq_true].
    done. }
  refine (Hgen _ _ Ha). clear Hgen Ha Hs Hm a.
  pose proof (command_cases command Hc) as Hin.
  clear Hc. elem_cases Hf; elem_cases Hin; vm_compute; reflexivity.
Qed.

Lemma merge_flag_ok args0 args f :
  (∀ k, is_Some (args0 !! k) → is_Some (args !! k)) → forallb (λ k, negb (has_sub f k)) class_attributes = true →
  ∃ b, merge_flag (filtered_attributes args0) args f = Ok (<[ f := VBool b ]> args) ∧
    (b = true ↔ ∃ k, mergeable k = true ∧ is_Some (args0 !! k) ∧ has_sub f k = true ∧
                     ∃ v, args !! k = Some v ∧ equals_true v = true).
Proof.
  intros Hdom Hclass. rewrite forallb_forall in Hclass. unfold merge_flag.
  destruct (py_map_total (λ x, if has_sub f x then getattr args x else Ok VNone) (filtered_attributes args0)) as [vs Hvs].
  { intros x [_ [Hx|Hx]]%elem_of_filtered.
    - destruct (has_sub f x); [|by eexists]. destruct (Hdom x Hx) as [v Hv]. exists v. unfold getattr. by rewrite Hv.
    - apply list_elem_of_In, Hclass in Hx. apply negb_true_iff in Hx. rewrite Hx. by eexists. }
  rewrite Hvs. eexists. split; [reflexivity|]. apply py_map_ok in Hvs. rewrite existsb_exists. split.
  - intros (v & Hin & Hv). apply list_elem_of_In, list_elem_of_lookup in Hin as [i Hi].
    destruct (Forall2_lookup_r _ _ _ _ _ Hvs Hi) as (x & Hx & Hxv).
    apply list_elem_of_lookup_2, elem_of_filtered in Hx as [Hm Hx].
    destruct (has_sub f x) eqn:Hs; [|injection Hxv as <-; done]. exists x. split; [done|].
    destruct Hx as [Hx|Hx]; [|by apply list_elem_of_In, Hclass in Hx; rewrite Hs in Hx].
    split; [done|]. split; [done|]. exists v. unfold getattr in Hxv. destruct (args !! x); [|done]. cbn in Hxv.
    by injection Hxv as ->.
  - intros (k & Hm & Hk & Hs & v & Hv & Ht).
    assert (k ∈ filtered_attributes args0) as [i Hi]%list_elem_of_lookup by (apply elem_of_filtered; auto).
    destruct (Forall2_lookup_l _ _ _ _ _ Hvs Hi) as (y & Hy & Hky). rewrite Hs in Hky. unfold getattr in Hky.
    rewrite Hv in Hky. injection Hky as <-. exists v. split; [|done]. apply list_elem_of_In.
    by eapply list_elem_of_lookup_2.
Qed.

(** The flag was given before or after the name of the sub-command. *)
Definition flag_given (command : option string) (args : namespace) (f : string) : Prop :=
  ∃ k, k ∈ variants command f ∧ args !! k = Some (VBool true).

Lemma variant_mergeable command f k :
  (∀ c, command = Some c → c ∈ commands) → f ∈ "jobs" :: flags → k ∈ variants command f → mergeable k = true ∧ has_sub f k = true.
Proof.
  intros Hcommand Hf Hk. split.
  - pose proof (command_cases command Hcommand) as Hin.
    clear -Hf Hk Hin. enough (forallb mergeable (variants command f) = true) as Hall.
    { rewrite forallb_forall in Hall. by apply Hall, list_elem_of_In. }
    clear Hk. elem_cases Hf; elem_cases Hin; vm_compute; reflexivity.
  - apply has_sub_spec. unfold variants in Hk. apply elem_of_cons in Hk as [->|Hk].
    + exists "", "". by rewrite string_app_nil_r.
    + destruct command as [c|]; [|by apply not_elem_of_nil in Hk]. apply list_elem_of_singleton in Hk as ->.
      exists (c +:+ "_"), "". rewrite string_app_nil_r. by rewrite string_app_assoc.
Qed.

Section merged.
Context (cpu_count : Z) (command : option string) (args : namespace).
Context (Hcommand : ∀ c, command = Some c → c ∈ commands) (Hargs : well_formed cpu_count command args).

Lemma flag_given_iff f (args' : namespace) :
  f ∈ flags → (∀ k, has_sub f k = true → args' !! k = args !! k) →
  flag_given command args f ↔ ∃ k, mergeable k = true ∧ is_Some (args !! k) ∧ has_sub f k = true ∧
                                ∃ v, args' !! k = Some v ∧ equals_true v = true.
Proof.
  intros Hf Hsame. split.
  - intros (k & Hk & Hv). destruct (variant_mergeable command f k) as [Hm Hs]; [done|by right|done|]. exists k.
    rewrite Hsame, Hv by done.
    split_and!; eauto.
  - intros (k & Hm & Hk & Hs & v & Hv & Ht). rewrite Hsame in Hv by done. destruct Hargs as [Hfit Hdest].
    apply Hdest, list_elem_of_fmap in Hk as (a & -> & Ha).
    destruct (flag_arguments _ _ f a Hcommand Hf Ha Hs Hm) as [Hflag Hvar]. exists (dest a). split; [done|].
    destruct (Hfit a Ha) as (v' & Hv' & Hfits). rewrite Hv in Hv'. injection Hv' as <-. rewrite Hv.
    unfold flag_argument in Hflag.
    apply andb_true_iff in Hflag as [Hact%bool_decide_eq_true Hdef%bool_decide_eq_true].
    unfold fits, stored in Hfits. rewrite Hact in Hfits. unfold equals_true in Ht.
    apply bool_decide_eq_true in Ht as [->| ->]; [done|].
    cbn in Hfits. apply andb_true_iff in Hfits as [_ Hd%bool_decide_eq_true]. destruct Hdef; congruence.
Qed.

Lemma merge_flags_ok :
  ∃ d v q, py_foldl (merge_flag (filtered_attributes args)) args flags =
      Ok (<[ "quiet" := VBool q ]> (<[ "verbose" := VBool v ]> (<[ "dry_run" := VBool d ]> args))) ∧
    (d = true ↔ flag_given command args "dry_run") ∧ (v = true ↔ flag_given command args "verbose") ∧
    (q = true ↔ flag_given command args "quiet").
Proof.
  assert (∀ k f b (m : namespace), is_Some (m !! k) → is_Some (<[ f := VBool b ]> m !! k)) as Hins.
  { intros k f b m Hk. destruct (decide (f = k)) as [->|?]; [rewrite lookup_insert_eq;
      eauto|by rewrite lookup_insert_ne]. }
  destruct (merge_flag_ok args args "dry_run") as (d & Hd & Hd'); [done|reflexivity|].
  destruct (merge_flag_ok args (<[ "dry_run" := VBool d ]> args) "verbose") as (v & Hv & Hv'); [auto|reflexivity|].
  destruct (merge_flag_ok args (<[ "verbose" := VBool v ]> (<[ "dry_run" := VBool d ]> args)) "quiet") as (q & Hq & Hq');
    [auto|reflexivity|].
  exists d, v, q. unfold flags. cbn [py_foldl]. rewrite Hd. cbn [mbind py_bind]. rewrite Hv.
  cbn [mbind py_bind]. rewrite Hq.
  split; [reflexivity|]. rewrite Hd', Hv', Hq'.
  clear Hd Hv Hq Hd' Hv' Hq'. split; [|split]; symmetry; apply flag_given_iff.
  - left.
  - reflexivity.
  - right; left.
  - intros k Hk. rewrite lookup_insert_ne; [reflexivity|]. intros <-. discriminate Hk.
  - right; right; left.
  - intros k Hk. rewrite !lookup_insert_ne; [reflexivity|..]; intros <-; discriminate Hk.
Qed.
End merged.

Lemma py_map_raise {A B} (f : A → py exn B) l e : py_map f l = Raise e → ∃ x, x ∈ l ∧ f x = Raise e.
Proof.
  induction l as [|x l IH]; cbn [py_map]; [done|]. destruct (f x) eqn:Ex; cbn.
  - destruct (py_map f l); cbn; [done|]. intros [= ->]. destruct IH as (y & Hy & ?); [done|]. exists y.
    split; [by right|done].
  - intros [= ->]. exists x. split; [left|done].
Qed.

Definition number_argument (a : argument) : bool :=
  bool_decide (act a = Store) && match default_value a with VInt _ => true | _ => false end.
Lemma jobs_arguments cpu command a :
  (∀ c, command = Some c → c ∈ commands) → a ∈ arguments_of cpu command → has_sub "jobs" (dest a) = true →
  number_argument a = true ∧ dest a ∈ variants command "jobs".
Proof.
  intros Hc Ha Hs.
  assert (∀ l, forallb (λ a, implb (has_sub "jobs" (dest a))
                              (number_argument a && bool_decide (dest a ∈ variants command "jobs"))) l = true →
           a ∈ l → number_argument a = true ∧ dest a ∈ variants command "jobs") as Hgen.
  { clear -Hs. intros l Hl Hin. rewrite forallb_forall in Hl. specialize (Hl a). rewrite Hs in Hl.
    apply list_elem_of_In in Hin. apply Hl in Hin. cbn in Hin.
    by apply andb_true_iff in Hin as [? ?%bool_decide_eq_true]. }
  refine (Hgen _ _ Ha). clear Hgen Ha Hs a. pose proof (command_cases command Hc) as Hin. clear Hc.
  elem_cases Hin; vm_compute; reflexivity.
Qed.

(** [z] is the smallest of the numbers given and of the number of threads. *)
Definition jobs_merged (cpu_count : Z) (command : option string) (args : namespace) (z : Z) : Prop :=
  (z ≤ max_cpu_threads cpu_count)%Z ∧
  (∀ k v, k ∈ variants command "jobs" → args !! k = Some v → ∃ n, int_of_val v = Ok n ∧ (z ≤ n)%Z) ∧
  (z = max_cpu_threads cpu_count ∨ ∃ k v, k ∈ variants command "jobs" ∧ args !! k = Some v ∧ int_of_val v = Ok z).
Definition bad_jobs (command : option string) (args : namespace) : Prop :=
  ∃ k s, k ∈ variants command "jobs" ∧ args !! k = Some (VStr s) ∧ py_int s = None.

Section merged_jobs.
Context (cpu_count : Z) (command : option string) (args args1 : namespace).
Context (Hcommand : ∀ c, command = Some c → c ∈ commands) (Hargs : well_formed cpu_count command args).
Context (Hsame : ∀ k, k ∉ flags → args1 !! k = args !! k).

Lemma same_jobs k : has_sub "jobs" k = true → args1 !! k = args !! k.
Proof.
  intros Hk. apply Hsame. intros Hin. unfold flags in Hin. elem_cases Hin; discriminate Hk.
Qed.

(** A value of an attribute whose name contains [jobs]. *)
Lemma jobs_value k v :
  has_sub "jobs" k = true → args !! k = Some v →
  k ∈ variants command "jobs" ∧ ((∃ n, int_of_val v = Ok n) ∨ ∃ s, v = VStr s ∧ py_int s = None).
Proof.
  intros Hs Hv. destruct Hargs as [Hfit Hdest].
  assert (k ∈ dest <$> arguments_of cpu_count command) as (a & -> & Ha)%list_elem_of_fmap by (apply Hdest; eauto).
  destruct (jobs_arguments cpu_count command a Hcommand Ha Hs) as [Hn Hin]. split; [exact Hin|].
  destruct (Hfit a Ha) as (v' & Hv' & Hf). rewrite Hv in Hv'. injection Hv' as <-.
  apply andb_true_iff in Hn as [Hact%bool_decide_eq_true Hdef]. unfold fits, stored in Hf. rewrite Hact in Hf.
  destruct v as [| | |s|]; cbn in Hf.
  4: { unfold int_of_val. destruct (py_int s) eqn:E; [left; by eexists|right; by exists s]. }
  all: try (left; by eexists).
  all: apply andb_true_iff in Hf as [_ Hf%bool_decide_eq_true]; rewrite <-Hf in Hdef; discriminate Hdef.
Qed.

Lemma merge_jobs_spec :
  (∃ z, merge_jobs cpu_count args1 = Ok (<[ "jobs" := VInt z ]> args1) ∧ jobs_merged cpu_count command args z) ∨
  (∃ msg, merge_jobs cpu_count args1 = Raise (ValueError msg) ∧ bad_jobs command args).
Proof.
  unfold merge_jobs. set (f := λ x, if has_sub "jobs" x then _ else _).
  assert (∀ x z, x ∈ filtered_attributes args1 → f x = Ok z →
            z = max_cpu_threads cpu_count ∨ ∃ v, x ∈ variants command "jobs" ∧ args !! x = Some v ∧ int_of_val v = Ok z) as Hf.
  { intros x z Hx. unfold f. destruct (has_sub "jobs" x) eqn:Hs; [|intros [= <-]; by left]. unfold getattr.
    rewrite same_jobs by exact Hs. destruct (args !! x) as [v|] eqn:Hv; [|discriminate]. cbn. intros Hz. right.
    exists v. split; [|split; [reflexivity|exact Hz]]. by destruct (jobs_value x v Hs Hv). }
  destruct (py_map f (filtered_attributes args1)) as [zs|e] eqn:Hzs; cbn [mbind py_bind].
  - left. apply py_map_ok in Hzs.
    assert (max_cpu_threads cpu_count ∈ zs) as Hmax.
    { assert ("__init__" ∈ filtered_attributes args1) as [i Hi]%list_elem_of_lookup.
      { apply elem_of_filtered. split; [reflexivity|]. right. right; right; left. }
      destruct (Forall2_lookup_l _ _ _ _ _ Hzs Hi) as (y & Hy & Hfy).
      injection Hfy as <-. by eapply list_elem_of_lookup_2. }
    destruct (minimum zs) as [z|e] eqn:Hz; [|destruct zs; [by apply not_elem_of_nil in Hmax|discriminate Hz]].
    apply minimum_ok in Hz as [Hin Hle]. exists z. split; [reflexivity|]. split; [by apply Hle|]. split.
    + intros k v Hk Hv. destruct (variant_mergeable command "jobs" k Hcommand) as [Hm Hs]; [left|exact Hk|].
      assert (k ∈ filtered_attributes args1) as [i Hi]%list_elem_of_lookup.
      { apply elem_of_filtered. split; [exact Hm|]. left. rewrite same_jobs, Hv by exact Hs. by eexists. }
      destruct (Forall2_lookup_l _ _ _ _ _ Hzs Hi) as (y & Hy & Hfy). unfold f in Hfy. rewrite Hs in Hfy.
      unfold getattr in Hfy. rewrite same_jobs, Hv in Hfy by exact Hs. exists y. split; [exact Hfy|].
      apply Hle. by eapply list_elem_of_lookup_2.
    + apply list_elem_of_lookup in Hin as [i Hi]. destruct (Forall2_lookup_r _ _ _ _ _ Hzs Hi) as (x & Hx & Hfx).
      destruct (Hf x z) as [?|(v & ? & ? & ?)]; [by eapply list_elem_of_lookup_2|exact Hfx|by left|]. right.
      by exists x, v.
  - right. apply py_map_raise in Hzs as (x & Hx & Hfx). unfold f in Hfx.
    destruct (has_sub "jobs" x) eqn:Hs; [|discriminate].
    unfold getattr in Hfx. apply elem_of_filtered in Hx as [_ Hx].
    destruct (args1 !! x) as [v|] eqn:Hv.
    + rewrite same_jobs in Hv by exact Hs. destruct (jobs_value x v Hs Hv) as [Hin [[n Hn]|(s & -> & Hn)]].
      * cbn in Hfx. rewrite Hn in Hfx. discriminate Hfx.
      * cbn in Hfx. rewrite Hn in Hfx. injection Hfx as <-. eexists. split; [reflexivity|]. by exists x, s.
    + destruct Hx as [[? Hx]|Hx]; [discriminate Hx|]. exfalso. clear -Hx Hs.
      unfold class_attributes in Hx. elem_cases Hx; discriminate Hs.
Qed.
End merged_jobs.

Lemma set_missing_lookup l args k :
  foldl set_missing args l !! k = match args !! k with
                                  | Some v => Some v
                                  | None => if decide (k ∈ l) then Some (VBool false) else None
                                  end.
Proof.
  revert args. induction l as [|x l IH]; intros args; cbn [foldl]; [by destruct (args !! k)|].
  rewrite IH. unfold set_missing. destruct (args !! x) as [v|] eqn:Hx.
  - destruct (args !! k) eqn:Hk; [done|]. assert (k ≠ x) by congruence.
    destruct (decide (k ∈ l)); [rewrite decide_True by set_solver|rewrite decide_False by set_solver]; done.
  - destruct (decide (k = x)) as [->|Hne]; [rewrite lookup_insert_eq, Hx, decide_True by set_solver; done|].
    rewrite lookup_insert_ne by done. destruct (args !! k); [done|].
    destruct (decide (k ∈ l)); [rewrite decide_True by set_solver|rewrite decide_False by set_solver]; done.
Qed.

(** Only the sub-command [run] has an attribute of that name, and then [enable_sudo] is not None: the
    branch that would set it to True is never taken. *)
Lemma default_sudo_id cpu_count command (args m : namespace) :
  (∀ c, command = Some c → c ∈ commands) → well_formed cpu_count command args →
  (∀ v, m !! "run" = Some v → truthy v = true → args !! "run" = Some v) → is_Some (m !! "run") →
  m !! "enable_sudo" = args !! "enable_sudo" → default_sudo m = Ok m.
Proof.
  intros Hc [Hfit Hdest] Hrun [v Hv] Hsudo. unfold default_sudo, getattr. rewrite Hv. cbn [or_raise mbind py_bind].
  destruct (truthy v) eqn:Ht; [|done]. specialize (Hrun v Hv Ht).
  assert (command = Some "run") as ->.
  { pose proof (command_cases command Hc) as Hin.
    assert ("run" ∈ dest <$> arguments_of cpu_count command) as Hd by (apply Hdest; eauto).
    clear -Hin Hd. assert (bool_decide ("run" ∈ dest <$> arguments_of cpu_count command) = true) as Hb by by apply bool_decide_eq_true.
    clear Hd. elem_cases Hin; first [reflexivity|vm_compute in Hb; discriminate Hb]. }
  destruct (Hfit (option_to "enable_sudo" StoreTrue (VBool false))) as (s & Hs & Hf).
  { apply list_elem_of_lookup_2 with 13. vm_compute. reflexivity. }
  cbn in Hs. rewrite Hsudo, Hs. cbn [or_raise mbind py_bind]. rewrite decide_False; [done|]. intros ->.
  discriminate Hf.
Qed.

(** What [parse_args] makes of the namespace [args] of argparse. *)
Record completed (cpu_count : Z) (command : option string) (argv unknown_args : list string) (args m : namespace) : Prop := {
  completed_flags : ∀ f, f ∈ flags → ∃ b, m !! f = Some (VBool b) ∧ (b = true ↔ flag_given command args f);
  completed_jobs : ∃ z, m !! "jobs" = Some (VInt z) ∧ jobs_merged cpu_count command args z;
  completed_program_args : m !! "program_args" =
    Some (VList (if decide (unknown_args = []) then [] else default [] (after_separator argv)));
  completed_positionals : ∀ k, k ∈ positionals →
    m !! k = Some (default (VBool false) (args !! k));
  completed_others : ∀ k v, k ∉ "jobs" :: "program_args" :: flags → args !! k = Some v → m !! k = Some v;
  completed_new : ∀ k, is_Some (m !! k) → is_Some (args !! k) ∨ k ∈ "jobs" :: "program_args" :: flags ∨
    k ∈ positionals
}.

Lemma after_separator_None argv : after_separator argv = None ↔ "--" ∉ argv.
Proof. induction argv as [|x l IH]; cbn; [set_solver|]. case_decide; [subst; set_solver|rewrite IH; set_solver]. Qed.

(** The namespace before [program_args] is set. *)
Definition merged (args : namespace) (d v q : bool) (z : Z) : namespace :=
  foldl set_missing (<[ "jobs" := VInt z ]>
    (<[ "quiet" := VBool q ]> (<[ "verbose" := VBool v ]> (<[ "dry_run" := VBool d ]> args)))) positionals.

Lemma merged_lookup args d v q z k :
  k ∉ "jobs" :: flags →
  merged args d v q z !! k = match args !! k with
                             | Some v => Some v
                             | None => if decide (k ∈ positionals) then Some (VBool false) else None
                             end.
Proof.
  intros Hk. unfold merged.
  rewrite set_missing_lookup, !lookup_insert_ne; [done|..]; intros <-; apply Hk; unfold flags.
  all: first [left|right; left|right; right; left|right; right; right; left].
Qed.
Lemma merged_flags args d v q z :
  merged args d v q z !! "dry_run" = Some (VBool d) ∧ merged args d v q z !! "verbose" = Some (VBool v) ∧
  merged args d v q z !! "quiet" = Some (VBool q) ∧ merged args d v q z !! "jobs" = Some (VInt z).
Proof. unfold merged. rewrite !set_missing_lookup. by simplify_map_eq. Qed.

Lemma completed_intro cpu_count command argv unknown_args args d v q z l :
  (d = true ↔ flag_given command args "dry_run") → (v = true ↔ flag_given command args "verbose") →
  (q = true ↔ flag_given command args "quiet") → jobs_merged cpu_count command args z →
  l = (if decide (unknown_args = []) then [] else default [] (after_separator argv)) →
  completed cpu_count command argv unknown_args args (<[ "program_args" := VList l ]> (merged args d v q z)).
Proof.
  intros Hd Hv Hq Hz Hl. destruct (merged_flags args d v q z) as (Ed & Ev & Eq & Ez). constructor.
  - intros f Hf. unfold flags in Hf. elem_cases Hf; rewrite lookup_insert_ne by done; eexists; eauto.
  - exists z. by rewrite lookup_insert_ne.
  - by rewrite lookup_insert_eq, Hl.
  - intros k Hk. rewrite lookup_insert_ne by (intros <-; revert Hk; absent).
    rewrite merged_lookup, (decide_True (P := k ∈ positionals)) by (exact Hk || (unfold positionals in Hk;
      elem_cases Hk; absent)).
    by destruct (args !! k).
  - intros k u Hk Hu. rewrite lookup_insert_ne by (intros <-; apply Hk; right; left).
    rewrite merged_lookup, Hu; [done|]. intros Hin. apply Hk.
    apply elem_of_cons in Hin as [->|?]; [left|by right; right].
  - intros k [u Hu]. destruct (decide (k ∈ "jobs" :: "program_args" :: flags)) as [?|Hk]; [by right; left|].
    rewrite lookup_insert_ne in Hu by (intros <-; apply Hk; right; left).
    rewrite merged_lookup in Hu by (intros Hin; apply Hk; apply elem_of_cons in Hin as [->|?]; [left|by right;
      right]).
    destruct (args !! k); [by left; eexists|]. destruct (decide (k ∈ positionals)); [by right; right|discriminate Hu].
Qed.

Lemma complete_args_ok cpu_count command argv unknown_args args :
  (∀ c, command = Some c → c ∈ commands) → well_formed cpu_count command args →
  match complete_args cpu_count argv unknown_args args with
  | Ok m => completed cpu_count command argv unknown_args args m
  | Raise (ValueError _) => bad_jobs command args
  | Raise (Exception_ _) => unknown_args ≠ [] ∧ "--" ∉ argv
  | Raise _ => False
  end.
Proof.
  intros Hc Hargs. unfold complete_args.
  destruct (merge_flags_ok cpu_count command args Hc Hargs) as (d & v & q & Hmerge & Hd & Hv & Hq).
  unfold flags in Hmerge. rewrite Hmerge. clear Hmerge. cbn [mbind py_bind].
  destruct (merge_jobs_spec cpu_count command args (<[ "quiet" := VBool q ]> (<[ "verbose" := VBool v ]> (<[ "dry_run" := VBool d ]> args))) Hc Hargs)
    as [(z & -> & Hz)|(msg & -> & Hbad)]; [|cbn [mbind py_bind]|exact Hbad].
  { intros k Hk. rewrite !lookup_insert_ne; [done|..]; intros <-; apply Hk; unfold flags; [left|right;
      left|right; right; left]. }
  fold (merged args d v q z).
  assert ("run" ∉ "jobs" :: flags) as Hrun by absent. assert ("enable_sudo" ∉ "jobs" :: flags) as Hsudo by absent.
  rewrite (default_sudo_id cpu_count command args (merged args d v q z) Hc Hargs);
    rewrite ?merged_lookup by assumption.
  2: { intros u. destruct (args !! "run"); [done|]. cbn. intros [= <-]. discriminate. }
  2: { destruct (args !! "run"); by eexists. }
  2: { by destruct (args !! "enable_sudo"). }
  cbn [mbind py_bind]. unfold program_arguments. destruct (decide (unknown_args = [])) as [->|Hne].
  - by apply completed_intro.
  - destruct (after_separator argv) as [l|] eqn:El.
    + rewrite insert_insert_eq. apply completed_intro; try done. by rewrite decide_False, El.
    + split; [exact Hne|]. by apply after_separator_None.
Qed.

Lemma help_value cpu_count command args :
  well_formed cpu_count command args → ∃ v, args !! "help" = Some v ∧ (v = VNone ∨ v = VBool true).
Proof.
  intros [Hfit _]. destruct (Hfit (option_to "help" StoreTrue VNone)) as (v & Hv & Hf).
  - unfold arguments_of. apply list_elem_of_bind. exists (default (Parser "" []) (all_parsers cpu_count !! 0)).
    split; [left|]. apply list_elem_of_filter. split; [by left|]. by apply list_elem_of_lookup_2 with 0.
  - exists v. split; [exact Hv|]. unfold fits in Hf. apply orb_true_iff in Hf as [Hf|Hf].
    + destruct v as [|[]| | |]; try discriminate Hf. by right.
    + cbn in Hf. apply bool_decide_eq_true in Hf. by left.
Qed.

(** C35: [parse_args], when it returns, has [dry_run], [verbose] and [quiet] set exactly when the flag
    was given before or after the name of the sub-command; [jobs] is the smallest of the numbers given
    and of the threads, so a larger number has no effect; [program_args] is what follows [--];
    everything else is as argparse left it, and the missing sub-commands are False.  It raises only for
    a number of jobs that is not one, or for unknown options without [--]. *)
Theorem parse_args_spec `{Argparse cpu_count} (argv unknown_args : list string) (args : namespace) :
  parse_known_args argv = Ok (args, unknown_args) → args !! "help" ≠ Some (VBool true) →
  ∃ command, well_formed cpu_count command args ∧
    match parse_args argv with
    | (out, Ok m) => out = [] ∧ completed cpu_count command argv unknown_args args m
    | (_, Raise (ValueError _)) => bad_jobs command args
    | (_, Raise (Exception_ _)) => unknown_args ≠ [] ∧ "--" ∉ argv
    | (_, Raise _) => False
    end.
Proof.
  intros Hp Hhelp. destruct (parse_known_args_fits _ _ _ Hp) as (command & Hc & Hargs). exists command.
  split; [done|].
  unfold parse_args. rewrite Hp.
  destruct (help_value cpu_count command args Hargs) as (v & Hv & Hd). unfold getattr. rewrite Hv. cbn [or_raise].
  destruct Hd as [->| ->]; [|done]. cbn [truthy].
  pose proof (complete_args_ok cpu_count command argv unknown_args args Hc Hargs) as Hok.
  destruct (complete_args cpu_count argv unknown_args args) as [m|[]]; [by split|exact Hok..].
Qed.

(** A namespace that has the given values and the defaults for the rest. *)
Definition namespace_of (cpu_count : Z) (command : option string) (values : list (string * val)) : namespace :=
  list_to_map (values ++ ((λ a, (dest a, default_value a)) <$> arguments_of cpu_count command)).
Definition well_formedb (cpu_count : Z) (command : option string) (args : namespace) : bool :=
  forallb (λ a, match args !! dest a with Some v => fits a v | None => false end) (arguments_of cpu_count command) &&
  forallb (λ k, bool_decide (k ∈ dest <$> arguments_of cpu_count command)) (map_to_list args).*1.
Lemma well_formedb_ok cpu_count command args : well_formedb cpu_count command args = true → well_formed cpu_count command args.
Proof.
  unfold well_formedb. rewrite andb_true_iff, !forallb_forall. intros [H1 H2]. split.
  - intros a Ha. apply list_elem_of_In, H1 in Ha. destruct (args !! dest a) as [v|]; [by exists v|done].
  - intros k [v Hv]. apply (bool_decide_eq_true_1 _), H2, list_elem_of_In, list_elem_of_fmap. exists (k, v).
    by rewrite elem_of_map_to_list.
Qed.

(** An argparse that knows the command lines of a table: sub-command, values, unknown arguments. *)
Abbreviation cli_table := (list (list string * (option string * list (string * val) * list string))).
Definition table_parse (cpu_count : Z) (table : cli_table) (argv : list string) : py exn (namespace * list string) :=
  match find (λ e, bool_decide (e.1 = argv)) table with
  | Some e => Ok (namespace_of cpu_count e.2.1.1 e.2.1.2, e.2.2)
  | None => Raise (SystemExit 2)
  end.
Definition table_ok (cpu_count : Z) (table : cli_table) : bool :=
  forallb (λ e, bool_decide (e.2.1.1 ∈ None :: (Some <$> commands)) &&
                well_formedb cpu_count e.2.1.1 (namespace_of cpu_count e.2.1.1 e.2.1.2)) table.
Lemma table_parse_fits cpu_count table : table_ok cpu_count table = true → ∀ argv args unknown,
  table_parse cpu_count table argv = Ok (args, unknown) →
  ∃ command, (∀ c, command = Some c → c ∈ commands) ∧ well_formed cpu_count command args.
Proof.
  unfold table_ok, table_parse. rewrite forallb_forall. intros Ht argv args unknown.
  destruct (find _ table) as [e|] eqn:He; [|done]. intros [= <- <-]. apply find_some in He as [He _].
  apply Ht, andb_true_iff in He as [Hc%bool_decide_eq_true Hw]. exists e.2.1.1. split; [|by apply well_formedb_ok].
  intros c Ec. rewrite Ec in Hc. apply elem_of_cons in Hc as [[=]|Hc].
  apply list_elem_of_fmap in Hc as (c' & [= ->] & ?). done.
Qed.
Definition table_argparse (cpu_count : Z) (table : cli_table) (Ht : table_ok cpu_count table = true) : Argparse cpu_count :=
  {| parse_known_args := table_parse cpu_count table; help_text := ["usage: ns3"];
     parse_known_args_fits := table_parse_fits cpu_count table Ht |}.

Definition demo_argparse : Argparse 8 := table_argparse 8
  [(["--dry-run"; "build"; "-j"; "64"], (Some "build", [("dry_run", VBool true); ("build", VList []); ("build_jobs", VStr "64")], []))]
  eq_refl.
(** [-j 64] on a machine with 8 processors gives 7 jobs. *)
Definition demo_namespace : namespace :=
  namespace_of 8 (Some "build") [("dry_run", VBool true); ("build", VList []); ("build_jobs", VStr "64")].
Lemma parse_args_spec_witness :
  ((λ m : namespace, (m !! "dry_run", m !! "jobs")) <$> (@parse_args 8 demo_argparse ["--dry-run"; "build"; "-j"; "64"]).2) =
    Ok (Some (VBool true), Some (VInt 7)) ∧
  ∃ command, well_formed 8 command demo_namespace.
Proof.
  split; [vm_compute; reflexivity|].
  destruct (@parse_args_spec 8 demo_argparse ["--dry-run"; "build"; "-j";
    "64"] [] demo_namespace) as (command & Hw & _).
  - reflexivity.
  - vm_compute. discriminate.
  - exists command. exact Hw.
Defined.

(** ** The definitions that CMake receives *)

(** CMake reads [-Dname=value]; the argument after [-G] is the generator; a later definition of the
    same name replaces an earlier one. *)
Fixpoint definitions (argv : list string) : list (string * string) :=
  match argv with
  | [] => []
  | x :: l =>
      if decide (x = "-G") then match l with [] => [] | _ :: l => definitions l end
      else match strip_prefix "-D" x ≫= split_once "=" with
           | Some kv => kv :: definitions l
           | None => definitions l
           end
  end.
Definition defined_as (name : string) (argv : list string) : option string :=
  last ((filter (λ kv, kv.1 = name) (definitions argv)).*2).

(** What the user asked for: disabling wins over enabling. *)
Definition chosen (args : namespace) (option_name : string) : option bool :=
  match args !! ("enable_" +:+ option_name), args !! ("disable_" +:+ option_name) with
  | Some VNone, Some VNone => None
  | Some e, Some d => Some (truthy e && negb (truthy d))
  | _, _ => None
  end.
Definition profile_default (profile cmake_flag : string) : option bool :=
  if decide (cmake_flag ∈ ["ASSERT"; "LOG"]) then Some (bool_decide (profile ∈ ["debug"; "default"]))
  else if decide (cmake_flag = "WARNINGS_AS_ERRORS") then Some (bool_decide (profile = "debug")) else None.

Lemma definitions_app l1 l2 : "-G" ∉ l1 → definitions (l1 ++ l2) = definitions l1 ++ definitions l2.
Proof.
  induction l1 as [|x l1 IH]; intros Hg; [done|]. cbn [app definitions]. rewrite !decide_False by set_solver.
  rewrite IH by set_solver. by destruct (_ ≫= _).
Qed.
Lemma definitions_flag name v l :
  has_char "=" name = false → definitions (("-D" +:+ name +:+ "=" +:+ v) :: l) = (name, v) :: definitions l.
Proof.
  intros Hn. cbn [definitions]. rewrite decide_False by (by destruct name). rewrite strip_prefix_app.
  cbn [mbind option_bind].
  enough (split_once "=" (name +:+ "=" +:+ v) = Some (name, v)) as -> by done. by apply split_once_Some.
Qed.

Section configure.
Context (cpu_count : Z) (argv unknown_args : list string) (args0 args : namespace).
Context (Hargs0 : well_formed cpu_count (Some "configure") args0).
Context (Hargs : completed cpu_count (Some "configure") argv unknown_args args0 args).

Definition flag_option (a : argument) : bool :=
  bool_decide (act a = StoreTrue) && bool_decide (default_value a = VNone) && negb (positional a).
Definition text_option (cs : list string) (a : argument) : bool :=
  bool_decide (act a = Store) && bool_decide (default_value a = VNone) && negb (positional a) && bool_decide (choices a = cs).
Definition declares (d : string) (t : argument → bool) : bool :=
  existsb (λ a, bool_decide (dest a = d) && t a) (arguments_of cpu_count (Some "configure")) &&
  bool_decide (d ∉ "jobs" :: "program_args" :: flags).

Lemma attribute d t : declares d t = true → ∃ a v, t a = true ∧ args !! d = Some v ∧ fits a v = true.
Proof.
  unfold declares. rewrite andb_true_iff, existsb_exists.
  intros [(a & Ha & [<-%bool_decide_eq_true Ht]%andb_true_iff) Hd%bool_decide_eq_true].
  destruct (proj1 Hargs0 a) as (v & Hv & Hf); [by apply list_elem_of_In|]. exists a, v.
  split; [exact Ht|]. split; [|exact Hf]. by apply (completed_others _ _ _ _ _ _ Hargs).
Qed.
Lemma flag_attribute d : declares d flag_option = true → ∃ v, args !! d = Some v ∧ (v = VNone ∨ v = VBool true).
Proof.
  intros (a & v & Ht & Hv & Hf)%attribute. exists v. split; [exact Hv|]. unfold flag_option in Ht.
  rewrite !andb_true_iff in Ht. destruct Ht as [[Hact%bool_decide_eq_true Hdef%bool_decide_eq_true] _].
  unfold fits, stored in Hf. rewrite Hact in Hf. apply orb_true_iff in Hf as [Hf|Hf].
  - destruct v as [|[]| | |]; try discriminate Hf. by right.
  - apply andb_true_iff in Hf as [_ Hf%bool_decide_eq_true]. left. congruence.
Qed.
Lemma text_attribute d cs : declares d (text_option cs) = true →
  ∃ v, args !! d = Some v ∧ (v = VNone ∨ ∃ s, v = VStr s ∧ (cs = [] ∨ s ∈ cs)).
Proof.
  intros (a & v & Ht & Hv & Hf)%attribute. exists v. split; [exact Hv|]. unfold text_option in Ht.
  rewrite !andb_true_iff in Ht.
  destruct Ht as [[[Hact%bool_decide_eq_true Hdef%bool_decide_eq_true] _] Hcs%bool_decide_eq_true].
  unfold fits, stored in Hf. rewrite Hact in Hf. apply orb_true_iff in Hf as [Hf|Hf].
  - destruct v as [| | |s|]; try discriminate Hf. apply bool_decide_eq_true in Hf. right. exists s. by rewrite <-Hcs.
  - apply andb_true_iff in Hf as [_ Hf%bool_decide_eq_true]. left. congruence.
Qed.
End configure.

(** The attributes that [configure_cmake] reads. *)
Definition flag_names : list string :=
  "lcov_zerocounters" :: "trace_cmake_perf" :: "force_refresh" ::
  (fo ← cmake_options; ["enable_" +:+ fo.2; "disable_" +:+ fo.2]).
Definition text_names : list string :=
  ["G"; "cxx_standard"; "output_directory"; "with_brite"; "with_click"; "with_openflow"; "prefix"; "enable_modules"; "disable_modules"].
Definition profiles : list string := ["debug"; "default"; "release"; "optimized"].
Record configure_ns (args : namespace) (extra : list string) : Prop := {
  ns_flag : ∀ d, d ∈ flag_names → ∃ v, args !! d = Some v ∧ (v = VNone ∨ v = VBool true);
  ns_text : ∀ d, d ∈ text_names → ∃ v, args !! d = Some v ∧ (v = VNone ∨ ∃ s, v = VStr s);
  ns_profile : ∃ v, args !! "build_profile" = Some v ∧ (v = VNone ∨ ∃ s, v = VStr s ∧ s ∈ profiles);
  ns_extra : args !! "program_args" = Some (VList extra)
}.

Lemma completed_configure cpu_count argv unknown_args args0 args :
  well_formed cpu_count (Some "configure") args0 →
  completed cpu_count (Some "configure") argv unknown_args args0 args →
  configure_ns args (if decide (unknown_args = []) then [] else default [] (after_separator argv)).
Proof.
  intros H0 H1. split.
  - assert (forallb (λ d, declares cpu_count d flag_option) flag_names = true) as Hall by (vm_compute; reflexivity).
    rewrite forallb_forall in Hall. intros d Hd%list_elem_of_In%Hall. exact (flag_attribute _ _ _ _ _ H0 H1 _ Hd).
  - assert (forallb (λ d, declares cpu_count d (text_option [])) text_names = true) as Hall by (vm_compute;
      reflexivity).
    rewrite forallb_forall in Hall. intros d Hd%list_elem_of_In%Hall.
    destruct (text_attribute _ _ _ _ _ H0 H1 _ _ Hd) as (v & Hv & [->|(s & -> & _)]); eexists; split; eauto.
  - destruct (text_attribute _ _ _ _ _ H0 H1 "build_profile" profiles) as (v & Hv & Hs); [vm_compute; reflexivity|].
    exists v. split; [exact Hv|].
    destruct Hs as [->|(s & -> & [Hs|Hs])]; [by left|discriminate Hs|right; by exists s].
  - exact (completed_program_args _ _ _ _ _ _ H1).
Qed.

Definition option_flags : list string := (λ fo, "NS3_" +:+ fo.1) <$> cmake_options.
(** Arguments that define none of the options. *)
Definition neutral (l : list string) : Prop := ("-G" ∉ l) ∧ Forall (λ kv, kv.1 ∉ option_flags) (definitions l).
Lemma neutral_nil : neutral [].
Proof. split; [apply not_elem_of_nil|constructor]. Qed.
Lemma neutral_app l1 l2 : neutral l1 → neutral l2 → neutral (l1 ++ l2).
Proof.
  intros [H1 H2] [H3 H4]. split; [rewrite elem_of_app; tauto|]. rewrite definitions_app by done. by apply Forall_app.
Qed.
Lemma neutral_flag name v :
  has_char "=" name = false → bool_decide (name ∈ option_flags) = false → neutral ["-D" +:+ name +:+ "=" +:+ v].
Proof.
  intros Hn Hf%bool_decide_eq_false. split; [rewrite list_elem_of_singleton; by destruct name|].
  rewrite definitions_flag by done.
  repeat constructor. exact Hf.
Qed.
Lemma neutral_filter l fo : neutral l → fo ∈ cmake_options → filter (λ kv, kv.1 = "NS3_" +:+ fo.1) (definitions l) = [].
Proof.
  intros [_ Hl] Hfo. apply filter_nil_iff. intros kv Hkv Hk. rewrite Forall_forall in Hl. apply (Hl kv Hkv).
  rewrite Hk. apply list_elem_of_fmap. by exists fo.
Qed.

Lemma given_ok args extra d name :
  configure_ns args extra → d ∈ text_names → has_char "=" name = false → bool_decide (name ∈ option_flags) = false →
  ∃ l, given args d ("-D" +:+ name +:+ "=") = Ok l ∧ neutral l.
Proof.
  intros Hns Hd Hn Hf. destruct (ns_text _ _ Hns d Hd) as (v & Hv & _). unfold given, getattr. rewrite Hv.
  cbn [or_raise mbind py_bind].
  eexists. split; [reflexivity|]. destruct (decide (v = VNone)); [apply neutral_nil|]. rewrite <-!string_app_assoc.
  by apply neutral_flag.
Qed.
Lemma nonempty_ok args extra d name :
  configure_ns args extra → d ∈ text_names → has_char "=" name = false → bool_decide (name ∈ option_flags) = false →
  ∃ l, nonempty args d ("-D" +:+ name +:+ "=") = Ok l ∧ neutral l.
Proof.
  intros Hns Hd Hn Hf. destruct (ns_text _ _ Hns d Hd) as (v & Hv & _). unfold nonempty, getattr. rewrite Hv.
  cbn [or_raise mbind py_bind].
  eexists. split; [reflexivity|]. destruct (truthy v); [|apply neutral_nil]. rewrite <-!string_app_assoc.
  by apply neutral_flag.
Qed.

Ltac in_list := repeat first [apply list_elem_of_here|apply list_elem_of_further].
Lemma directory_arguments_ok args extra : configure_ns args extra → ∃ l, directory_arguments args = Ok l ∧ neutral l.
Proof.
  intros Hns. unfold directory_arguments.
  destruct (ns_flag _ _ Hns "lcov_zerocounters") as (v & Hv & _); [left|]. rewrite (getattr_ok _ _ _ Hv).
  cbn [or_raise mbind py_bind].
  destruct (given_ok args extra "output_directory" "NS3_OUTPUT_DIRECTORY" Hns) as (a1 & E1 & N1);
    [in_list|reflexivity..|].
  destruct (given_ok args extra "with_brite" "NS3_WITH_BRITE" Hns) as (a2 & E2 & N2); [in_list|reflexivity..|].
  destruct (given_ok args extra "with_click" "NS3_WITH_CLICK" Hns) as (a3 & E3 & N3); [in_list|reflexivity..|].
  destruct (given_ok args extra "with_openflow" "NS3_WITH_OPENFLOW" Hns) as (a4 & E4 & N4); [in_list|reflexivity..|].
  destruct (given_ok args extra "prefix" "CMAKE_INSTALL_PREFIX" Hns) as (a5 & E5 & N5); [in_list|reflexivity..|].
  destruct (nonempty_ok args extra "enable_modules" "NS3_ENABLED_MODULES" Hns) as (a6 & E6 & N6);
    [in_list|reflexivity..|].
  destruct (nonempty_ok args extra "disable_modules" "NS3_DISABLED_MODULES" Hns) as (a7 & E7 & N7);
    [in_list|reflexivity..|].
  cbn [String.append] in *. rewrite E1, E2, E3, E4, E5, E6, E7. eexists. split; [reflexivity|].
  repeat (apply neutral_app; [|]); try assumption. destruct (decide (v = VNone)); [apply neutral_nil|].
  exact (neutral_flag "NS3_COVERAGE_ZERO_COUNTERS" _ eq_refl eq_refl).
Qed.

(** One option, as the flag that it becomes. *)
Definition flag_of (args : namespace) (fo : string * string) : option (string * string) :=
  (λ b, ("NS3_" +:+ fo.1, on_off b)) <$> chosen args fo.2.

Lemma on_off_condition_ok args extra fo :
  configure_ns args extra → fo ∈ cmake_options →
  on_off_condition args fo.1 fo.2 = Ok ((λ kv, "-D" +:+ kv.1 +:+ "=" +:+ kv.2) <$> flag_of args fo).
Proof.
  intros Hns Hfo.
  assert (∀ p, p ∈ ["enable_"; "disable_"] → p +:+ fo.2 ∈ flag_names) as Hin.
  { intros p Hp. unfold flag_names. do 3 right. apply list_elem_of_bind. exists fo. split; [|exact Hfo].
    elem_cases Hp; [left|right; left]. }
  destruct (ns_flag _ _ Hns ("enable_" +:+ fo.2)) as (e & He & He'); [apply Hin; left|].
  destruct (ns_flag _ _ Hns ("disable_" +:+ fo.2)) as (d & Hd & Hd'); [apply Hin; right; left|].
  unfold on_off_condition, flag_of, chosen, getattr. rewrite He, Hd. cbn [or_raise mbind py_bind].
  destruct He' as [->| ->], Hd' as [->| ->]; reflexivity.
Qed.

Lemma option_arguments_ok args extra :
  configure_ns args extra →
  ∃ l, option_arguments args = Ok l ∧ ("-G" ∉ l) ∧ definitions l = omap (M := list) (flag_of args) cmake_options.
Proof.
  intros Hns. unfold option_arguments.
  assert (∀ opts, opts ⊆ cmake_options → forallb (λ fo, negb (has_char "=" fo.1)) opts = true →
    ∃ fs, py_map (λ fo, on_off_condition args fo.1 fo.2) opts = Ok fs ∧ ("-G" ∉ omap (M := list) id fs) ∧
      definitions (omap (M := list) id fs) = omap (M := list) (flag_of args) opts) as Hgen.
  { induction opts as [|fo opts IH]; intros Hsub Heq; [exists []; split_and!;
      [reflexivity|apply not_elem_of_nil|reflexivity]|].
    cbn [forallb] in Heq. apply andb_true_iff in Heq as [Hfo%negb_true_iff Heq].
    destruct IH as (fs & Hfs & Hg & Hd); [set_solver|exact Heq|].
    cbn [py_map]. rewrite (on_off_condition_ok args extra fo Hns), Hfs by set_solver. eexists. split; [reflexivity|].
    unfold flag_of in *. destruct (chosen args fo.2) as [b|] eqn:Eb.
    - cbn [omap list_omap id fmap option_fmap option_map]. rewrite Eb.
      cbn [fmap option_fmap option_map fst snd]. split.
      + rewrite elem_of_cons. intros [H|H]; [discriminate H|by apply Hg].
      + rewrite definitions_flag by exact Hfo. by rewrite <-Hd.
    - cbn [omap list_omap id fmap option_fmap option_map]. rewrite Eb. cbn [fmap option_fmap option_map]. done. }
  destruct (Hgen cmake_options) as (fs & -> & Hg & Hd); [done|reflexivity|]. cbn [mbind py_bind]. eauto.
Qed.

Definition profile_of (args : namespace) : string :=
  match args !! "build_profile" with Some (VStr p) => p | _ => "default" end.

Lemma configure_ns_profile args extra p : configure_ns args extra → p ∈ profiles → configure_ns (<[ "build_profile" := VStr p ]> args) extra.
Proof.
  intros [Hf Ht Hp He] Hin. split.
  - intros d Hd. rewrite lookup_insert_ne; [by apply Hf|]. intros <-. revert Hd.
    apply (bool_decide_eq_false _). reflexivity.
  - intros d Hd. rewrite lookup_insert_ne; [by apply Ht|]. intros <-. revert Hd.
    apply (bool_decide_eq_false _). reflexivity.
  - exists (VStr p). rewrite lookup_insert_eq. split; [done|]. right. by exists p.
  - by rewrite lookup_insert_ne.
Qed.
Lemma configure_ns_generator args extra g : configure_ns args extra → configure_ns (<[ "G" := VStr g ]> args) extra.
Proof.
  intros [Hf Ht Hp He]. split.
  - intros d Hd. rewrite lookup_insert_ne; [by apply Hf|]. intros <-. revert Hd.
    apply (bool_decide_eq_false _). reflexivity.
  - intros d Hd. destruct (decide (d = "G")) as [->|Hne]; [|rewrite lookup_insert_ne by done; by apply Ht].
    exists (VStr g). rewrite lookup_insert_eq. split; [done|]. right. by exists g.
  - by rewrite lookup_insert_ne.
  - by rewrite lookup_insert_ne.
Qed.

(** The flags of a build type, as definitions. *)
Lemma build_type_definitions p :
  p ∈ profiles →
  let l := (build_type_flags p ++ ["-DNS3_NATIVE_OPTIMIZATIONS=" +:+ on_off (bool_decide (p = "optimized"))])%list in
  ("-G" ∉ l) ∧ ∀ fo, fo ∈ cmake_options →
    (filter (λ kv, kv.1 = "NS3_" +:+ fo.1) (definitions l)).*2 = option_list (on_off <$> profile_default p fo.1).
Proof.
  intros Hp. unfold profiles in Hp.
  elem_cases Hp; (split; [apply (bool_decide_eq_false _); reflexivity|]; intros fo Hfo;
    unfold cmake_options in Hfo; elem_cases Hfo; vm_compute; reflexivity).
Qed.

Lemma flag_names_kept args k v d : k ∈ ["G"; "build_profile"] → d ∈ flag_names → <[ k := v ]> args !! d = (args : namespace) !! d.
Proof.
  intros Hk Hd. apply lookup_insert_ne. intros <-. revert Hd. apply (bool_decide_eq_false _).
  elem_cases Hk; reflexivity.
Qed.

Lemma fresh_arguments_ok args extra g :
  configure_ns args extra →
  ∃ args' l, fresh_arguments g args = Ok (args', l) ∧ configure_ns args' extra ∧
    (∀ d, d ∈ flag_names → args' !! d = args !! d) ∧ ("-G" ∉ l) ∧
    ∀ fo, fo ∈ cmake_options →
      (filter (λ kv, kv.1 = "NS3_" +:+ fo.1) (definitions l)).*2 = option_list (on_off <$> profile_default (profile_of args) fo.1).
Proof.
  intros Hns. unfold fresh_arguments.
  destruct (ns_profile _ _ Hns) as (p0 & Hp0 & Hp). rewrite (getattr_ok _ _ _ Hp0). cbn [or_raise mbind py_bind].
  set (args1 := if decide (p0 = VNone) then <[ "build_profile" := VStr "default" ]> args else args).
  assert (configure_ns args1 extra ∧ args1 !! "build_profile" = Some (VStr (profile_of args)) ∧ profile_of args ∈ profiles ∧
          (∀ d, d ∈ flag_names → args1 !! d = args !! d)) as (Hns1 & Hp1 & Hprof & Hd1).
  { unfold args1, profile_of. rewrite Hp0. destruct Hp as [->|(s & -> & Hs)].
    - rewrite decide_True by done.
      split_and!; [apply configure_ns_profile; [done|]|apply lookup_insert_eq| |]; [right; left..|].
      intros d. apply flag_names_kept. right; left.
    - rewrite decide_False by done. done. }
  destruct (ns_text _ _ Hns1 "G") as (g0 & Hg0 & _); [left|]. rewrite (getattr_ok _ _ _ Hg0).
  cbn [or_raise mbind py_bind].
  set (args2 := if decide (g0 = VNone) then <[ "G" := VStr g ]> args1 else args1).
  assert (configure_ns args2 extra ∧ args2 !! "build_profile" = Some (VStr (profile_of args)) ∧
          (∀ d, d ∈ flag_names → args2 !! d = args !! d)) as (Hns2 & Hp2 & Hd2).
  { unfold args2. destruct (decide (g0 = VNone)); [|done].
    split_and!; [by apply configure_ns_generator|by rewrite lookup_insert_ne|].
    intros d Hd. rewrite flag_names_kept; [by apply Hd1|left|done]. }
  destruct (ns_text _ _ Hns2 "cxx_standard") as (cx & Hcx & _); [right; left|]. rewrite (getattr_ok _ _ _ Hcx).
  cbn [or_raise mbind py_bind].
  rewrite (getattr_ok _ _ _ Hp2). cbn [or_raise mbind py_bind].
  assert (lower (profile_of args) = profile_of args) as -> by (unfold profiles in Hprof; revert Hprof;
    generalize (profile_of args); intros p Hin; elem_cases Hin; reflexivity).
  rewrite decide_True by exact Hprof. eexists _, _. split; [reflexivity|].
  destruct (build_type_definitions (profile_of args) Hprof) as [Hg Hdefs].
  assert (neutral (if decide (cx = VNone) then [] else ["-DCMAKE_CXX_STANDARD=" +:+ str_of_val cx])) as Hcxx.
  { destruct (decide (cx = VNone)); [apply neutral_nil|].
    exact (neutral_flag "CMAKE_CXX_STANDARD" _ eq_refl eq_refl). }
  split_and!.
  - by apply configure_ns_profile.
  - intros d Hd. rewrite flag_names_kept; [by apply Hd2|right; left|done].
  - rewrite elem_of_app. intros [H|H]; [by apply (proj1 Hcxx)|by apply Hg].
  - intros fo Hfo. rewrite definitions_app by apply Hcxx. rewrite filter_app, (neutral_filter _ fo Hcxx Hfo).
    by apply Hdefs.
Qed.

Lemma chosen_ext (args args' : namespace) fo :
  (∀ d, d ∈ flag_names → args' !! d = args !! d) → fo ∈ cmake_options → chosen args' fo.2 = chosen args fo.2.
Proof.
  intros Hd Hfo. unfold chosen.
  rewrite !Hd; [done|..]; unfold flag_names; do 3 right; apply list_elem_of_bind; exists fo;
    (split; [first [left|right; left]|exact Hfo]).
Qed.

(** An option is defined at most once by the loop over [cmake_options]. *)
Lemma option_flags_filter args fo :
  fo ∈ cmake_options →
  filter (λ kv, kv.1 = "NS3_" +:+ fo.1) (omap (M := list) (flag_of args) cmake_options) = option_list (flag_of args fo).
Proof.
  intros Hfo. assert (NoDup cmake_options.*1) as Hnd by (apply (bool_decide_eq_true _); reflexivity). revert Hfo Hnd.
  generalize cmake_options. intros opts.
  induction opts as [|fo' opts IH]; intros Hfo Hnd; [by apply not_elem_of_nil in Hfo|].
  rewrite fmap_cons in Hnd. apply NoDup_cons in Hnd as [Hni Hnd].
  assert (∀ l, fo.1 ∉ l.*1 → filter (λ kv, kv.1 = "NS3_" +:+ fo.1) (omap (M := list) (flag_of args) l) = []) as Hnone.
  { intros l Hl. apply filter_nil_iff. intros kv (x & Hx & Hf)%list_elem_of_omap Heq. apply Hl.
    apply list_elem_of_fmap. exists x.
    split; [|exact Hx]. unfold flag_of in Hf. apply fmap_Some in Hf as (b & _ & ->). cbn in Heq. congruence. }
  apply elem_of_cons in Hfo as [->|Hfo].
  - cbn [omap list_omap]. destruct (flag_of args fo') as [kv|] eqn:E; [|by apply Hnone].
    unfold flag_of in E. apply fmap_Some in E as (b & _ & ->). rewrite filter_cons_True by done.
    change (list_omap _ _ (flag_of args) opts) with (omap (M := list) (flag_of args) opts). by rewrite Hnone.
  - assert (fo.1 ≠ fo'.1) as Hne by (intros Heq; apply Hni; rewrite <-Heq; by apply list_elem_of_fmap_2).
    cbn [omap list_omap]. destruct (flag_of args fo') as [kv|] eqn:E; [|by apply IH].
    rewrite filter_cons_False; [by apply IH|]. unfold flag_of in E. apply fmap_Some in E as (b & _ & ->). cbn.
    congruence.
Qed.

Lemma generator_arguments_ok getcwd ns3_path args extra folder :
  configure_ns args extra → ∃ l, generator_arguments getcwd ns3_path args folder = Ok l ∧ ∀ l', definitions (l ++ l') = definitions l'.
Proof.
  intros Hns. unfold generator_arguments. destruct (ns_text _ _ Hns "G") as (g & Hg & _); [left|].
  destruct (ns_flag _ _ Hns "trace_cmake_perf") as (t & Ht & _); [right; left|].
  rewrite (getattr_ok _ _ _ Hg), (getattr_ok _ _ _ Ht). eexists. split; [reflexivity|]. intros l'.
  destruct (truthy g), (truthy t); reflexivity.
Qed.

(** Configuring never fails on the arguments, and for each of the nineteen switches the definition
    that CMake sees last is ON or OFF as the user asked, disabling winning over enabling; without a
    wish it is that of the build profile when the project has no cache yet, and none otherwise. *)
Theorem cmake_arguments_spec (getcwd ns3_path cmake folder generator : string) (cpu_count : Z) (argv : list string)
    (args0 args : namespace) (configured : bool) :
  well_formed cpu_count (Some "configure") args0 →
  completed cpu_count (Some "configure") argv [] args0 args →
  ∃ l, cmake_arguments getcwd ns3_path cmake args configured folder generator = Ok (cmake :: l) ∧
    ∀ cmake_flag option_name, (cmake_flag, option_name) ∈ cmake_options →
      defined_as ("NS3_" +:+ cmake_flag) l =
        on_off <$> match chosen args option_name with
                   | Some b => Some b
                   | None => if configured then None else profile_default (profile_of args) cmake_flag
                   end.
Proof.
  intros H0 H1. pose proof (completed_configure _ _ _ _ _ H0 H1) as Hns. rewrite decide_True in Hns by done.
  assert (∃ args' fresh, (if configured then Ok (args, []) else fresh_arguments generator args) = Ok (args', fresh) ∧
    configure_ns args' [] ∧ (∀ d, d ∈ flag_names → args' !! d = args !! d) ∧ ("-G" ∉ fresh) ∧
    ∀ fo, fo ∈ cmake_options → (filter (λ kv, kv.1 = "NS3_" +:+ fo.1) (definitions fresh)).*2 =
      option_list (on_off <$> if configured then None else profile_default (profile_of args) fo.1))
    as (args' & fresh & Hfresh & Hns' & Hd & Hg & Hdefs).
  { destruct configured; [|by apply fresh_arguments_ok]. exists args, []. split_and!; try done.
    apply not_elem_of_nil. }
  unfold cmake_arguments. rewrite Hfresh. cbn [mbind py_bind].
  destruct (option_arguments_ok _ _ Hns') as (opts & -> & Hgo & Hopts). cbn [mbind py_bind].
  destruct (directory_arguments_ok _ _ Hns') as (dirs & -> & Hdirs). cbn [mbind py_bind].
  destruct (generator_arguments_ok getcwd ns3_path _ _ folder Hns') as (gen & -> & Hgen). cbn [mbind py_bind].
  unfold forwarded. rewrite (getattr_ok _ _ _ (ns_extra _ _ Hns')). cbn [mbind py_bind]. eexists.
  split; [reflexivity|].
  intros cmake_flag option_name Hfo. unfold defined_as.
  rewrite !definitions_app, Hgen by (done || apply Hdirs).
  change (definitions ([] ++ [".."])) with (@nil (string * string)).
  pose proof (neutral_filter dirs _ Hdirs Hfo) as E1. pose proof (option_flags_filter args' _ Hfo) as E2.
  pose proof (Hdefs _ Hfo) as E3. unfold flag_of in E2 at 2. rewrite (chosen_ext args args' _ Hd Hfo) in E2.
  cbn [fst snd] in E1, E2, E3. rewrite !filter_app, E1, Hopts, E2, !fmap_app, E3. clear E1 E2 E3.
  destruct (chosen args option_name) as [b|]; cbn -[last profile_default].
  { by rewrite last_snoc. }
  rewrite ?app_nil_r. by destruct (on_off <$> _).
Qed.

Definition demo_configure : namespace :=
  namespace_of 8 (Some "configure")
    [("configure", VBool true); ("enable_asserts", VBool true); ("disable_asserts", VBool true); ("enable_tests", VBool true)].
(** [configure --enable-asserts --disable-asserts --enable-tests] in a tree without a cache. *)
Lemma cmake_arguments_spec_witness :
  ∃ m l, complete_args 8 ["configure"] [] demo_configure = Ok m ∧
    cmake_arguments "/" "/ns3" "cmake" m false "/ns3/cmake-cache" "Ninja" = Ok ("cmake" :: l) ∧
    defined_as "NS3_ASSERT" l = Some "OFF" ∧ defined_as "NS3_TESTS" l = Some "ON" ∧ defined_as "NS3_LOG" l = Some "ON".
Proof.
  pose proof (complete_args_ok 8 (Some "configure") ["configure"] [] demo_configure) as Hok.
  assert (((λ m : namespace, (chosen m "asserts", chosen m "tests", chosen m "logs", profile_of m)) <$>
           complete_args 8 ["configure"] [] demo_configure) = Ok (Some false, Some true, None, "default")) as Hm by (vm_compute; reflexivity).
  assert (well_formed 8 (Some "configure") demo_configure) as Hw by (apply well_formedb_ok; vm_compute; reflexivity).
  destruct (complete_args 8 ["configure"] [] demo_configure) as [m|e]; [|discriminate Hm].
  apply Ok_inj in Hm. injection Hm as H1 H2 H3 H4. exists m.
  destruct (cmake_arguments_spec "/" "/ns3" "cmake" "/ns3/cmake-cache" "Ninja" 8 ["configure"] demo_configure m false Hw) as (l & Hl & Hdef).
  { apply Hok; [|exact Hw]. intros c [= <-]. right; left. }
  exists l. split; [reflexivity|]. split; [exact Hl|]. split; [|split].
  - change "NS3_ASSERT" with ("NS3_" +:+ "ASSERT"). rewrite (Hdef "ASSERT" "asserts") by left. rewrite H1.
    reflexivity.
  - change "NS3_TESTS" with ("NS3_" +:+ "TESTS"). rewrite (Hdef "TESTS" "tests") by (do 15 right; left).
    rewrite H2. reflexivity.
  - change "NS3_LOG" with ("NS3_" +:+ "LOG"). rewrite (Hdef "LOG" "logs") by (do 9 right; left).
    rewrite H3, H4. reflexivity.
Defined.

(** In a project that has a cache the build profile and the C++ standard that the user gives are not looked at. *)
Lemma profile_ignored getcwd ns3_path cmake folder generator (args : namespace) k v :
  k ∈ ["build_profile"; "cxx_standard"] →
  cmake_arguments getcwd ns3_path cmake (<[ k := v ]> args) true folder generator =
  cmake_arguments getcwd ns3_path cmake args true folder generator.
Proof.
  intros Hk.
  assert (∀ d, k ≠ d → getattr (<[ k := v ]> args) d = getattr args d) as Hg by (intros d Hd; unfold getattr;
    by rewrite lookup_insert_ne).
  assert (∀ d, bool_decide (d ∈ ["build_profile";
    "cxx_standard"]) = false → getattr (<[ k := v ]> args) d = getattr args d) as Hother.
  { intros d Hd%bool_decide_eq_false. apply Hg. by intros ->. }
  assert (option_arguments (<[ k := v ]> args) = option_arguments args) as Hopt.
  { unfold option_arguments. f_equal. unfold cmake_options. cbn [py_map fst snd]. unfold on_off_condition.
    by rewrite !Hother by reflexivity. }
  unfold cmake_arguments. cbn [mbind py_bind]. rewrite Hopt. destruct (option_arguments args); [|done].
  cbn [mbind py_bind].
  unfold directory_arguments, given, nonempty, generator_arguments, forwarded. by rewrite !Hother by reflexivity.
Qed.
