(* ===== verification/Ns3Programs.v ===== *)
(** * What the wrapper script [ns3] reads from the build

    The functions of [ns3] that turn the contents of the lock file and of the CMake caches into lists
    of modules, shortcuts for programs, build targets and settings.  They are pure here: the file
    system and the tools are arguments, and [Ns3Main] supplies them. *)

From stdpp Require Import base list strings gmap.
From Stdlib Require Import Ascii.
From S2P Require Import Prelude PyStr TestJobs TestConfig Ns3Args.
Open Scope nat_scope.

(** ** Sequences of Python *)

(** [l[-1] = f(l[-1])]. *)
Definition update_last (f : string → string) (l : list string) : py exn (list string) :=
  match reverse l with x :: r => Ok (reverse (f x :: r)) | [] => Raise IndexError end.
(** [l.pop(0)]: the rest of the list. *)
Definition pop_first (l : list string) : py exn (list string) :=
  match l with [] => Raise IndexError | _ :: l => Ok l end.
Fixpoint dirname_comps (l : list string) : list string :=
  match l with [] | [_] => [] | x :: l => x :: dirname_comps l end.
(** [os.path.dirname]: what precedes the last slash, without slashes at its end unless it has
    nothing else. *)
Definition dirname (p : string) : string :=
  match split_last "/" p with
  | None => ""
  | Some (a, _) => let body := implode (reverse ((fix strip (l : list ascii) := match l with
        | c :: r => if decide (c = "/"%char) then strip r else l | [] => [] end) (reverse (chars a)))) in
      if decide (body = "") then a +:+ "/" else body
  end.

(** ** [check_lock_data] *)

Abbreviation variables := (gmap string val).
Definition initial_build_info : variables :=
  {[ "NS3_ENABLED_MODULES" := VList []; "BUILD_PROFILE" := VNone; "VERSION" := VNone;
     "ENABLE_EXAMPLES" := VBool false; "ENABLE_SUDO" := VBool false; "ENABLE_TESTS" := VBool false ]}.
Definition item (d : variables) (key : string) : py exn val := or_raise KeyError (d !! key).
Definition as_list (v : val) : py exn (list string) := match v with VList l => Ok l | _ => Raise TypeError end.
(** The part after [exec]: [build_info] with the modules extended in place, and the names of all
    module targets. *)
Definition module_targets (build_info : variables) : py exn (variables * val) :=
  v ← item build_info "NS3_ENABLED_MODULES";
  if truthy v then
    modules ← as_list v;
    contrib ← item build_info "NS3_ENABLED_CONTRIBUTED_MODULES";
    contrib ← as_list contrib;
    let modules := modules ++ contrib in
    let build_info := <[ "NS3_ENABLED_MODULES" := VList modules ]> build_info in
    tests ← item build_info "ENABLE_TESTS";
    let with_suffix (b : bool) s := if b then (λ x, x +:+ s) <$> modules else [] in
    bindings ← item build_info "ENABLE_PYTHON_BINDINGS";
    let apiscan := match build_info !! "ENABLE_SCAN_PYTHON_BINDINGS" with Some v => truthy v | None => false end in
    Ok (build_info, VList (modules ++ with_suffix (truthy tests) "-test" ++ with_suffix apiscan "-apiscan" ++
                           with_suffix (truthy bindings) "-bindings"))
  else Ok (build_info, v).

(** ** [search_cmake_cache] *)

(** [line.split("=")[-1]]. *)
Definition after_equals (line : string) : string := default "" (last (split_all "=" line)).
Definition both (found : option string * option string) : bool :=
  match found with
  | (Some folder, Some generator) => bool_decide (folder ≠ "") && bool_decide (generator ≠ "")
  | _ => false
  end.
Definition read_cache_line (build_profile : option string) (cmake_cache_file : string)
    (found : option string * option string) (line : string) : option string * option string :=
  let '(folder, generator) := found in
  (if has_sub "build_profile:INTERNAL" line then
     match build_profile with
     | Some p => if decide (p = "") then Some (dirname cmake_cache_file)
                 else if decide (p = after_equals line) then Some (dirname cmake_cache_file) else folder
     | None => Some (dirname cmake_cache_file)
     end
   else folder,
   if has_sub "CMAKE_GENERATOR:" line then Some (after_equals line) else generator).
Fixpoint scan_lines (build_profile : option string) (cmake_cache_file : string)
    (found : option string * option string) (lines : list string) : option string * option string :=
  match lines with
  | [] => found
  | line :: lines => if both found then found
                     else scan_lines build_profile cmake_cache_file (read_cache_line build_profile cmake_cache_file found line) lines
  end.
Fixpoint scan_caches (build_profile : option string) (found : option string * option string)
    (cmake_cache_files : list (string * string)) : option string * option string :=
  match cmake_cache_files with
  | [] => found
  | (path, contents) :: files =>
      if both found then found
      else scan_caches build_profile (scan_lines build_profile path (None, None) (split_all nl_char contents)) files
  end.
Definition cmake_generator_map : list (string * string) :=
  [("ninja", "Ninja"); ("make", "Unix Makefiles"); ("xcodebuild", "Xcode")].
(** The first generator whose program is installed. *)
Definition default_generator (which : string → option string) : py exn string :=
  match filter (λ g, is_Some (which g.1)) cmake_generator_map with
  | [] => Raise (Exception_ "No generator available.")
  | g :: _ => Ok g.2
  end.
Definition search_cmake_cache (which : string → option string) (cmake_cache_files : list (string * string))
    (build_profile : option string) : py exn (option string * string) :=
  let '(folder, generator) := scan_caches build_profile (None, None) cmake_cache_files in
  match generator with
  | Some g => if decide (g = "") then g ← default_generator which; Ok (folder, g) else Ok (folder, g)
  | None => g ← default_generator which; Ok (folder, g)
  end.

(** ** [get_program_shortcuts] *)

Abbreviation str_map := (gmap string (list string)).
Definition append_to (k x : string) (m : str_map) : str_map := <[ k := default [] (m !! k) ++ [x] ]> m.

Section shortcuts.
Context (ns3_path out_dir build_profile ns3_version : string) (exists_ : string → bool).

(** The components that the shortcuts are made of. *)
Definition shortcut_path (program : string) : py exn (list string) :=
  temp_path ← pop_first (split_all "/" (replace_all out_dir "" program));
  temp_path ← update_last (λ x, replace_all ("ns" +:+ ns3_version +:+ "-") "" (replace_all ("-" +:+ build_profile) "" x)) temp_path;
  if decide ("scratch" ∈ temp_path ∧ 3 < length temp_path) then
    let subdir := join "_" (py_slice temp_path 2 (-1) ++ [""])%list in
    update_last (replace_all subdir "") temp_path
  else Ok temp_path.

(** The inner loop: [maps] are [ns3_program_map] and [longest_shortcut_map]. *)
Fixpoint add_shortcuts (program : string) (source_shortcut : bool) (longest_shortcut : string) (temp_path : list string)
    (maps : str_map * str_map) : str_map * str_map :=
  match temp_path with
  | [] => maps
  | _ :: rest =>
      let shortcut := join "/" temp_path in
      let longest := if decide (longest_shortcut = "") then shortcut else longest_shortcut in
      let '(programs, longests) := maps in
      let maps := (<[ shortcut := [program] ]> programs, append_to shortcut longest longests) in
      let maps := if source_shortcut
                  then (<[ shortcut +:+ ".cc" := [program] ]> maps.1, append_to (shortcut +:+ ".cc") longest maps.2)
                  else maps in
      add_shortcuts program source_shortcut longest rest maps
  end.
Definition add_program (maps : str_map * str_map) (program : string) : py exn (str_map * str_map) :=
  if has_sub "pch_exec" program then Ok maps
  else
    temp_path ← shortcut_path program;
    let source_shortcut := exists_ (Path.join ns3_path (join "/" temp_path +:+ ".cc")) in
    Ok (add_shortcuts (strip program) source_shortcut "" temp_path maps).

(** A shortcut of several programs leads to their longest shortcuts. *)
Definition filter_collisions (maps : str_map * str_map) : str_map :=
  foldl (λ m kv, if decide (1 < length kv.2) then <[ kv.1 := kv.2 ]> m else m) maps.1 (map_to_list maps.2).

Fixpoint suffixes (l : list string) : list (list string) :=
  match l with [] => [] | _ :: r => l :: suffixes r end.
Definition add_script (m : str_map) (program : string) : str_map :=
  foldl (λ m temp_path, <[ join "/" temp_path := [strip program] ]> m) m (suffixes (split_all "/" (replace_all ns3_path "" program))).

Definition get_program_shortcuts (programs_dict : variables) (scratch_scripts : list string) : py exn str_map :=
  programs ← item programs_dict "ns3_runnable_programs";
  programs ← as_list programs;
  maps ← py_foldl add_program (∅, ∅) programs;
  let m := filter_collisions maps in
  scripts ← item programs_dict "ns3_runnable_scripts";
  scripts ← as_list scripts;
  let scripts := if decide (scripts = []) then [] else scripts ++ scratch_scripts in
  Ok (foldl add_script m scripts).
End shortcuts.

(** ** Versions, targets and paths *)

Definition parse_version (version_str : string) : py exn (list Z) :=
  py_map (λ s, or_raise (ValueError "invalid literal for int()") (py_int s)) (split_all "." version_str).
(** Comparison of tuples. *)
Fixpoint tuple_lt (a b : list Z) : bool :=
  match a, b with
  | _, [] => false
  | [], _ :: _ => true
  | x :: a, y :: b => if (x =? y)%Z then tuple_lt a b else (x <? y)%Z
  end.

(** The regular expression that [ns%s-] is: the dots of the version match any character. *)
Fixpoint match_lit (pattern s : list ascii) : option (list ascii) :=
  match pattern, s with
  | [], _ => Some s
  | p :: pattern, c :: s => if decide (p = "."%char ∨ p = c) then match_lit pattern s else None
  | _ :: _, [] => None
  end.
(** The last position where the pattern matches and [k] accepts the rest. *)
Fixpoint last_match {A} (pattern : list ascii) (k : list ascii → option A) (s : list ascii) : option (list ascii * A) :=
  match s with
  | [] => match match_lit pattern [] with Some r => (λ a, ([], a)) <$> k r | None => None end
  | c :: s' =>
      match last_match pattern k s' with
      | Some (pre, a) => Some (c :: pre, a)
      | None => match match_lit pattern s with Some r => (λ a, ([], a)) <$> k r | None => None end
      end
  end.
(** Any text, [ns<version>-], any text, [<suffix>]: both texts are as long as possible. *)
Definition program_regex (version suffix : string) (path : string) : option (string * string) :=
  '(g1, g2) ← last_match (chars ("ns" +:+ version +:+ "-"))
                (λ rest, fst <$> last_match (chars suffix) Some rest) (chars path);
  Some (implode g1, implode g2).

(** [None] is a target that is not built on its own; the message of a program that does not match is
    printed before [exit(1)]. *)
Definition target_message (program_path : string) : string := "Target to build does not exist: " +:+ program_path.
Definition get_target_to_build (out_dir program_path ns3_version build_profile : string) : list string * py exn (option string) :=
  if has_sub ".py" program_path then ([], Ok None)
  else
    let suffix := if decide (build_profile ∈ ["release"]) then "" else "-" +:+ build_profile in
    match program_regex ns3_version suffix program_path with
    | None => ([target_message program_path], Raise (SystemExit 1))
    | Some (a, b) =>
        let program_name := a +:+ b in
        ([], Ok (Some (if has_sub "scratch" program_path
                       then implode (drop 1 (chars (replace_all "/" "_" (replace_all out_dir "" program_name))))
                       else Path.basename program_name)))
    end.

(** The inner functions of [main]. *)
Fixpoint drop_overlap (base_path target_path : list string) : py exn (list string) :=
  match target_path with
  | [] => Raise IndexError
  | x :: rest => if decide (x ∈ base_path) then drop_overlap base_path rest else Ok target_path
  end.
Definition remove_overlapping_path (base_path target_path : string) : py exn string :=
  l ← drop_overlap (split_all "/" base_path) (split_all "/" target_path);
  Ok (join "/" l).

Definition ambiguous_message (target_type target_to_check : string) (candidates : list string) : string :=
  target_type +:+ esc " target \q" +:+ target_to_check +:+ esc "\q is ambiguous. Try one of these: \q" +:+
  join (esc "\q, \q") candidates +:+ esc "\q".
Definition check_ambiguous_target (target_type target_to_check : string) (programs : str_map)
    : list string * py exn string :=
  match programs !! target_to_check with
  | None => ([], Raise KeyError)
  | Some l => if decide (1 < length l) then ([ambiguous_message target_type target_to_check l], Raise (SystemExit 1))
              else ([], or_raise IndexError (l !! 0))
  end.

(** ** [extract_cmakecache_settings] *)

(** The expression for the settings of ns-3, on one line: the name starts at the first [NS3_] and goes
    to the last colon that an equals sign follows, the value starts after the last equals sign. *)
Definition find_ns3_setting (line : string) : option (string * string) :=
  '(_, r) ← split_first "NS3_" line;
  '(a, v) ← split_last "=" r;
  '(k, _) ← split_last ":" a;
  Some ("NS3_" +:+ k, v).
(** The expressions for one variable of CMake. *)
Definition find_cmake_setting (name line : string) : option (string * string) :=
  '(_, r) ← split_first (name +:+ ":") line;
  '(_, v) ← split_last "=" r;
  Some (name, v).

(** A dictionary that keeps the order of insertion. *)
Abbreviation ordered_dict := (list (string * string)).
Fixpoint dict_set (d : ordered_dict) (k v : string) : ordered_dict :=
  match d with
  | [] => [(k, v)]
  | (k', v') :: d => if decide (k = k') then (k, v) :: d else (k', v') :: dict_set d k v
  end.
Definition dict_of (l : list (string * string)) : ordered_dict := foldl (λ d kv, dict_set d kv.1 kv.2) [] l.
Fixpoint dict_get (d : ordered_dict) (k : string) : option string :=
  match d with [] => None | (k', v) :: d => if decide (k = k') then Some v else dict_get d k end.
Definition dict_del (d : ordered_dict) (k : string) : py exn ordered_dict :=
  match dict_get d k with Some _ => Ok (filter (λ kv, kv.1 ≠ k) d) | None => Raise KeyError end.

Definition saved_variables : list string :=
  ["CMAKE_BUILD_TYPE"; "CMAKE_GENERATOR"; "CMAKE_CXX_COMPILER"; "CMAKE_CXX_FLAGS"; "CMAKE_C_COMPILER";
   "CMAKE_C_FLAGS"; "CMAKE_INSTALL_PREFIX"].
Definition extract_settings (contents : string) : py exn ordered_dict :=
  let lines := split_all nl_char contents in
  let current_settings := omap (M := list) find_ns3_setting lines ++
    (n ← saved_variables; omap (M := list) (find_cmake_setting n) lines) in
  dict_del (dict_of current_settings) "NS3_INT64X64-STRINGS".

(** The arguments that set the variables again. *)
Definition setting_arguments (settings : ordered_dict) : list string :=
  (λ kv, "-D" +:+ kv.1 +:+ "=" +:+ kv.2) <$> filter (λ kv, kv.2 ≠ "") settings.

(** ** Overlapping paths *)

Lemma split_all_join l : l ≠ [] → Forall (λ x, has_char "/" x = false) l → split_all "/" (join "/" l) = l.
Proof.
  intros Hne Hl. induction Hl as [|x l Hx Hl IH]; [done|]. destruct l as [|y l]; [by apply split_all_none|].
  change (join "/" (x :: y :: l)) with (x +:+ "/" +:+ join "/" (y :: l)).
  change ("/" +:+ join "/" (y :: l)) with (String "/" (join "/" (y :: l))).
  rewrite split_all_app, split_all_none by done. cbn [app]. by rewrite IH.
Qed.
Lemma join_split_all s : join "/" (split_all "/" s) = s.
Proof.
  induction s as [|c s IH]; [done|]. cbn [split_all]. destruct (decide ("/"%char = c)) as [<-|Hc].
  - destruct (split_all "/" s) as [|w ws] eqn:E; [by apply split_all_nonnil in E|]. cbn [join] in *. by rewrite <-IH.
  - destruct (split_all "/" s) as [|w ws] eqn:E; [by apply split_all_nonnil in E|].
    destruct ws; cbn [join] in *; by rewrite <-IH.
Qed.

Lemma drop_overlap_all base l rest : Forall (λ x, x ∈ base) l → drop_overlap base (l ++ rest) = drop_overlap base rest.
Proof. induction 1 as [|x l Hx _ IH]; [done|]. cbn. by rewrite decide_True. Qed.
Lemma drop_overlap_stop base l x rest :
  Forall (λ x, x ∈ base) l → x ∉ base → drop_overlap base (l ++ x :: rest) = Ok (x :: rest).
Proof. intros Hl Hx. rewrite drop_overlap_all by done. cbn. by rewrite decide_False. Qed.

(** The components that [remove_overlapping_path] drops besides the output directory. *)
Fixpoint shared_prefix (base l : list string) : list string :=
  match l with [] => [] | x :: l => if decide (x ∈ base) then x :: shared_prefix base l else [] end.
Lemma drop_overlap_prefix base l :
  drop_overlap base l = if decide (Forall (λ x, x ∈ base) l) then Raise IndexError
                        else Ok (drop (length (shared_prefix base l)) l).
Proof.
  induction l as [|x l IH]; cbn; [done|]. destruct (decide (x ∈ base)) as [Hx|Hx].
  - rewrite IH. destruct (decide (Forall _ l));
      [rewrite decide_True by by constructor|rewrite decide_False by (by inversion 1)]; done.
  - rewrite decide_False by (by inversion 1). done.
Qed.

(** For a program inside the output directory, [remove_overlapping_path] gives its path relative to
    that directory exactly when the first component of that path is not also a component of the output
    directory; otherwise it drops further components, and raises IndexError when all of them occur
    there.  A tree below a directory called [src] or [examples] is such a case. *)
Theorem remove_overlapping_path_spec (out_dir rel : string) :
  let base := split_all "/" out_dir in
  let comps := split_all "/" rel in
  remove_overlapping_path out_dir (out_dir +:+ "/" +:+ rel) =
    (if decide (Forall (λ x, x ∈ base) comps) then Raise IndexError
     else Ok (join "/" (drop (length (shared_prefix base comps)) comps))) ∧
  (remove_overlapping_path out_dir (out_dir +:+ "/" +:+ rel) = Ok rel ↔ ∃ x rest, comps = x :: rest ∧ x ∉ base).
Proof.
  intros base comps. assert (remove_overlapping_path out_dir (out_dir +:+ "/" +:+ rel) =
    (if decide (Forall (λ x, x ∈ base) comps) then Raise IndexError
     else Ok (join "/" (drop (length (shared_prefix base comps)) comps)))) as Heq.
  { unfold remove_overlapping_path. change ("/" +:+ rel) with (String "/" rel).
    rewrite split_all_app, drop_overlap_all by (by apply Forall_forall).
    fold base comps. rewrite drop_overlap_prefix. by case_decide. }
  split; [exact Heq|]. rewrite Heq. clear Heq.
  destruct comps as [|x rest] eqn:Ec; [by apply split_all_nonnil in Ec|]. split.
  - case_decide as Hall; [done|]. intros [= Hj]. exists x, rest. split; [done|]. intros Hx.
    assert (Forall (λ x, has_char "/" x = false) comps) as Hcs by apply (split_all_pieces "/").
    rewrite Ec in Hcs. cbn [shared_prefix] in Hj. rewrite decide_True in Hj by done. cbn [length drop] in Hj.
    set (l := drop (length (shared_prefix base rest)) rest) in Hj.
    assert (split_all "/" (join "/" l) = x :: rest) as Hl by (rewrite Hj; exact Ec).
    destruct (decide (l = [])) as [El|Hne].
    + rewrite El in Hl. cbn in Hl. injection Hl as <- <-. apply Hall. by repeat constructor.
    + rewrite split_all_join in Hl; [|done|apply Forall_drop; by inversion Hcs].
      apply (f_equal length) in Hl. unfold l in Hl. rewrite length_drop in Hl. cbn in Hl. lia.
  - intros (y & r & [= <- <-] & Hx). rewrite decide_False by (by inversion 1). cbn [shared_prefix].
    rewrite decide_False by done.
    cbn [length drop]. rewrite <-Ec. unfold comps. by rewrite join_split_all.
Qed.

(** ** Shortcuts *)

(** The shortcuts of a program, its longest shortcut and its path. *)
Abbreviation entry := (list string * string * string)%type.
Definition keys_of (source_shortcut : bool) (temp_path : list string) : list string :=
  s ← suffixes temp_path; join "/" s :: if source_shortcut then [join "/" s +:+ ".cc"] else [].
Definition put (longest program : string) (maps : str_map * str_map) (k : string) : str_map * str_map :=
  (<[ k := [program] ]> maps.1, append_to k longest maps.2).
Definition put_entry (maps : str_map * str_map) (e : entry) : str_map * str_map := foldl (put e.1.2 e.2) maps e.1.1.

Lemma join_empty l : join "/" l = "" → l = [] ∨ l = [""].
Proof. destruct l as [|x [|y l]]; cbn; [by left|intros ->; by right|]. by destruct x. Qed.

Lemma add_shortcuts_longest program b longest l maps :
  longest ≠ "" → add_shortcuts program b longest l maps = foldl (put longest program) maps (keys_of b l).
Proof.
  intros Hl. revert maps. induction l as [|x l IH]; intros maps; [done|]. cbn [add_shortcuts].
  rewrite decide_False by done.
  destruct maps as [m1 m2]. rewrite IH. unfold keys_of. cbn [suffixes mbind list_bind]. rewrite foldl_app.
  by destruct b.
Qed.
Lemma add_shortcuts_keys program b l maps :
  add_shortcuts program b "" l maps = foldl (put (join "/" l) program) maps (keys_of b l).
Proof.
  destruct (decide (join "/" l = "")) as [He|Hne].
  - rewrite He. destruct (join_empty l He) as [->| ->]; [done|]. destruct maps as [m1 m2]. by destruct b.
  - destruct l as [|x l]; [done|]. cbn [add_shortcuts]. destruct maps as [m1 m2]. rewrite decide_True by done.
    rewrite add_shortcuts_longest by done. unfold keys_of. cbn [suffixes mbind list_bind]. rewrite foldl_app.
    by destruct b.
Qed.

(** Who has a shortcut: longest shortcuts and programs, in the order of the programs. *)
Definition hits (k : string) (es : list entry) : list (string * string) :=
  e ← es; (λ _, (e.1.2, e.2)) <$> filter (λ x, x = k) e.1.1.

Lemma put_keys longest program ks maps :
  foldl (put longest program) maps ks =
    (foldl (λ m k, <[ k := [program] ]> m) maps.1 ks, foldl (λ m k, append_to k longest m) maps.2 ks).
Proof. revert maps. induction ks as [|x ks IH]; intros [m1 m2]; [done|]. cbn [foldl]. by rewrite IH. Qed.
Lemma insert_keys {V} (v : V) ks (m : gmap string V) k :
  foldl (λ m k, <[ k := v ]> m) m ks !! k = if decide (k ∈ ks) then Some v else m !! k.
Proof.
  revert m. induction ks as [|x ks IH]; intros m; cbn [foldl]; [by rewrite decide_False by apply not_elem_of_nil|].
  rewrite IH. destruct (decide (k ∈ ks)); [by rewrite decide_True by by right|].
  destruct (decide (k = x)) as [->|Hne]; [by rewrite lookup_insert_eq, decide_True by left|].
  rewrite lookup_insert_ne by done. rewrite decide_False; [done|]. by intros [->|?]%elem_of_cons.
Qed.
Definition appended (o : option (list string)) (l : list string) : option (list string) :=
  match l with [] => o | _ => Some (default [] o ++ l) end.
Lemma append_keys longest ks (m : str_map) k :
  foldl (λ m k, append_to k longest m) m ks !! k = appended (m !! k) ((λ _, longest) <$> filter (λ x, x = k) ks).
Proof.
  revert m. induction ks as [|x ks IH]; intros m; cbn [foldl]; [done|]. rewrite IH, filter_cons. unfold append_to.
  destruct (decide (x = k)) as [->|Hne]; [rewrite lookup_insert_eq|by rewrite lookup_insert_ne].
  rewrite fmap_cons. destruct (_ <$> filter _ ks) as [|y ys]; cbn [appended from_option id]; [done|].
  by rewrite <-app_assoc.
Qed.

Lemma put_entries es maps k :
  (foldl put_entry maps es).2 !! k = appended (maps.2 !! k) (hits k es).*1 ∧
  (foldl put_entry maps es).1 !! k = match last (hits k es) with Some h => Some [h.2] | None => maps.1 !! k end.
Proof.
  induction es as [|e es IH] using rev_ind; [done|]. rewrite foldl_app. cbn [foldl]. unfold put_entry at 1 3.
  destruct IH as [IH1 IH2]. rewrite !put_keys. cbn [fst snd]. rewrite append_keys, insert_keys, IH1, IH2.
  unfold hits. rewrite bind_app, fmap_app. cbn [mbind list_bind]. rewrite app_nil_r.
  set (h := es ≫= _). set (n := filter (λ x, x = k) e.1.1). split.
  - rewrite <-list_fmap_compose.
    destruct (h.*1) as [|y ys], n as [|z zs]; cbn [appended fmap list_fmap compose fst]; try done.
    + by rewrite app_nil_r.
    + cbn [from_option id]. by rewrite <-app_assoc.
  - destruct (decide (k ∈ e.1.1)) as [Hin|Hin].
    + assert (k ∈ n) as Hk by (by apply list_elem_of_filter).
      destruct n as [|z zs] using rev_ind; [by apply not_elem_of_nil in Hk|].
      rewrite fmap_app, app_assoc. cbn [fmap list_fmap]. by rewrite last_snoc.
    + assert (n = []) as -> by (apply filter_nil_iff; intros x Hx ->; done). cbn [fmap list_fmap].
      by rewrite app_nil_r.
Qed.

Lemma filter_collisions_lookup maps k :
  filter_collisions maps !! k = match maps.2 !! k with
                                | Some l => if decide (1 < length l) then Some l else maps.1 !! k
                                | None => maps.1 !! k
                                end.
Proof.
  unfold filter_collisions.
  assert (∀ (l : list (string * list string)) (m : str_map), NoDup l.*1 →
    foldl (λ m kv, if decide (1 < length kv.2) then <[ kv.1 := kv.2 ]> m else m) m l !! k =
    match (list_to_map l : str_map) !! k with Some v => if decide (1 < length v) then Some v else m !! k | None => m !! k end) as Hl.
  { induction l as [|[x v] l IH]; intros m Hnd; [done|]. rewrite fmap_cons in Hnd.
    apply NoDup_cons in Hnd as [Hx Hnd].
    cbn [foldl fst snd]. rewrite IH by done. cbn [list_to_map foldr fst snd]. unfold uncurry. cbn.
    destruct (decide (k = x)) as [->|Hne].
    - rewrite lookup_insert_eq. cbn in Hx. rewrite (not_elem_of_list_to_map_1 (M := gmap string) l x) by exact Hx.
      destruct (decide (1 < length v)); [by rewrite lookup_insert_eq|done].
    - rewrite lookup_insert_ne by done. destruct (decide (1 < length v)); [|done]. by rewrite lookup_insert_ne. }
  rewrite Hl by apply NoDup_fst_map_to_list. by rewrite list_to_map_to_list.
Qed.

Definition script_keys (ns3_path script : string) : list string :=
  join "/" <$> suffixes (split_all "/" (replace_all ns3_path "" script)).
Lemma add_script_lookup ns3_path m script k :
  add_script ns3_path m script !! k = if decide (k ∈ script_keys ns3_path script) then Some [strip script] else m !! k.
Proof.
  unfold add_script, script_keys. rewrite <-insert_keys. f_equal.
  generalize (suffixes (split_all "/" (replace_all ns3_path "" script))). intros l. revert m.
  induction l as [|x l IH]; intros m; [done|]. apply IH.
Qed.
(** The last script that has the shortcut. *)
Definition script_for (ns3_path : string) (scripts : list string) (k : string) : option string :=
  last (filter (λ s, k ∈ script_keys ns3_path s) scripts).
Lemma add_scripts_lookup ns3_path scripts m k :
  foldl (add_script ns3_path) m scripts !! k =
    match script_for ns3_path scripts k with Some s => Some [strip s] | None => m !! k end.
Proof.
  induction scripts as [|s scripts IH] using rev_ind; [done|]. rewrite foldl_app. cbn [foldl].
  rewrite add_script_lookup, IH.
  unfold script_for. rewrite filter_app. destruct (decide (k ∈ script_keys ns3_path s)).
  - by rewrite filter_cons_True, filter_nil, last_snoc.
  - by rewrite filter_cons_False, filter_nil, app_nil_r.
Qed.

Section shortcut_facts.
Context (ns3_path out_dir build_profile ns3_version : string) (exists_ : string → bool).

Definition is_program (p : string) : bool := negb (has_sub "pch_exec" p).
(** What a program contributes. *)
Definition entry_of (p : string) : option entry :=
  match shortcut_path out_dir build_profile ns3_version p with
  | Ok l => Some (keys_of (exists_ (Path.join ns3_path (join "/" l +:+ ".cc"))) l, join "/" l, strip p)
  | Raise _ => None
  end.
Definition inside (p : string) : Prop := has_char "/" (replace_all out_dir "" p) = true.

Lemma update_last_ok f l : l ≠ [] → ∃ l', update_last f l = Ok l' ∧ l' ≠ [].
Proof.
  intros Hl. unfold update_last.
  destruct (reverse l) as [|x r] eqn:E; [by apply (f_equal reverse) in E; rewrite reverse_involutive in E|].
  eexists. split; [done|].
  rewrite reverse_cons. by destruct (reverse r).
Qed.
Lemma shortcut_path_ok p : inside p → ∃ l, shortcut_path out_dir build_profile ns3_version p = Ok l ∧ l ≠ [].
Proof.
  intros Hp. unfold shortcut_path. destruct (split_once "/" (replace_all out_dir "" p)) as [[a b]|] eqn:E.
  2: { apply split_once_None in E. unfold inside in Hp. congruence. }
  apply split_once_Some in E as [-> Ha]. change (a +:+ "/" +:+ b) with (a +:+ String "/" b).
  rewrite split_all_app, split_all_none by done. cbn [app pop_first mbind py_bind].
  destruct (update_last_ok (λ x, replace_all ("ns" +:+ ns3_version +:+ "-") "" (replace_all ("-" +:+ build_profile) "" x))
              (split_all "/" b)) as (l & -> & Hl); [apply split_all_nonnil|]. cbn [mbind py_bind].
  case_decide; [by apply update_last_ok|by exists l].
Qed.

Lemma add_programs_ok programs maps :
  (∀ p, p ∈ programs → is_program p = true → inside p) →
  py_foldl (add_program ns3_path out_dir build_profile ns3_version exists_) maps programs =
    Ok (foldl put_entry maps (omap (M := list) entry_of (filter (λ p, is_program p = true) programs))).
Proof.
  revert maps. induction programs as [|p programs IH]; intros maps Hp; [done|]. cbn [py_foldl].
  assert (∀ q, q ∈ programs → is_program q = true → inside q) as Hps by (intros q Hq; apply Hp; by right).
  rewrite filter_cons. destruct (decide (is_program p = true)) as [Ep|Ep].
  - cbn [omap list_omap]. destruct (shortcut_path_ok p) as (l & Hl & _); [apply Hp; [left|done]|].
    unfold add_program at 2, entry_of at 1. apply negb_true_iff in Ep. rewrite Ep, Hl. cbn [mbind py_bind foldl].
    rewrite IH by done. by rewrite add_shortcuts_keys.
  - unfold add_program at 2. apply not_true_iff_false, negb_false_iff in Ep. rewrite Ep. by apply IH.
Qed.
End shortcut_facts.

(** C19: For programs inside the output directory the shortcuts are found for sure, and each of them leads
    to one program exactly when that program alone has the shortcut; a shortcut of several programs
    leads to the list of their longest shortcuts, in the order of the programs; a script takes a
    shortcut from every program, and the last script takes it from the others. *)
Theorem get_program_shortcuts_spec (ns3_path out_dir build_profile ns3_version : string) (exists_ : string → bool)
    (programs_dict : variables) (programs scripts scratch_scripts : list string) :
  programs_dict !! "ns3_runnable_programs" = Some (VList programs) →
  programs_dict !! "ns3_runnable_scripts" = Some (VList scripts) →
  (∀ p, p ∈ programs → is_program p = true → inside out_dir p) →
  let es := omap (M := list) (entry_of ns3_path out_dir build_profile ns3_version exists_) (filter (λ p, is_program p = true) programs) in
  let all_scripts := if decide (scripts = []) then [] else scripts ++ scratch_scripts in
  ∃ m, get_program_shortcuts ns3_path out_dir build_profile ns3_version exists_ programs_dict scratch_scripts = Ok m ∧
    ∀ k, m !! k = match script_for ns3_path all_scripts k with
                  | Some s => Some [strip s]
                  | None => match hits k es with
                            | [] => None
                            | [(_, p)] => Some [p]
                            | several => Some several.*1
                            end
                  end.
Proof.
  intros Hp Hs Hin es all_scripts. unfold get_program_shortcuts, item. rewrite Hp.
  cbn [or_raise mbind py_bind as_list].
  rewrite add_programs_ok by done. cbn [mbind py_bind]. rewrite Hs. cbn [or_raise mbind py_bind as_list].
  eexists. split; [reflexivity|].
  intros k. rewrite add_scripts_lookup. fold all_scripts es. destruct (script_for ns3_path all_scripts k); [done|].
  rewrite filter_collisions_lookup. destruct (put_entries es (∅, ∅) k) as [-> ->]. cbn [fst snd].
  rewrite !lookup_empty.
  destruct (hits k es) as [|[a p] [|[b q] hs]]; [done..|]. rewrite !fmap_cons.
  cbn [appended from_option id app fst length].
  by rewrite decide_True by lia.
Qed.

Definition path_a : string := "/h/ns3/build/src/aodv/examples/ns3-dev-aodv-default".
Definition path_b : string := "/h/ns3/build/examples/ns3-dev-aodv-default".
Definition path_c : string := "/h/ns3/build/scratch/sub/ns3-dev-first-default".
Definition demo_dict : variables :=
  {[ "ns3_runnable_programs" := VList [path_a; path_b; path_c]; "ns3_runnable_scripts" := VList ["/h/ns3/scratch/first.py"] ]}.
Definition shortcuts : py exn str_map := get_program_shortcuts "/h/ns3" "/h/ns3/build" "default" "3-dev" (λ _, false) demo_dict [].

Lemma get_program_shortcuts_spec_witness :
  ∃ m, shortcuts = Ok m ∧ m !! "first" = Some [path_c] ∧ m !! "aodv" = Some ["src/aodv/examples/aodv"; "examples/aodv"].
Proof.
  destruct (get_program_shortcuts_spec "/h/ns3" "/h/ns3/build" "default" "3-dev" (λ _, false) demo_dict
    [path_a; path_b; path_c] ["/h/ns3/scratch/first.py"] []) as (m & Hm & Hk); [reflexivity..| |].
  { intros p Hp _. elem_cases Hp; reflexivity. }
  exists m. split; [exact Hm|]. rewrite !Hk. split; vm_compute; reflexivity.
Defined.

(** A program whose path is the end of the path of another one has no shortcut of its own: the one that
    the message about the collision proposes is ambiguous as well. *)
Lemma shadowed_program :
  (m ← shortcuts; Ok (omap (M := list) (λ kv, if decide (path_b ∈ kv.2) then Some kv.1 else None) (map_to_list m))) = Ok [] ∧
  (m ← shortcuts; Ok (check_ambiguous_target "Run" "examples/aodv" m)) =
    Ok ([ambiguous_message "Run" "examples/aodv" ["src/aodv/examples/aodv"; "examples/aodv"]], Raise (SystemExit 1)).
Proof. split; vm_compute; reflexivity. Qed.

Example overlap_src :
  remove_overlapping_path "/home/me/src/ns3/build" "/home/me/src/ns3/build/src/aodv/examples/aodv" = Ok "aodv/examples/aodv".
Proof. reflexivity. Qed.

(** ** CMake caches *)

Definition profile_line (build_profile : option string) (line : string) : bool :=
  has_sub "build_profile:INTERNAL" line &&
  match build_profile with Some p => bool_decide (p = "") || bool_decide (p = after_equals line) | None => true end.
Definition generator_line (line : string) : bool := has_sub "CMAKE_GENERATOR:" line.
Definition matches (build_profile : option string) (f : string * string) : bool :=
  existsb (profile_line build_profile) (split_all nl_char f.2).
(** A cache file as CMake writes it: inside a folder, with a generator. *)
Definition cache_file (f : string * string) : Prop :=
  dirname f.1 ≠ "" ∧ existsb generator_line (split_all nl_char f.2) = true ∧
  ∀ line, line ∈ split_all nl_char f.2 → generator_line line = true → after_equals line ≠ "".
Definition generators (f : string * string) : list string :=
  after_equals <$> filter (λ line, generator_line line = true) (split_all nl_char f.2).

Definition found_ok (path : string) (lines : list string) (found : option string * option string) : Prop :=
  (found.1 = None ∨ found.1 = Some (dirname path)) ∧
  (found.2 = None ∨ ∃ line, line ∈ lines ∧ generator_line line = true ∧ found.2 = Some (after_equals line)).
Definition is_some {A} (o : option A) : bool := match o with Some _ => true | None => false end.

Lemma scan_lines_spec p path all found lines :
  dirname path ≠ "" → (∀ line, line ∈ all → generator_line line = true → after_equals line ≠ "") →
  lines ⊆ all → found_ok path all found →
  let r := scan_lines p path found lines in
  found_ok path all r ∧
  (both r = (is_some found.1 || existsb (profile_line p) lines) && (is_some found.2 || existsb generator_line lines)) ∧
  (both r = false → is_some r.1 = is_some found.1 || existsb (profile_line p) lines).
Proof.
  intros Hd Hg. revert found.
  assert (∀ found, found_ok path all found → both found = is_some found.1 && is_some found.2) as Hboth.
  { intros [f g] [Hf1 Hf2]. cbn in *. unfold both. destruct Hf1 as [->| ->]; [done|]. cbn.
    destruct Hf2 as [->|(l & Hl & Hgl & ->)]; [done|]. cbn. rewrite !bool_decide_true by auto. done. }
  induction lines as [|line lines IH]; intros found Hsub Hok; cbn [scan_lines existsb].
  - rewrite !orb_false_r. split; [done|]. split; [by apply Hboth|done].
  - destruct (both found) eqn:Eb.
    { split; [done|]. rewrite Eb. rewrite (Hboth found Hok) in Eb. apply andb_true_iff in Eb as [-> ->]. done. }
    assert (found_ok path all (read_cache_line p path found line)) as Hok'.
    { destruct found as [f g], Hok as [Hf1 Hf2]. cbn [read_cache_line fst snd] in *. split; cbn.
      - destruct (has_sub _ line); [|done]. destruct p as [p|]; [|by right]. repeat case_decide; auto.
      - destruct (has_sub "CMAKE_GENERATOR:" line) eqn:El; [|done]. right. exists line. split; [set_solver|done]. }
    assert (is_some (read_cache_line p path found line).1 = is_some found.1 || profile_line p line) as E1.
    { destruct found as [f g]. cbn [read_cache_line fst]. unfold profile_line.
      destruct (has_sub _ line); cbn; [|by rewrite orb_false_r].
      destruct p as [p|]; [|by rewrite orb_true_r].
      destruct (decide (p = "")) as [->|]; [cbn; by rewrite orb_true_r|].
      rewrite bool_decide_false by done. cbn. case_decide; [rewrite bool_decide_true|rewrite bool_decide_false]; cbn;
        rewrite ?orb_true_r, ?orb_false_r; done. }
    assert (is_some (read_cache_line p path found line).2 = is_some found.2 || generator_line line) as E2.
    { destruct found as [f g]. cbn [read_cache_line snd]. unfold generator_line.
      destruct (has_sub _ line); by rewrite ?orb_true_r, ?orb_false_r. }
    destruct (IH (read_cache_line p path found line)) as (H1 & H2 & H3); [set_solver|done|].
    rewrite E1 in H2, H3. rewrite E2 in H2. rewrite <-!orb_assoc in H2. rewrite <-orb_assoc in H3. done.
Qed.

Lemma scan_cache p f :
  cache_file f →
  let r := scan_lines p f.1 (None, None) (split_all nl_char f.2) in
  (if matches p f then both r = true ∧ r.1 = Some (dirname f.1) else both r = false ∧ r.1 = None) ∧
  ∃ g, r.2 = Some g ∧ g ∈ generators f ∧ g ≠ "".
Proof.
  intros (Hd & Hg & Hne) r.
  destruct (scan_lines_spec p f.1 (split_all nl_char f.2) (None, None) (split_all nl_char f.2)) as (Hok & Hb & Hf);
    [done|done|done|by split; left|]. fold r in Hok, Hb, Hf. cbn [is_some fst snd orb] in Hb, Hf.
    rewrite Hg, andb_true_r in Hb.
  fold (matches p f) in Hb, Hf. destruct Hok as [H1 H2].
  assert (∃ g, r.2 = Some g ∧ g ∈ generators f ∧ g ≠ "") as Hgen.
  { destruct H2 as [H2|(line & Hl & Hgl & H2)].
    - exfalso. unfold r in H2. clear -Hg H2. set (found := (None, None)) in H2.
      assert (is_some found.2 || existsb generator_line (split_all nl_char f.2) = true) as Hany by (by rewrite Hg).
      clear Hg. clearbody found. revert found H2 Hany.
      induction (split_all nl_char f.2) as [|line lines IH]; intros [o g] H2 Hany; cbn in *.
      + rewrite orb_false_r in Hany. by destruct g.
      + destruct o as [o|], g as [g|]; cbn in H2, Hany.
        all: try (destruct (bool_decide (o ≠ "") && bool_decide (g ≠ "")); [done|]).
        all: apply IH in H2; [done|]; cbn; unfold generator_line in *; by destruct (has_sub "CMAKE_GENERATOR:" line).
    - exists (after_equals line). split; [done|]. split; [|by apply Hne].
      apply list_elem_of_fmap_2. by apply list_elem_of_filter. }
  split; [|exact Hgen]. destruct (matches p f).
  - split; [exact Hb|]. destruct H1 as [H1|H1]; [|exact H1]. exfalso. unfold both in Hb. destruct r as [o g].
    cbn in H1. by rewrite H1 in Hb.
  - split; [exact Hb|]. specialize (Hf Hb). by destruct (r.1).
Qed.

(** With cache files as CMake writes them, [search_cmake_cache] returns the folder of the first cache
    of the build profile and a generator named there; when no cache has the profile there is no
    folder, and the generator is that of the last cache, whatever its profile; without any cache it
    is the first one installed, and an exception if none is. *)
Theorem search_cmake_cache_spec (which : string → option string) (files : list (string * string)) (build_profile : option string) :
  Forall cache_file files →
  match filter (λ f, matches build_profile f = true) files with
  | f :: _ => ∃ g, search_cmake_cache which files build_profile = Ok (Some (dirname f.1), g) ∧ g ∈ generators f
  | [] => match last files with
          | Some f => ∃ g, search_cmake_cache which files build_profile = Ok (None, g) ∧ g ∈ generators f
          | None => search_cmake_cache which files build_profile = (g ← default_generator which; Ok (None, g))
          end
  end.
Proof.
  intros Hfiles. unfold search_cmake_cache.
  assert (∀ found, both found = false →
    match filter (λ f, matches build_profile f = true) files with
    | f :: _ => ∃ g, scan_caches build_profile found files = (Some (dirname f.1), Some g) ∧ g ∈ generators f ∧ g ≠ ""
    | [] => match last files with
            | Some f => ∃ g, scan_caches build_profile found files = (None, Some g) ∧ g ∈ generators f ∧ g ≠ ""
            | None => scan_caches build_profile found files = found
            end
    end) as Hscan.
  { induction Hfiles as [|[path text] files Hf Hfs IH]; intros found Hb; [done|]. cbn [scan_caches]. rewrite Hb.
    destruct (scan_cache build_profile _ Hf) as [Hm (g & Hg & Hgen & Hne)]. cbn [fst snd] in *.
    set (r := scan_lines _ _ _ _) in *. rewrite filter_cons. destruct (matches build_profile (path, text)) eqn:Em.
    - rewrite decide_True by done. destruct Hm as [Hr H1]. exists g.
      assert (scan_caches build_profile r files = r) as -> by (destruct files as [|[] files]; cbn; by rewrite ?Hr).
      destruct r; cbn in *; subst. done.
    - rewrite decide_False by done. destruct Hm as [Hr H1]. specialize (IH r Hr).
      destruct (filter _ files); [|done]. rewrite last_cons. destruct (last files) as [f'|]; [done|].
      exists g. rewrite IH. destruct r; cbn in *; subst. done. }
  specialize (Hscan (None, None) eq_refl). destruct (filter _ files) as [|f fs].
  - destruct (last files) as [f|].
    + destruct Hscan as (g & -> & Hg & Hne). exists g. by rewrite decide_False.
    + by rewrite Hscan.
  - destruct Hscan as (g & -> & Hg & Hne). exists g. by rewrite decide_False.
Qed.

Definition demo_caches : list (string * string) :=
  [("/h/ns3/old/CMakeCache.txt", join nl ["CMAKE_GENERATOR:INTERNAL=Ninja"; "build_profile:INTERNAL=debug"]);
   ("/h/ns3/cmake-cache/CMakeCache.txt", join nl ["CMAKE_GENERATOR:INTERNAL=Unix Makefiles"; "build_profile:INTERNAL=default"])].
Lemma demo_caches_ok : Forall cache_file demo_caches.
Proof.
  repeat constructor; try (by vm_compute); intros line Hl Hg; vm_compute in Hl; elem_cases Hl; vm_compute;
    congruence || (by vm_compute in Hg).
Qed.
Lemma search_cmake_cache_spec_witness :
  ∃ g, search_cmake_cache (λ _, None) demo_caches (Some "default") = Ok (Some "/h/ns3/cmake-cache", g) ∧ g = "Unix Makefiles".
Proof.
  destruct (search_cmake_cache_spec (λ _, None) demo_caches (Some "default") demo_caches_ok) as (g & Hs & Hg).
  exists g. split; [exact Hs|]. vm_compute in Hg. by apply list_elem_of_singleton in Hg.
Defined.

(** ** Build targets *)

Lemma match_lit_self p r : match_lit p (p ++ r) = Some r.
Proof. induction p as [|c p IH]; [done|]. cbn. by rewrite decide_True by (by right). Qed.
Lemma match_lit_length p s r : match_lit p s = Some r → length s = length p + length r.
Proof.
  revert s. induction p as [|c p IH]; intros s; cbn; [by intros [= ->]|]. destruct s as [|d s]; [done|].
  case_decide; [|done]. intros Hr%IH. cbn. lia.
Qed.
Lemma last_match_none {A} p (k : list ascii → option A) s : last_match p Some s = None → last_match p k s = None.
Proof.
  induction s as [|c s IH]; cbn; [by destruct (match_lit p [])|].
  destruct (last_match p Some s) as [[]|]; [done|]. rewrite IH by done.
  destruct (match_lit p (c :: s)); [done|]. done.
Qed.
Lemma last_match_app {A} p (k : list ascii → option A) a s pre x :
  last_match p k s = Some (pre, x) → last_match p k (a ++ s) = Some (a ++ pre, x).
Proof. intros Hs. induction a as [|c a IH]; [done|]. cbn. by rewrite IH. Qed.
(** The last occurrence is at the front. *)
Lemma last_match_front {A} c p (k : list ascii → option A) r x :
  last_match (c :: p) Some (p ++ r) = None → k r = Some x → last_match (c :: p) k ((c :: p) ++ r) = Some ([], x).
Proof.
  intros Hn Hk. cbn [app last_match]. rewrite last_match_none by done.
  change (c :: p ++ r) with ((c :: p) ++ r). rewrite match_lit_self, Hk. done.
Qed.
Lemma last_match_end p a : last_match p Some (a ++ p) = Some (a, []).
Proof.
  assert (last_match p Some p = Some ([], [])) as Hp.
  { assert (∀ s, length s < length p → last_match p Some s = None) as Hshort.
    { induction s as [|c s IH]; intros Hl; cbn.
      - destruct (match_lit p []) eqn:E; [|done]. apply match_lit_length in E. cbn in *. lia.
      - rewrite IH by (cbn in Hl; lia). destruct (match_lit p (c :: s)) eqn:E; [|done].
        apply match_lit_length in E. lia. }
    assert (match_lit p p = Some []) as Hself by (pose proof (match_lit_self p []) as H; by rewrite app_nil_r in H).
    assert (∀ q, match_lit p q = Some [] → last_match p Some q = Some ([], [])) as Hq; [|by apply Hq].
    intros [|c q] Hm; cbn [last_match]; [by rewrite Hm|].
    rewrite (Hshort q) by (apply match_lit_length in Hm; cbn in *; lia). by rewrite Hm. }
  rewrite (last_match_app p Some a p [] [] Hp). by rewrite app_nil_r.
Qed.

Lemma join_snoc l x : join "/" (l ++ [x]) = concat_str ((λ d, d +:+ "/") <$> l) +:+ x.
Proof.
  induction l as [|y l IH]; [done|]. cbn [app fmap list_fmap concat_str].
  change (join "/" (y :: l ++ [x])) with (match (l ++ [x])%list with [] => y | _ => y +:+ "/" +:+ join "/" (l ++ [x]) end).
  destruct (l ++ [x])%list eqn:E; [by destruct l|]. rewrite IH. by rewrite <-!string_app_assoc.
Qed.

(** Replacing one character by another. *)
Lemma replace_char_app (a b : string) :
  replace_all "/" "_" (a +:+ b) = replace_all "/" "_" a +:+ replace_all "/" "_" b.
Proof.
  unfold replace_all. rewrite !decide_False by done. induction a as [|c a IH]; [done|].
  cbn [String.append replace_go].
  assert (∀ s, startswith (String c s) "/" = bool_decide ("/"%char = c)) as Hs.
  { intros s. unfold startswith. cbn [strip_prefix]. apply bool_decide_ext.
    case_decide; subst; split; try done; by intros []. }
  rewrite !Hs. destruct (bool_decide ("/"%char = c)); cbn [String.append];
    [change (String.length "/" - 1) with 0|]; by rewrite IH.
Qed.
Lemma replace_slashes_none s : has_char "/" s = false → replace_all "/" "_" s = s.
Proof.
  intros Hs. apply replace_absent; [done|]. destruct (has_sub "/" s) eqn:E; [|done].
  apply has_sub_spec in E as (a & b & ->).
  rewrite has_char_app in Hs. cbn in Hs. by rewrite orb_true_r in Hs.
Qed.
Lemma replace_slashes_join l : Forall (λ x, has_char "/" x = false) l → replace_all "/" "_" (join "/" l) = join "_" l.
Proof.
  induction 1 as [|x l Hx Hl IH]; [done|]. destruct l as [|y l]; [by apply replace_slashes_none|].
  change (join "/" (x :: y :: l)) with (x +:+ "/" +:+ join "/" (y :: l)).
  rewrite !replace_char_app, IH, (replace_slashes_none x) by done. done.
Qed.

Definition profile_suffix (build_profile : string) : string :=
  if decide (build_profile ∈ ["release"]) then "" else "-" +:+ build_profile.
(** The path that the build gives to the program [name] of a directory. *)
Definition executable (out_dir ns3_version build_profile : string) (dirs : list string) (name : string) : string :=
  out_dir +:+ "/" +:+ join "/" (dirs ++ ["ns" +:+ ns3_version +:+ "-" +:+ name +:+ profile_suffix build_profile]).

Lemma program_regex_executable out_dir ns3_version build_profile dirs name :
  last_match (chars ("ns" +:+ ns3_version +:+ "-")) Some
    (chars ("s" +:+ ns3_version +:+ "-" +:+ name +:+ profile_suffix build_profile)) = None →
  program_regex ns3_version (profile_suffix build_profile) (executable out_dir ns3_version build_profile dirs name) =
    Some (out_dir +:+ "/" +:+ concat_str ((λ d, d +:+ "/") <$> dirs), name).
Proof.
  intros Hn. unfold program_regex, executable. rewrite join_snoc.
  set (pre := out_dir +:+ "/" +:+ concat_str _). set (suffix := profile_suffix build_profile) in *.
  assert (last_match (chars ("ns" +:+ ns3_version +:+ "-")) (λ rest, fst <$> last_match (chars suffix) Some rest)
            (chars ("ns" +:+ ns3_version +:+ "-" +:+ name +:+ suffix)) = Some ([], chars name)) as Hfront.
  { set (p := "s"%char :: chars ns3_version ++ ["-"%char]).
    assert (∀ r, chars ("s" +:+ ns3_version +:+ "-" +:+ r) = p ++ chars r) as Hp.
    { intros r. unfold p. rewrite !chars_app. cbn [chars app]. by rewrite <-app_assoc. }
    assert (chars ("ns" +:+ ns3_version +:+ "-") = "n"%char :: p) as Hnp by (unfold p; by rewrite !chars_app).
    rewrite Hnp in *. rewrite Hp in Hn. change ("ns" +:+ ?r) with (String "n" ("s" +:+ r)). cbn [chars]. rewrite Hp.
    rewrite chars_app in *. apply (last_match_front "n"%char p); [exact Hn|]. by rewrite last_match_end. }
  apply (last_match_app _ _ (chars pre)) in Hfront. rewrite <-chars_app in Hfront.
  replace (out_dir +:+ "/" +:+ concat_str ((λ d, d +:+ "/") <$> dirs) +:+ "ns" +:+ ns3_version +:+ "-" +:+ name +:+ suffix)
    with (pre +:+ "ns" +:+ ns3_version +:+ "-" +:+ name +:+ suffix) by (unfold pre; by rewrite <-!string_app_assoc).
  rewrite Hfront. cbn [mbind option_bind]. rewrite app_nil_r. by rewrite !implode_chars.
Qed.

(** For a program where the build puts it, [get_target_to_build] gives the target of CMake: its name,
    or for a program of the scratch directory the components of its path joined by underscores, provided
    the output directory itself has no [scratch] in its path, where every program gets the second kind. *)
Theorem get_target_to_build_spec (out_dir ns3_version build_profile name : string) (dirs : list string) :
  let path := executable out_dir ns3_version build_profile dirs name in
  out_dir ≠ "" → Forall (λ x, has_char "/" x = false) (dirs ++ [name]) →
  has_sub ".py" path = false → has_sub out_dir ("/" +:+ join "/" (dirs ++ [name])) = false →
  last_match (chars ("ns" +:+ ns3_version +:+ "-")) Some
    (chars ("s" +:+ ns3_version +:+ "-" +:+ name +:+ profile_suffix build_profile)) = None →
  get_target_to_build out_dir path ns3_version build_profile =
    ([], Ok (Some (if has_sub "scratch" path then join "_" (dirs ++ [name]) else name))).
Proof.
  intros path Hout Hnames Hpy Hrel Hn. unfold get_target_to_build. rewrite Hpy. fold (profile_suffix build_profile).
  unfold path at 1. rewrite (program_regex_executable _ _ _ _ _ Hn). f_equal. f_equal. f_equal.
  replace ((out_dir +:+ "/" +:+ concat_str ((λ d, d +:+ "/") <$> dirs)) +:+ name) with (out_dir +:+ "/" +:+ join "/" (dirs ++ [name]))
    by (rewrite join_snoc; by rewrite <-!string_app_assoc).
  destruct (has_sub "scratch" path).
  - rewrite replace_front by done. change ("" +:+ ?x) with x. rewrite (replace_absent out_dir) by done.
    rewrite replace_char_app, replace_slashes_join by done.
    change (replace_all "/" "_" "/") with "_". cbn [String.append chars drop]. by rewrite drop_0, implode_chars.
  - unfold Path.basename. change ("/" +:+ join "/" (dirs ++ [name])) with (String "/" (join "/" (dirs ++ [name]))).
    rewrite last_split_all, split_all_join; [by rewrite last_snoc|by destruct dirs|done].
Qed.

(** Two trees: in the second one the output directory is below [/scratch]. *)
Lemma get_target_to_build_spec_witness :
  get_target_to_build "/h/ns3/build" "/h/ns3/build/scratch/sub/ns3-dev-first-default" "3-dev" "default" =
    ([], Ok (Some "scratch_sub_first")) ∧
  get_target_to_build "/scratch/me/build" "/scratch/me/build/src/aodv/examples/ns3-dev-aodv" "3-dev" "release" =
    ([], Ok (Some "src_aodv_examples_aodv")).
Proof.
  split.
  - apply (get_target_to_build_spec "/h/ns3/build" "3-dev" "default" "first" ["scratch"; "sub"]);
      try reflexivity; [done|by repeat constructor].
  - apply (get_target_to_build_spec "/scratch/me/build" "3-dev" "release" "aodv" ["src"; "aodv"; "examples"]);
      try reflexivity; [done|by repeat constructor].
Defined.

(** A directory whose name contains [.py] makes every program below it a script. *)
Example dot_py_directory :
  get_target_to_build "/h/.pyenv/ns3/build" "/h/.pyenv/ns3/build/scratch/ns3-dev-first-default" "3-dev" "default" = ([], Ok None).
Proof. reflexivity. Qed.

(** ** Settings of the cache *)

Lemma split_first_front sub r : split_first sub (sub +:+ r) = Some ("", r).
Proof.
  pose proof (strip_prefix_app sub r) as H. destruct (sub +:+ r); cbn [split_first]; by rewrite H.
Qed.
Lemma split_last_app c a b : has_char c b = false → split_last c (a +:+ String c b) = Some (a, b).
Proof. intros Hb. by apply split_last_Some. Qed.
Lemma split_last_longer c a b : has_char c b = true → ∃ a' b', split_last c (a +:+ String c b) = Some (a', b') ∧ b' ≠ b.
Proof.
  intros Hb. destruct (split_last c b) as [[x y]|] eqn:E; [|apply split_last_None in E; congruence].
  apply split_last_Some in E as [-> Hy]. exists (a +:+ String c x), y. split.
  - apply split_last_Some. split; [|done]. by rewrite <-string_app_assoc.
  - intros Heq. apply (f_equal String.length) in Heq. revert Heq. clear. induction x as [|d x IH]; cbn in *; [lia|].
    intros Heq. assert (∀ s t, String.length (s +:+ t) = String.length s + String.length t) as Hlen.
    { induction s as [|e s IHs]; intros t; cbn; [done|]. by rewrite IHs. }
    rewrite Hlen in Heq. cbn in Heq. lia.
Qed.

(** A setting of the cache is read back as it stands exactly when its value contains no equals sign:
    from a value such as [-std=c++17] only the part after the last one is kept, for the variables of
    ns-3 as for those of CMake. *)
Theorem setting_kept_iff (name type value : string) :
  has_char ":" name = false → has_char ":" type = false →
  (find_ns3_setting ("NS3_" +:+ name +:+ ":" +:+ type +:+ "=" +:+ value) = Some ("NS3_" +:+ name, value)
     ↔ has_char "=" value = false) ∧
  (find_cmake_setting name (name +:+ ":" +:+ type +:+ "=" +:+ value) = Some (name, value)
     ↔ has_char "=" value = false).
Proof.
  intros Hn Ht. unfold find_ns3_setting, find_cmake_setting.
  replace (name +:+ ":" +:+ type +:+ "=" +:+ value) with ((name +:+ ":") +:+ type +:+ "=" +:+ value) by (by rewrite <-string_app_assoc).
  rewrite !split_first_front. cbn [mbind option_bind].
  replace ((name +:+ ":") +:+ type +:+ "=" +:+ value) with ((name +:+ ":" +:+ type) +:+ String "=" value) by (by rewrite <-!string_app_assoc).
  change ("=" +:+ value) with (String "=" value). destruct (has_char "=" value) eqn:Hv.
  - destruct (split_last_longer "=" (name +:+ ":" +:+ type) value Hv) as (a & b & -> & Hb).
    destruct (split_last_longer "=" type value Hv) as (a' & b' & -> & Hb'). cbn [mbind option_bind].
    split; (split; [|done]).
    + destruct (split_last ":" a) as [[k t]|]; cbn [mbind option_bind]; intros [=]; congruence.
    + intros [=]. congruence.
  - rewrite !split_last_app by done. cbn [mbind option_bind]. change (":" +:+ type) with (String ":" type).
    rewrite split_last_app by done. done.
Qed.
Lemma setting_kept_iff_witness :
  find_cmake_setting "CMAKE_CXX_FLAGS" "CMAKE_CXX_FLAGS:STRING=-O2 -std=c++17" ≠ Some ("CMAKE_CXX_FLAGS", "-O2 -std=c++17") ∧
  find_ns3_setting "NS3_LOG:BOOL=ON" = Some ("NS3_LOG", "ON").
Proof.
  split.
  - intros H. apply (setting_kept_iff "CMAKE_CXX_FLAGS" "STRING" "-O2 -std=c++17") in H;
      [discriminate H|reflexivity..].
  - apply (setting_kept_iff "LOG" "BOOL" "ON"); reflexivity.
Defined.

(** The folder that is found is that of one of the caches. *)
Lemma scan_lines_folder p path found lines folder :
  (scan_lines p path found lines).1 = Some folder → found.1 = Some folder ∨ folder = dirname path.
Proof.
  revert found. induction lines as [|line lines IH]; intros found; cbn [scan_lines]; [by left|].
  destruct (both found); [by left|]. intros [Hr|?]%IH; [|by right]. destruct found as [f g].
  cbn [read_cache_line fst] in Hr.
  destruct (has_sub _ line); [|by left]. destruct p as [p|]; [|right; by injection Hr].
  repeat case_decide; [right; by injection Hr..|by left].
Qed.
Lemma search_cmake_cache_folder which files p folder g :
  search_cmake_cache which files p = Ok (Some folder, g) → folder ∈ dirname <$> files.*1.
Proof.
  assert (∀ found, (scan_caches p found files).1 = Some folder → found.1 = Some folder ∨ folder ∈ dirname <$> files.*1) as Hscan.
  { induction files as [|[path text] files IH]; intros found; cbn [scan_caches]; [by left|].
    destruct (both found); [by left|].
    intros [Hr|Hr]%IH; [|right; rewrite !fmap_cons; by right]. apply scan_lines_folder in Hr as [[=]| ->].
    right. left. }
  unfold search_cmake_cache. destruct (scan_caches p (None, None) files) as [f o] eqn:E. intros Hs.
  specialize (Hscan (None, None)). rewrite E in Hscan. cbn in Hscan.
  enough (f = Some folder) as -> by (by destruct (Hscan eq_refl)).
  destruct o as [o|]; [destruct (decide (o = ""))|]; try destruct (default_generator which); cbn in Hs;
    by simplify_eq.
Qed.
