(* ===== verification/Ns3Main.v ===== *)
(** * The steps of the wrapper script [ns3]

    [main] and the steps that it calls, as programs over a world: the file system, the environment, the
    global variables of the script, what was printed, and the commands that were run with their
    outcomes.  The surroundings are the class [System]: the other programs, the Python code of the
    lock file, the order in which directories are listed, and json. *)

From stdpp Require Import base list strings gmap.
From Stdlib Require Import Ascii.
From S2P Require Import Prelude PyStr TestJobs TestConfig Ns3Args Ns3Programs.
Open Scope nat_scope.

(** ** The world *)

(** [suid] is the bit [S_ISUID] of the mode. *)
Inductive node := Dir | File (text : string) (suid : bool).
(** Keys are absolute, normalised paths. *)
Abbreviation fs := (gmap string node).

Record command := Command { argv : list string; directory : string; env : gmap string string; input : string }.
Inductive outcome :=
| Exited (code : Z) (out err : string)
| Interrupted
| NotStarted.

Record world := World {
  disk : fs; environ : gmap string string; out_dir : string; run_verbose : bool; print_buffer : string;
  stdout : list string; log : list (command * outcome); at_exit : option bool }.

Class System := {
  ns3_path : string;
  platform : string;
  cpu_count : Z;
  getcwd : string;
  (** [shutil.which]. *)
  which : string → option string;
  (** What a command does to the files, and how it ends; it may depend on everything run before. *)
  run_process : list (command * outcome) → command → fs → outcome * fs;
  (** An exit status has eight bits, and a signal is reported as a negative number. *)
  exit_status : ∀ l c m code out err, (run_process l c m).1 = Exited code out err → (-256 < code < 256)%Z;
  (** The variables that the code of a lock file assigns. *)
  exec_code : string → py exn variables;
  (** The order in which a file system is listed. *)
  scan : fs → list string;
  scan_perm : ∀ m, scan m ≡ₚ (map_to_list m).*1;
  json_dump : ordered_dict → string;
  json_load : string → py exn ordered_dict;
  json_load_dump : ∀ d, json_load (json_dump d) = Ok d;
  (** [str] of a [CalledProcessError]. *)
  error_message : string → Z → string;
  (** The password that the user types. *)
  getpass : string
}.

Section script.
Context `{System}.
Abbreviation M := (stx world exn).

(** ** Files and paths *)

Definition lock_file : string := ns3_path +:+ "/" +:+ ".lock-ns3_" +:+ platform +:+ "_build".
Definition path_sep : string := if decide (platform = "win32") then ";" else ":".
Definition resolve (p : string) : string := Path.abspath getcwd p.
Definition relative (p start : string) : string := relpath getcwd p start.

Definition set_disk (f : fs → fs) : M unit := modify_st (λ w,
  World (f (disk w)) (environ w) (out_dir w) (run_verbose w) (print_buffer w) (stdout w) (log w) (at_exit w)).
Definition set_environ (f : gmap string string → gmap string string) : M unit := modify_st (λ w,
  World (disk w) (f (environ w)) (out_dir w) (run_verbose w) (print_buffer w) (stdout w) (log w) (at_exit w)).
Definition set_out_dir (d : string) : M unit := modify_st (λ w,
  World (disk w) (environ w) d (run_verbose w) (print_buffer w) (stdout w) (log w) (at_exit w)).
Definition set_run_verbose (b : bool) : M unit := modify_st (λ w,
  World (disk w) (environ w) (out_dir w) b (print_buffer w) (stdout w) (log w) (at_exit w)).
Definition print (s : string) : M unit := modify_st (λ w,
  World (disk w) (environ w) (out_dir w) (run_verbose w) (print_buffer w) (stdout w ++ [s +:+ nl]) (log w) (at_exit w)).
Definition print_and_buffer (message : string) : M unit := modify_st (λ w,
  World (disk w) (environ w) (out_dir w) (run_verbose w) (print_buffer w +:+ nl +:+ message) (stdout w) (log w) (at_exit w)).
Definition register (dry_run : bool) : M unit := modify_st (λ w,
  World (disk w) (environ w) (out_dir w) (run_verbose w) (print_buffer w) (stdout w) (log w) (Some dry_run)).
Definition exit {A} (code : Z) : M A := raise_st (SystemExit code).
Definition when (b : bool) (m : M unit) : M unit := if b then m else mret tt.
(** What a pure helper prints before it returns or exits. *)
Definition run_pure {A} (r : list string * py exn A) : M A := _ ← for_st print r.1; lift_py r.2.

Definition exists_at (m : fs) (p : string) : bool := bool_decide (is_Some (m !! resolve p)).
Definition path_exists (p : string) : M bool := w ← get_st; mret (exists_at (disk w) p).
Definition read_text (p : string) : M string :=
  w ← get_st;
  match disk w !! resolve p with Some (File t _) => mret t | _ => raise_st OSError end.
(** [open(p, "w")] needs the directory; an existing file keeps its mode. *)
Definition write_text (p text : string) : M unit :=
  w ← get_st;
  match disk w !! dirname (resolve p), disk w !! resolve p with
  | Some Dir, Some Dir => raise_st OSError
  | Some Dir, Some (File _ b) => set_disk (<[ resolve p := File text b ]>)
  | Some Dir, None => set_disk (<[ resolve p := File text false ]>)
  | _, _ => raise_st OSError
  end.
(** A path at or below a directory. *)
Definition below (d p : string) : bool :=
  bool_decide (p = d) || startswith p (if decide (d = "/") then "/" else d +:+ "/").
Definition remove_tree (d : string) (m : fs) : fs := filter (λ kv, below d kv.1 = false) m.
Definition rmtree (p : string) (ignore_errors : bool) : M unit :=
  w ← get_st;
  match disk w !! resolve p with
  | Some Dir => set_disk (remove_tree (resolve p))
  | _ => if ignore_errors then mret tt else raise_st OSError
  end.
Definition remove (p : string) : M unit :=
  w ← get_st;
  match disk w !! resolve p with Some (File _ _) => set_disk (delete (resolve p)) | _ => raise_st OSError end.
Definition mkdir (p : string) : M unit :=
  w ← get_st;
  match disk w !! dirname (resolve p), disk w !! resolve p with
  | Some Dir, None => set_disk (<[ resolve p := Dir ]>)
  | _, _ => raise_st OSError
  end.
(** [os.makedirs(p, exist_ok=True)]; the directory above is the source tree, which exists. *)
Definition makedirs (p : string) : M unit :=
  w ← get_st;
  match disk w !! resolve p with
  | Some Dir => mret tt
  | Some (File _ _) => raise_st OSError
  | None => mkdir p
  end.

(** [glob.glob(pattern, recursive=True)]: [**] stands for any directories that are not hidden. *)
Definition has_magic (s : string) : bool := has_char "*" s || has_char "?" s || has_char "[" s.
Definition hidden (s : string) : bool := startswith s ".".
Definition component_matches (p c : string) : bool :=
  if has_magic p then (hidden p || negb (hidden c)) && Fnmatch.matches (Fnmatch.tokens (String.length p) (chars p)) (chars c)
  else bool_decide (p = c).
Fixpoint glob_match (pattern path : list string) : bool :=
  match pattern with
  | [] => bool_decide (path = [])
  | p :: pattern' =>
      if decide (p = "**") then
        (fix any (path : list string) : bool :=
           glob_match pattern' path || match path with [] => false | c :: path => negb (hidden c) && any path end) path
      else match path with [] => false | c :: path => component_matches p c && glob_match pattern' path end
  end.
Definition glob (pattern : string) (m : fs) : list string :=
  filter (λ p, glob_match (split_all "/" pattern) (split_all "/" p) = true) (scan m).

(** ** Running commands *)

Definition start (c : command) : M outcome := λ w,
  let '(r, m) := run_process (log w) c (disk w) in
  (Ok r, World m (environ w) (out_dir w) (run_verbose w) (print_buffer w) (stdout w) (log w ++ [(c, r)]) (at_exit w)).
(** [subprocess.run] without [check]: the status and the two outputs. *)
Definition subprocess_run (c : command) : M (Z * string * string) :=
  r ← start c;
  match r with
  | Exited code out err => mret (code, out, err)
  | Interrupted => raise_st KeyboardInterrupt
  | NotStarted => raise_st OSError
  end.

(** ** [exit_handler] and the cleaning of the tree *)

Definition exit_handler (dry_run : bool) : M unit :=
  w ← get_st;
  if negb dry_run && negb (run_verbose w) then mret tt
  else if decide (print_buffer w = "") then mret tt
  else
    _ ← (if dry_run then print "The following commands would be executed:"
         else print "Finished executing the following commands:");
    print (implode (drop 1 (chars (print_buffer w)))).

Definition cache_pattern : string := ns3_path +:+ "/**/CMakeCache.txt".
Definition clean_cache (dry_run : bool) (cmake_cache_file : string) : M unit :=
  _ ← print_and_buffer ("rm -R " +:+ relative (dirname cmake_cache_file) ns3_path);
  when (negb dry_run) (rmtree (dirname cmake_cache_file) true).
Definition clean_cmake_artifacts (dry_run : bool) : M unit :=
  w ← get_st;
  _ ← print_and_buffer ("rm -R " +:+ relative (out_dir w) ns3_path);
  _ ← when (negb dry_run) (rmtree (out_dir w) true);
  w ← get_st;
  _ ← for_st (clean_cache dry_run) (glob cache_pattern (disk w));
  locked ← path_exists lock_file;
  if locked : bool then
    _ ← print_and_buffer ("rm " +:+ relative lock_file ns3_path);
    when (negb dry_run) (remove lock_file)
  else mret tt.

(** ** The lock file and the caches *)

Definition check_lock_data (output_directory : string) : M (variables * val) :=
  locked ← path_exists lock_file;
  if bool_decide (output_directory ≠ "") && (locked : bool) then
    text ← read_text lock_file;
    assigned ← lift_py (exec_code text);
    lift_py (module_targets (assigned ∪ initial_build_info))
  else mret (initial_build_info, VNone).

Definition search_cache (build_profile : val) : M (option string * string) :=
  w ← get_st;
  caches ← map_st (λ p, t ← read_text p; mret (p, t)) (glob cache_pattern (disk w));
  lift_py (search_cmake_cache which caches (match build_profile with VStr p => Some p | _ => None end)).

Definition project_not_configured {A} : M A :=
  _ ← print "You need to configure ns-3 first: try ./ns3 configure";
  exit 1.
Definition check_config (current_cmake_cache_folder : option string) : M unit :=
  match current_cmake_cache_folder with
  | None => project_not_configured
  | Some folder =>
      there ← path_exists (folder +:+ "/" +:+ "ns3config.txt");
      if there : bool then text ← read_text (folder +:+ "/" +:+ "ns3config.txt"); print text
      else project_not_configured
  end.
Definition project_configured (current_cmake_cache_folder : option string) : M bool :=
  match current_cmake_cache_folder with
  | None => mret false
  | Some folder =>
      if decide (folder = "") then mret false
      else
        there ← path_exists folder;
        cache ← path_exists (folder +:+ "/" +:+ "CMakeCache.txt");
        mret ((there : bool) && (cache : bool))
  end.

(** ** Configuring *)

Definition scratch_pattern : string := Path.join (Path.join (Path.join ns3_path "scratch") "**") "*.cc".
Definition scratches_file (folder : string) : string := Path.join folder "ns3scratches".
Definition update_scratches_list (folder : string) : M unit :=
  w ← get_st;
  write_text (scratches_file folder) (join nl (glob scratch_pattern (disk w))).

(** A command of the script with the environment of the process. *)
Definition call (args : list string) (folder : string) : M command :=
  w ← get_st; mret (Command args folder (environ w) "").
Definition must_succeed (r : Z * string * string) : M unit := when (bool_decide (r.1.1 ≠ 0%Z)) (exit r.1.1).

Definition cd_message (a command b : string) : string := "cd " +:+ a +:+ "; " +:+ command +:+ " ; cd " +:+ b.

Definition configure_cmake (cmake : string) (args : namespace) (current_cmake_cache_folder : option string)
    (current_cmake_generator : string) (dry_run : bool) : M unit :=
  configured ← project_configured current_cmake_cache_folder;
  let folder := match current_cmake_cache_folder with
                | Some f => if configured : bool then f else ns3_path +:+ "/" +:+ "cmake-cache"
                | None => ns3_path +:+ "/" +:+ "cmake-cache"
                end in
  _ ← (if configured : bool then mret tt
       else
         there ← path_exists folder;
         if there : bool then mret tt
         else
           _ ← print_and_buffer ("mkdir " +:+ relative folder ns3_path);
           when (negb dry_run) (makedirs folder));
  cmake_args ← lift_py (cmake_arguments getcwd ns3_path cmake args configured folder current_cmake_generator);
  _ ← print_and_buffer (cd_message (relative folder ns3_path) (join " " cmake_args) (relative ns3_path folder));
  when (negb dry_run) (
    c ← call cmake_args folder;
    r ← subprocess_run c;
    _ ← must_succeed r;
    update_scratches_list folder).

(** [shutil.which("cmake")] in the list of arguments: None is a TypeError. *)
Definition refresh_cmake (folder : string) : M unit :=
  match which "cmake" with
  | None => raise_st TypeError
  | Some cmake =>
      c ← call [cmake; ".."] folder;
      r ← subprocess_run c;
      _ ← must_succeed r;
      update_scratches_list folder
  end.

(** The first text after [version] in the output of CMake, up to the end of the line. *)
Definition version_of (output : string) : py exn string :=
  match split_first "version " output with
  | Some (_, r) => Ok (default "" (head (split_all nl_char r)))
  | None => Raise IndexError
  end.
Definition cmake_check_version : M (string * string) :=
  match which "cmake" with
  | None =>
      _ ← print "Error:  CMake not found; please install version 3.10 or greater, or modify $PATH";
      exit 1
  | Some cmake =>
      c ← call [cmake; "--version"] getcwd;
      r ← subprocess_run c;
      if decide (r.1.1 ≠ 0%Z) then raise_st (Exception_ "CalledProcessError")
      else
        version ← lift_py (version_of r.1.2);
        v ← lift_py (parse_version version);
        minimal ← lift_py (parse_version "3.10.0");
        if tuple_lt v minimal then
          _ ← print ("Error:  CMake found at " +:+ cmake +:+ " but version " +:+ version +:+ " is older than 3.10");
          exit 1
        else mret (cmake, version)
  end.

(** ** Building *)

Definition build_command (version : list Z) (jobs : Z) (target : option string) : string :=
  "cmake --build . " +:+ (if tuple_lt version [3; 12; 0]%Z then "" else "-j " +:+ str_of_Z jobs) +:+
  match target with Some t => if decide (t = "") then "" else " --target " +:+ t | None => "" end.
(** [output] is true for [--quiet]: the output of the build is then printed only when it fails. *)
Definition cmake_build (folder : string) (output : bool) (jobs : Z) (target : option string) (dry_run build_verbose : bool)
    : M unit :=
  '(_, version) ← cmake_check_version;
  v ← lift_py (parse_version version);
  let cmake_build_command := build_command v jobs target in
  _ ← print_and_buffer (cd_message (relative folder ns3_path) cmake_build_command (relative ns3_path folder));
  when (negb dry_run) (
    w ← get_st;
    let proc_env := if build_verbose then <[ "VERBOSE" := "1" ]> (environ w) else environ w in
    r ← subprocess_run (Command (words cmake_build_command) folder proc_env "");
    _ ← when (bool_decide (r.1.1 ≠ 0%Z) && output) (_ ← print r.1.2; print r.2);
    must_succeed r).

(** ** Refreshing with the settings of the cache *)

Definition settings_bak_file : string := "settings.json".
Definition extract_cmakecache_settings (current_cmake_cache_folder : option string) : M ordered_dict :=
  match current_cmake_cache_folder with
  | None => raise_st TypeError
  | Some folder => contents ← read_text (folder +:+ "/" +:+ "CMakeCache.txt"); lift_py (extract_settings contents)
  end.
Definition reconfigure_cmake_to_force_refresh (cmake : string) (current_cmake_cache_folder : option string) (dry_run : bool)
    : M unit :=
  backup ← path_exists settings_bak_file;
  settings ← (if backup : bool then text ← read_text settings_bak_file; lift_py (json_load text)
              else extract_cmakecache_settings current_cmake_cache_folder);
  match current_cmake_cache_folder with
  | None => raise_st TypeError
  | Some folder =>
      let cache_path := relative folder ns3_path in
      _ ← print_and_buffer ("rm -R " +:+ cache_path +:+ "; mkdir " +:+ cache_path);
      _ ← when (negb dry_run) (_ ← rmtree folder false; mkdir folder);
      _ ← write_text settings_bak_file (json_dump settings);
      let cmake_args := (cmake :: setting_arguments settings ++ [".."])%list in
      _ ← print_and_buffer (cd_message (relative ns3_path folder) (join " " cmake_args) (relative folder ns3_path));
      when (negb dry_run) (
        c ← call cmake_args folder;
        r ← subprocess_run c;
        _ ← (if decide (r.1.1 = 0%Z) then remove settings_bak_file
             else raise_st (Exception_ ("Reconfiguring CMake to force refresh failed. " +:+
                    "A backup of the settings was saved in " +:+ settings_bak_file)));
        update_scratches_list folder)
  end.

(** ** The steps of [main] *)

Definition attr (args : namespace) (name : string) : M val := lift_py (getattr args name).
Definition flag (args : namespace) (name : string) : M bool := v ← attr args name; mret (truthy v).
Definition int_attr (args : namespace) (name : string) : M Z :=
  v ← attr args name; match v with VInt z => mret z | _ => raise_st TypeError end.

Definition configuration_step (current_cmake_cache_folder : option string) (current_cmake_generator : string)
    (args : namespace) (dry_run : bool) : M unit :=
  '(cmake, _) ← cmake_check_version;
  force_refresh ← flag args "force_refresh";
  if force_refresh : bool then
    _ ← reconfigure_cmake_to_force_refresh cmake current_cmake_cache_folder dry_run;
    exit 0
  else
    _ ← configure_cmake cmake args current_cmake_cache_folder current_cmake_generator dry_run;
    exit 0.

Definition non_executable_targets : list string :=
  ["apiscan-all"; "check-version"; "cmake-format"; "docs"; "doxygen"; "doxygen-no-build"; "sphinx"; "manual"; "models";
   "timeTraceReport"; "tutorial"; "contributing"; "install"; "uninstall"].
Definition as_str (v : val) : py exn string := match v with VStr s => Ok s | _ => Raise TypeError end.
Definition target_of (program_path : string) (ns3_version build_profile : val) : M (option string) :=
  if has_sub ".py" program_path then mret None
  else
    profile ← lift_py (as_str build_profile);
    w ← get_st;
    run_pure (get_target_to_build (out_dir w) program_path (str_of_val ns3_version) profile).
Definition sphinx_name (target : string) : string :=
  if decide (target ∈ ["contributing"; "manual"; "models"; "tutorial"]) then "sphinx_" +:+ target
  else if decide (target = "docs") then "sphinx" else target.
Definition build_target (folder : string) (output : bool) (jobs : Z) (dry_run verbose : bool) (ns3_modules : list string)
    (ns3_version build_profile : val) (target : string) : M unit :=
  target ← (if decide (target ∈ ns3_modules) then mret (Some ("lib" +:+ target))
            else if decide (target ∉ non_executable_targets) then target_of target ns3_version build_profile
            else
              _ ← when (bool_decide (target = "check-version")) (set_run_verbose false);
              mret (Some (sphinx_name target)));
  cmake_build folder output jobs target dry_run verbose.
(** The list that the loop runs over: each [docs] appends [doxygen] to it while it runs. *)
Definition growing (ns3_modules build : list string) : list string :=
  build ++ replicate (length (filter (λ t, t = "docs" ∧ t ∉ ns3_modules) build)) "doxygen".

Definition build_step (args : namespace) (build_and_run : bool) (target_to_run : option string)
    (current_cmake_cache_folder : string) (ns3_modules : list string) (ns3_version build_profile : val) (output : bool) : M unit :=
  dry_run ← flag args "dry_run";
  verbose ← flag args "verbose";
  jobs ← int_attr args "jobs";
  _ ← match args !! "build" with
      | None => mret tt
      | Some v =>
          build ← lift_py (as_list v);
          _ ← when (bool_decide (build = [])) (cmake_build current_cmake_cache_folder output jobs None dry_run verbose);
          for_st (build_target current_cmake_cache_folder output jobs dry_run verbose ns3_modules ns3_version build_profile)
            (growing ns3_modules build)
      end;
  if build_and_run then
    t ← lift_py (or_raise TypeError target_to_run);
    target ← target_of t ns3_version build_profile;
    cmake_build current_cmake_cache_folder output jobs target dry_run verbose
  else mret tt.

(** ** Running *)

(** [template % text] for a template with [%s] and [%%]; another conversion is an error here. *)
Fixpoint percent_go (template : list ascii) (arg : option string) : py exn (string * option string) :=
  match template with
  | [] => Ok ("", arg)
  | "%"%char :: "%"%char :: r => '(s, arg) ← percent_go r arg; Ok (String "%" s, arg)
  | "%"%char :: "s"%char :: r =>
      match arg with
      | None => Raise TypeError
      | Some a => '(s, arg) ← percent_go r None; Ok (a +:+ s, arg)
      end
  | "%"%char :: _ => Raise (ValueError "unsupported format character")
  | c :: r => '(s, arg) ← percent_go r arg; Ok (String c s, arg)
  end.
Definition percent (template arg : string) : py exn string :=
  '(s, unused) ← percent_go (chars template) (Some arg);
  match unused with None => Ok s | Some _ => Raise TypeError end.

(** The variables that a program gets, in the order of the dictionary. *)
Definition custom_env (out_dir : string) : list (string * string) :=
  let libdir := out_dir +:+ "/lib" in
  [("PATH", libdir); ("PYTHONPATH", out_dir +:+ "/bindings/python")] ++
  (if decide (platform = "win32") then [] else [("LD_LIBRARY_PATH", libdir)]).
Definition add_variable (m : gmap string string) (kv : string * string) : gmap string string :=
  <[ kv.1 := match m !! kv.1 with Some old => old +:+ path_sep +:+ kv.2 | None => kv.2 end ]> m.
Definition exported_variables (out_dir : string) : string :=
  "export " +:+ concat_str ((λ kv, kv.1 +:+ "=" +:+
    (if decide (kv.1 = "PATH") then "$PATH" +:+ path_sep +:+ out_dir +:+ "/lib" else kv.2) +:+ " ") <$> custom_env out_dir).

(** A list of arguments that may hold None, which no command accepts. *)
Fixpoint all_strings (l : list (option string)) : py exn (list string) :=
  match l with
  | [] => Ok []
  | None :: _ => Raise TypeError
  | Some x :: l => l ← all_strings l; Ok (x :: l)
  end.

(** What to run, with which arguments, in which directory, behind which debugger. *)
Definition plan_run (args : namespace) (target_to_run : string) (target_args : list string)
    : M (list (option string) * string * string * list string) :=
  cwd ← attr args "cwd";
  working_dir ← (if truthy cwd then lift_py (as_str cwd) else mret ns3_path);
  valgrind ← flag args "valgrind";
  gdb ← flag args "gdb";
  lldb ← flag args "lldb";
  visualize ← flag args "visualize";
  template ← attr args "command_template";
  let is_script := has_sub ".py" target_to_run in
  let target_args := if is_script then target_to_run :: target_args else target_args in
  let target := if is_script then "python3" else target_to_run in
  let debugging_software := ((if valgrind : bool then [which "valgrind"; Some "--leak-check=full"] else []) ++
    (if gdb : bool then [which "gdb"; Some "--args"] else []) ++
    (if lldb : bool then [which "lldb"; Some "--"] else []))%list in
  let target_args := if visualize : bool
    then (target_args ++ ["--SimulatorImplementationType=ns3::VisualSimulatorImpl"])%list else target_args in
  if truthy template then
    t ← lift_py (as_str template);
    commands ← lift_py (percent t target);
    match words commands with
    | [] => raise_st IndexError
    | target :: more =>
        w ← get_st;
        let target_args := (more ++ target_args)%list in
        let target_args :=
          if decide (target ∈ ["mpiexec"; "mpirun"] ∧ default "" (environ w !! "MPI_CI") ≠ "") then
            "--allow-run-as-root" :: (if decide (is_Some (which "ompi_info")) then "--oversubscribe" :: target_args else target_args)
          else target_args in
        mret (debugging_software, working_dir, target, target_args)
    end
  else mret (debugging_software, working_dir, target, target_args).

Definition run_step (args : namespace) (target_to_run : option string) (target_args : list string) : M unit :=
  w ← get_st;
  let proc_env := foldl add_variable (environ w) (custom_env (out_dir w)) in
  program_args ← lift_py (forwarded args);
  let target_args := (target_args ++ program_args)%list in
  shell ← flag args "shell";
  dry_run ← flag args "dry_run";
  '(debugging_software, working_dir, target, target_args) ←
    (if shell : bool then mret ([], ns3_path, "bash", target_args)
     else t ← lift_py (or_raise TypeError target_to_run); plan_run args t target_args);
  let program_arguments := (debugging_software ++ Some target :: (Some <$> target_args))%list in
  _ ← (if run_verbose w || dry_run : bool then
         l ← lift_py (all_strings program_arguments);
         print_and_buffer ("cd " +:+ relative ns3_path working_dir +:+ "; " +:+ exported_variables (out_dir w) +:+ "; " +:+ join " " l)
       else mret tt);
  if dry_run : bool then mret tt
  else
    l ← lift_py (all_strings program_arguments);
    r ← start (Command l working_dir proc_env "");
    match r with
    | Exited code _ _ =>
        if decide (code = 0%Z) then exit 0
        else
          _ ← print (error_message (join " " (relative target ns3_path :: tail l)) code);
          exit code
    | Interrupted => _ ← print "Process was interrupted by the user"; exit 0
    | NotStarted => raise_st OSError
    end.

(** ** Setting the suid bit *)

(** [communicate] of a process: its outputs, whatever its status. *)
Definition communicate (args : list string) (input : string) : M (string * string) :=
  w ← get_st;
  r ← subprocess_run (Command args getcwd (environ w) input);
  mret (r.1.2, r.2).
Definition sudo_command (command : list string) (password : string) : M (string * string) :=
  '(out, err) ← communicate ("sudo" :: "-S" :: command) (password +:+ nl);
  _ ← communicate ["sudo"; "-k"] "";
  if has_sub "try again" err then raise_st (Exception_ "Incorrect sudo password") else mret (out, err).

Definition has_suid (m : fs) (p : string) : bool := match m !! resolve p with Some (File _ b) => b | _ => false end.
Definition sudo_target (dry_run : bool) (password : string) (target : string) : M unit :=
  w ← get_st;
  if negb (exists_at (disk w) target) || has_suid (disk w) target then mret tt
  else
    let relative_path_to_target := relative target ns3_path in
    let chown_command := "chown root " +:+ relative_path_to_target in
    let chmod_command := "chmod u+s " +:+ relative_path_to_target in
    _ ← print_and_buffer (chown_command +:+ "; " +:+ chmod_command);
    when (negb dry_run) (
      '(out, _) ← sudo_command (words chown_command) password;
      _ ← when (bool_decide (out ≠ "")) (raise_st (Exception_ ("Failed to chown: " +:+ relative_path_to_target)));
      '(out, _) ← sudo_command (words chmod_command) password;
      when (bool_decide (out ≠ "")) (raise_st (Exception_ ("Failed to chmod: " +:+ relative_path_to_target)))).
(** The set is iterated in the order [order]. *)
Definition sudo_step (order : gset string → list string) (args : namespace) (target_to_run : option string)
    (configure_post_build : gset string) : M unit :=
  match which "sudo" with
  | None => raise_st (Exception_ "Sudo is required by --enable-sudo, but it was not found")
  | Some _ =>
      let targets_to_sudo := match target_to_run with
                             | Some t => if decide (t = "") then configure_post_build else {[ t ]} ∪ configure_post_build
                             | None => configure_post_build
                             end in
      w ← get_st;
      dry_run ← flag args "dry_run";
      let password := default getpass (environ w !! "SUDO_PASSWORD") in
      for_st (sudo_target dry_run password) (order targets_to_sudo)
  end.

(** ** [main] *)

Definition refuse_run_as_root : M unit :=
  w ← get_st;
  if decide (default "" (environ w !! "USER") = "root")
  then raise_st (Exception_ "Refusing to run as root. --enable-sudo will request your password when needed")
  else mret tt.

(** Colors, and pybindgen of the directory above in the path of Python. *)
Definition prepare_environ : M unit :=
  _ ← set_environ (<[ "CLICOLOR" := "1" ]>);
  w ← get_st;
  match glob (Path.abspath getcwd (Path.join (Path.join ns3_path "..") "pybindgen*")) (disk w) with
  | [] => mret tt
  | d :: _ => set_environ (λ m, <[ "PYTHONPATH" := default "" (m !! "PYTHONPATH") +:+ path_sep +:+ d ]> m)
  end.

(** [exec] of the lock file in the globals of the script: of the variables that it assigns, the script
    uses only [out_dir]. *)
Definition read_lock : M unit :=
  locked ← path_exists lock_file;
  if locked : bool then
    text ← read_text lock_file;
    assigned ← lift_py (exec_code text);
    match assigned !! "out_dir" with Some (VStr d) => set_out_dir d | _ => mret tt end
  else mret tt.

(** The sub-commands that stand for targets of CMake. *)
Definition install_targets (args : namespace) : M namespace :=
  install ← flag args "install";
  let args := if install : bool then <[ "build" := VList ["install"] ]> args else args in
  uninstall ← flag args "uninstall";
  mret (if uninstall : bool then <[ "build" := VList ["uninstall"] ]> args else args).
Definition docs_message : string :=
  esc "The \q./ns3 docs doxygen\q and \q./ns3 docs all\q commands,\nrequire examples and tests to generate introspected documentation.\nTry \q./ns3 docs doxygen-no-build\q or enable examples and tests.".
Definition docs_targets (build_info : variables) (args : namespace) : M namespace :=
  docs ← attr args "docs";
  if truthy docs then
    let build := if decide (docs = VStr "all") then ["sphinx"; "doxygen"] else [str_of_val docs] in
    if decide ("doxygen" ∈ build) then
      examples ← lift_py (item build_info "ENABLE_EXAMPLES");
      tests ← lift_py (item build_info "ENABLE_TESTS");
      if negb (truthy examples) || negb (truthy tests) then _ ← print docs_message; exit 1
      else mret (<[ "build" := VList build ]> args)
    else mret (<[ "build" := VList build ]> args)
  else mret args.
Definition show_step (build_profile : val) (args : namespace) : M namespace :=
  show ← attr args "show";
  _ ← when (bool_decide (show = VStr "profile"))
        (if truthy build_profile then print ("Build profile: " +:+ str_of_val build_profile) else project_not_configured);
  mret (if decide (show = VStr "version") then <[ "build" := VList ["check-version"] ]> args else args).

(** Whether only to run, or to build and run. *)
Definition run_mode (args : namespace) : M (bool * bool) :=
  run ← flag args "run";
  if run : bool then
    v ← attr args "run_verbose";
    _ ← set_run_verbose (bool_decide (v = VBool true));
    no_build ← flag args "no_build";
    mret (if no_build : bool then (true, false) else (false, true))
  else mret (false, false).
Definition is_quote (c : ascii) : bool := bool_decide (c = dq_char ∨ c = "'"%char).
(** The quotes around the argument of [run] are dropped, the rest is split at white space. *)
Definition unquote (s : string) : string :=
  match chars s, last (chars s) with
  | c :: _, Some d => if is_quote c && is_quote d then implode (py_slice (chars s) 1 (-1)) else s
  | _, _ => s
  end.
Definition split_run (run : string) : py exn (string * list string) :=
  if decide (run = "") then Raise (Exception_ "You need to specify a program to run")
  else match words (unquote run) with [] => Raise IndexError | t :: l => Ok (t, l) end.

(** A change of the scratch sources since the last configuration refreshes the project. *)
Definition refresh_scratches (current_cmake_cache_folder : option string) : M unit :=
  match current_cmake_cache_folder with
  | None => mret tt
  | Some folder =>
      if decide (folder = "") then mret tt
      else
        w ← get_st;
        there ← path_exists (scratches_file folder);
        if there : bool then
          text ← read_text (scratches_file folder);
          if decide (split_all nl_char text ≠ glob scratch_pattern (disk w)) then refresh_cmake folder else mret tt
        else mret tt
  end.

Definition shortcuts_of (build_profile ns3_version : val) : M str_map :=
  text ← read_text lock_file;
  programs_dict ← lift_py (exec_code text);
  w ← get_st;
  let scratch_scripts := glob (Path.join (Path.join ns3_path "scratch") "*.py") (disk w) in
  match build_profile, ns3_version with
  | VStr p, VStr v => lift_py (get_program_shortcuts ns3_path (out_dir w) p v (exists_at (disk w)) programs_dict scratch_scripts)
  | _, _ => raise_st TypeError
  end.

Definition resolve_run (target : string) (programs : str_map) : M string :=
  w ← get_st;
  if decide (is_Some (programs !! target)) then run_pure (check_ambiguous_target "Run" target programs)
  else if has_sub ".py" target && exists_at (disk w) target then mret target
  else raise_st (Exception_ ("Couldn't find the specified program: " +:+ target)).
Definition resolve_build (args : namespace) (programs : str_map) : M namespace :=
  match args !! "build" with
  | None => mret args
  | Some v =>
      build ← lift_py (as_list v);
      targets ← map_st (λ t, if decide (is_Some (programs !! t)) then run_pure (check_ambiguous_target "Build" t programs)
                             else mret t) build;
      mret (<[ "build" := VList targets ]> args)
  end.

(** The path of the program below the output directory. *)
Definition locate_program (args : namespace) (cache_folder : option string) (run_only runs : bool) (target : string) : M string :=
  w ← get_st;
  rel ← lift_py (remove_overlapping_path (out_dir w) target);
  run ← attr args "run";
  rel ← (if decide (cache_folder = None) then
           if has_sub "scratch" rel && run_only then
             r ← lift_py (as_str run);
             let waf_target_to_run := replace_all (Path.basename rel) r rel in
             mret (if exists_at (disk w) (out_dir w +:+ "/" +:+ waf_target_to_run) then waf_target_to_run else rel)
           else mret rel
         else mret rel);
  let target := out_dir w +:+ "/" +:+ rel in
  if runs && negb (has_sub ".py" target) && negb (exists_at (disk w) target)
  then raise_st (Exception_ "Executable has not been built yet")
  else mret target.

(** Everything from the search of the cache to the check that the project is configured; [None] ends
    the run, as after [show config]. *)
Definition configure_phase (args : namespace) (build_profile : val) (run_only : bool) : M (option (option string)) :=
  if run_only then mret (Some None)
  else
    '(folder, generator) ← search_cache build_profile;
    show ← attr args "show";
    if decide (show = VStr "config") then _ ← check_config folder; mret None
    else
      _ ← refresh_scratches folder;
      configure ← flag args "configure";
      dry_run ← flag args "dry_run";
      _ ← when configure (configuration_step folder generator args dry_run);
      configured ← project_configured folder;
      if configured : bool then mret (Some folder) else project_not_configured.

(** The end of [main]: build, find the program, set it up and run it. *)
Definition final_phase (order : gset string → list string) (args : namespace) (build_info : variables) (ns3_modules : list string)
    (run_only build_and_run : bool) (target : option string) (target_args : list string) (folder : option string) : M unit :=
  build_profile ← lift_py (item build_info "BUILD_PROFILE");
  ns3_version ← lift_py (item build_info "VERSION");
  enable_sudo ← lift_py (item build_info "ENABLE_SUDO");
  let ns3_modules := replace_all "ns3-" "" <$> ns3_modules in
  ns3_programs ← shortcuts_of build_profile ns3_version;
  let runs := run_only || build_and_run in
  target ← match target with
           | Some t => if runs then t ← resolve_run t ns3_programs; mret (Some t) else mret None
           | None => mret None
           end;
  args ← resolve_build args ns3_programs;
  quiet ← flag args "quiet";
  _ ← (if run_only then mret tt
       else f ← lift_py (or_raise TypeError folder);
            build_step args build_and_run target f ns3_modules ns3_version build_profile quiet);
  shell ← flag args "shell";
  target ← match target with
           | Some t => if negb shell && bool_decide (t ≠ "") && negb (has_sub ".py" t)
                       then t ← locate_program args folder run_only runs t; mret (Some t) else mret (Some t)
           | None => mret None
           end;
  run ← flag args "run";
  run_sudo ← (if run : bool then flag args "enable_sudo" else mret false);
  _ ← when (truthy enable_sudo || run_sudo)
        (sudo_step order args target
           (if truthy enable_sudo then list_to_set (omap (M := list) (λ kv, head kv.2) (map_to_list ns3_programs)) else ∅));
  when (shell || runs) (run_step args target target_args).

Definition main `{Argparse cpu_count} (order : gset string → list string) (argv : list string) : M unit :=
  _ ← refuse_run_as_root;
  _ ← prepare_environ;
  args ← run_pure (parse_args argv);
  dry_run ← flag args "dry_run";
  _ ← register dry_run;
  let args := if decide (argv = []) then <[ "build" := VList [] ]> args else args in
  _ ← read_lock;
  clean ← flag args "clean";
  if clean : bool then clean_cmake_artifacts dry_run
  else
    args ← install_targets args;
    w ← get_st;
    '(build_info, ns3_modules) ← check_lock_data (out_dir w);
    build_profile ← lift_py (item build_info "BUILD_PROFILE");
    args ← docs_targets build_info args;
    args ← show_step build_profile args;
    '(run_only, build_and_run) ← run_mode args;
    run ← attr args "run";
    target ← (if run_only || build_and_run then
                '(t, l) ← lift_py (r ← as_str run; split_run r); mret (Some t, l)
              else mret (None, []));
    folder ← configure_phase args build_profile run_only;
    match folder with
    | None => mret tt
    | Some folder =>
        match ns3_modules with
        | VList modules => final_phase order args build_info modules run_only build_and_run target.1 target.2 folder
        | _ => project_not_configured
        end
    end.

(** The process: [main], what is printed at the end, and the status that the shell sees; Python ends with
    status 1 on an exception, and as if by the signal on an interrupt. *)
Definition status_of (r : py exn unit) : Z :=
  match r with
  | Ok _ => 0
  | Raise (SystemExit c) => c `mod` 256
  | Raise KeyboardInterrupt => 130
  | Raise _ => 1
  end%Z.
Definition script `{Argparse cpu_count} (order : gset string → list string) (argv : list string) (w : world) : Z * world :=
  let '(r, w) := main order argv w in
  match at_exit w with
  | Some dry_run => (status_of r, (exit_handler dry_run w).2)
  | None => (status_of r, w)
  end.
End script.
