(* ===== verification/Ns3Runs.v ===== *)
(** * What the wrapper script [ns3] does

    Theorems about whole runs of the script of [Ns3Main]: no command runs after a failed one and the
    status says so; a dry run changes nothing, and when it does; what cleaning removes; a forced
    refresh keeps the settings when CMake fails. *)

From stdpp Require Import base list strings gmap.
From Stdlib Require Import Ascii.
From S2P Require Import Prelude PyStr TestJobs TestConfig Ns3Args Ns3Programs Ns3Main.
Open Scope nat_scope.

(** ** A command that fails is the last one *)

Create HintDb stops.
Create HintDb dry.

Section trace.
Context `{System}.

Definition is_sudo (c : command) : bool := match argv c with x :: _ => bool_decide (x = "sudo") | [] => false end.
(** The outcome of [sudo] is judged by its output only. *)
Definition good (co : command * outcome) : Prop :=
  is_sudo co.1 = true ∨ ∃ out err, co.2 = Exited 0 out err.
(** How the script ends after the outcome of its last command. *)
Definition blame (o : outcome) (e : exn) : Prop :=
  match o with
  | Exited code _ _ => e = SystemExit code ∨ ∃ msg, e = Exception_ msg
  | Interrupted => e = SystemExit 0 ∨ e = KeyboardInterrupt
  | NotStarted => e = OSError
  end.
(** All commands succeeded, or all but the last, which [e] reports. *)
Definition stopped (l : list (command * outcome)) (e : exn) : Prop :=
  Forall good l ∨ ∃ pre c o, l = pre ++ [(c, o)] ∧ Forall good pre ∧ ¬ good (c, o) ∧ blame o e ∧
    (∀ code out err, o = Exited code out err → (-256 < code < 256)%Z).
Lemma good_dec co : good co ∨ ¬ good co.
Proof.
  destruct co as [c o]. unfold good. cbn. destruct (is_sudo c); [by left; left|]. destruct o as [code out err| |].
  - destruct (decide (code = 0%Z)) as [->|Hne]; [left; right; eauto|right]. intros [|(? & ? & [=])]; congruence.
  - right. by intros [|(? & ? & ?)].
  - right. by intros [|(? & ? & ?)].
Qed.
Definition stops {A} (m : stx world exn A) : Prop :=
  ∀ w r w', m w = (r, w') → Forall good (log w) →
    match r with Ok _ => Forall good (log w') | Raise e => stopped (log w') e end.

Lemma stops_ret {A} (a : A) : stops (mret a).
Proof. by intros w r w' [= <- <-]. Qed.
Lemma stops_get : stops get_st.
Proof. by intros w r w' [= <- <-]. Qed.
Lemma stops_lift {A} (r : py exn A) : stops (lift_py r).
Proof. intros w r' w' [= <- <-] Hw. destruct r; [done|by left]. Qed.
Lemma stops_raise {A} (e : exn) : stops (raise_st e : stx world exn A).
Proof. intros w r w' [= <- <-] Hw. by left. Qed.
Lemma stops_exit {A} code : stops (exit code : stx world exn A).
Proof. apply stops_raise. Qed.
Lemma stops_modify f : (∀ w, log (f w) = log w) → stops (modify_st f).
Proof. intros Hf w r w' [= <- <-] Hw. by rewrite Hf. Qed.
Lemma stops_bind {A B} (m : stx world exn A) (f : A → stx world exn B) : stops m → (∀ a, stops (f a)) → stops (m ≫= f).
Proof.
  intros Hm Hf w r w'. unfold mbind, stx_bind. destruct (m w) as [[a|e] w1] eqn:Em.
  - intros Hr Hw. specialize (Hm _ _ _ Em Hw). exact (Hf a _ _ _ Hr Hm).
  - intros [= <- <-] Hw. exact (Hm _ _ _ Em Hw).
Qed.
Lemma stops_for {A} (f : A → stx world exn unit) l : (∀ a, stops (f a)) → stops (for_st f l).
Proof. intros Hf. induction l as [|x l IH]; cbn; [apply stops_ret|]. apply stops_bind; [apply Hf|]. intros _. exact IH. Qed.
Lemma stops_map {A B} (f : A → stx world exn B) l : (∀ a, stops (f a)) → stops (map_st f l).
Proof.
  intros Hf. induction l as [|x l IH]; cbn; [apply stops_ret|]. apply stops_bind; [apply Hf|]. intros y.
  apply stops_bind; [exact IH|]. intros ys. apply stops_ret.
Qed.
Lemma stops_when b m : stops m → stops (when b m).
Proof. intros Hm. destruct b; [exact Hm|apply stops_ret]. Qed.

(** The rest of a computation after a command that failed with status [code]. *)
Definition reports {A} (code : Z) (m : stx world exn A) : Prop :=
  ∀ w r w', m w = (r, w') → log w' = log w ∧ ∃ e, r = Raise e ∧ (e = SystemExit code ∨ ∃ msg, e = Exception_ msg).
Lemma reports_exit {A} code : reports code (exit code : stx world exn A).
Proof. intros w r w' [= <- <-]. split; [done|]. eexists. split; [done|]. by left. Qed.
Lemma reports_exception {A} code msg : reports code (raise_st (Exception_ msg) : stx world exn A).
Proof. intros w r w' [= <- <-]. split; [done|]. eexists. split; [done|]. right. by eexists. Qed.
Lemma reports_bind {A B} code (m : stx world exn A) (f : A → stx world exn B) : reports code m → reports code (m ≫= f).
Proof.
  intros Hm w r w'. unfold mbind, stx_bind. destruct (m w) as [[a|e] w1] eqn:Em.
  - destruct (Hm _ _ _ Em) as [_ (e & [=] & _)].
  - intros [= <- <-]. destruct (Hm _ _ _ Em) as [Hl (e' & [= ->] & He)]. split; [done|]. by eexists.
Qed.
Lemma reports_after {A} code f (m : unit → stx world exn A) :
  (∀ w, log (f w) = log w) → reports code (m tt) → reports code (modify_st f ≫= m).
Proof. intros Hf Hm w r w' Hr. destruct (Hm _ _ _ Hr) as [Hl He]. by rewrite Hf in Hl. Qed.

Lemma stops_run {A} c (k : Z * string * string → stx world exn A) :
  (∀ out err, stops (k (0%Z, out, err))) → (∀ code out err, code ≠ 0%Z → reports code (k (code, out, err))) →
  stops (subprocess_run c ≫= k).
Proof.
  intros Hok Hbad w r w'. unfold subprocess_run, start, mbind, stx_bind.
  destruct (run_process (log w) c (disk w)) as [o m] eqn:Eo. intros Hr Hw.
  set (w1 := World m _ _ _ _ _ (log w ++ [(c, o)]) _) in Hr.
  assert (∀ code out err, o = Exited code out err → (-256 < code < 256)%Z) as Hcode.
  { intros code out err ->. apply (exit_status (log w) c (disk w) code out err). by rewrite Eo. }
  assert (∀ e, blame o e → stopped (log w1) e) as Hblame.
  { intros e He. destruct (good_dec (c, o)) as [Hg|Hg].
    - left. apply Forall_app. split; [done|]. constructor; [done|constructor].
    - right. by exists (log w), c, o. }
  destruct o as [code out err| |]; cbn in Hr.
  - destruct (decide (code = 0%Z)) as [->|Hne].
    + refine (Hok out err _ _ _ Hr _). apply Forall_app. split; [done|].
      constructor; [right; by eexists _, _|constructor].
    + destruct (Hbad code out err Hne _ _ _ Hr) as [Hl (e & -> & He)]. rewrite Hl. by apply Hblame.
  - injection Hr as <- <-. apply Hblame. by right.
  - injection Hr as <- <-. by apply Hblame.
Qed.

Lemma stops_sudo args input : is_sudo (Command args getcwd ∅ "") = true → stops (communicate args input).
Proof.
  intros Hs w r w'. unfold communicate, subprocess_run, start, mbind, stx_bind, get_st. cbn.
  destruct (run_process _ _ _) as [o m]. intros Hr Hw.
  assert (Forall good (log w ++ [(Command args getcwd (environ w) input, o)])) as Hl.
  { apply Forall_app. split; [done|]. constructor; [by left|constructor]. }
  destruct o; injection Hr as <- <-; [exact Hl|by left..].
Qed.

#[local] Hint Resolve stops_ret stops_get stops_lift stops_raise stops_exit : stops.
#[local] Hint Extern 1 (stops (modify_st _)) => apply stops_modify; intros; reflexivity : stops.
(** Follow the structure of a program. *)
Ltac stops_step :=
  match goal with
  | |- stops (mbind _ (subprocess_run _)) => apply stops_run; intros
  | |- stops (mbind _ _) => apply stops_bind; [|intros]
  | |- stops (for_st _ _) => apply stops_for; intros
  | |- stops (map_st _ _) => apply stops_map; intros
  | |- stops (when _ _) => apply stops_when
  | |- stops (if ?b then _ else _) => destruct b
  | |- stops (match ?x with _ => _ end) => destruct x
  | |- stops (let '(_, _) := ?x in _) => destruct x
  end.
Ltac stops := repeat first [solve [eauto with stops]|stops_step].

Lemma stops_print s : stops (print s).
Proof. unfold print. stops. Qed.
Lemma stops_buffer s : stops (print_and_buffer s).
Proof. unfold print_and_buffer. stops. Qed.
Lemma stops_pure {A} (r : list string * py exn A) : stops (run_pure r).
Proof. unfold run_pure. stops. apply stops_print. Qed.
Lemma stops_exists p : stops (path_exists p).
Proof. unfold path_exists. stops. Qed.
Lemma stops_read p : stops (read_text p).
Proof. unfold read_text. stops. Qed.
Lemma stops_disk f : stops (set_disk f).
Proof. unfold set_disk. stops. Qed.
Lemma stops_verbose b : stops (set_run_verbose b).
Proof. unfold set_run_verbose. stops. Qed.
#[local] Hint Resolve stops_print stops_verbose stops_buffer stops_pure stops_exists stops_read stops_disk : stops.
Lemma stops_write p t : stops (write_text p t).
Proof. unfold write_text. stops. Qed.
Lemma stops_rmtree p b : stops (rmtree p b).
Proof. unfold rmtree. stops. Qed.
Lemma stops_remove p : stops (remove p).
Proof. unfold remove. stops. Qed.
Lemma stops_mkdir p : stops (mkdir p).
Proof. unfold mkdir. stops. Qed.
#[local] Hint Resolve stops_write stops_rmtree stops_remove stops_mkdir : stops.
Lemma stops_makedirs p : stops (makedirs p).
Proof. unfold makedirs. stops. Qed.
Lemma stops_configured f : stops (project_configured f).
Proof. unfold project_configured. stops. Qed.
Lemma stops_not_configured {A} : stops (project_not_configured : stx world exn A).
Proof. unfold project_not_configured. stops. Qed.
Lemma stops_scratches f : stops (update_scratches_list f).
Proof. unfold update_scratches_list. stops. Qed.
Lemma stops_call l f : stops (call l f).
Proof. unfold call. stops. Qed.
#[local] Hint Resolve stops_makedirs stops_configured stops_not_configured stops_scratches stops_call : stops.

Lemma must_succeed_reports code out err : code ≠ 0%Z → reports code (must_succeed (code, out, err)).
Proof. intros Hc. unfold must_succeed. cbn. rewrite bool_decide_true by done. apply reports_exit. Qed.
Lemma stops_must_succeed out err : stops (must_succeed (0%Z, out, err)).
Proof. unfold must_succeed. cbn. rewrite bool_decide_false by lia. apply stops_ret. Qed.

#[local] Hint Resolve stops_must_succeed : stops.
Ltac reports := solve [apply reports_bind, must_succeed_reports; assumption|apply must_succeed_reports; assumption].

Lemma stops_configure cmake args folder generator dry_run : stops (configure_cmake cmake args folder generator dry_run).
Proof. unfold configure_cmake. stops; reports. Qed.
Lemma stops_refresh folder : stops (refresh_cmake folder).
Proof. unfold refresh_cmake. stops; reports. Qed.
Lemma stops_version : stops cmake_check_version.
Proof.
  unfold cmake_check_version. stops. cbn [fst]. rewrite decide_True by assumption. apply reports_exception.
Qed.
#[local] Hint Resolve stops_configure stops_refresh stops_version : stops.
Lemma stops_build folder output jobs target dry_run verbose : stops (cmake_build folder output jobs target dry_run verbose).
Proof.
  unfold cmake_build. stops. cbn [fst snd]. rewrite bool_decide_true by assumption.
  intros w r w' Hr. destruct output; exact (must_succeed_reports _ _ _ ltac:(eassumption) _ _ _ Hr).
Qed.
#[local] Hint Resolve stops_build : stops.
Lemma stops_extract folder : stops (extract_cmakecache_settings folder).
Proof. unfold extract_cmakecache_settings. stops. Qed.
#[local] Hint Resolve stops_extract : stops.
Lemma stops_force_refresh cmake folder dry_run : stops (reconfigure_cmake_to_force_refresh cmake folder dry_run).
Proof.
  unfold reconfigure_cmake_to_force_refresh. stops. cbn [fst]. rewrite decide_False by assumption.
  apply reports_bind, reports_exception.
Qed.
Lemma stops_attr args name : stops (attr args name).
Proof. unfold attr. stops. Qed.
#[local] Hint Resolve stops_force_refresh stops_attr : stops.
Lemma stops_flag args name : stops (flag args name).
Proof. unfold flag. stops. Qed.
Lemma stops_int args name : stops (int_attr args name).
Proof. unfold int_attr. stops. Qed.
#[local] Hint Resolve stops_flag stops_int : stops.
Lemma stops_configuration folder generator args dry_run : stops (configuration_step folder generator args dry_run).
Proof. unfold configuration_step. stops. Qed.
Lemma stops_target path version profile : stops (target_of path version profile).
Proof. unfold target_of. stops. Qed.
#[local] Hint Resolve stops_configuration stops_target : stops.
Lemma stops_build_target folder output jobs d v ms version profile t :
  stops (build_target folder output jobs d v ms version profile t).
Proof. unfold build_target. stops. Qed.
#[local] Hint Resolve stops_build_target : stops.
Lemma stops_build_step args b t folder ms version profile output : stops (build_step args b t folder ms version profile output).
Proof. unfold build_step. stops. Qed.
Lemma stops_plan args t l : stops (plan_run args t l).
Proof. unfold plan_run. stops. Qed.
#[local] Hint Resolve stops_build_step stops_plan : stops.

(** The program itself: its status becomes the status of the script. *)
Lemma stops_start_program {A} c f :
  stops (r ← start c;
         match r with
         | Exited code _ _ => if decide (code = 0%Z) then exit 0 else _ ← print (f code); exit code
         | Interrupted => _ ← print "Process was interrupted by the user"; exit 0
         | NotStarted => raise_st OSError
         end : stx world exn A).
Proof.
  intros w r w'. unfold start, mbind, stx_bind. destruct (run_process (log w) c (disk w)) as [o m] eqn:Eo.
  intros Hr Hw.
  assert (∃ e, r = Raise e ∧ log w' = log w ++ [(c, o)] ∧ blame o e) as (e & -> & Hl & He).
  { destruct o as [code out err| |]; cbn in Hr.
    - destruct (decide (code = 0%Z)) as [->|Hne]; injection Hr as <- <-; eexists; (split; [reflexivity|]);
        split; [done|by left|done|by left].
    - injection Hr as <- <-. eexists. split; [reflexivity|]. split; [done|]. by left.
    - injection Hr as <- <-. eexists. split; [reflexivity|]. by split. }
  rewrite Hl. destruct (good_dec (c, o)) as [Hg|Hg].
  - left. apply Forall_app. split; [done|]. constructor; [done|constructor].
  - right. exists (log w), c, o. split_and!; try done. intros code out err ->.
    apply (exit_status (log w) c (disk w) code out err). by rewrite Eo.
Qed.
Lemma stops_run_step args t l : stops (run_step args t l).
Proof.
  unfold run_step.
  repeat first [solve [eauto with stops]|match goal with |- stops (mbind _ (start _)) => refine (stops_start_program _ (λ code, _)) end|stops_step].
Qed.
Lemma stops_sudo_command l password : stops (sudo_command l password).
Proof. unfold sudo_command. stops; by apply stops_sudo. Qed.
#[local] Hint Resolve stops_run_step stops_sudo_command : stops.
Lemma stops_sudo_target d password t : stops (sudo_target d password t).
Proof. unfold sudo_target. stops. Qed.
#[local] Hint Resolve stops_sudo_target : stops.
Lemma stops_sudo_step order args t s : stops (sudo_step order args t s).
Proof. unfold sudo_step. stops. Qed.
Lemma stops_clean d : stops (clean_cmake_artifacts d).
Proof. unfold clean_cmake_artifacts, clean_cache. stops. Qed.
Lemma stops_lock_data d : stops (check_lock_data d).
Proof. unfold check_lock_data. stops. Qed.
Lemma stops_search p : stops (search_cache p).
Proof. unfold search_cache. stops. Qed.
#[local] Hint Resolve stops_sudo_step stops_clean stops_lock_data stops_search : stops.
Lemma stops_configure_phase args p b : stops (configure_phase args p b).
Proof. unfold configure_phase, refresh_scratches, check_config. stops. Qed.
Lemma stops_resolve_run t ps : stops (resolve_run t ps).
Proof. unfold resolve_run. stops. Qed.
Lemma stops_resolve_build args ps : stops (resolve_build args ps).
Proof. unfold resolve_build. stops. Qed.
Lemma stops_locate args c b b' t : stops (locate_program args c b b' t).
Proof. unfold locate_program. stops. Qed.
Lemma stops_shortcuts p v : stops (shortcuts_of p v).
Proof. unfold shortcuts_of. stops. Qed.
#[local] Hint Resolve stops_configure_phase stops_resolve_run stops_resolve_build stops_locate stops_shortcuts : stops.
Lemma stops_final order args bi ms b b' t l f : stops (final_phase order args bi ms b b' t l f).
Proof. unfold final_phase. stops. Qed.
#[local] Hint Resolve stops_final : stops.
Lemma stops_main `{Argparse cpu_count} order args : stops (main order args).
Proof.
  unfold main, refuse_run_as_root, prepare_environ, set_environ, register, read_lock, set_out_dir, install_targets, docs_targets,
    show_step, run_mode. stops.
Qed.
End trace.

Lemma exit_handler_prints `{System} d w : disk (exit_handler d w).2 = disk w ∧ log (exit_handler d w).2 = log w.
Proof.
  unfold exit_handler, mbind, stx_bind, get_st. cbn. destruct (negb d && negb (run_verbose w)); [done|].
  destruct (decide (print_buffer w = "")); [done|]. by destruct d.
Qed.

(** The status of [sudo] is ignored: a command that fails and says so on the other output only is taken to have
    worked. *)
Lemma sudo_status_ignored `{System} words_ password w code out err m code2 out2 err2 m2 :
  let c := Command ("sudo" :: "-S" :: words_) getcwd (environ w) (password +:+ nl) in
  run_process (log w) c (disk w) = (Exited code out err, m) →
  run_process (log w ++ [(c, Exited code out err)]) (Command ["sudo"; "-k"] getcwd (environ w) "") m = (Exited code2 out2 err2, m2) →
  has_sub "try again" err = false → ∃ w', sudo_command words_ password w = (Ok (out, err), w').
Proof.
  intros c E1 E2 Ht. unfold sudo_command, communicate, subprocess_run, start, mbind, stx_bind, get_st. fold c.
  rewrite E1.
  cbn -[has_sub nl String.append]. rewrite E2. cbn -[has_sub nl String.append]. rewrite Ht. by eexists.
Qed.

(** C5: Apart from the commands of [sudo], whose status the code ignores ([sudo_status_ignored]), no command
    runs after one that failed: of the commands of a run all but those of [sudo] succeeded, or all but these and
    the last one, which is not one of [sudo]; then the status of the script is that of the failed command, or 1,
    and never 0, except that an interrupted program may give 0.  A program is therefore run only after every
    build command has succeeded. *)
Theorem script_status `{System} `{Argparse cpu_count} (order : gset string → list string) (args : list string)
    (w w' : world) (s : Z) :
  script order args w = (s, w') → log w = [] →
  Forall good (log w') ∨
  ∃ pre c o, log w' = pre ++ [(c, o)] ∧ Forall good pre ∧ ¬ good (c, o) ∧
    match o with
    | Exited code _ _ => (s = code `mod` 256 ∨ s = 1)%Z ∧ s ≠ 0%Z
    | Interrupted => s = 0%Z ∨ s = 130%Z
    | NotStarted => s = 1%Z
    end.
Proof.
  intros Hs Hl. unfold script in Hs. destruct (main order args w) as [r w1] eqn:Em.
  pose proof (stops_main order args w r w1 Em) as Hm. rewrite Hl in Hm. specialize (Hm (Forall_nil_2 _)).
  assert (log w' = log w1 ∧ s = status_of r) as [-> ->].
  { destruct (at_exit w1) as [d|]; [|by injection Hs as <- <-]. injection Hs as <- <-. split; [|done].
    apply exit_handler_prints. }
  destruct r as [[]|e]; [by left|]. destruct Hm as [Hm|(pre & c & o & -> & Hpre & Hbad & Hb & Hcode)]; [by left|].
  right. exists pre, c, o. split_and!; try done. destruct o as [code out err| |]; cbn in Hb.
  - specialize (Hcode code out err eq_refl).
    assert (code ≠ 0%Z) as Hne by (intros ->; apply Hbad; right; by eexists _, _).
    assert (code `mod` 256 ≠ 0)%Z as Hmod.
    { intros Hz. apply Z.mod_divide in Hz as [k Hk]; lia. }
    destruct Hb as [->|[msg ->]]; cbn; [split; [by left|done]|split; [by right|done]].
  - destruct Hb as [->| ->]; [by left|by right].
  - by rewrite Hb.
Qed.

(** ** A dry run *)

Section dry_run.
Context `{System}.
Context (m0 : fs).

(** The query for the version of CMake is the only command that a dry run needs. *)
Definition is_version (c : command) : Prop := ∃ cmake, which "cmake" = Some cmake ∧ argv c = [cmake; "--version"].
Definition version_pure : Prop := ∀ l c m, is_version c → (run_process l c m).2 = m.
Definition untouched (w : world) : Prop := disk w = m0 ∧ Forall (λ co, is_version co.1) (log w).
(** The lists of scratch sources in the caches are those of the tree. *)
Definition scratches_current : Prop :=
  ∀ c t b, c ∈ glob cache_pattern m0 → m0 !! resolve (scratches_file (dirname c)) = Some (File t b) →
    split_all nl_char t = glob scratch_pattern m0.
Definition dry {A} (m : stx world exn A) : Prop := inv_run untouched m (λ _, True).
Definition dry_args (args : namespace) : Prop :=
  args !! "dry_run" = Some (VBool true) ∧ ∀ v, args !! "force_refresh" = Some v → truthy v = false.

Lemma dry_ret {A} (a : A) : dry (mret a).
Proof. by apply inv_ret. Qed.
Lemma dry_get : dry get_st.
Proof. apply inv_get. Qed.
Lemma dry_lift {A} (r : py exn A) : dry (lift_py r).
Proof. by apply inv_lift. Qed.
Lemma dry_raise {A} e : dry (raise_st e : stx world exn A).
Proof. apply inv_raise. Qed.
Lemma dry_exit {A} c : dry (exit c : stx world exn A).
Proof. apply inv_raise. Qed.
Lemma dry_modify f : (∀ w, disk (f w) = disk w) → (∀ w, log (f w) = log w) → dry (modify_st f).
Proof. intros Hd Hl. apply inv_modify; [|done]. intros w [H1 H2]. unfold untouched. by rewrite Hd, Hl. Qed.
Lemma dry_bind {A B} (m : stx world exn A) (f : A → stx world exn B) : dry m → (∀ a, dry (f a)) → dry (m ≫= f).
Proof. intros Hm Hf. eapply inv_bind; [exact Hm|]. intros a _. apply Hf. Qed.
Lemma dry_for {A} (f : A → stx world exn unit) l : (∀ a, dry (f a)) → dry (for_st f l).
Proof. intros Hf. apply inv_for. intros x _. apply Hf. Qed.
Lemma dry_map {A B} (f : A → stx world exn B) l : (∀ a, dry (f a)) → dry (map_st f l).
Proof. intros Hf. eapply inv_weaken; [apply (inv_map _ _ _ (λ _ _, True)); intros x _; apply Hf|done]. Qed.
Lemma dry_when b m : dry m → dry (when b m).
Proof. intros Hm. destruct b; [exact Hm|apply dry_ret]. Qed.
Lemma dry_flag {A} args (k : bool → stx world exn A) : dry_args args → dry (k true) → dry (flag args "dry_run" ≫= k).
Proof.
  intros [Ha _] Hk. eapply (inv_bind _ _ _ (λ b, b = true)); [|by intros ? ->]. unfold flag, attr, getattr.
  rewrite Ha.
  intros w r w' Hw [= <- <-]. split; [done|]. by intros a [= <-].
Qed.
Context (Hpure : version_pure).
Lemma dry_start c : is_version c → dry (start c).
Proof.
  intros Hc w r w' [Hd Hl]. unfold start. destruct (run_process (log w) c (disk w)) as [o m] eqn:Eo. intros [= <- <-].
  split; [|done]. split; cbn.
  - rewrite <-Hd. pose proof (Hpure (log w) c (disk w) Hc) as Hm. by rewrite Eo in Hm.
  - apply Forall_app. split; [exact Hl|]. by constructor.
Qed.

#[local] Hint Resolve dry_ret dry_get dry_lift dry_raise dry_exit : dry.
#[local] Hint Extern 1 (dry (modify_st _)) => apply dry_modify; intros; reflexivity : dry.
Ltac dry_step :=
  match goal with
  | |- inv_run untouched ?m (λ _, True) => change (dry m)
  | |- dry (mbind _ (flag ?a "dry_run")) => apply dry_flag; [assumption|cbn beta iota]
  | |- dry (mbind _ _) => apply dry_bind; [|intros]
  | |- dry (for_st _ _) => apply dry_for; intros
  | |- dry (map_st _ _) => apply dry_map; intros
  | |- dry (when (negb true) _) => apply dry_ret
  | |- dry (when _ _) => apply dry_when
  | |- dry (if ?b then _ else _) => destruct b
  | |- dry (match ?x with _ => _ end) => destruct x
  end.
Ltac dry := repeat first [solve [eauto with dry]|dry_step].

Lemma dry_version : dry cmake_check_version.
Proof.
  unfold cmake_check_version. destruct (which "cmake") as [cmake|] eqn:Ec; [|unfold print; dry].
  apply (inv_bind _ _ _ is_version).
  - unfold call. eapply inv_bind; [apply inv_get|]. intros w _. apply inv_ret. by exists cmake.
  - intros c Hc. unfold subprocess_run, print. dry. by apply dry_start.
Qed.
Lemma dry_print s : dry (print s).
Proof. unfold print. dry. Qed.
Lemma dry_buffer s : dry (print_and_buffer s).
Proof. unfold print_and_buffer. dry. Qed.
Lemma dry_verbose b : dry (set_run_verbose b).
Proof. unfold set_run_verbose. dry. Qed.
#[local] Hint Resolve dry_version dry_print dry_buffer dry_verbose : dry.
Lemma dry_pure {A} (r : list string * py exn A) : dry (run_pure r).
Proof. unfold run_pure. dry. Qed.
Lemma dry_exists p : dry (path_exists p).
Proof. unfold path_exists. dry. Qed.
Lemma dry_read p : dry (read_text p).
Proof. unfold read_text. dry. Qed.
#[local] Hint Resolve dry_pure dry_exists dry_read : dry.
Lemma dry_not_configured {A} : dry (project_not_configured : stx world exn A).
Proof. unfold project_not_configured. dry. Qed.
Lemma dry_configured f : dry (project_configured f).
Proof. unfold project_configured. dry. Qed.
Lemma dry_attr args n : dry (attr args n).
Proof. unfold attr. dry. Qed.
#[local] Hint Resolve dry_not_configured dry_configured dry_attr : dry.
Lemma dry_flag_any args n : dry (flag args n).
Proof. unfold flag. dry. Qed.
Lemma dry_int args n : dry (int_attr args n).
Proof. unfold int_attr. dry. Qed.
Lemma dry_clean : dry (clean_cmake_artifacts true).
Proof. unfold clean_cmake_artifacts, clean_cache. dry. Qed.
Lemma dry_configure cmake args f g : dry (configure_cmake cmake args f g true).
Proof. unfold configure_cmake. dry. Qed.
Lemma dry_build f o j t v : dry (cmake_build f o j t true v).
Proof. unfold cmake_build. dry. Qed.
#[local] Hint Resolve dry_flag_any dry_int dry_clean dry_configure dry_build : dry.
Lemma dry_configuration f g args : dry_args args → dry (configuration_step f g args true).
Proof.
  intros [_ Hf]. unfold configuration_step. apply dry_bind; [dry|]. intros [cmake v].
  apply (inv_bind _ _ _ (λ b, b = false)).
  - unfold flag, attr, getattr. destruct (args !! "force_refresh") as [x|]; [rewrite <-(Hf x eq_refl)|].
    + intros w r w' Hw [= <- <-]. split; [done|]. by intros a [= <-].
    + intros w r w' Hw [= <- <-]. by split.
  - intros b ->. dry.
Qed.
Lemma dry_target p v b : dry (target_of p v b).
Proof. unfold target_of. dry. Qed.
#[local] Hint Resolve dry_configuration dry_target : dry.
Lemma dry_build_target f o j v ms ver p t : dry (build_target f o j true v ms ver p t).
Proof. unfold build_target. dry. Qed.
#[local] Hint Resolve dry_build_target : dry.
Lemma dry_build_step args b t f ms ver p o : dry_args args → dry (build_step args b t f ms ver p o).
Proof. intros Ha. unfold build_step. dry. Qed.
Lemma dry_plan args t l : dry (plan_run args t l).
Proof. unfold plan_run. dry. Qed.
#[local] Hint Resolve dry_build_step dry_plan : dry.
Lemma dry_run_step args t l : dry_args args → dry (run_step args t l).
Proof. intros Ha. unfold run_step. dry. Qed.
Lemma dry_sudo_target p t : dry (sudo_target true p t).
Proof. unfold sudo_target. dry. Qed.
#[local] Hint Resolve dry_run_step dry_sudo_target : dry.
Lemma dry_sudo_step order args t s : dry_args args → dry (sudo_step order args t s).
Proof. intros Ha. unfold sudo_step. dry. Qed.
Lemma dry_lock_data d : dry (check_lock_data d).
Proof. unfold check_lock_data. dry. Qed.
Lemma dry_search p : dry (search_cache p).
Proof. unfold search_cache. dry. Qed.
Lemma dry_check_config f : dry (check_config f).
Proof. unfold check_config. dry. Qed.
#[local] Hint Resolve dry_sudo_step dry_lock_data dry_search dry_check_config : dry.
Lemma dry_refresh f :
  scratches_current → (∀ d, f = Some d → d ∈ dirname <$> glob cache_pattern m0) → dry (refresh_scratches f).
Proof.
  intros Hs Hf. unfold refresh_scratches. destruct f as [f|]; [|dry]. destruct (decide (f = "")); [dry|].
  destruct (proj1 (list_elem_of_fmap _ _ _) (Hf f eq_refl)) as (c & -> & Hc).
  intros w r w' [Hd Hl]. unfold path_exists, read_text, mbind, stx_bind, get_st. cbn. unfold exists_at. rewrite Hd.
  case_bool_decide as He; [|by intros [= <- <-]].
  destruct (m0 !! resolve (scratches_file (dirname c))) as [[|t b]|] eqn:Et.
  - rewrite Hd, Et. by intros [= <- <-].
  - rewrite Hd, Et. cbn. rewrite decide_False by (intros Hne; apply Hne; exact (Hs c t b Hc Et)). by intros [= <- <-].
  - by destruct He.
Qed.
Lemma search_folder p :
  inv_run untouched (search_cache p) (λ fg, ∀ d, fg.1 = Some d → d ∈ dirname <$> glob cache_pattern m0).
Proof.
  unfold search_cache. eapply (inv_bind _ _ _ (λ w, disk w = m0)).
  { intros w r w' Hw [= <- <-]. split; [exact Hw|]. intros a [= <-]. apply Hw. }
  intros w ->. eapply (inv_bind _ _ _ (λ caches, caches.*1 = glob cache_pattern m0)).
  - eapply inv_weaken; [apply (inv_map _ _ _ (λ p c, c.1 = p))|].
    + intros x _. eapply inv_bind; [apply dry_read|]. intros t _. by apply inv_ret.
    + cbn. intros cs Hcs. induction Hcs as [|x c l cs Hx _ IH]; [done|]. rewrite fmap_cons. by rewrite Hx, IH.
  - intros caches Hc. apply inv_lift. intros [f g] Hs d Hd. cbn in Hd. subst f.
    apply search_cmake_cache_folder in Hs. by rewrite <-Hc.
Qed.
Lemma dry_configure_phase args p b : scratches_current → dry_args args → dry (configure_phase args p b).
Proof.
  intros Hs Ha. unfold configure_phase. destruct b; [dry|]. eapply inv_bind; [apply search_folder|]. intros [f g] Hf.
  pose proof (dry_refresh f Hs Hf). dry.
Qed.
Lemma dry_resolve_run t ps : dry (resolve_run t ps).
Proof. unfold resolve_run. dry. Qed.
Lemma dry_locate args c b b' t : dry (locate_program args c b b' t).
Proof. unfold locate_program. dry. Qed.
Lemma dry_shortcuts p v : dry (shortcuts_of p v).
Proof. unfold shortcuts_of. dry. Qed.
#[local] Hint Resolve dry_resolve_run dry_locate dry_shortcuts : dry.

Lemma dry_args_build args v : dry_args args → dry_args (<[ "build" := v ]> args).
Proof. intros [Hd Hf]. split; [by rewrite lookup_insert_ne|]. intros u. rewrite lookup_insert_ne by done. apply Hf. Qed.
(** A step that returns arguments which are still those of a dry run. *)
Definition keeps (m : stx world exn namespace) : Prop := inv_run untouched m dry_args.
Lemma args_keep_ret args : dry_args args → keeps (mret args).
Proof. apply inv_ret. Qed.
Lemma args_keep_bind {A} (m : stx world exn A) f : dry m → (∀ a, keeps (f a)) → keeps (m ≫= f).
Proof. intros Hm Hf. eapply inv_bind; [exact Hm|]. intros a _. apply Hf. Qed.
Lemma args_keep_exit c : keeps (exit c).
Proof. apply inv_raise. Qed.
Lemma dry_keeps {A} m (f : namespace → stx world exn A) : keeps m → (∀ a, dry_args a → dry (f a)) → dry (m ≫= f).
Proof. intros Hm Hf. exact (inv_bind _ _ _ _ _ Hm Hf). Qed.
#[local] Hint Resolve dry_args_build : dry.
Ltac args_keep_step :=
  match goal with
  | |- keeps (mbind _ _) => apply args_keep_bind; [dry|intros]
  | |- keeps (mret _) => apply args_keep_ret
  | |- keeps (if ?b then _ else _) => destruct b
  | |- keeps (match ?x with _ => _ end) => destruct x
  | |- keeps (exit _) => apply args_keep_exit
  | |- dry_args (if ?b then _ else _) => destruct b
  | |- dry_args (<[ "build" := _ ]> _) => apply dry_args_build
  end.
Ltac keeps := repeat first [solve [eauto with dry]|args_keep_step].
Lemma args_keep_install args : dry_args args → keeps (install_targets args).
Proof. intros Ha. unfold install_targets. keeps. Qed.
Lemma args_keep_docs bi args : dry_args args → keeps (docs_targets bi args).
Proof. intros Ha. unfold docs_targets. keeps. Qed.
Lemma args_keep_show p args : dry_args args → keeps (show_step p args).
Proof. intros Ha. unfold show_step. keeps. Qed.
Lemma args_keep_resolve args ps : dry_args args → keeps (resolve_build args ps).
Proof. intros Ha. unfold resolve_build. keeps. Qed.

Lemma dry_final order args bi ms b b' t l f : dry_args args → dry (final_phase order args bi ms b b' t l f).
Proof.
  intros Ha. unfold final_phase. do 3 (apply dry_bind; [dry|intros]). apply dry_bind; [dry|intros ps].
  apply dry_bind; [dry|intros t']. apply dry_keeps; [by apply args_keep_resolve|]. intros args' Ha'. dry.
Qed.

Lemma dry_main `{Argparse cpu_count} order args :
  (∀ a, (parse_args args).2 = Ok a → dry_args a) → scratches_current → dry (main order args).
Proof.
  intros Hparse Hs. pose proof (λ a p b, dry_configure_phase a p b Hs) as Hphase. pose proof dry_final as Hfinal.
  unfold main, refuse_run_as_root, prepare_environ, set_environ, register, read_lock, set_out_dir, run_mode.
  do 2 (apply dry_bind; [dry|intros _]). apply dry_keeps.
  { unfold run_pure. apply args_keep_bind; [dry|]. intros _. apply inv_lift. exact Hparse. }
  intros a Ha. apply dry_flag; [exact Ha|]. apply dry_bind; [dry|intros _]. apply dry_bind; [dry|intros _].
  set (a1 := if decide (args = []) then _ else a). assert (dry_args a1) as Ha1 by (unfold a1; keeps).
  clearbody a1. clear a Ha. apply dry_bind; [dry|intros clean]. destruct clean; [dry|].
  apply dry_keeps; [by apply args_keep_install|]. intros a2 Ha2. apply dry_bind; [dry|intros w].
  apply dry_bind; [dry|intros [bi ms]]. apply dry_bind; [dry|intros p].
  apply dry_keeps; [by apply args_keep_docs|]. intros a3 Ha3. apply dry_keeps; [by apply args_keep_show|].
  intros a4 Ha4. dry.
Qed.
End dry_run.

(** C6: A dry run leaves every file as it is and runs no command but the query for the version of CMake,
    provided that [--force-refresh] is not given and that the list of scratch sources in the cache is
    current.  Without these two conditions it is not so: see [dry_run_refreshes] and
    [dry_run_saves_settings]. *)
Theorem dry_run_safe `{System} `{Argparse cpu_count} (order : gset string → list string) (args : list string) (w w' : world) (s : Z) :
  version_pure → (∀ a, (parse_args args).2 = Ok a → dry_args a) → scratches_current (disk w) → log w = [] →
  script order args w = (s, w') →
  disk w' = disk w ∧ Forall (λ co, is_version co.1) (log w').
Proof.
  intros Hp Ha Hs Hl Hscript. unfold script in Hscript. destruct (main order args w) as [r w1] eqn:Em.
  destruct (dry_main (disk w) Hp order args Ha Hs w r w1) as [[Hd Hlog] _]; [split; [done|by rewrite Hl]|exact Em|].
  enough (disk w' = disk w1 ∧ log w' = log w1) as [-> ->] by done.
  destruct (at_exit w1) as [d|]; [|by injection Hscript as <- <-].
  injection Hscript as <- <-. apply exit_handler_prints.
Qed.

(** ** Cleaning *)

Lemma below_trans d e p : below d e = true → below e p = true → below d p = true.
Proof.
  unfold below. rewrite !orb_true_iff, !bool_decide_eq_true, !startswith_spec.
  destruct (decide (d = "/")) as [->|Hd], (decide (e = "/")) as [->|He].
  - intros _ [->|?]; [by left|by right].
  - intros [->|(r & ->)] [->|(r' & ->)]; [done..|right; by exists r|right; exists (r +:+ "/" +:+ r')].
    by rewrite <-!string_app_assoc.
  - intros [Heq|(r & Hr)] Hp; [by destruct Hd|]. right.
    assert (d = "" ∧ r = "") as [-> ->]. { destruct d as [|c d]; [by destruct r|]. injection Hr as -> Hr.
    by destruct d. }
    destruct Hp as [->|(r' & ->)]; [by exists ""|by exists r'].
  - intros [->|(r & ->)] [->|(r' & ->)]; [by left|right; by exists r'|right; by exists r|right].
    exists (r +:+ "/" +:+ r'). by rewrite <-!string_app_assoc.
Qed.
Lemma below_self d : below d d = true.
Proof. unfold below. by rewrite bool_decide_true. Qed.

Definition survives (ds : list string) (p : string) : bool := forallb (λ d, negb (below d p)) ds.
Lemma remove_tree_lookup d m p : remove_tree d m !! p = if below d p then None else m !! p.
Proof.
  unfold remove_tree. destruct (m !! p) as [n|] eqn:Ep.
  - destruct (below d p) eqn:Eb.
    + apply map_lookup_filter_None. right. intros x Hx. cbn. by rewrite Eb.
    + by apply map_lookup_filter_Some.
  - destruct (below d p); apply map_lookup_filter_None; by left.
Qed.

Section clean.
Context `{System}.

(** A file system: every path is normalised and lies in a directory. *)
Definition tree (m : fs) : Prop :=
  ∀ p n, m !! p = Some n → resolve p = p ∧ m !! dirname p = Some Dir.

(** The disk of [w0] without the trees of [ds]; nothing was run. *)
Definition pruned (w0 : world) (ds : list string) (w : world) : Prop :=
  (∀ p, disk w !! p = if survives ds p then disk w0 !! p else None) ∧ log w = log w0.

Lemma rmtree_runs w0 ds w d :
  pruned w0 ds w → disk w0 !! d = Some Dir → resolve d = d → runs (rmtree d true) w (λ _, pruned w0 (d :: ds)).
Proof.
  intros [Hw Hl] Hd Hr. unfold runs, rmtree, mbind, stx_bind, get_st. cbn. rewrite Hr.
  pose proof (Hw d) as Hc. destruct (survives ds d) eqn:Es.
  - rewrite Hc, Hd. eexists _, _. split; [reflexivity|]. split; [|exact Hl]. intros p. cbn.
    rewrite remove_tree_lookup, Hw.
    by destruct (below d p).
  - rewrite Hc. eexists _, _. split; [reflexivity|]. split; [|exact Hl]. intros p. cbn. rewrite Hw.
    destruct (below d p) eqn:Ep; [|done]. cbn.
    assert (survives ds p = false) as ->; [|done]. unfold survives in *. apply not_true_iff_false. intros Hall.
    apply not_true_iff_false in Es. apply Es. rewrite forallb_forall in *. intros e Hin. apply Hall in Hin.
    apply negb_true_iff, not_true_iff_false. intros Hb. apply negb_true_iff, not_true_iff_false in Hin. apply Hin.
    by eapply below_trans.
Qed.
Lemma buffer_runs w0 ds w s : pruned w0 ds w → runs (print_and_buffer s) w (λ _, pruned w0 ds).
Proof. intros Hw. by apply runs_modify. Qed.
Lemma clean_caches_run w0 ds w cs :
  pruned w0 ds w → (∀ c, c ∈ cs → disk w0 !! dirname c = Some Dir ∧ resolve (dirname c) = dirname c) →
  runs (for_st (clean_cache false) cs) w (λ _, pruned w0 (reverse (dirname <$> cs) ++ ds)).
Proof.
  revert ds w. induction cs as [|c cs IH]; intros ds w Hw Hcs; [by apply runs_ret|]. cbn [for_st].
  destruct (Hcs c) as [Hd Hr]; [left|]. eapply runs_bind.
  - unfold clean_cache. eapply runs_bind; [by apply buffer_runs|]. intros [] w1 Hw1. by apply rmtree_runs.
  - intros [] w1 Hw1. rewrite fmap_cons, reverse_cons, <-app_assoc. apply IH; [exact Hw1|]. intros x Hx.
    apply Hcs. by right.
Qed.

(** The trees that cleaning removes: the output directory and the directory of every cache that is left
    then. *)
Definition out_dirs (w : world) : list string :=
  match disk w !! resolve (out_dir w) with Some Dir => [resolve (out_dir w)] | _ => [] end.
Definition after_out_dir (w : world) : fs :=
  match disk w !! resolve (out_dir w) with Some Dir => remove_tree (resolve (out_dir w)) (disk w) | _ => disk w end.
Definition cleaned_dirs (w : world) : list string := out_dirs w ++ (dirname <$> glob cache_pattern (after_out_dir w)).

Lemma clean_out_dir w : runs (rmtree (out_dir w) true) w (λ _ w1, pruned w (out_dirs w) w1 ∧ disk w1 = after_out_dir w).
Proof.
  unfold runs, rmtree, mbind, stx_bind, get_st, out_dirs, after_out_dir. cbn.
  destruct (disk w !! resolve (out_dir w)) as [[|t b]|] eqn:E; eexists _, _; (split; [reflexivity|]); [|by split..].
  split; [|done]. split; [|done]. intros p. cbn. rewrite remove_tree_lookup, andb_true_r. by destruct (below _ p).
Qed.
Lemma glob_key pattern m c : c ∈ glob pattern m → is_Some (m !! c).
Proof.
  unfold glob. rewrite list_elem_of_filter, scan_perm. intros [_ ([k n] & -> & Hk)%list_elem_of_fmap].
  apply elem_of_map_to_list in Hk. by exists n.
Qed.
Lemma survives_perm l l' p : l ≡ₚ l' → survives l p = survives l' p.
Proof.
  unfold survives. induction 1; cbn; [done|congruence|by rewrite !andb_assoc, (andb_comm (negb _))|congruence].
Qed.
Lemma clean_lock w0 ds w :
  pruned w0 ds w → disk w0 !! resolve lock_file ≠ Some Dir →
  runs (locked ← path_exists lock_file;
        if locked : bool then _ ← print_and_buffer ("rm " +:+ relative lock_file ns3_path); when (negb false) (remove lock_file)
        else mret tt) w
    (λ _ w', (∀ p, disk w' !! p = if survives ds p && negb (bool_decide (p = resolve lock_file)) then disk w0 !! p else None) ∧
             log w' = log w0).
Proof.
  intros [Hw Hl] Hlock. unfold runs, path_exists, mbind, stx_bind, get_st. cbn.
  unfold exists_at, remove, mbind, stx_bind, get_st. cbn.
  pose proof (Hw (resolve lock_file)) as Hr.
  assert (disk w !! resolve lock_file ≠ Some Dir) as Hnd by (rewrite Hr; by destruct (survives ds _)).
  destruct (disk w !! resolve lock_file) as [[|t b]|] eqn:E; [done|..].
  - rewrite bool_decide_true by eauto. cbn. rewrite E. eexists _, _. split; [reflexivity|]. split; [|exact Hl].
    intros p. cbn.
    case_bool_decide as Hp; [subst p; by rewrite lookup_delete_eq, andb_false_r|].
    rewrite lookup_delete_ne by done. by rewrite Hw, andb_true_r.
  - rewrite bool_decide_false by (by intros []). eexists _, _. split; [reflexivity|]. split; [|exact Hl]. intros p.
    case_bool_decide as Hp; [subst p; by rewrite andb_false_r, E|]. by rewrite Hw, andb_true_r.
Qed.
End clean.

(** C16: [clean] removes exactly the output directory, the whole directory of every [CMakeCache.txt] of the
    tree that is not hidden, and the lock file; every other file stays as it is, and no command is
    run.  With a cache in the source directory itself, that directory is removed
    ([clean_in_source]). *)
Theorem clean_spec `{System} (w : world) :
  tree (disk w) → disk w !! resolve lock_file ≠ Some Dir →
  ∃ w', clean_cmake_artifacts false w = (Ok tt, w') ∧ log w' = log w ∧
    ∀ p, disk w' !! p = if survives (cleaned_dirs w) p && negb (bool_decide (p = resolve lock_file)) then disk w !! p else None.
Proof.
  intros Ht Hlock.
  enough (runs (clean_cmake_artifacts false) w (λ _ w', (∀ p, disk w' !! p =
    if survives (cleaned_dirs w) p && negb (bool_decide (p = resolve lock_file)) then disk w !! p else None) ∧ log w' = log w))
    as ([] & w' & Hr & Hd & Hl) by eauto.
  unfold clean_cmake_artifacts. eapply (runs_bind _ _ _ (λ a s, a = w ∧ s = w)); [by exists w, w|].
  intros ? ? [-> ->].
  eapply (runs_bind _ _ _ (λ _ s, pruned w [] s ∧ disk s = disk w ∧ out_dir s = out_dir w)); [by apply runs_modify|].
  intros _ w1 (Hp1 & Hd1 & Ho1).
  eapply (runs_bind _ _ _ (λ _ s, pruned w (out_dirs w) s ∧ disk s = after_out_dir w)).
  { cbn [negb when]. rewrite <-Ho1. eapply runs_weaken; [apply clean_out_dir|].
    unfold out_dirs, after_out_dir, pruned. cbn.
    rewrite Ho1, Hd1. intros _ s [[Hs Hl] Ha]. rewrite Hl. split; [split; [exact Hs|apply Hp1]|exact Ha]. }
  intros _ w2 [Hp2 Hd2]. eapply (runs_bind _ _ _ (λ a s, a = w2 ∧ s = w2)); [by exists w2, w2|]. intros ? ? [-> ->].
  eapply runs_bind; [apply (clean_caches_run w (out_dirs w) w2 _ Hp2)|].
  { intros c [n Hn]%glob_key. rewrite (proj1 Hp2) in Hn. destruct (survives _ c); [|discriminate Hn].
    destruct (Ht c n Hn) as [_ Hd]. split; [exact Hd|]. by destruct (Ht _ _ Hd). }
  cbn beta. intros [] w3 Hp3. eapply runs_weaken; [by apply (clean_lock w _ w3 Hp3)|]. intros _ w4 [Hd4 Hl4].
  split; [|exact Hl4].
  intros p. rewrite Hd4. rewrite (survives_perm _ (cleaned_dirs w) p); [done|].
  unfold cleaned_dirs. rewrite <-Hd2, reverse_Permutation. apply Permutation_app_comm.
Qed.

(** ** Refreshing again after a failure *)

Section force_refresh.
Context `{System}.

Definition settings_path : string := resolve settings_bak_file.
(** The settings that a refresh would use. *)
Definition settings_of (m : fs) (folder : string) : py exn ordered_dict :=
  match m !! settings_path with
  | Some (File t _) => json_load t
  | Some Dir => Raise OSError
  | None => match m !! resolve (folder +:+ "/" +:+ "CMakeCache.txt") with
            | Some (File t _) => extract_settings t
            | _ => Raise OSError
            end
  end.
(** The cache folder and the place of the backup are there, and the backup is not in the folder. *)
Record refreshable (m : fs) (folder : string) : Prop := {
  folder_normal : resolve folder = folder;
  folder_there : m !! folder = Some Dir;
  folder_parent : m !! dirname folder = Some Dir ∧ below folder (dirname folder) = false;
  backup_parent : m !! dirname settings_path = Some Dir ∧ below folder (dirname settings_path) = false;
  backup_apart : below folder settings_path = false
}.
(** The files when CMake is called. *)
Definition refreshed (m : fs) (folder : string) (d : ordered_dict) : fs :=
  <[ settings_path := File (json_dump d) match m !! settings_path with Some (File _ b) => b | _ => false end ]>
    (<[ folder := Dir ]> (remove_tree folder m)).
Definition refresh_command (cmake folder : string) (d : ordered_dict) (w : world) : command :=
  Command (cmake :: setting_arguments d ++ [".."]) folder (environ w) "".

Lemma read_settings_runs folder d w :
  settings_of (disk w) folder = Ok d →
  runs (if exists_at (disk w) settings_bak_file then text ← read_text settings_bak_file; lift_py (json_load text)
        else extract_cmakecache_settings (Some folder)) w (λ a w', a = d ∧ w' = w).
Proof.
  unfold settings_of, runs, read_text, extract_cmakecache_settings, read_text, mbind, stx_bind, get_st, exists_at, settings_path.
  cbn. intros Hs. destruct (disk w !! resolve settings_bak_file) as [[|t b]|] eqn:E; [discriminate Hs|..].
  - rewrite bool_decide_true by eauto. cbn. rewrite E. cbn. exists d, w. unfold lift_py. by rewrite Hs.
  - rewrite bool_decide_false by (by intros []). cbn.
    destruct (disk w !! resolve (folder +:+ "/CMakeCache.txt")) as [[|t b]|] eqn:E2; try discriminate Hs.
    cbn. exists d, w. unfold lift_py. by rewrite Hs.
Qed.

Definition same_but_disk (w w' : world) (m : fs) : Prop := disk w' = m ∧ environ w' = environ w ∧ log w' = log w.
Lemma recreate_runs folder w :
  refreshable (disk w) folder →
  runs (_ ← rmtree folder false; mkdir folder) w (λ _ w', same_but_disk w w' (<[ folder := Dir ]> (remove_tree folder (disk w)))).
Proof.
  intros [Hn Ht [Hp Hb] _ _]. unfold runs, rmtree, mkdir, mbind, stx_bind, get_st. cbn. rewrite Hn, Ht. cbn.
  rewrite !remove_tree_lookup, Hb, Hp, below_self. cbn. eexists _, _. split; [reflexivity|]. done.
Qed.
Lemma backup_runs folder d w0 w :
  refreshable (disk w0) folder → same_but_disk w0 w (<[ folder := Dir ]> (remove_tree folder (disk w0))) →
  disk w0 !! settings_path ≠ Some Dir →
  runs (write_text settings_bak_file (json_dump d)) w (λ _ w', same_but_disk w0 w' (refreshed (disk w0) folder d)).
Proof.
  intros [Hn Ht _ [Hp Hb] Ha] (Hd & He & Hl) Hnd. unfold runs, write_text, mbind, stx_bind, get_st. cbn.
  fold settings_path.
  rewrite Hd. assert (settings_path ≠ folder) as Hne by (intros Heq; rewrite Heq, below_self in Ha; discriminate Ha).
  assert (dirname settings_path ≠ folder) as Hne' by (intros Heq; rewrite Heq, below_self in Hb; discriminate Hb).
  rewrite !lookup_insert_ne, !remove_tree_lookup, Hb, Ha, Hp by done. unfold refreshed.
  destruct (disk w0 !! settings_path) as [[|t b]|]; [done|..]; cbn; eexists _, _; (split; [reflexivity|]);
    unfold same_but_disk; cbn;
    by rewrite Hd.
Qed.
Lemma bind_ok {A B} (m : stx world exn A) (f : A → stx world exn B) w a w1 : m w = (Ok a, w1) → (m ≫= f) w = f a w1.
Proof. intros Hm. unfold mbind, stx_bind. by rewrite Hm. Qed.
(** After a success only files change. *)
Lemma rest_log folder w :
  ∃ r w', (remove settings_bak_file ≫= λ _, update_scratches_list folder) w = (r, w') ∧ log w' = log w.
Proof.
  destruct ((remove settings_bak_file ≫= λ _, update_scratches_list folder) w) as [r w'] eqn:E. exists r, w'.
  split; [done|].
  assert (∀ f, inv_run (λ s, log s = log w) (set_disk f : stx world exn unit) (λ _, True)) as Hset by (intros f; by apply inv_modify).
  enough (inv_run (λ s, log s = log w) (remove settings_bak_file ≫= λ _, update_scratches_list folder) (λ _, True)) as Hinv
    by (by apply (Hinv _ _ _ eq_refl E)).
  unfold remove, update_scratches_list, write_text.
  repeat match goal with
  | |- inv_run _ (_ ≫= _) _ => eapply (inv_bind _ _ _ (λ _, True)); [|intros ? _]
  | |- inv_run _ get_st _ => apply inv_get
  | |- inv_run _ (raise_st _) _ => apply inv_raise
  | |- inv_run _ (match ?x with _ => _ end) _ => destruct x
  | |- _ => apply Hset
  end.
Qed.
(** The last part: CMake is called, and the backup goes when it succeeds. *)
Definition call_cmake (cmake folder : string) (d : ordered_dict) : stx world exn unit :=
  c ← call (cmake :: setting_arguments d ++ [".."])%list folder;
  r ← subprocess_run c;
  _ ← (if decide (r.1.1 = 0%Z) then remove settings_bak_file
       else raise_st (Exception_ ("Reconfiguring CMake to force refresh failed. " +:+
              "A backup of the settings was saved in " +:+ settings_bak_file)));
  update_scratches_list folder.
Lemma refresh_decomposed cmake folder d w :
  refreshable (disk w) folder → settings_of (disk w) folder = Ok d →
  ∃ w1, same_but_disk w w1 (refreshed (disk w) folder d) ∧
    reconfigure_cmake_to_force_refresh cmake (Some folder) false w = call_cmake cmake folder d w1.
Proof.
  intros Hf Hs. assert (disk w !! settings_path ≠ Some Dir) as Hnd by (intros E; unfold settings_of in Hs;
    by rewrite E in Hs).
  destruct (read_settings_runs folder d w Hs) as (? & ? & Hread & -> & ->).
  set (msg1 := "rm -R " +:+ relative folder ns3_path +:+ "; mkdir " +:+ relative folder ns3_path).
  set (wa := (print_and_buffer msg1 w).2).
  destruct (recreate_runs folder wa) as ([] & wb & Hrec & Hb); [exact Hf|].
  destruct (backup_runs folder d w wb Hf Hb Hnd) as ([] & wc & Hback & Hc).
  set (msg2 := cd_message (relative ns3_path folder) (join " " (cmake :: setting_arguments d ++ [".."])) (relative folder ns3_path)).
  exists (print_and_buffer msg2 wc).2. split; [exact Hc|].
  unfold reconfigure_cmake_to_force_refresh.
  rewrite (bind_ok _ _ w (exists_at (disk w) settings_bak_file) w) by reflexivity. rewrite (bind_ok _ _ _ _ _ Hread).
  rewrite (bind_ok _ _ _ tt wa) by reflexivity. cbn [negb when].
  rewrite (bind_ok _ _ _ _ _ Hrec), (bind_ok _ _ _ _ _ Hback).
  rewrite (bind_ok _ _ _ tt (print_and_buffer msg2 wc).2) by reflexivity. reflexivity.
Qed.
End force_refresh.

(** C32: A forced refresh gives CMake the settings of the backup if there is one and else those of the cache;
    when CMake fails, the exception leaves the same settings in the backup, so that the next
    refresh passes them again, however often CMake fails. *)
Theorem force_refresh_retry `{System} (cmake folder : string) (d : ordered_dict) (w : world) :
  refreshable (disk w) folder → settings_of (disk w) folder = Ok d →
  (∀ l c m, (run_process l c m).2 !! settings_path = m !! settings_path) →
  ∃ r w' o, reconfigure_cmake_to_force_refresh cmake (Some folder) false w = (r, w') ∧
    log w' = log w ++ [(refresh_command cmake folder d w, o)] ∧
    ((∀ out err, o ≠ Exited 0 out err) → settings_of (disk w') folder = Ok d ∧ ∃ e, r = Raise e).
Proof.
  intros Hf Hs Hkeep. destruct (refresh_decomposed cmake folder d w Hf Hs) as (w1 & (Hd & He & Hl) & ->).
  unfold call_cmake. rewrite (bind_ok _ _ _ (refresh_command cmake folder d w) w1) by (unfold call, refresh_command; by rewrite <-He).
  set (c := refresh_command cmake folder d w).
  destruct (run_process (log w1) c (disk w1)) as [o m] eqn:Eo.
  assert (m !! settings_path = refreshed (disk w) folder d !! settings_path) as Hm.
  { rewrite <-Hd, <-(Hkeep (log w1) c (disk w1)). by rewrite Eo. }
  assert (settings_of m folder = Ok d) as Hset.
  { unfold settings_of. rewrite Hm. unfold refreshed. rewrite lookup_insert_eq. apply json_load_dump. }
  set (w2 := World m (environ w1) (out_dir w1) (run_verbose w1) (print_buffer w1) (stdout w1) (log w1 ++ [(c, o)]) (at_exit w1)).
  assert (start c w1 = (Ok o, w2)) as Hstart by (unfold start; by rewrite Eo).
  unfold subprocess_run. unfold mbind at 1, stx_bind at 1. rewrite (bind_ok _ _ _ _ _ Hstart).
  destruct o as [code out err| |]; cbn [mret stx_ret raise_st].
  - destruct (decide (code = 0%Z)) as [->|Hne].
    + cbn [fst]. rewrite decide_True by done.
      pose proof (rest_log folder w2) as (r & w' & Hr & Hl'). rewrite Hr. exists r, w', (Exited 0 out err).
      split; [done|].
      split; [rewrite Hl'; cbn; by rewrite Hl|]. intros Hno. by destruct (Hno out err).
    + cbn [fst]. rewrite decide_False by done. eexists _, w2, _. split; [reflexivity|].
      split; [cbn; by rewrite Hl|]. eauto.
  - eexists _, w2, _. split; [reflexivity|]. split; [cbn; by rewrite Hl|]. eauto.
  - eexists _, w2, _. split; [reflexivity|]. split; [cbn; by rewrite Hl|]. eauto.
Qed.

(** ** An example tree *)

Module Demo.
(** A stand-in for json: every character is marked, every text ends with a comma. *)
Fixpoint enc (s : string) : list ascii :=
  match s with "" => [","%char] | String c s => "x"%char :: c :: enc s end.
Definition dump (d : ordered_dict) : string := implode (kv ← d; (enc kv.1 ++ enc kv.2)%list).
Fixpoint dec (l : list ascii) : option (string * list ascii) :=
  match l with
  | "x"%char :: c :: l => match dec l with Some (s, r) => Some (String c s, r) | None => None end
  | ","%char :: l => Some ("", l)
  | _ => None
  end.
Fixpoint load_go (fuel : nat) (l : list ascii) : option ordered_dict :=
  match fuel, l with
  | _, [] => Some []
  | 0, _ => None
  | S fuel, l => '(k, l) ← dec l; '(v, l) ← dec l; d ← load_go fuel l; Some ((k, v) :: d)
  end.
Definition load (s : string) : py exn ordered_dict :=
  or_raise (ValueError "Expecting value") (load_go (length (chars s)) (chars s)).
Lemma dec_enc s r : dec (enc s ++ r) = Some (s, r).
Proof. induction s as [|c s IH]; [done|]. cbn. by rewrite IH. Qed.
Lemma load_dump d : load (dump d) = Ok d.
Proof.
  unfold load, dump. rewrite chars_implode.
  assert (∀ fuel, length d ≤ fuel → load_go fuel (kv ← d; (enc kv.1 ++ enc kv.2)%list) = Some d) as Hgo.
  { induction d as [|[k v] d IH]; intros fuel Hf; [by destruct fuel|]. destruct fuel as [|fuel]; [cbn in Hf; lia|].
    cbn [mbind list_bind fst snd]. rewrite <-app_assoc.
    destruct (enc k ++ _)%list eqn:E; [destruct k; discriminate E|]. rewrite <-E. cbn [load_go].
    rewrite E, <-E, dec_enc.
    cbn [mbind option_bind]. rewrite dec_enc. cbn [mbind option_bind]. rewrite IH by (cbn in Hf; lia). done. }
  rewrite Hgo; [done|]. clear Hgo. induction d as [|[k v] d IH]; [cbn; lia|].
  cbn [mbind list_bind fst snd]. rewrite !length_app. destruct k; cbn [enc length] in *; cbn in IH |- *; lia.
Qed.

Definition program : string := "/h/ns3/build/scratch/ns3-dev-first-default".
(** CMake can be asked for its version, refreshes, and builds the program if [builds]; the program
    ends with status 3. *)
Definition process (builds : bool) (l : list (command * outcome)) (c : command) (m : fs) : outcome * fs :=
  if decide (drop 1 (argv c) = ["--version"]) then (Exited 0 ("cmake version 3.22.1" +:+ nl) "", m)
  else if decide (take 2 (argv c) = ["cmake"; "--build"]) then
    if builds then (Exited 0 "" "", <[ program := File "" false ]> m) else (Exited 2 "" "", m)
  else if decide (head (argv c) = Some "/usr/bin/cmake") then (Exited 0 "" "", m)
  else (Exited 3 "" "", m).
Lemma process_status builds l c m code out err : (process builds l c m).1 = Exited code out err → (-256 < code < 256)%Z.
Proof. unfold process. repeat case_decide; [|destruct builds|..]; cbn; intros [= <- _ _]; lia. Qed.
Definition lock_variables : variables :=
  {[ "out_dir" := VStr "/h/ns3/build"; "NS3_ENABLED_MODULES" := VList ["ns3-core"]; "NS3_ENABLED_CONTRIBUTED_MODULES" := VList [];
     "BUILD_PROFILE" := VStr "default"; "VERSION" := VStr "3-dev"; "ENABLE_PYTHON_BINDINGS" := VBool false;
     "ns3_runnable_programs" := VList [program]; "ns3_runnable_scripts" := VList [] ]}.
Definition system (builds : bool) : System := {|
  ns3_path := "/h/ns3"; platform := "linux"; cpu_count := 8; getcwd := "/h";
  which n := if decide (n = "cmake") then Some "/usr/bin/cmake" else None;
  run_process := process builds; exit_status := process_status builds;
  exec_code _ := Ok lock_variables; scan m := (map_to_list m).*1; scan_perm m := reflexivity _;
  json_dump := dump; json_load := load; json_load_dump := load_dump;
  error_message cmd code := cmd +:+ " failed"; getpass := "" |}.

Definition cache : string :=
  join nl ["CMAKE_GENERATOR:INTERNAL=Ninja"; "build_profile:INTERNAL=default"; "NS3_LOG:BOOL=ON"; "NS3_INT64X64-STRINGS:INTERNAL=a"].
(** The tree after a configuration that knew the scratch sources [known]. *)
Definition files (known : string) : fs := {[
  "/" := Dir; "/h" := Dir; "/h/ns3" := Dir; "/h/ns3/.lock-ns3_linux_build" := File "" false;
  "/h/ns3/cmake-cache" := Dir; "/h/ns3/cmake-cache/CMakeCache.txt" := File cache false;
  "/h/ns3/cmake-cache/ns3scratches" := File known false;
  "/h/ns3/scratch" := Dir; "/h/ns3/scratch/first.cc" := File "" false;
  "/h/ns3/build" := Dir; "/h/ns3/build/scratch" := Dir ]}.
Definition start (m : fs) : world := World m ∅ "/h/ns3/build" true "" [] [] None.
Definition current : string := "/h/ns3/scratch/first.cc".

Definition table : cli_table := [
  (["run"; "first"], (Some "run", [("run", VStr "first")], []));
  (["run"; "first"; "--dry-run"], (Some "run", [("run", VStr "first"); ("run_dry_run", VBool true)], []));
  (["configure"; "--force-refresh"], (Some "configure", [("configure", VBool true); ("force_refresh", VBool true)], []));
  (["configure"; "--force-refresh"; "--dry-run"],
    (Some "configure", [("configure", VBool true); ("force_refresh", VBool true); ("configure_dry_run", VBool true)], []))].
#[export] Instance argparse : Argparse 8 := table_argparse 8 table eq_refl.
Definition run (builds : bool) (args : list string) (m : fs) : Z * world :=
  @script (system builds) argparse elements args (start m).
End Demo.

(** What the examples look at: the status, and each command with its status. *)
Definition status_code (o : outcome) : option Z := match o with Exited c _ _ => Some c | _ => None end.
Definition trace (x : Z * world) : Z * list (list string * option Z) := (x.1, (λ co, (argv co.1, status_code co.2)) <$> log x.2).

Definition demo_run : Z * world := Demo.run true ["run"; "first"] (Demo.files Demo.current).
Definition demo_trace : list (list string * option Z) :=
  [(["/usr/bin/cmake"; "--version"], Some 0%Z);
   (["cmake"; "--build"; "."; "-j"; "7"; "--target"; "scratch_first"], Some 0%Z); ([Demo.program], Some 3%Z)].
Lemma script_status_witness :
  trace demo_run = (3%Z, demo_trace) ∧
  ∃ pre c o, log demo_run.2 = pre ++ [(c, o)] ∧ Forall good pre ∧ ¬ good (c, o).
Proof.
  assert (trace demo_run = (3%Z, demo_trace)) as Ht by (vm_compute; reflexivity). split; [exact Ht|].
  destruct demo_run as [s w'] eqn:E. unfold demo_run, Demo.run in E.
  destruct (@script_status (Demo.system true) Demo.argparse elements ["run";
    "first"] (Demo.start (Demo.files Demo.current)) w' s E eq_refl)
    as [Hall|(pre & c & o & Hl & Hpre & Hbad & _)]; [exfalso|exists pre, c, o; split; [exact Hl|split;
      [exact Hpre|exact Hbad]]].
  unfold trace in Ht. injection Ht as _ Ht. cbn [snd] in Ht.
  destruct (log w') as [|x1 [|x2 [|[c o] l]]]; try discriminate Ht.
  rewrite !fmap_cons in Ht. injection Ht as _ _ _ _ Hc Ho _. inversion Hall as [|? ? _ H1]; subst.
  inversion H1 as [|? ? _ H2]; subst.
  inversion H2 as [|? ? H3 _]; subst. destruct H3 as [H3|(? & ? & H3)]; cbn in H3.
  - unfold is_sudo in H3. rewrite Hc in H3. discriminate H3.
  - rewrite H3 in Ho. discriminate Ho.
Defined.

Lemma demo_version_pure : @version_pure (Demo.system true).
Proof. intros l c m (cmake & _ & Hc). cbn. unfold Demo.process. rewrite Hc. reflexivity. Qed.
Definition demo_files : fs := Demo.files Demo.current.
Lemma demo_caches_found : @glob (Demo.system true) (@cache_pattern (Demo.system true)) demo_files = ["/h/ns3/cmake-cache/CMakeCache.txt"].
Proof. vm_compute. reflexivity. Qed.
Lemma dry_run_safe_witness :
  (trace (Demo.run true ["run"; "first"; "--dry-run"] demo_files)).2 = [(["/usr/bin/cmake"; "--version"], Some 0%Z)] ∧
  disk (Demo.run true ["run"; "first"; "--dry-run"] demo_files).2 = demo_files.
Proof.
  split; [vm_compute; reflexivity|].
  destruct (Demo.run true ["run"; "first"; "--dry-run"] demo_files) as [s w'] eqn:E. unfold Demo.run in E.
  refine (proj1 (@dry_run_safe (Demo.system true) Demo.argparse elements ["run"; "first";
    "--dry-run"] (Demo.start demo_files) w' s
            demo_version_pure _ _ eq_refl E)).
  - intros a Ha.
    assert (((λ m : namespace, (m !! "dry_run", m !! "force_refresh")) <$> (@parse_args 8 Demo.argparse ["run";
      "first"; "--dry-run"]).2) =
            Ok (Some (VBool true), None)) as Hp by (vm_compute; reflexivity).
    change (@cpu_count (Demo.system true)) with 8%Z in Ha. rewrite Ha in Hp. injection Hp as H1 H2.
    split; [exact H1|].
    intros v Hv. rewrite H2 in Hv. discriminate Hv.
  - intros c t b Hc Ht. cbn [disk Demo.start] in Hc, Ht. rewrite demo_caches_found in Hc.
    apply list_elem_of_singleton in Hc as ->.
    vm_compute in Ht. injection Ht as <- _. vm_compute. reflexivity.
Defined.

(** A dry run in a tree where a scratch source was added runs [cmake ..]. *)
Lemma dry_run_refreshes :
  (trace (Demo.run true ["run"; "first"; "--dry-run"] (Demo.files ""))).2 =
    [(["/usr/bin/cmake"; ".."], Some 0%Z); (["/usr/bin/cmake"; "--version"], Some 0%Z)].
Proof. vm_compute. reflexivity. Qed.
(** A dry run of a program that is not built yet fails where the program is looked up. *)
Lemma dry_run_unbuilt : (Demo.run true ["run"; "first"; "--dry-run"] demo_files).1 = 1%Z.
Proof. vm_compute. reflexivity. Qed.

(** A dry run of a forced refresh leaves a backup of the settings in the current directory, and the next
    refresh passes on these settings instead of those that the cache has by then. *)
Definition after_dry_refresh : fs := disk (Demo.run true ["configure"; "--force-refresh"; "--dry-run"] demo_files).2.
Definition changed_cache : fs :=
  <[ "/h/ns3/cmake-cache/CMakeCache.txt" := File (join nl
       ["CMAKE_GENERATOR:INTERNAL=Ninja"; "build_profile:INTERNAL=default"; "NS3_LOG:BOOL=OFF"; "NS3_INT64X64-STRINGS:INTERNAL=a"]) false ]>
    after_dry_refresh.
Lemma dry_run_saves_settings :
  demo_files !! "/h/settings.json" = None ∧ after_dry_refresh !! "/h/settings.json" ≠ None ∧
  (trace (Demo.run true ["configure"; "--force-refresh"] changed_cache)).2 =
    [(["/usr/bin/cmake"; "--version"], Some 0%Z);
     (["/usr/bin/cmake"; "-DNS3_LOG=ON"; "-DCMAKE_GENERATOR=Ninja"; ".."], Some 0%Z)].
Proof. split; [vm_compute; reflexivity|]. split; [vm_compute; discriminate|]. vm_compute. reflexivity. Qed.

Definition treeb `{System} (m : fs) : bool :=
  forallb (λ kv, bool_decide (resolve kv.1 = kv.1) && match m !! dirname kv.1 with Some Dir => true | _ => false end) (map_to_list m).
Lemma treeb_ok `{System} m : treeb m = true → tree m.
Proof.
  unfold treeb. rewrite forallb_forall. intros Hm p n Hp. apply elem_of_map_to_list, list_elem_of_In in Hp.
  apply Hm in Hp.
  apply andb_true_iff in Hp as [H1%bool_decide_eq_true H2]. cbn in *. split; [exact H1|].
  by destruct (m !! dirname p) as [[]|].
Qed.
Lemma clean_spec_witness :
  ∃ w', @clean_cmake_artifacts (Demo.system true) false (Demo.start demo_files) = (Ok tt, w') ∧
    disk w' !! "/h/ns3/scratch/first.cc" = demo_files !! "/h/ns3/scratch/first.cc" ∧ disk w' !! "/h/ns3/cmake-cache" = None.
Proof.
  destruct (@clean_spec (Demo.system true) (Demo.start demo_files)) as (w' & Hr & _ & Hd).
  - apply treeb_ok. vm_compute. reflexivity.
  - vm_compute. discriminate.
  - exists w'. split; [exact Hr|]. rewrite !Hd. split; vm_compute; reflexivity.
Defined.
(** With a [CMakeCache.txt] in the source directory [clean] removes the whole tree. *)
Definition in_source : fs := <[ "/h/ns3/CMakeCache.txt" := File "" false ]> demo_files.
Lemma clean_in_source :
  map_to_list (disk (@clean_cmake_artifacts (Demo.system true) false (Demo.start in_source)).2) = [("/h", Dir); ("/", Dir)].
Proof. vm_compute. reflexivity. Qed.

Definition demo_settings : ordered_dict := [("NS3_LOG", "ON"); ("CMAKE_GENERATOR", "Ninja")].
Lemma demo_keeps_settings l c m :
  (@run_process (Demo.system true) l c m).2 !! @settings_path (Demo.system true) = m !! @settings_path (Demo.system true).
Proof.
  change (@settings_path (Demo.system true)) with "/h/settings.json". cbn. unfold Demo.process.
  repeat case_decide; [reflexivity| |reflexivity..]. cbn. by rewrite lookup_insert_ne.
Qed.
(** CMake fails in the example: the settings are still there. *)
Lemma force_refresh_retry_witness :
  ∃ r w' o, @reconfigure_cmake_to_force_refresh (Demo.system true) "cmake" (Some "/h/ns3/cmake-cache") false (Demo.start demo_files) = (r, w') ∧
    log w' = [(@refresh_command "cmake" "/h/ns3/cmake-cache" demo_settings (Demo.start demo_files), o)] ∧
    ((∀ out err, o ≠ Exited 0 out err) → @settings_of (Demo.system true) (disk w') "/h/ns3/cmake-cache" = Ok demo_settings).
Proof.
  destruct (@force_refresh_retry (Demo.system true) "cmake" "/h/ns3/cmake-cache" demo_settings (Demo.start demo_files))
    as (r & w' & o & Hr & Hl & Ho).
  - split; vm_compute; repeat split; reflexivity.
  - vm_compute. reflexivity.
  - exact demo_keeps_settings.
  - exists r, w', o. split; [exact Hr|]. split; [exact Hl|]. intros Hne. destruct (Ho Hne) as [Hs _]. exact Hs.
Defined.
