(* ===== verification/VizThreads.v ===== *)
(** * VizThreads: the two threads of the visualizer

    [src/visualizer/visualizer/core.py] runs the simulator in a thread of its own
    ([SimulationThread.run]), one sample period at a time, while the GTK thread shows the state
    reached and gives the signal for the next period ([update_view_timeout]).  The two share the
    simulator, a lock, an event [go], a flag [quit], a target time and a list of messages.

    A state is the record [viz].  The simulation thread has a program counter [sim_pc]; the view
    thread has a stack of frames, because [update_view_timeout] and dialogs run the event loop
    from inside a handler.  One step is one access to what the threads share, [sim_step] and
    [view_step] compute it, and [step] interleaves them in every possible way with every
    possible sequence of events.  The simulator itself is the class [Simulator]. *)

From stdpp Require Import base list strings relations.
From Stdlib Require Import QArith Qround Qabs Lqa.
From S2P Require Import Prelude PyNum.
Open Scope nat_scope.

(** The handlers that run with the lock held, by the calls they make under it. *)
Inductive request :=
| update_model
| set_nodes_of_interest (nodes : list Z)
| tooltip_query (node : Z)
| begin_node_drag (node : Z)
| node_drag_motion (node : Z) (x y : Q)
| add_information_window (window : nat)
| update_capture_options (node : Z).

(** The simulator, written in C++: the time in its own unit, [SimulatorRunUntil], the messages of
    the last run, what a handler does to it, and [Seconds(Now().GetSeconds() + p)].  A run that is
    not started with a time of the past ends between the old time and the time asked for; only a
    run moves the clock. *)
Class Simulator := {
  simulator : Type;
  now : simulator → Z;
  run_until : Z → simulator → simulator;
  get_pause_messages : simulator → list string;
  call : request → simulator → simulator;
  target_after : Z → Q → Z;
  run_until_now t s : (now s <= t → now s <= now (run_until t s) <= t)%Z;
  call_now r s : now (call r s) = now s;
  target_future t p : (0 < p)%Q → (t <= target_after t p)%Z;
  target_mono t t' p p' : (t <= t')%Z → (p <= p')%Q → (target_after t p <= target_after t' p')%Z
}.

(** Rounding to doubles, on the range of the sample periods. *)
Class Doubles `{Rounding} :=
  rnd_close q : (1 # 10000 <= q <= 2)%Q → (Qabs (rnd q - q) <= q * (1 # 1000))%Q.

(** ** The state *)

Inductive thread := SimulationThread | ViewThread.
#[global] Instance thread_eq_dec : EqDecision thread.
Proof. solve_decision. Defined.

(** The places of [SimulationThread.run]: the test of the loop, [go.wait()], [go.clear()],
    [if self.quit], [lock.acquire()], [SimulatorRunUntil], [pause_messages.extend], [idle_add],
    [lock.release()], and the end of the thread. *)
Inductive sim_pc := Test | Wait | Clear | Check | Acquire | Run | Extend | Idle | Release | Done.
#[global] Instance sim_pc_eq_dec : EqDecision sim_pc.
Proof. solve_decision. Defined.

(** The handlers the view thread is in, by the place they have reached.  [id] is the GLib source
    of the timer that called [update_view_timeout] and [msgs] its variable [pause_messages]. *)
Inductive frame :=
| TryAcquire (id : nat)
| EventsPending (id : nat)
| TakeMessages (id : nat)
| UpdateView (id : nat) (msgs : list string)
| SetTarget (id : nat) (msgs : list string)
| ReleaseView (id : nat) (msgs : list string)
| ReleaseFailed (id : nat) (msgs : list string)
| AfterUpdate (id : nat) (msgs : list string)
| LockFor (r : request)
| Locked (r : request)
| Unlock
| QuitFlag
| QuitGo
| QuitJoin
| MainQuit
| ModalDialog
| ReadUnlocked.

(** The fields of [SimulationThread]. *)
Record simulation := Simulation {
  lock : option thread;
  go : bool;
  target_time : Z;
  quit : bool;
  pause_messages : list string
}.
(** The fields of [Visualizer] the protocol uses, with the GLib sources that are attached: the
    update timers by their numbers, the number to give next, the pending calls of [update_model],
    and how often a source was removed that is not attached.  [shown_time] is the time in the
    label, [dialogs] the texts of the message dialogs. *)
Record gui := Gui {
  active : bool;
  speed : Q;
  sample_period : Q;
  update_timeout_id : option nat;
  timers : list nat;
  next_source : nat;
  idle_calls : nat;
  bad_removes : nat;
  in_main : bool;
  shown_time : Z;
  dialogs : list string
}.

Section threads.
Context `{Rounding} `{Simulator}.

(** [reported] is not a variable of the program: all messages the simulator has reported. *)
Record viz := Viz {
  thr : simulation;
  win : gui;
  sim : simulator;
  pc : sim_pc;
  frames : list frame;
  reported : list string
}.

Definition with_thr (t : simulation) (v : viz) : viz := Viz t (win v) (sim v) (pc v) (frames v) (reported v).
Definition with_win (g : gui) (v : viz) : viz := Viz (thr v) g (sim v) (pc v) (frames v) (reported v).
Definition with_pc (p : sim_pc) (v : viz) : viz := Viz (thr v) (win v) (sim v) p (frames v) (reported v).
Definition with_frames (fs : list frame) (v : viz) : viz := Viz (thr v) (win v) (sim v) (pc v) fs (reported v).
Definition with_sim (s : simulator) (v : viz) : viz := Viz (thr v) (win v) s (pc v) (frames v) (reported v).

Definition set_lock (o : option thread) (t : simulation) : simulation :=
  Simulation o (go t) (target_time t) (quit t) (pause_messages t).
Definition set_go (b : bool) (t : simulation) : simulation :=
  Simulation (lock t) b (target_time t) (quit t) (pause_messages t).
Definition set_target (z : Z) (t : simulation) : simulation :=
  Simulation (lock t) (go t) z (quit t) (pause_messages t).
Definition set_quit (t : simulation) : simulation :=
  Simulation (lock t) (go t) (target_time t) true (pause_messages t).
Definition set_messages (l : list string) (t : simulation) : simulation :=
  Simulation (lock t) (go t) (target_time t) (quit t) l.

(** ** The simulation thread *)

(** [SimulationThread.run]; [None] while it waits. *)
Definition sim_step (v : viz) : option viz :=
  let t := thr v in
  match pc v with
  | Test => Some (with_pc (if quit t then Done else Wait) v)
  | Wait => if go t then Some (with_pc Clear v) else None
  | Clear => Some (with_pc Check (with_thr (set_go false t) v))
  | Check => Some (with_pc (if quit t then Done else Acquire) v)
  | Acquire =>
      match lock t with
      | None => Some (with_pc Run (with_thr (set_lock (Some SimulationThread) t) v))
      | Some _ => None
      end
  | Run => Some (with_pc Extend (with_sim (run_until (target_time t) (sim v)) v))
  | Extend =>
      let new := get_pause_messages (sim v) in
      Some (Viz (set_messages (pause_messages t ++ new) t) (win v) (sim v) Idle (frames v) (reported v ++ new))
  | Idle =>
      let g := win v in
      Some (with_pc Release (with_win (Gui (active g) (speed g) (sample_period g) (update_timeout_id g) (timers g)
        (next_source g) (S (idle_calls g)) (bad_removes g) (in_main g) (shown_time g) (dialogs g)) v))
  | Release => Some (with_pc Test (with_thr (set_lock None t) v))
  | Done => None
  end.

(** ** The play button, the speed and the update timer *)

Definition set_timers (i : option nat) (ts : list nat) (next bad : nat) (g : gui) : gui :=
  Gui (active g) (speed g) (sample_period g) i ts next (idle_calls g) bad (in_main g) (shown_time g) (dialogs g).

(** [GLib.source_remove(id)]: GLib complains about a source that is not attached. *)
Definition source_remove (id : nat) (g : gui) : gui :=
  set_timers (update_timeout_id g) (filter (λ i, i ≠ id) (timers g)) (next_source g)
    (if bool_decide (id ∈ timers g) then bad_removes g else S (bad_removes g)) g.
Definition remove_timer (g : gui) : gui :=
  match update_timeout_id g with Some id => source_remove id g | None => g end.

(** The interval of the timer in milliseconds, [int(SAMPLE_PERIOD/min(self.speed, 1)*1e3)]. *)
Definition SAMPLE_PERIOD : num := lit (1 # 10).
Definition timer_interval (speed : Q) : py exn num :=
  q ← num_div SAMPLE_PERIOD (num_min (Flt speed) (Int 1)); Ok (num_int (num_mul q (lit 1000))).

Definition start_update_timer (g : gui) : gui :=
  let g := remove_timer g in
  set_timers (Some (next_source g)) (timers g ++ [next_source g]) (S (next_source g)) (bad_removes g) g.
Definition on_play_button_toggled (g : gui) : gui :=
  if active g then start_update_timer g else remove_timer g.
(** [play_button.set_active(b)] calls the handler when the state changes. *)
Definition set_active (b : bool) (g : gui) : gui :=
  if Bool.eqb b (active g) then g else
  on_play_button_toggled (Gui b (speed g) (sample_period g) (update_timeout_id g) (timers g) (next_source g)
    (idle_calls g) (bad_removes g) (in_main g) (shown_time g) (dialogs g)).
(** [_speed_changed]. *)
Definition speed_changed (value : Q) (g : gui) : gui :=
  start_update_timer (Gui (active g) value (val (num_mul SAMPLE_PERIOD (Flt value))) (update_timeout_id g) (timers g)
    (next_source g) (idle_calls g) (bad_removes g) (in_main g) (shown_time g) (dialogs g)).

(** ** The view thread *)

(** The sources and user actions that the event loop may dispatch. *)
Inductive event :=
| TimerFires (id : nat)
| IdleCall
| UserCall (r : request)
| PlayToggled
| SpeedChanged (value : Q)
| DeleteEvent
| OpenDialog
| ReadEvent.

Definition source_of (f : frame) : option nat :=
  match f with
  | TryAcquire id | EventsPending id | TakeMessages id | UpdateView id _ | SetTarget id _
  | ReleaseView id _ | ReleaseFailed id _ | AfterUpdate id _ => Some id
  | _ => None
  end.

Definition push (f : frame) (v : viz) : viz := with_frames (f :: frames v) v.

(** One iteration of the event loop.  A source is not dispatched again while its handler runs; the
    adjustment of the speed keeps to its bounds; [ReadEvent] stands for the handlers that look at the
    simulator without the lock: [autoscale_view], [WifiLink.tooltip_query] and the menus. *)
Definition dispatch (e : event) (v : viz) : option viz :=
  let g := win v in
  match e with
  | TimerFires id =>
      if bool_decide (id ∈ timers g) && negb (bool_decide (Some id ∈ source_of <$> frames v))
      then Some (push (TryAcquire id) v) else None
  | IdleCall =>
      match idle_calls g with
      | S n => Some (push (LockFor update_model) (with_win (Gui (active g) (speed g) (sample_period g)
                 (update_timeout_id g) (timers g) (next_source g) n (bad_removes g) (in_main g)
                 (shown_time g) (dialogs g)) v))
      | 0 => None
      end
  | UserCall r => Some (push (LockFor r) v)
  | PlayToggled => Some (with_win (set_active (negb (active g)) g) v)
  | SpeedChanged value =>
      if Qle_bool (1 # 100) value && Qle_bool value 10 then Some (with_win (speed_changed value g) v) else None
  | DeleteEvent => Some (push QuitFlag v)
  | OpenDialog => Some (push ModalDialog v)
  | ReadEvent => Some (push ReadUnlocked v)
  end.

(** What the world decides in a step of the view thread: nothing, the next event, or that the code
    called here raises. *)
Inductive choice := Continue | Dispatch (e : event) | Fail.

Definition show_time (z : Z) (g : gui) : gui :=
  Gui (active g) (speed g) (sample_period g) (update_timeout_id g) (timers g) (next_source g)
    (idle_calls g) (bad_removes g) (in_main g) z (dialogs g).
Definition set_timeout_id (i : option nat) (g : gui) : gui :=
  set_timers i (timers g) (next_source g) (bad_removes g) g.
(** A handler that returns a false value, or raises, loses its source. *)
Definition source_ends (id : nat) (g : gui) : gui :=
  set_timers (update_timeout_id g) (filter (λ i, i ≠ id) (timers g)) (next_source g) (bad_removes g) g.
Definition show_dialog (text : string) (g : gui) : gui :=
  Gui (active g) (speed g) (sample_period g) (update_timeout_id g) (timers g) (next_source g)
    (idle_calls g) (bad_removes g) (in_main g) (shown_time g) (dialogs g ++ [text]).
Definition main_quit (g : gui) : gui :=
  Gui (active g) (speed g) (sample_period g) (update_timeout_id g) (timers g) (next_source g)
    (idle_calls g) (bad_removes g) false (shown_time g) (dialogs g).

(** The end of [update_view_timeout], after the lock is released. *)
Definition after_update (id : nat) (msgs : list string) (fs : list frame) (v : viz) : viz :=
  let g := match msgs with [] => win v | _ => set_active false (show_dialog (join nl msgs) (win v)) end in
  if active g then with_thr (set_go true (thr v)) (with_win g (with_frames fs v))
  else with_win (source_ends id (set_timeout_id None g)) (with_frames fs v).

Definition view_step (c : choice) (v : viz) : option viz :=
  let t := thr v in
  let g := win v in
  let goto f fs v := Some (with_frames (f :: fs) v) in
  match frames v with
  | [] => match c with Dispatch e => if in_main g then dispatch e v else None | _ => None end
  | f :: fs =>
    match f, c with
    | TryAcquire id, Continue =>
        match lock t with
        | None => goto (TakeMessages id) fs (with_thr (set_lock (Some ViewThread) t) v)
        | Some _ => goto (EventsPending id) fs v
        end
    | EventsPending id, Dispatch e => dispatch e v
    | EventsPending id, Continue => goto (TryAcquire id) fs v
    | TakeMessages id, Continue => goto (UpdateView id (pause_messages t)) fs (with_thr (set_messages [] t) v)
    | UpdateView id msgs, Continue => goto (SetTarget id msgs) fs (with_win (show_time (now (sim v)) g) v)
    | UpdateView id msgs, Fail => goto (ReleaseFailed id msgs) fs (with_win (show_time (now (sim v)) g) v)
    | SetTarget id msgs, Continue =>
        goto (ReleaseView id msgs) fs (with_thr (set_target (target_after (now (sim v)) (sample_period g)) t) v)
    | ReleaseView id msgs, Continue => goto (AfterUpdate id msgs) fs (with_thr (set_lock None t) v)
    | ReleaseFailed id msgs, Continue =>
        Some (with_thr (set_lock None t) (with_win (source_ends id g) (with_frames fs v)))
    | AfterUpdate id msgs, Continue => Some (after_update id msgs fs v)
    | LockFor r, Continue =>
        match lock t with
        | None => goto (Locked r) fs (with_thr (set_lock (Some ViewThread) t) v)
        | Some _ => None
        end
    | Locked r, Continue => goto Unlock fs (with_sim (call r (sim v)) v)
    | Locked r, Fail => goto Unlock fs v
    | Unlock, Continue => Some (with_thr (set_lock None t) (with_frames fs v))
    | QuitFlag, Continue =>
        goto QuitGo fs (with_thr (set_quit t) (with_win (set_timeout_id None (remove_timer g)) v))
    | QuitGo, Continue => goto QuitJoin fs (with_thr (set_go true t) v)
    | QuitJoin, Continue => if bool_decide (pc v = Done) then goto MainQuit fs v else None
    | MainQuit, Continue => Some (with_win (main_quit g) (with_frames fs v))
    | ModalDialog, Dispatch e => dispatch e v
    | ModalDialog, Continue => Some (with_frames fs v)
    | ReadUnlocked, Continue => Some (with_frames fs v)
    | _, _ => None
    end
  end.

(** ** Runs *)

(** The world may make [update_view] raise only when [faults] is true. *)
Definition allowed (faults : bool) (c : choice) (v : viz) : Prop :=
  faults = true ∨ ∀ id msgs fs, frames v = UpdateView id msgs :: fs → c ≠ Fail.

Inductive step (faults : bool) : viz → viz → Prop :=
| step_sim v v' : sim_step v = Some v' → step faults v v'
| step_view c v v' : allowed faults c v → view_step c v = Some v' → step faults v v'.

(** [Visualizer.__init__] and [start]: [create_gui] has started the update timer, the play button
    is off, the simulation thread starts. *)
Definition initial_gui : gui :=
  speed_changed 1 (Gui false 1 (val SAMPLE_PERIOD) None [] 1 0 0 true 0 []).
Definition initial (s : simulator) : viz := Viz (Simulation None false 0 false []) initial_gui s Test [] [].

Definition reachable (faults : bool) (v : viz) : Prop :=
  ∃ s, now s = 0%Z ∧ rtc (step faults) (initial s) v.

(** A run by a list of moves, for examples. *)
Inductive move := Sim_ | View_ (c : choice).
Definition do_move (m : move) (v : viz) : option viz :=
  match m with Sim_ => sim_step v | View_ c => view_step c v end.
Fixpoint do_moves (ms : list move) (v : viz) : option viz :=
  match ms with [] => Some v | m :: ms => do_move m v ≫= do_moves ms end.
End threads.

(** ** The discipline of the lock *)

Section facts.
Context `{Doubles} `{Simulator}.
Implicit Types v : viz.

(** The places at which a thread holds the lock. *)
Definition sim_critical (p : sim_pc) : bool :=
  match p with Run | Extend | Idle | Release => true | _ => false end.
Definition critical (f : frame) : bool :=
  match f with
  | TakeMessages _ | UpdateView _ _ | SetTarget _ _ | ReleaseView _ _ | ReleaseFailed _ _ | Locked _ | Unlock => true
  | _ => false
  end.
(** The handlers from inside which events are dispatched. *)
Definition dispatching (f : frame) : bool :=
  match f with EventsPending _ | ModalDialog => true | _ => false end.

(** The lock is free, or held by the simulation thread in its critical part, or by the topmost
    handler of the view thread; the handlers below are in the event loop. *)
Record lock_inv (v : viz) : Prop := {
  lock_sim : sim_critical (pc v) = bool_decide (lock (thr v) = Some SimulationThread);
  lock_view : match frames v with f :: _ => critical f | [] => false end = bool_decide (lock (thr v) = Some ViewThread);
  lock_tail : Forall (λ f, dispatching f = true) (tail (frames v))
}.

(** After [quit] is set, the simulation thread cannot miss the signal to go. *)
Record quit_inv (v : viz) : Prop := {
  quit_wakes : quit (thr v) = true → pc v = Wait → go (thr v) = true ∨ head (frames v) = Some QuitGo;
  quit_set : ∀ f, head (frames v) = Some f → f = QuitGo ∨ f = QuitJoin ∨ f = MainQuit → quit (thr v) = true
}.

Lemma dispatch_lock e v v' : dispatch e v = Some v' →
  thr v' = thr v ∧ sim v' = sim v ∧ pc v' = pc v ∧ reported v' = reported v ∧
  (frames v' = frames v ∨ ∃ f, frames v' = f :: frames v ∧ critical f = false ∧ f ≠ QuitGo ∧ f ≠ QuitJoin ∧ f ≠ MainQuit ∧
    ∀ id msgs, f ≠ AfterUpdate id msgs).
Proof.
  intros He. destruct e; cbn in He; repeat case_match; simplify_eq; split_and!; try done;
    first [by left|right; eexists; split_and!; [reflexivity|done..]].
Qed.

Lemma lock_inv_sim v v' : lock_inv v → sim_step v = Some v' → lock_inv v'.
Proof.
  intros [Hl1 Hl2 Hl3] Hs. destruct v as [[l g t q m] w s p fs r]. unfold sim_step in Hs. cbn in *.
  destruct p, l as [[]|]; repeat case_match; simplify_eq; cbn in *; constructor; cbn; done.
Qed.

Lemma lock_inv_dispatch fs e v v' :
  lock_inv v → frames v = fs → match fs with f :: _ => dispatching f | [] => true end = true →
  dispatch e v = Some v' → lock_inv v'.
Proof.
  intros [Hl1 Hl2 Hl3] <- Hd (Ht & _ & Hp & _ & Hf)%dispatch_lock. constructor; rewrite ?Ht, ?Hp; [done| |].
  - destruct Hf as [->|(f' & -> & Hc & _)]; [done|]. rewrite Hc, <-Hl2.
    destruct (frames v) as [|[] ?]; done.
  - destruct Hf as [->|(f' & -> & _)]; [done|]. cbn. destruct (frames v) as [|f0 fs]; [done|].
    by constructor.
Qed.

(** What is below a handler that returns. *)
Lemma below_free fs : Forall (λ f, dispatching f = true) fs →
  match fs with f :: _ => critical f | [] => false end = false ∧ Forall (λ f, dispatching f = true) (tail fs).
Proof. intros [|f fs' Hf Hfs]; [by split|]. split; [by destruct f|done]. Qed.

Lemma after_update_frame id msgs fs v :
  frames (after_update id msgs fs v) = fs ∧ pc (after_update id msgs fs v) = pc v ∧
  sim (after_update id msgs fs v) = sim v ∧ reported (after_update id msgs fs v) = reported v ∧
  quit (thr (after_update id msgs fs v)) = quit (thr v) ∧ lock (thr (after_update id msgs fs v)) = lock (thr v) ∧
  target_time (thr (after_update id msgs fs v)) = target_time (thr v) ∧
  pause_messages (thr (after_update id msgs fs v)) = pause_messages (thr v) ∧
  (go (thr v) = true → go (thr (after_update id msgs fs v)) = true).
Proof. unfold after_update. destruct (match msgs with [] => _ | _ => _ end) as [[] ?]; cbn; split_and!; auto. Qed.

Lemma lock_inv_view c v v' : lock_inv v → view_step c v = Some v' → lock_inv v'.
Proof.
  intros Hl Hs. unfold view_step in Hs. destruct (frames v) as [|f fs] eqn:Ef.
  { destruct c; try done. case_match; [|done]. by eapply lock_inv_dispatch. }
  destruct f, c; try done; try (by eapply lock_inv_dispatch; [done|exact Ef|..]).
  all: destruct Hl as [Hl1 Hl2 Hl3]; rewrite Ef in *; destruct (below_free _ Hl3) as [Hb1 Hb2].
  9: { injection Hs as <-. destruct (after_update_frame id msgs fs v) as (E1 & E2 & _ & _ & _ & E3 & _).
       constructor; rewrite ?E1, ?E2, ?E3; [done| |done]. by rewrite <-Hl2. }
  all: destruct v as [[l g t q m] w s p fs' rs]; cbn in *.
  all: destruct l as [[]|]; repeat case_match; simplify_eq; try done; constructor; cbn in *; try done.
Qed.

Lemma quit_inv_sim v v' : quit_inv v → sim_step v = Some v' → quit_inv v'.
Proof.
  intros [Hq1 Hq2] Hs. destruct v as [[l g t q m] w s p fs rs]. unfold sim_step in Hs. cbn in *.
  destruct p; repeat case_match; simplify_eq; cbn in *; constructor; cbn; try done; eauto.
Qed.

Lemma quit_inv_view c v v' : lock_inv v → quit_inv v → view_step c v = Some v' → quit_inv v'.
Proof.
  intros [_ _ Hl] [Hq1 Hq2] Hs. unfold view_step in Hs.
  assert (∀ e, dispatch e v = Some v' → head (frames v) ≠ Some QuitGo → quit_inv v') as Hdisp.
  { intros e (Ht & _ & Hp & _ & Hf)%dispatch_lock Hh. constructor; rewrite ?Ht, ?Hp.
    - intros E1 E2. left. destruct (Hq1 E1 E2) as [?|?]; done.
    - destruct Hf as [->|(f' & -> & _ & H1' & H2' & H3' & _)]; [done|]. cbn. naive_solver. }
  destruct (frames v) as [|f fs] eqn:Ef.
  { destruct c; try done. case_match; [|done]. by apply (Hdisp e); rewrite ?Ef. }
  cbn in Hl.
  assert (∀ f, head fs = Some f → f = QuitGo ∨ f = QuitJoin ∨ f = MainQuit → False) as Hb.
  { intros f' Hf'. destruct fs as [|f0 fs]; simplify_eq/=. inversion_clear Hl. naive_solver. }
  destruct f, c; try done; try (by apply (Hdisp e); rewrite ?Ef).
  9: { injection Hs as <-. destruct (after_update_frame id msgs fs v) as (E1 & E2 & _ & _ & E3 & _ & _ & _ & E4).
       constructor; rewrite ?E1, ?E2, ?E3; [|intros f Hf1 Hf2; by destruct (Hb f)]. intros E5 E6. left. apply E4.
 destruct (Hq1 E5 E6) as [?|E7]; done. }
  all: destruct v as [[l g t q m] w s p fs' rs]; cbn in *.
  all: repeat case_match; simplify_eq; try done; constructor; cbn in *; naive_solver.
Qed.

(** ** The clocks *)

Definition max_period : Q := 101 # 100.

(** The time shown, the time of the simulator, the time it is asked to run to; the latter is at
    most one sample period after the first. *)
Record clock_inv (v : viz) : Prop := {
  clock_shown : (shown_time (win v) <= now (sim v))%Z;
  clock_target : (now (sim v) <= target_time (thr v))%Z;
  clock_period : (target_time (thr v) <= target_after (shown_time (win v)) max_period)%Z;
  clock_sample : (0 < sample_period (win v) <= max_period)%Q;
  clock_fresh id msgs : head (frames v) = Some (SetTarget id msgs) → shown_time (win v) = now (sim v)
}.

(** The handlers of the timer leave the clock of the view alone. *)
Lemma remove_timer_clock g : sample_period (remove_timer g) = sample_period g ∧ shown_time (remove_timer g) = shown_time g.
Proof. unfold remove_timer. by destruct (update_timeout_id g). Qed.
Lemma start_update_timer_clock g :
  sample_period (start_update_timer g) = sample_period g ∧ shown_time (start_update_timer g) = shown_time g.
Proof. apply remove_timer_clock. Qed.
Lemma set_active_clock b g : sample_period (set_active b g) = sample_period g ∧ shown_time (set_active b g) = shown_time g.
Proof.
  unfold set_active, on_play_button_toggled. destruct (Bool.eqb _ _); [done|]. cbn.
  destruct b; [apply (start_update_timer_clock (Gui _ _ _ _ _ _ _ _ _ _ _))|apply (remove_timer_clock (Gui _ _ _ _ _ _ _ _ _ _ _))].
Qed.
Lemma after_update_clock id msgs fs v :
  sample_period (win (after_update id msgs fs v)) = sample_period (win v) ∧
  shown_time (win (after_update id msgs fs v)) = shown_time (win v).
Proof.
  unfold after_update. set (g := match msgs with [] => _ | _ => _ end).
  assert (sample_period g = sample_period (win v) ∧ shown_time g = shown_time (win v)) as [E1 E2].
  { unfold g. destruct msgs; [done|]. split; (etrans; [apply set_active_clock|done]). }
  by destruct (active g); cbn; rewrite E1, E2.
Qed.

Lemma rnd_bounds q : (1 # 10000 <= q <= 2)%Q → (q * (999 # 1000) <= rnd q <= q * (1001 # 1000))%Q.
Proof.
  intros Hq. pose proof (rnd_close q Hq) as Hc. apply Qabs_Qle_condition in Hc. lra.
Qed.
Lemma speed_period value : (1 # 100 <= value <= 10)%Q →
  (0 < val (num_mul SAMPLE_PERIOD (Flt value)) <= max_period)%Q.
Proof.
  intros Hv. unfold SAMPLE_PERIOD, num_mul, lit, max_period. cbn.
  destruct (rnd_bounds (1 # 10)) as [Ha Hb]; [lra|].
  assert (1 # 10000 <= rnd (1 # 10) * value <= 2)%Q as Hp by nra.
  destruct (rnd_bounds _ Hp) as [Hc Hd]. split; nra.
Qed.

Lemma dispatch_clock e v v' : clock_inv v → dispatch e v = Some v' → clock_inv v'.
Proof.
  intros [Hc1 Hc2 Hc3 Hc4 Hc5] He. destruct e; cbn in He.
  5: { destruct (Qle_bool (1 # 100) value && Qle_bool value 10) eqn:E; [|done]. apply andb_true_iff in E as [E1 E2].
       apply Qle_bool_iff in E1, E2. injection He as <-.
       constructor; cbn; try done; rewrite ?(proj1 (remove_timer_clock _)), ?(proj2 (remove_timer_clock _)); try done.
       by apply speed_period. }
  all: repeat case_match; simplify_eq; constructor; cbn; try done.
  all: by rewrite ?(proj1 (set_active_clock _ _)), ?(proj2 (set_active_clock _ _)).
Qed.

Lemma clock_inv_sim v v' : lock_inv v → clock_inv v → sim_step v = Some v' → clock_inv v'.
Proof.
  intros Hl [Hc1 Hc2 Hc3 Hc4 Hc5] Hs. unfold sim_step in Hs.
  destruct (pc v) eqn:Epc; repeat case_match; simplify_eq; constructor; cbn; try done; try exact Hc5.
  all: try (destruct (run_until_now _ _ Hc2); lia).
  destruct Hl as [Hl1 Hl2 _]. rewrite Epc in Hl1. intros id msgs Ef. destruct (frames v); [done|].
  injection Ef as ->. cbn in *.
  symmetry in Hl1, Hl2. apply bool_decide_eq_true in Hl1, Hl2. congruence.
Qed.

Lemma clock_inv_view c v v' : lock_inv v → clock_inv v → view_step c v = Some v' → clock_inv v'.
Proof.
  intros [_ _ Hl] Hc Hs. pose proof Hc as [Hc1 Hc2 Hc3 Hc4 Hc5]. unfold view_step in Hs.
  destruct (frames v) as [|f fs] eqn:Ef.
  { destruct c; try done. case_match; [|done]. by eapply dispatch_clock. }
  assert (∀ id msgs, head fs = Some (SetTarget id msgs) → shown_time (win v) = now (sim v)) as Hb.
  { intros id msgs E. destruct fs; simplify_eq/=. by inversion Hl. }
  destruct f, c; try done; try (by eapply dispatch_clock).
  9: { injection Hs as <-. destruct (after_update_clock id msgs fs v) as [E1 E2].
       destruct (after_update_frame id msgs fs v) as (E5 & _ & E3 & _ & _ & _ & E4 & _).
       by constructor; rewrite ?E1, ?E2, ?E3, ?E4, ?E5. }
  all: repeat case_match; simplify_eq; constructor; cbn; try done; rewrite ?call_now; try done.
  all: rewrite ?(proj1 (remove_timer_clock _)), ?(proj2 (remove_timer_clock _)); try done.
  all: try (etransitivity; [exact Hc3|]; by apply target_mono).
  - apply target_future. tauto.
  - apply target_mono; [|tauto]. by rewrite (Hc5 id msgs).
Qed.

Lemma initial_inv s : now s = 0%Z → lock_inv (initial s) ∧ quit_inv (initial s) ∧ clock_inv (initial s).
Proof.
  intros Hs. split_and!; constructor; cbn; try done; rewrite ?Hs; try done.
  - by apply target_future.
  - apply speed_period. lra.
Qed.
Lemma reachable_inv faults v : reachable faults v → lock_inv v ∧ quit_inv v ∧ clock_inv v.
Proof.
  intros (s & Hs & Hrun). pose proof (initial_inv s Hs) as Hi. revert Hi.
  induction Hrun as [|v1 v2 v3 Hstep _ IH]; [done|]. intros (Hl & Hq & Hc). apply IH.
  destruct Hstep as [v v' Hv|c v v' _ Hv].
  - split_and!; eauto using lock_inv_sim, quit_inv_sim, clock_inv_sim.
  - split_and!; eauto using lock_inv_view, quit_inv_view, clock_inv_view.
Qed.

(** The target of [v] was set in the state [u]: the time then shown was that of the simulator, and the target is one
    sample period after it. *)
Definition aimed_at (u v : viz) : Prop :=
  shown_time (win u) = now (sim u) ∧ (shown_time (win u) <= shown_time (win v))%Z ∧
  target_time (thr v) = target_after (now (sim u)) (sample_period (win u)).
(** A step sets the target or leaves it and the time shown does not go back. *)
Lemma step_aim faults v v' : clock_inv v → step faults v v' →
  aimed_at v v' ∨ target_time (thr v') = target_time (thr v) ∧ (shown_time (win v) <= shown_time (win v'))%Z.
Proof.
  intros Hc Hstep. revert Hc. destruct Hstep as [w w' Hs|c w w' _ Hs]; intros [Hc1 _ _ _ Hc5].
  { right. unfold sim_step in Hs. destruct (pc w); repeat case_match; by simplify_eq. }
  assert (∀ e, dispatch e w = Some w' → target_time (thr w') = target_time (thr w) ∧ shown_time (win w') = shown_time (win w)) as Hd.
  { intros e He. destruct e; cbn in He; repeat case_match; simplify_eq; try done; cbn.
    - by rewrite (proj2 (set_active_clock _ _)).
    - by rewrite (proj2 (remove_timer_clock _)). }
  assert (∀ e, dispatch e w = Some w' → target_time (thr w') = target_time (thr w) ∧ (shown_time (win w) <= shown_time (win w'))%Z) as Hd'.
  { intros e [-> ->]%Hd. done. }
  unfold view_step in Hs. destruct (frames w) as [|f fs] eqn:Ef.
  { destruct c; try done. case_match; [|done]. right. by apply (Hd' e). }
  destruct f, c; try done; try (right; by apply (Hd' e)).
  9: { right. injection Hs as <-. destruct (after_update_clock id msgs fs w) as [_ ->].
       destruct (after_update_frame id msgs fs w) as (_ & _ & _ & _ & _ & _ & -> & _). done. }
  all: try (by right; repeat case_match; simplify_eq; cbn; rewrite ?(proj2 (remove_timer_clock _))).
  left. injection Hs as <-. unfold aimed_at. cbn. by rewrite (Hc5 id msgs eq_refl).
Qed.
(** In every run the target is the one of the start or was set by an update before. *)
Lemma reachable_aim faults v : reachable faults v →
  target_time (thr v) = 0%Z ∨ ∃ u, reachable faults u ∧ rtc (step faults) u v ∧ aimed_at u v.
Proof.
  intros (s & Hs & Hrun). revert Hrun. refine (rtc_ind_r (λ v, _) _ _ _ v); [by left|].
  intros v1 v2 Hrun Hstep IH. assert (reachable faults v1) as Hr by (by exists s).
  destruct (reachable_inv _ _ Hr) as (_ & _ & Hc).
  destruct (step_aim _ _ _ Hc Hstep) as [Ha|[E1 E2]].
  - right. exists v1. split; [done|]. split; [by apply rtc_once|done].
  - destruct IH as [E|(u & Hu & Huv & A1 & A2 & A3)]; [left; congruence|right]. exists u. split; [done|].
    split; [by eapply rtc_r|]. split; [done|]. split; [lia|congruence].
Qed.

Definition view_critical (v : viz) : bool := match frames v with f :: _ => critical f | [] => false end.

(** C7: Whatever the interleaving and the events, and also when handlers raise: the two threads are never inside
    their locked parts together; the simulator is never asked to run to a time of its past; and it is never
    ahead of the time shown by more than one sample period: the target is that of the start, or the time at an
    earlier state [u] of the run, which is shown since, plus the sample period in force at [u], which is never
    more than 1.01 s. *)
Theorem threads_safe (faults : bool) (v : viz) :
  reachable faults v →
  sim_critical (pc v) && view_critical v = false ∧
  (pc v = Run → now (sim v) <= target_time (thr v))%Z ∧
  (shown_time (win v) <= now (sim v) <= target_time (thr v))%Z ∧
  (target_time (thr v) = 0%Z ∨
   ∃ u, reachable faults u ∧ rtc (step faults) u v ∧ aimed_at u v ∧ (sample_period (win u) <= max_period)%Q ∧
     (now (sim v) <= target_after (shown_time (win v)) (sample_period (win u)))%Z).
Proof.
  intros Hr. destruct (reachable_inv _ _ Hr) as ([Hl1 Hl2 _] & _ & [Hc1 Hc2 _ _ _]).
  split_and!; [|by intros _|lia|lia|].
  2: { destruct (reachable_aim _ _ Hr) as [E|(u & Hu & Huv & A1 & A2 & A3)]; [by left|right]. exists u.
     split_and!; try done.
       - destruct (reachable_inv _ _ Hu) as (_ & _ & [_ _ _ [_ Hp] _]). exact Hp.
       - etransitivity; [exact Hc2|]. rewrite A3. apply target_mono; [lia|]. apply Qle_refl. }
  unfold view_critical. rewrite Hl1, Hl2. by destruct (lock (thr v)) as [[]|].
Qed.

(** ** Nobody waits for ever *)

(** A bound on the steps the simulation thread can make alone. *)
Definition sim_weight (v : viz) : nat :=
  match pc v with
  | Clear => 8
  | p => (match p with
          | Test => 1 | Release => 2 | Idle => 3 | Extend => 4 | Run => 5 | Acquire => 6 | Check => 7 | _ => 0
          end) + (if go (thr v) then 10 else 0)
  end.
Lemma sim_step_weight v v' : sim_step v = Some v' → sim_weight v' < sim_weight v.
Proof.
  intros Hs. unfold sim_step in Hs. unfold sim_weight.
  destruct (pc v) eqn:Ep; repeat case_match; simplify_eq; cbn in *; simplify_eq; repeat case_match;
    first [lia|congruence].
Qed.
Definition sim_steps : viz → viz → Prop := λ v v', sim_step v = Some v'.
Lemma sim_steps_weight k v v' : nsteps sim_steps k v v' → k + sim_weight v' ≤ sim_weight v.
Proof. induction 1 as [|k v1 v2 v3 Hs _ IH]; [lia|]. apply sim_step_weight in Hs. lia. Qed.

Lemma sim_steps_keep k v v' : lock_inv v → quit_inv v → nsteps sim_steps k v v' →
  lock_inv v' ∧ quit_inv v' ∧ frames v' = frames v.
Proof.
  intros Hl Hq. induction 1 as [|k v1 v2 v3 Hs _ IH]; [done|].
  destruct IH as (?&?&E); [by eapply lock_inv_sim|by eapply quit_inv_sim|]. split_and!; [done..|].
  rewrite E. unfold sim_steps, sim_step in Hs. destruct (pc v1); repeat case_match; by simplify_eq.
Qed.

(** When the simulation thread cannot go on, the handler of the view thread can. *)
Lemma view_can_step v : lock_inv v → quit_inv v → frames v ≠ [] → sim_step v = None →
  ∃ v', view_step Continue v = Some v'.
Proof.
  intros [Hl1 Hl2 _] [Hq1 Hq2] Hf Hs. destruct (frames v) as [|f fs] eqn:Ef; [done|]. unfold view_step. rewrite Ef.
  assert (critical f = false → lock (thr v) = None) as Hfree.
  { intros E. rewrite E in Hl2. destruct (lock (thr v)) as [[]|] eqn:El; [|done|done]. exfalso. unfold sim_step in Hs.
    rewrite El in Hs. destruct (pc v); by repeat case_match. }
  destruct f; try (by eexists); try (by destruct (lock (thr v)); eexists).
  - rewrite Hfree by done. by eexists.
  - assert (quit (thr v) = true) as Hq by (apply (Hq2 QuitJoin); auto).
    assert (pc v = Done) as ->; [|by eexists]. unfold sim_step in Hs. rewrite (Hfree eq_refl) in Hs.
    destruct (pc v); try done. destruct (Hq1 Hq eq_refl) as [E|E]; [by rewrite E in Hs|done].
Qed.

(** C8: The view thread is never blocked for good.  In every reachable state in which it is inside a
    handler, the simulation thread can make at most 17 steps on its own, and when it can make no more,
    the handler can go on: a handler that waits for the lock gets it, and closing the window, which
    waits for the end of the simulation thread, ends. *)
Theorem view_never_stuck (faults : bool) (v : viz) :
  reachable faults v → frames v ≠ [] →
  ∀ k v', nsteps sim_steps k v v' →
    k ≤ 17 ∧ (sim_step v' = None → ∃ v'', view_step Continue v' = Some v'').
Proof.
  intros (Hl & Hq & _)%reachable_inv Hf k v' Hrun. split.
  - apply sim_steps_weight in Hrun. assert (sim_weight v ≤ 17); [|lia].
    unfold sim_weight. destruct (pc v), (go (thr v)); cbn; lia.
  - destruct (sim_steps_keep k v v' Hl Hq Hrun) as (Hl' & Hq' & E). apply view_can_step; [done..|]. by rewrite E.
Qed.

(** ** Messages and timers when no update raises *)

(** The messages in the variable of [update_view_timeout]. *)
Definition carried_in (fs : list frame) : list string :=
  match fs with
  | (UpdateView _ msgs | SetTarget _ msgs | ReleaseView _ msgs | ReleaseFailed _ msgs | AfterUpdate _ msgs) :: _ => msgs
  | _ => []
  end.
Definition carried (v : viz) : list string := carried_in (frames v).
Definition no_failure (v : viz) : Prop := ∀ id msgs, head (frames v) ≠ Some (ReleaseFailed id msgs).
(** The dialogs shown hold the messages reported, in order, each once, but for those on the way. *)
Definition messages_shown (shown : list (list string)) (v : viz) : Prop :=
  dialogs (win v) = join nl <$> shown ∧ Forall (λ l, l ≠ []) shown ∧
  reported v = concat shown ++ carried v ++ pause_messages (thr v).
(** While the play button is down and the window is open there is an update timer. *)
Definition timer_inv (v : viz) : Prop := active (win v) = true → quit (thr v) = false → timers (win v) ≠ [].

Lemma remove_timer_dialogs g : dialogs (remove_timer g) = dialogs g ∧ active (remove_timer g) = active g.
Proof. unfold remove_timer. by destruct (update_timeout_id g). Qed.
Lemma set_active_dialogs b g : dialogs (set_active b g) = dialogs g ∧ active (set_active b g) = b.
Proof.
  unfold set_active, on_play_button_toggled. destruct (Bool.eqb b (active g)) eqn:E.
  - apply Bool.eqb_prop in E. by rewrite E.
  - cbn. destruct b; apply (remove_timer_dialogs (Gui _ _ _ _ _ _ _ _ _ _ _)).
Qed.
Lemma dispatch_dialogs e v v' : dispatch e v = Some v' → dialogs (win v') = dialogs (win v).
Proof.
  intros He. destruct e; cbn in He; repeat case_match; simplify_eq; try done; cbn.
  - apply set_active_dialogs.
  - apply (remove_timer_dialogs (Gui _ _ _ _ _ _ _ _ _ _ _)).
Qed.
Lemma start_timers g : timers (start_update_timer g) ≠ [].
Proof. cbn. by destruct (timers (remove_timer g)). Qed.
Lemma dispatch_timers e v v' : timer_inv v → dispatch e v = Some v' → timer_inv v'.
Proof.
  intros Ht He. destruct e; cbn in He; repeat case_match; simplify_eq; try done; unfold timer_inv; cbn.
  - rewrite (proj2 (set_active_dialogs _ _)). unfold set_active, on_play_button_toggled.
    destruct (active (win v)); [done|]. intros _ _. apply start_timers.
  - intros _ _. apply start_timers.
Qed.

Lemma dispatch_messages shown e v v' : carried v = [] →
  messages_shown shown v → dispatch e v = Some v' → messages_shown shown v'.
Proof.
  intros Hcar (Hd & Hn & Hr) He. pose proof (dispatch_dialogs _ _ _ He) as Ed.
  apply dispatch_lock in He as (Et & _ & _ & Er & Hf).
  unfold messages_shown. rewrite Ed, Er, Et. split_and!; [done..|]. rewrite Hr, Hcar. f_equal. f_equal.
  destruct Hf as [Hf|(f & Hf & Hc & _ & _ & _ & Ha)]; unfold carried; rewrite Hf; [done|].
  destruct f; try done. by destruct (Ha id msgs).
Qed.

(** What a list of messages adds to the dialogs. *)
Definition dialog_of (msgs : list string) : list (list string) := match msgs with [] => [] | _ => [msgs] end.
Lemma concat_dialog_of msgs : concat (dialog_of msgs) = msgs.
Proof. destruct msgs; [done|]. cbn. by rewrite app_nil_r. Qed.
Lemma after_update_messages shown id msgs fs v :
  frames v = AfterUpdate id msgs :: fs → Forall (λ f, dispatching f = true) fs →
  messages_shown shown v → messages_shown (shown ++ dialog_of msgs) (after_update id msgs fs v).
Proof.
  intros Ef Hfs (Hd & Hn & Hr).
  destruct (after_update_frame id msgs fs v) as (E1 & _ & _ & E2 & _ & _ & _ & E3 & _).
  assert (carried (after_update id msgs fs v) = []) as E4.
  { unfold carried. rewrite E1. destruct Hfs as [|[] ? ?]; done. }
  unfold messages_shown. rewrite E2, E3, E4, concat_app, concat_dialog_of. unfold carried in Hr.
  rewrite Ef in Hr. split_and!.
  - destruct msgs as [|m msgs]; [cbn; rewrite app_nil_r; unfold after_update; by destruct (active (win v))|].
    unfold after_update. rewrite (proj2 (set_active_dialogs _ _)). cbn.
    rewrite (proj1 (set_active_dialogs _ _)), fmap_app. cbn. by rewrite Hd.
  - apply Forall_app. split; [done|]. destruct msgs; by repeat constructor.
  - by rewrite <-app_assoc.
Qed.

Lemma messages_sim shown v v' : messages_shown shown v → sim_step v = Some v' → messages_shown shown v'.
Proof.
  intros (Hd & Hn & Hr) Hs. unfold sim_step in Hs.
  destruct (pc v); repeat case_match; simplify_eq; split_and!; try done. cbn. by rewrite Hr, <-!app_assoc.
Qed.
(** What the view thread shows in a step. *)
Definition now_shown (v : viz) : list (list string) :=
  match frames v with AfterUpdate _ msgs :: _ => dialog_of msgs | _ => [] end.
Lemma messages_view shown c v v' : lock_inv v → no_failure v → messages_shown shown v → allowed false c v →
  view_step c v = Some v' → messages_shown (shown ++ now_shown v) v'.
Proof.
  intros [_ _ Hl] Hnf Hm Hok Hs. unfold view_step in Hs. unfold now_shown.
  assert (∀ e, dispatch e v = Some v' → carried v = [] → messages_shown (shown ++ []) v') as Hdisp.
  { intros e He Hcar. rewrite app_nil_r. by apply (dispatch_messages shown e v v'). }
  destruct (frames v) as [|f fs] eqn:Ef.
  { destruct c; try done. case_match; [|done]. apply (Hdisp e); [done|]. unfold carried. by rewrite Ef. }
  assert (carried_in fs = []) as Hcar.
  { destruct fs as [|f' fs]; [done|]. inversion_clear Hl. by destruct f'. }
  destruct f, c; try done; try (apply (Hdisp e); [done|]; unfold carried; by rewrite Ef).
  all: try (by destruct (Hnf id msgs); rewrite ?Ef).
  all: try (destruct Hok as [?|Hok]; [done|]; by destruct (Hok id msgs fs)).
  all: try (injection Hs as <-; by apply after_update_messages).
  all: destruct Hm as (Hd & Hn & Hr); unfold carried in Hr; rewrite ?Ef in Hr; rewrite app_nil_r.
  all: repeat case_match; simplify_eq; unfold messages_shown; split_and!; try done; cbn; try done.
  all: rewrite ?app_nil_r, ?(proj1 (remove_timer_dialogs _)); try done.
  all: unfold carried; cbn; by rewrite Hcar.
Qed.

Lemma timer_inv_sim v v' : timer_inv v → sim_step v = Some v' → timer_inv v'.
Proof. intros Ht Hs. unfold sim_step in Hs. destruct (pc v); repeat case_match; by simplify_eq. Qed.
Lemma after_update_timers id msgs fs v : timer_inv v → timer_inv (after_update id msgs fs v).
Proof.
  unfold timer_inv, after_update. intros Ht. destruct msgs as [|m msgs].
  - by destruct (active (win v)) eqn:E; cbn; rewrite ?E.
  - rewrite (proj2 (set_active_dialogs _ _)). cbn. by rewrite (proj2 (set_active_dialogs _ _)).
Qed.
Lemma timer_inv_view c v v' : no_failure v → timer_inv v → view_step c v = Some v' → timer_inv v'.
Proof.
  intros Hnf Ht Hs. unfold view_step in Hs. destruct (frames v) as [|f fs] eqn:Ef.
  { destruct c; try done. case_match; [|done]. by eapply dispatch_timers. }
  destruct f, c; try done; try (by eapply dispatch_timers).
  all: try (by destruct (Hnf id msgs); rewrite ?Ef).
  all: try (injection Hs as <-; by apply after_update_timers).
  all: repeat case_match; by simplify_eq.
Qed.

Lemma no_failure_sim v v' : no_failure v → sim_step v = Some v' → no_failure v'.
Proof. intros Hn Hv id msgs. unfold sim_step in Hv. destruct (pc v); repeat case_match; simplify_eq; apply Hn. Qed.
Lemma no_failure_dispatch e v v' : no_failure v → dispatch e v = Some v' → no_failure v'.
Proof.
  intros Hn (_ & _ & _ & _ & Hf)%dispatch_lock id msgs.
  destruct Hf as [->|(f & -> & Hc & _)]; [apply Hn|]. by intros [= ->].
Qed.
Lemma no_failure_view c v v' : lock_inv v → no_failure v → allowed false c v → view_step c v = Some v' → no_failure v'.
Proof.
  intros [_ _ Hl] Hn Hok Hs. unfold view_step in Hs. destruct (frames v) as [|f fs] eqn:Ef.
  { destruct c; try done. case_match; [|done]. by eapply no_failure_dispatch. }
  assert (∀ id msgs, head fs ≠ Some (ReleaseFailed id msgs)) as Hb.
  { intros id msgs E. destruct fs; simplify_eq/=. by inversion Hl. }
  destruct f, c; try done; try (by eapply no_failure_dispatch); try (by destruct (Hn id msgs); rewrite ?Ef).
  all: try (destruct Hok as [?|Hok]; [done|]; by destruct (Hok id msgs fs)).
  all: try (injection Hs as <-; intros id' msgs'; rewrite (proj1 (after_update_frame id msgs fs v)); apply Hb).
  all: repeat case_match; simplify_eq; intros ? ?; done.
Qed.
(** What holds as long as no update raises. *)
Record calm (v : viz) : Prop := { calm_lock : lock_inv v; calm_failure : no_failure v; calm_timer : timer_inv v }.
Lemma calm_step v v' : calm v → step false v v' → calm v'.
Proof.
  intros Hc Hstep. revert Hc. destruct Hstep as [w w' Hv|c w w' Hok Hv]; intros [Hl Hn Ht].
  - constructor; eauto using lock_inv_sim, no_failure_sim, timer_inv_sim.
  - constructor; eauto using lock_inv_view, no_failure_view, timer_inv_view.
Qed.
Lemma messages_step shown v v' : calm v → messages_shown shown v → step false v v' →
  sim_step v = Some v' ∧ messages_shown shown v' ∨
  messages_shown (shown ++ now_shown v) v' ∧ ∃ c, allowed false c v ∧ view_step c v = Some v'.
Proof.
  intros Hc Hm Hstep. revert Hc Hm. destruct Hstep as [w w' Hv|c w w' Hok Hv]; intros [Hl Hn Ht] Hm.
  - left. split; [done|]. by eapply messages_sim.
  - right. split; [by eapply messages_view|by exists c].
Qed.
Lemma reachable_no_faults v : reachable false v → calm v ∧ ∃ shown, messages_shown shown v.
Proof.
  intros (s & Hs & Hrun). revert Hrun. refine (rtc_ind_r (λ v, _) _ _ _ v).
  - pose proof (initial_inv s Hs) as [Hl _]. split; [by constructor|by exists []].
  - intros v1 v2 _ Hstep [Hc [shown Hm]]. split; [by eapply calm_step|].
    destruct (messages_step _ _ _ Hc Hm Hstep) as [[_ ?]|[? _]]; by eexists.
Qed.

(** *** An update shows what it has taken *)

(** [f] is a place of an update that has the lock or has the messages. *)
Definition updating (f : frame) : bool :=
  match f with TakeMessages _ | UpdateView _ _ | SetTarget _ _ | ReleaseView _ _ | AfterUpdate _ _ => true | _ => false end.
Definition due (v : viz) : list string :=
  match frames v with TakeMessages _ :: _ => pause_messages (thr v) | fs => carried_in fs end.
(** The first [n] messages are shown, or the update that is to show them is on the way. *)
Definition delivering (n : nat) (fs : list frame) (v : viz) : Prop :=
  ∃ shown, messages_shown shown v ∧
    (n ≤ length (concat shown) ∨
     (∃ f, frames v = f :: fs ∧ updating f = true) ∧ n ≤ length (concat shown) + length (due v)).
Lemma sim_step_messages v v' : sim_step v = Some v' →
  frames v' = frames v ∧ ∃ l, pause_messages (thr v') = pause_messages (thr v) ++ l.
Proof.
  intros Hs. unfold sim_step in Hs. destruct (pc v); repeat case_match; simplify_eq; (split; [done|]).
  all: first [by eexists|by exists []; rewrite app_nil_r].
Qed.
Lemma delivering_step n fs v v' : calm v → delivering n fs v → step false v v' → delivering n fs v'.
Proof.
  intros Hc (shown & Hm & Hd) Hstep.
  destruct (messages_step _ _ _ Hc Hm Hstep) as [[Hs Hm']|[Hm' (c & Hok & Hs)]].
  - exists shown. split; [done|]. destruct Hd as [?|[(f & Ef & Hf) Hn]]; [by left|right].
    assert (frames v' = frames v ∧ length (due v) ≤ length (due v')) as [E1 E2]; [|rewrite E1; split;
      [by exists f|lia]].
    destruct (sim_step_messages v v' Hs) as (E & l & El). unfold due. rewrite E, El. split; [done|].
    destruct (frames v) as [|[] ?]; rewrite ?length_app; lia.
  - eexists. split; [exact Hm'|]. rewrite concat_app, length_app. destruct Hd as [?|[(f & Ef & Hf) Hn]]; [left; lia|].
    unfold view_step in Hs. unfold due, now_shown in *. rewrite Ef in *. destruct f, c; try done.
    all: try (destruct Hok as [?|Hok]; [done|]; by destruct (Hok id msgs fs)).
    5: { left. rewrite concat_dialog_of. exact Hn. }
    all: injection Hs as <-; right; cbn; (split; [by eexists|]); cbn in Hn; lia.
Qed.
Lemma delivering_run n fs v w : calm v → delivering n fs v → rtc (step false) v w → delivering n fs w.
Proof. intros Hc Hd Hrun. revert Hc Hd. induction Hrun; eauto using calm_step, delivering_step. Qed.
(** The handler alone returns in five steps. *)
Lemma update_returns v id fs : frames v = TakeMessages id :: fs →
  ∃ w, nsteps (λ v v', view_step Continue v = Some v') 5 v w ∧ frames w = fs.
Proof.
  intros Ef. destruct v as [t g si p fs' r]. cbn in Ef. subst fs'. eexists. split.
  - do 5 (eapply nsteps_l; [reflexivity|]). constructor.
  - cbn. by rewrite (proj1 (after_update_frame _ _ _ _)).
Qed.

Lemma reported_grows v w : rtc (step false) v w → reported v `prefix_of` reported w.
Proof.
  induction 1 as [|v1 v2 v3 Hstep _ IH]; [done|]. etransitivity; [|exact IH]. destruct Hstep as [w w' Hs|c w w' _ Hs].
  - unfold sim_step in Hs. destruct (pc w); repeat case_match; simplify_eq; try done. by eexists.
  - unfold view_step in Hs. destruct (frames w) as [|f fs].
    { destruct c; try done. case_match; [|done]. apply dispatch_lock in Hs as (_ & _ & _ & -> & _). done. }
    destruct f, c; try done; try (apply dispatch_lock in Hs as (_ & _ & _ & -> & _); done).
    all: try (injection Hs as <-; by rewrite (proj1 (proj2 (proj2 (proj2 (after_update_frame _ _ _ _)))))).
    all: repeat case_match; by simplify_eq.
Qed.

(** C15: As long as no update of the view raises, no pause message is lost, repeated or reordered, and each is
    shown by the next update: at every moment the dialogs shown, then the messages the update has taken, then
    those waiting in [pause_messages], are all messages the simulator has reported; an update that has got the
    lock can always return, in five steps of its own, and whatever the threads do until it has returned, all
    messages reported before it are then shown; and while the simulation plays there is always an update timer. *)
Theorem messages_delivered (v : viz) :
  reachable false v →
  (∃ shown : list (list string),
     dialogs (win v) = join nl <$> shown ∧ Forall (λ l, l ≠ []) shown ∧
     reported v = concat shown ++ carried v ++ pause_messages (thr v)) ∧
  (∀ id fs, frames v = TakeMessages id :: fs →
     (∃ w, nsteps (λ v v', view_step Continue v = Some v') 5 v w ∧ frames w = fs) ∧
     ∀ w, rtc (step false) v w → frames w = fs →
       ∃ shown, dialogs (win w) = join nl <$> shown ∧ Forall (λ l, l ≠ []) shown ∧ reported v `prefix_of` concat shown) ∧
  (active (win v) = true → quit (thr v) = false → timers (win v) ≠ []).
Proof.
  intros (Hc & shown & Hm)%reachable_no_faults. split; [by exists shown|]. split; [|apply Hc].
  intros id fs Ef. split; [by eapply update_returns|]. intros w Hrun Ew.
  destruct (delivering_run (length (reported v)) fs v w) as (shown' & Hm' & Hd); [done| |done|].
  { exists shown. split; [done|]. right. split; [by eexists|]. destruct Hm as (_ & _ & ->).
    unfold carried, due. rewrite Ef.
    cbn. by rewrite length_app. }
  exists shown'. destruct Hm' as (Hw1 & Hw2 & Hw3). split_and!; [done..|].
  destruct Hd as [Hn|[(f & Ef' & _) _]]; [|rewrite Ew in Ef'; apply (f_equal length) in Ef'; cbn in Ef'; lia].
  destruct (prefix_weak_total (reported v) (concat shown') (reported w)) as [?|Hp];
    [by apply reported_grows|rewrite Hw3; by apply prefix_app_r|done|].
  by rewrite (prefix_length_eq _ _ Hp Hn).
Qed.
End facts.


(** ** Concrete runs *)

Section moves.
Context `{Rounding} `{Simulator}.
Lemma do_moves_steps (ms : list move) v v' :
  do_moves ms v = Some v' → rtc (step true) v v' ∧ (Forall (λ m, m ≠ View_ Fail) ms → rtc (step false) v v').
Proof.
  revert v. induction ms as [|m ms IH]; intros v; cbn; [intros [= ->]; by split|].
  destruct (do_move m v) as [v1|] eqn:Em; [|done]. cbn. intros [H1' H2']%IH. split.
  - eapply rtc_l; [|done]. destruct m; [by constructor|]. eapply step_view; [by left|done].
  - intros Hms. inversion_clear Hms as [|? ? Hm Hms']. eapply rtc_l; [|by apply H2'].
    destruct m as [|c]; [by constructor|]. eapply step_view; [|done]. right. intros id msgs fs _ ->. done.
Qed.
Lemma sim_moves k v v' : do_moves (replicate k Sim_) v = Some v' → nsteps sim_steps k v v'.
Proof.
  revert v. induction k as [|k IH]; intros v; cbn; [intros [= ->]; constructor|].
  destruct (sim_step v) as [v1|] eqn:E; [|done]. cbn. intros Hk%IH. by eapply nsteps_l.
Qed.
End moves.

Module Demo.
#[local] Existing Instance exact.
#[export] Instance exact_doubles : Doubles.
Proof. intros q Hq. unfold rnd, exact. apply Qabs_Qle_condition. lra. Qed.

(** A simulator whose state is its time in milliseconds and that reports a message in every run
    that ends after 150 ms. *)
#[export] Program Instance clock : Simulator := {|
  simulator := Z;
  now s := s;
  run_until t s := if (s <=? t)%Z then t else s;
  get_pause_messages s := if (150 <? s)%Z then ["paused"] else [];
  call _ s := s;
  target_after t p := (t + Qceiling (p * 1000))%Z
|}.
Next Obligation. cbn. destruct (Z.leb_spec s t); lia. Qed.
Next Obligation.
  cbn. pose proof (Qceiling_resp_le 0 (p * 1000)) as Hc. change (Qceiling 0) with 0%Z in Hc.
  assert (0 <= p * 1000)%Q as Hp by lra. specialize (Hc Hp). lia.
Qed.
Next Obligation.
  cbn. pose proof (Qceiling_resp_le (p * 1000) (p' * 1000)) as Hc.
  assert (p * 1000 <= p' * 1000)%Q as Hp by lra. specialize (Hc Hp). lia.
Qed.

Definition init : viz := initial (0%Z : simulator).
Definition is_some {A} (o : option A) : bool := match o with Some _ => true | None => false end.
Definition get (o : option viz) : viz := default init o.
Definition view (n : nat) : list move := replicate n (View_ Continue).
Definition dispatched (e : event) : list move := [View_ (Dispatch e)].
(** Press play, one update, and the simulation thread up to the call of [SimulatorRunUntil]. *)
Definition until_run : list move :=
  dispatched PlayToggled ++ dispatched (TimerFires 2) ++ view 6 ++ replicate 5 Sim_.
(** A whole period: the rest of the run and the next update, up to the update of the view. *)
Definition next_period : list move := replicate 4 Sim_ ++ dispatched (TimerFires 2) ++ view 6 ++ replicate 5 Sim_.
Definition at_run : viz := get (do_moves until_run init).
(** The window is closed while the simulator runs. *)
Definition at_join : viz := get (do_moves (until_run ++ dispatched DeleteEvent ++ view 2) init).
(** The second run has reported a message, the next update has got the lock; it has shown it. *)
Definition taking : viz :=
  get (do_moves (until_run ++ next_period ++ replicate 4 Sim_ ++ dispatched (TimerFires 2) ++ view 1) init).
Definition paused : viz := get (do_moves (view 5) taking).

Lemma reachable_moves (ms : list move) : Forall (λ m, m ≠ View_ Fail) ms → is_some (do_moves ms init) = true →
  reachable false (get (do_moves ms init)).
Proof. intros Hms E. destruct (do_moves ms init) as [v|] eqn:E'; [clear E; rename E' into E|done]. exists 0%Z. split; [done|]. by apply (do_moves_steps ms). Qed.
End Demo.
Import Demo.
#[local] Existing Instance exact.

Lemma threads_safe_witness :
  reachable false at_run ∧ pc at_run = Run ∧ (now (sim at_run) <= target_time (thr at_run))%Z.
Proof.
  assert (reachable false at_run) as Hr.
  { apply reachable_moves; [by repeat constructor|vm_compute; reflexivity]. }
  split; [exact Hr|]. split; [vm_compute; reflexivity|].
  destruct (threads_safe false at_run Hr) as (_ & H & _). apply H. vm_compute. reflexivity.
Defined.

Lemma view_never_stuck_witness :
  pc at_join = Run ∧ frames at_join = [QuitJoin] ∧
  ∃ v' v'', nsteps sim_steps 5 at_join v' ∧ view_step Continue v' = Some v''.
Proof.
  assert (reachable false at_join) as Hr.
  { apply reachable_moves; [by repeat constructor|vm_compute; reflexivity]. }
  split; [vm_compute; reflexivity|]. split; [vm_compute; reflexivity|].
  pose (v' := get (do_moves (replicate 5 Sim_) at_join)).
  assert (nsteps sim_steps 5 at_join v') as Hs by (apply sim_moves; vm_compute; reflexivity).
  destruct (view_never_stuck false at_join Hr) with 5 v' as [_ Hv]; [done|exact Hs|].
  destruct Hv as [v'' Hv]; [vm_compute; reflexivity|]. exists v', v''. exact (conj Hs Hv).
Defined.

Lemma messages_delivered_witness :
  reachable false taking ∧ reported taking = ["paused"] ∧ dialogs (win paused) = ["paused"] ∧
  ∃ shown : list (list string), dialogs (win paused) = join nl <$> shown ∧ reported taking `prefix_of` concat shown.
Proof.
  assert (reachable false taking) as Hr.
  { apply reachable_moves; [by repeat constructor|vm_compute; reflexivity]. }
  split; [exact Hr|]. split; [vm_compute; reflexivity|]. split; [vm_compute; reflexivity|].
  destruct (messages_delivered taking Hr) as (_ & Hd & _).
  destruct (Hd 2 []) as [_ Hw]; [vm_compute; reflexivity|].
  destruct (Hw paused) as (shown & E1 & _ & E2); [|vm_compute; reflexivity|exists shown; exact (conj E1 E2)].
  destruct (do_moves_steps (view 5) taking paused) as [_ Hs]; [vm_compute; reflexivity|]. apply Hs.
  by repeat constructor.
Defined.

(** *** Runs that show defects *)

(** The play button is released while the simulator still runs, and the speed is changed twice, the
    second time from inside the loop that waits for the lock.  The update then forgets the number of the
    timer that has just been started, so that the next press of the button starts another one. *)
Definition two_timer_moves : list move :=
  until_run ++ dispatched PlayToggled ++ dispatched (SpeedChanged 2) ++ dispatched (TimerFires 3) ++ view 1 ++
  dispatched (SpeedChanged 1) ++ view 1 ++ replicate 4 Sim_ ++ view 6 ++ dispatched PlayToggled.
Lemma two_timers :
  reachable false (get (do_moves two_timer_moves init)) ∧ active (win (get (do_moves two_timer_moves init))) = true ∧
  timers (win (get (do_moves two_timer_moves init))) = [4; 5].
Proof.
  split; [apply reachable_moves; [by repeat constructor|vm_compute; reflexivity]|]. split; vm_compute; reflexivity.
Qed.

(** Releasing the play button removes the source but keeps its number; the next press removes it again. *)
Lemma stale_timer :
  bad_removes (win (get (do_moves (dispatched PlayToggled ++ dispatched PlayToggled ++ dispatched PlayToggled) init))) = 1.
Proof. vm_compute. reflexivity. Qed.

(** An exception in the update of the view: the button stays down, but there is no timer any more, and
    the message taken is lost. *)
Definition failing_moves : list move :=
  until_run ++ next_period ++ replicate 4 Sim_ ++ dispatched (TimerFires 2) ++ view 2 ++ [View_ Fail] ++ view 1.
Lemma failing_update :
  let v := get (do_moves failing_moves init) in
  active (win v) = true ∧ timers (win v) = [] ∧ reported v = ["paused"] ∧
  dialogs (win v) = [] ∧ carried v = [] ∧ pause_messages (thr v) = [].
Proof. vm_compute. by split_and!. Qed.

(** [autoscale_view] and the tooltip of a wireless link look at the simulator while it runs. *)
Lemma unlocked_read :
  let v := get (do_moves (until_run ++ dispatched ReadEvent) init) in
  pc v = Run ∧ frames v = [ReadUnlocked].
Proof. vm_compute. by split. Qed.

Lemma num_int_bounds a b q : (0 <= a)%Z → (inject_Z a <= q <= inject_Z b)%Q →
  ∃ z, num_int (Flt q) = Int z ∧ (a <= z <= b)%Z.
Proof.
  intros Ha [H1' H2']. eexists. split; [reflexivity|]. unfold Qle in *. cbn in *.
  split; [apply Z.quot_le_lower_bound; lia|].
  apply Z.quot_le_upper_bound; lia.
Qed.
(** The interval of the timer, computed exactly: 100 ms at speed 1 or more, up to 10 s at the slowest. *)
Lemma timer_interval_bounds (speed : Q) : (1 # 100 <= speed <= 10)%Q →
  ∃ z, timer_interval speed = Ok (Int z) ∧ (100 <= z <= 10000)%Z.
Proof.
  intros Hs. unfold timer_interval. destruct (num_min_spec (Flt speed) (Int 1)) as (_ & Hm2 & Hm3).
  set (m := num_min (Flt speed) (Int 1)) in *.
  assert (1 # 100 <= val m <= 1)%Q as Hm.
  { split; [|exact Hm2]. destruct Hm3 as [-> | ->]; unfold val, inject_Z; lra. }
  rewrite num_div_ok by lra. cbn [mbind py_bind].
  destruct (num_int_bounds 100 10000 ((1 # 10) / val m * 1000)) as (z & Ez & Hz); [done| |].
  { assert ((1 # 10) <= (1 # 10) / val m <= 10)%Q as [Hd1 Hd2].
    { split; [apply Qle_shift_div_l|apply Qle_shift_div_r]; lra. }
    unfold inject_Z. split; lra. }
  exists z. split; [|done]. rewrite <-Ez. unfold SAMPLE_PERIOD, lit. by destruct m.
Qed.
