(* ===== verification/VizSvg.v ===== *)
(** * VizSvg: coordinates, device traits and pictures of the visualizer

    [src/visualizer/visualizer/base.py]: the scale between meters and canvas units and the table of
    the traits of network devices; and [src/visualizer/visualizer/svgitem.py]: an item that shows
    a picture, with its own size or scaled to a width, a height, or both.  Coordinates are finite
    floats, rationals here, and every operation rounds with [rnd] (class [Rounding]). *)

From stdpp Require Import base list strings gmap.
From Stdlib Require Import QArith Qround Qabs Lqa.
From S2P Require Import Prelude PyNum.
Open Scope nat_scope.

Section base.
Context `{Rounding}.

Definition fadd (a b : Q) : Q := rnd (a + b).
Definition fsub (a b : Q) : Q := rnd (a - b).
Definition fmul (a b : Q) : Q := rnd (a * b).
Definition fdiv (a b : Q) : Q := rnd (a / b).
(** Division as the code does it, where the divisor may be zero. *)
Definition fdiv_py (a b : Q) : py exn Q := if Qeq_bool b 0 then Raise ZeroDivisionError else Ok (fdiv a b).

(** ** [base.py]: the scale *)

Definition PIXELS_PER_METER : Q := 3.
Definition transform_distance_simulation_to_canvas (d : Q) : Q := fmul d PIXELS_PER_METER.
Definition transform_point_simulation_to_canvas (x y : Q) : Q * Q :=
  (fmul x PIXELS_PER_METER, fmul y PIXELS_PER_METER).
Definition transform_distance_canvas_to_simulation (d : Q) : Q := fdiv d PIXELS_PER_METER.
Definition transform_point_canvas_to_simulation (x y : Q) : Q * Q :=
  (fdiv x PIXELS_PER_METER, fdiv y PIXELS_PER_METER).
End base.

(** ** The precision of doubles *)

(** The relative error of a result, outside the range in which doubles underflow; numbers that are equal round
    to equal ones. *)
Class Precise `{Rounding} := {
  rnd_rel q : (Qabs (rnd q - q) <= Qabs q * (1 # 1000000000000))%Q;
  rnd_equal p q : (p == q)%Q → (rnd p == rnd q)%Q
}.
Section precise.
Context {Rnd : Rounding} {Prec : Precise}.
Lemma rnd_within q m : (Qabs q <= m)%Q → (q - m * (1 # 1000000000000) <= rnd q ∧ rnd q <= q + m * (1 # 1000000000000))%Q.
Proof. intros Hm. pose proof (rnd_rel q) as Hr. apply Qabs_Qle_condition in Hr. lra. Qed.
Lemma rnd_pos q : (0 <= q)%Q → (q * (999999999999 # 1000000000000) <= rnd q ∧ rnd q <= q * (1000000000001 # 1000000000000))%Q.
Proof. intros Hq. destruct (rnd_within q q) as [H1 H2]; [rewrite Qabs_pos by done; lra|]. lra. Qed.
Lemma rnd_abs q : (Qabs q * (999999999999 # 1000000000000) <= Qabs (rnd q) ∧ Qabs (rnd q) <= Qabs q * (1000000000001 # 1000000000000))%Q.
Proof.
  pose proof (rnd_rel q) as Hr. apply Qabs_Qle_condition in Hr. revert Hr.
  apply Qabs_case; intros ?; apply Qabs_case; intros ? ?; lra.
Qed.
Lemma rnd_zero q : (q == 0)%Q → (rnd q == 0)%Q.
Proof. intros Hq. destruct (rnd_within q 0) as [H1 H2]; [rewrite Hq; done|]. lra. Qed.
End precise.
#[export] Instance exact_precise : Precise (H := exact).
Proof. split; [|done]. intros q. unfold rnd, exact. apply Qabs_Qle_condition. pose proof (Qabs_nonneg q). lra. Qed.

(** ** [base.py]: the traits of devices *)

Record traits := Traits { is_wireless : option bool; is_virtual : bool }.
(** [NetDeviceTraits.__init__]. *)
Definition new_traits (wireless : option bool) (virtual : bool) : py exn traits :=
  if virtual || bool_decide (is_Some wireless) then Ok (Traits wireless virtual) else Raise (Exception_ "AssertionError").
(** The table [netdevice_traits], by the name of the class. *)
Definition netdevice_traits : gmap string traits := list_to_map [
  ("PointToPointNetDevice", Traits (Some false) false);
  ("CsmaNetDevice", Traits (Some false) false);
  ("WifiNetDevice", Traits (Some true) false);
  ("BridgeNetDevice", Traits None true);
  ("LoopbackNetDevice", Traits (Some false) true);
  ("MeshPointDevice", Traits None true);
  ("SubscriberStationNetDevice", Traits (Some true) false);
  ("BaseStationNetDevice", Traits (Some true) false);
  ("LteUeNetDevice", Traits (Some true) false);
  ("LteEnbNetDevice", Traits (Some true) false)].
(** [lookup_netdevice_traits]: an unknown class is entered as a wireless device. *)
Definition lookup_netdevice_traits (cls : string) (table : gmap string traits) : traits * gmap string traits :=
  match table !! cls with
  | Some t => (t, table)
  | None => let t := Traits (Some true) false in (t, <[cls := t]> table)
  end.
(** The devices [scan_topology] draws wires for. *)
Definition wired (t : traits) : bool := negb (default false (is_wireless t)) && negb (is_virtual t).

(** Every lookup, in any table grown from the first one, gives what the first one gives: only the
    point-to-point and CSMA devices are wired. *)
Definition traits_of (cls : string) : traits := default (Traits (Some true) false) (netdevice_traits !! cls).
Definition table_ok (table : gmap string traits) : Prop := ∀ cls, default (Traits (Some true) false) (table !! cls) = traits_of cls.
Lemma lookup_netdevice_traits_ok cls table : table_ok table →
  lookup_netdevice_traits cls table = (traits_of cls, (lookup_netdevice_traits cls table).2) ∧
  table_ok (lookup_netdevice_traits cls table).2.
Proof.
  intros Ht. unfold lookup_netdevice_traits. pose proof (Ht cls) as Hc.
  destruct (table !! cls) as [t|] eqn:E; cbn in *.
  - split; [by rewrite Hc|done].
  - split; [by rewrite Hc|]. intros c. destruct (decide (c = cls)) as [->|Hn].
    + rewrite lookup_insert_eq. exact Hc.
    + rewrite lookup_insert_ne by done. apply Ht.
Qed.
Lemma wired_iff cls : wired (traits_of cls) = true ↔ cls = "PointToPointNetDevice" ∨ cls = "CsmaNetDevice".
Proof.
  unfold traits_of, netdevice_traits. split.
  - destruct (list_to_map _ !! cls) as [t|] eqn:E; cbn; [|done].
    apply elem_of_list_to_map_2 in E. intros Hw.
    repeat (apply elem_of_cons in E as [[= -> ->]|E]; [by auto|]). by apply not_elem_of_nil in E.
  - by intros [-> | ->].
Qed.

(** ** [svgitem.py] *)

(** [natural] is the size of the picture itself, [handle.props]. *)
Record svg_item := SvgItem {
  svg_pos : Q * Q;
  svg_scale : Q * Q;
  natural : Q * Q;
  svg_size : Q * Q;
  custom_width : option Q;
  custom_height : option Q
}.

Section svg.
Context `{Rounding}.

(** [SvgItem.__init__]. *)
Definition new_svg_item (x y : Q) (natural : Q * Q) : svg_item :=
  SvgItem (x, y) (1%Q, 1%Q) natural natural None None.

Definition size_changed (s : svg_item) : py exn svg_item :=
  let '(nw, nh) := natural s in
  match custom_width s, custom_height s with
  | None, None => Ok (SvgItem (svg_pos s) (1%Q, 1%Q) (natural s) (nw, nh) None None)
  | Some w, None =>
      sx ← fdiv_py w nw;
      Ok (SvgItem (svg_pos s) (sx, sx) (natural s) (w, fmul nh sx) (Some w) None)
  | None, Some h =>
      sy ← fdiv_py h nh;
      Ok (SvgItem (svg_pos s) (sy, sy) (natural s) (fmul nw sy, h) None (Some h))
  | Some w, Some h =>
      sx ← fdiv_py w nw;
      sy ← fdiv_py h nh;
      Ok (SvgItem (svg_pos s) (sx, sy) (natural s) (w, h) (Some w) (Some h))
  end.

(** [do_set_property] and [do_get_property], by the name of the property. *)
Definition do_set_property (name : string) (value : Q) (s : svg_item) : py exn svg_item :=
  if decide (name = "x") then Ok (SvgItem (value, (svg_pos s).2) (svg_scale s) (natural s) (svg_size s) (custom_width s) (custom_height s))
  else if decide (name = "y") then Ok (SvgItem ((svg_pos s).1, value) (svg_scale s) (natural s) (svg_size s) (custom_width s) (custom_height s))
  else if decide (name = "width") then size_changed (SvgItem (svg_pos s) (svg_scale s) (natural s) (svg_size s) (Some value) (custom_height s))
  else if decide (name = "height") then size_changed (SvgItem (svg_pos s) (svg_scale s) (natural s) (svg_size s) (custom_width s) (Some value))
  else Raise AttributeError.
Definition do_get_property (name : string) (s : svg_item) : py exn Q * svg_item :=
  if decide (name = "x") then (Ok (svg_pos s).1, s)
  else if decide (name = "y") then (Ok (svg_pos s).2, s)
  else if decide (name = "width") then
    let s := SvgItem (svg_pos s) (svg_scale s) (natural s) (natural s) (custom_width s) (custom_height s) in
    (Ok (svg_size s).1, s)
  else if decide (name = "height") then (Ok (svg_size s).2, s)
  else (Raise AttributeError, s).

(** [do_simple_update]: the bounds of the item. *)
Definition do_simple_update (s : svg_item) : Q * Q * Q * Q :=
  let '(x, y) := svg_pos s in
  let '(w, h) := svg_size s in
  (x, y, fadd x w, fadd y h).
(** [do_simple_is_item_at]. *)
Definition do_simple_is_item_at (x y : Q) (s : svg_item) : bool :=
  let '(sx, sy) := svg_pos s in
  let '(w, h) := svg_size s in
  negb ((num_lt (Flt x) (Flt sx) || num_lt (Flt (fadd sx w)) (Flt x)) ||
        (num_lt (Flt y) (Flt sy) || num_lt (Flt (fadd sy h)) (Flt y))).
End svg.

(** *** The size of a picture *)

(** What is drawn is the picture scaled by [svg_scale]; the item claims the size [svg_size]. *)
Definition svg_ok (s : svg_item) : Prop :=
  ((svg_size s).1 == (natural s).1 * (svg_scale s).1 ∧ (svg_size s).2 == (natural s).2 * (svg_scale s).2)%Q.

Section exact.
#[local] Existing Instance exact.

Lemma fdiv_py_exact a b : ¬ (b == 0)%Q → fdiv_py a b = Ok (a / b)%Q.
Proof.
  intros Hb. unfold fdiv_py. destruct (Qeq_bool b 0) eqn:E; [|done]. by apply Qeq_bool_iff in E.
Qed.

(** Whatever sizes are set, in any order, the claimed size is the size drawn, the sizes asked for are
    kept, and a picture with one of them asked for keeps its proportions. *)
Lemma size_changed_spec s : ¬ ((natural s).1 == 0)%Q → ¬ ((natural s).2 == 0)%Q →
  ∃ s', size_changed s = Ok s' ∧ svg_ok s' ∧ natural s' = natural s ∧ svg_pos s' = svg_pos s ∧
    (∀ w, custom_width s = Some w → (svg_size s').1 = w) ∧ (∀ h, custom_height s = Some h → (svg_size s').2 = h) ∧
    (custom_width s = None ∨ custom_height s = None → (svg_scale s').1 = (svg_scale s').2).
Proof.
  destruct s as [p sc [nw nh] sz cw ch]. cbn. intros Hw Hh. unfold size_changed, svg_ok.
  cbn [natural custom_width custom_height svg_pos].
  destruct cw as [w|], ch as [h|]; rewrite ?fdiv_py_exact by done; cbn [mbind py_bind]; (eexists; split;
    [reflexivity|]);
    cbn; unfold fmul, rnd, exact; split_and!; try done; try (by intros ? [= ->]); try (by intros [?|?]).
  all: try reflexivity; try (field; done).
Qed.
End exact.

(** Reading the property [width] sets the size back to that of the picture itself, so that a scaled
    item claims another size than it draws. *)
Lemma get_width_resets :
  let s := SvgItem (0, 0)%Q (2, 2)%Q (10, 20)%Q (20, 40)%Q (Some 20%Q) None in
  svg_ok s ∧ (do_get_property "width" s).1 = Ok 10%Q ∧ ¬ svg_ok (do_get_property "width" s).2.
Proof. cbn. unfold svg_ok. cbn. split_and!; [lra..|done|]. intros [Hc _]. by apply Qeq_bool_iff in Hc. Qed.
