(* ===== verification/VizScene.v ===== *)
(** * VizScene: the nodes, channels and links the visualizer shows

    The classes [Node], [Channel] and [WiredLink] of [src/visualizer/visualizer/core.py], the wireless
    links of [plugins/wifi_intrastructure_link.py], and the methods of [Visualizer] that build and
    change them: [scan_topology], [_update_node_positions], [select_node] and the rest.

    Nodes and channels live in the two dictionaries of the record [scene], links in two lists, and
    objects refer to each other by key or position, so that the sharing of the code is kept: moving a
    node redraws the links in its list [links] and no others.  The simulated network is the record
    [network], an argument; the layout program is the class [Graphviz]; the order in which a dictionary
    is iterated is the class [DictIter]. *)

From stdpp Require Import base list strings gmap.
From Stdlib Require Import Ascii QArith Qround Qabs Lqa.
From S2P Require Import Prelude PyNum PyStr VizSvg.
Open Scope nat_scope.

(** ** The simulated network, as the code asks for it *)

Inductive mac := StaWifiMac | ApWifiMac | OtherMac.
(** A device: the name of its class, its channel, the kind of its MAC when it is a [WifiNetDevice], its
    address, whether it is up, and the BSSID it is associated with. *)
Record device := Device {
  dev_type : string;
  dev_channel : option Z;
  dev_mac : option mac;
  dev_address : string;
  dev_link_up : bool;
  dev_bssid : string
}.
Record ns_node := NsNode { mobility : option (Q * Q); devices : list device }.
(** [channel_devices c] lists the nodes of the devices on the channel [c]. *)
Record network := Network { node_list : list ns_node; channel_devices : Z → list Z }.
Definition get_ns_node (net : network) (i : Z) : option ns_node :=
  if (i <? 0)%Z then None else node_list net !! Z.to_nat i.
Definition node_mobility (net : network) (i : Z) : option (Q * Q) := get_ns_node net i ≫= mobility.
Definition node_devices (net : network) (i : Z) : list device := default [] (devices <$> get_ns_node net i).
(** [range(NodeList.GetNNodes())]. *)
Definition node_range (net : network) : list Z := Z.of_nat <$> seq 0 (length (node_list net)).

(** ** The objects *)

Inductive endpoint := AtNode (i : Z) | AtChannel (c : Z).
Inductive link_id := Wire (k : nat) | WifiLink (k : nat).
#[global] Instance endpoint_eq_dec : EqDecision endpoint.
Proof. solve_decision. Defined.
#[global] Instance link_id_eq_dec : EqDecision link_id.
Proof. solve_decision. Defined.

(** The ellipse of a node. *)
Record ellipse := Ellipse { radius : Q; fill_color : Z; line_width : Q; stroke_color : string }.
Record node := Node {
  center : Q * Q;
  links : list link_id;
  selected : bool;
  highlighted : bool;
  color : Z;
  node_size : Q;
  shape : ellipse;
  has_mobility : option bool;
  label : option string;
  label_pos : option (Q * Q);
  svg : option (svg_item * (Q * Q))
}.
Record channel := Channel { channel_center : Q * Q; channel_links : list link_id }.
(** The path of a wire is [None] until the first [update_points]. *)
Record wire := WiredLink { node1 : Z; node2 : endpoint; path : option ((Q * Q) * (Q * Q)) }.
Record wifi_link := Wifi { sta : Z; ap : option Z; points : option ((Q * Q) * (Q * Q)); visible : bool }.

Inductive show_mode := ShowAll | ShowNone | ShowSelected.
#[global] Instance show_mode_eq_dec : EqDecision show_mode.
Proof. solve_decision. Defined.

(** The fields of [Visualizer] and of [WifiLinkMonitor]; [interest] is what [SetNodesOfInterest] was
    last called with, [bounds] is [None] when [get_bounds] gives nothing that can be unpacked; a
    station is its node, its device and its link. *)
Record scene := Scene {
  nodes : gmap Z node;
  channels : gmap Z channel;
  wires : list wire;
  wifis : list wifi_link;
  bounds : option (Q * Q * Q * Q);
  selected_node : option Z;
  mode : show_mode;
  interest : list Z;
  table : gmap string traits;
  access_points : gmap string Z;
  stations : list (Z * nat * nat)
}.

(** A graph of [pygraphviz]: its nodes by name, each once, in the order they were added. *)
Record graph := Graph { graph_nodes : list string; graph_edges : list (string * string) }.
Definition add_node (n : string) (g : graph) : graph :=
  if decide (n ∈ graph_nodes g) then g else Graph (graph_nodes g ++ [n]) (graph_edges g).
Definition add_edge (a b : string) (g : graph) : graph :=
  let g := add_node b (add_node a g) in
  if decide ((a, b) ∈ graph_edges g ∨ (b, a) ∈ graph_edges g) then g else Graph (graph_nodes g) (graph_edges g ++ [(a, b)]).
(** After [layout] every node of the graph has an attribute [pos], two floats with a comma between. *)
Class Graphviz := {
  layout : graph → list (string * string);
  float_of : string → option Q;
  layout_nodes g : (layout g).*1 ≡ₚ graph_nodes g;
  layout_pos g n p : (n, p) ∈ layout g →
    ∃ sx sy x y, split_all ","%char p = [sx; sy] ∧ float_of sx = Some x ∧ float_of sy = Some y
}.

Section scene.
Context `{Rounding} `{!DictIter Z}.

Definition with_nodes (m : gmap Z node) (s : scene) : scene :=
  Scene m (channels s) (wires s) (wifis s) (bounds s) (selected_node s) (mode s) (interest s) (table s)
    (access_points s) (stations s).
Definition with_channels (m : gmap Z channel) (s : scene) : scene :=
  Scene (nodes s) m (wires s) (wifis s) (bounds s) (selected_node s) (mode s) (interest s) (table s)
    (access_points s) (stations s).
Definition with_wires (l : list wire) (s : scene) : scene :=
  Scene (nodes s) (channels s) l (wifis s) (bounds s) (selected_node s) (mode s) (interest s) (table s)
    (access_points s) (stations s).
Definition with_wifis (l : list wifi_link) (s : scene) : scene :=
  Scene (nodes s) (channels s) (wires s) l (bounds s) (selected_node s) (mode s) (interest s) (table s)
    (access_points s) (stations s).
Definition with_bounds (b : option (Q * Q * Q * Q)) (s : scene) : scene :=
  Scene (nodes s) (channels s) (wires s) (wifis s) b (selected_node s) (mode s) (interest s) (table s)
    (access_points s) (stations s).
Definition with_selection (o : option Z) (m : show_mode) (l : list Z) (s : scene) : scene :=
  Scene (nodes s) (channels s) (wires s) (wifis s) (bounds s) o m l (table s) (access_points s) (stations s).
Definition with_table (t : gmap string traits) (s : scene) : scene :=
  Scene (nodes s) (channels s) (wires s) (wifis s) (bounds s) (selected_node s) (mode s) (interest s) t
    (access_points s) (stations s).
Definition with_wifi_monitor (aps : gmap string Z) (sts : list (Z * nat * nat)) (s : scene) : scene :=
  Scene (nodes s) (channels s) (wires s) (wifis s) (bounds s) (selected_node s) (mode s) (interest s) (table s)
    aps sts.

Definition set_center (p : Q * Q) (n : node) : node :=
  Node p (links n) (selected n) (highlighted n) (color n) (node_size n) (shape n) (has_mobility n) (label n)
    (label_pos n) (svg n).
Definition set_links (l : list link_id) (n : node) : node :=
  Node (center n) l (selected n) (highlighted n) (color n) (node_size n) (shape n) (has_mobility n) (label n)
    (label_pos n) (svg n).
Definition set_label_pos (p : option (Q * Q)) (n : node) : node :=
  Node (center n) (links n) (selected n) (highlighted n) (color n) (node_size n) (shape n) (has_mobility n)
    (label n) p (svg n).
Definition set_look (sel high : bool) (c : Z) (sz : Q) (lb : option string) (n : node) : node :=
  Node (center n) (links n) sel high c sz (shape n) (has_mobility n) lb (label_pos n) (svg n).
Definition set_shape (e : ellipse) (n : node) : node :=
  Node (center n) (links n) (selected n) (highlighted n) (color n) (node_size n) e (has_mobility n) (label n)
    (label_pos n) (svg n).
Definition set_has_mobility (b : bool) (n : node) : node :=
  Node (center n) (links n) (selected n) (highlighted n) (color n) (node_size n) (shape n) (Some b) (label n)
    (label_pos n) (svg n).
Definition set_svg (o : option (svg_item * (Q * Q))) (n : node) : node :=
  Node (center n) (links n) (selected n) (highlighted n) (color n) (node_size n) (shape n) (has_mobility n)
    (label n) (label_pos n) o.

(** Objects by reference: a reference to an object that does not exist cannot occur in Python. *)
Definition the_node (i : Z) : stx scene exn node := get_st ≫= λ s, lift_py (or_raise KeyError (nodes s !! i)).
Definition change_node (i : Z) (f : node → node) : stx scene exn unit :=
  modify_st (λ s, with_nodes (alter f i (nodes s)) s).
Definition the_channel (c : Z) : stx scene exn channel := get_st ≫= λ s, lift_py (or_raise KeyError (channels s !! c)).
(** [get_position] of a node or of a channel. *)
Definition get_position (e : endpoint) : stx scene exn (Q * Q) :=
  match e with
  | AtNode i => n ← the_node i; mret (center n)
  | AtChannel c => ch ← the_channel c; mret (channel_center ch)
  end.

(** ** Links *)

(** [WiredLink.update_points] and [WifiLink.update_points]. *)
Definition update_points (l : link_id) : stx scene exn unit :=
  s ← get_st;
  match l with
  | Wire k =>
      w ← lift_py (or_raise IndexError (wires s !! k));
      p1 ← get_position (AtNode (node1 w));
      p2 ← get_position (node2 w);
      modify_st (λ s, with_wires (<[k := WiredLink (node1 w) (node2 w) (Some (p1, p2))]> (wires s)) s)
  | WifiLink k =>
      w ← lift_py (or_raise IndexError (wifis s !! k));
      match ap w with
      | None => mret tt
      | Some a =>
          p1 ← get_position (AtNode (sta w));
          p2 ← get_position (AtNode a);
          modify_st (λ s, with_wifis (<[k := Wifi (sta w) (ap w) (Some (p1, p2)) (visible w)]> (wifis s)) s)
      end
  end.

(** ** Nodes *)

(** [_update_svg_position]. *)
Definition update_svg_position (x y : Q) (o : svg_item * (Q * Q)) : svg_item * (Q * Q) :=
  let '(it, (ax, ay)) := o in
  let '(w, h) := svg_size it in
  (SvgItem (fsub x (fmul (fsub 1 ax) w), fsub y (fmul (fsub 1 ay) h)) (svg_scale it) (natural it) (svg_size it)
     (custom_width it) (custom_height it), (ax, ay)).

Definition qmin (a b : Q) : Q := val (num_min (Flt a) (Flt b)).
Definition qmax (a b : Q) : Q := val (num_max (Flt a) (Flt b)).
(** The bounds of the canvas grow to hold a point. *)
Definition grow_bounds (x y : Q) (b : Q * Q * Q * Q) : Q * Q * Q * Q :=
  let '(min_x, min_y, max_x, max_y) := b in (qmin x min_x, qmin y min_y, qmax x max_x, qmax y max_y).

(** [Node.set_position]. *)
Definition set_position (i : Z) (x y : Q) : stx scene exn unit :=
  _ ← change_node i (set_center (x, y));
  n ← the_node i;
  _ ← (match svg n with
       | Some o => change_node i (set_svg (Some (update_svg_position x y o)))
       | None => mret tt
       end);
  _ ← for_st update_points (links n);
  _ ← (if bool_decide (is_Some (label_pos n))
       then change_node i (set_label_pos (Some (x, fadd y (fmul (node_size n) 3)))) else mret tt);
  modify_st (λ s, with_bounds (grow_bounds x y <$> bounds s) s).
(** [_update_position]. *)
Definition update_position (i : Z) : stx scene exn unit :=
  p ← get_position (AtNode i); set_position i p.1 p.2.

(** [_update_appearance]. *)
Definition node_shape (n : node) : ellipse :=
  let size := transform_distance_simulation_to_canvas (node_size n) in
  let alpha := match svg n with Some _ => 128%Z | None => 255%Z end in
  Ellipse size (Z.lor (Z.land (color n) 4294967040) alpha)
    (fmul size (if selected n then rnd (3 # 10) else rnd (15 # 100)))
    (if highlighted n then "yellow" else "black").
Definition update_appearance (i : Z) : stx scene exn unit :=
  n ← the_node i;
  _ ← change_node i (set_shape (node_shape n));
  match label n with
  | None => mret tt
  | Some _ =>
      _ ← (if bool_decide (is_Some (label_pos n)) then mret tt else change_node i (set_label_pos (Some (0%Q, 0%Q))));
      update_position i
  end.
Definition set_selected (i : Z) (b : bool) : stx scene exn unit :=
  _ ← change_node i (λ n, set_look b (highlighted n) (color n) (node_size n) (label n) n); update_appearance i.
Definition set_highlighted (i : Z) (b : bool) : stx scene exn unit :=
  _ ← change_node i (λ n, set_look (selected n) b (color n) (node_size n) (label n) n); update_appearance i.
Definition set_size (i : Z) (size : Q) : stx scene exn unit :=
  _ ← change_node i (λ n, set_look (selected n) (highlighted n) (color n) size (label n) n); update_appearance i.
(** [set_color] with the channels of a named color, 16 bits each. *)
Definition rgba (red green blue : Z) : Z :=
  Z.lor (Z.lor (Z.lor (Z.shiftl (Z.shiftr red 8) 24) (Z.shiftl (Z.shiftr green 8) 16)) (Z.shiftl (Z.shiftr blue 8) 8)) 255.
Definition set_color (i : Z) (c : Z) : stx scene exn unit :=
  _ ← change_node i (λ n, set_look (selected n) (highlighted n) c (node_size n) (label n) n); update_appearance i.
(** [set_label] checks its argument against [basestring], which Python 3 does not have. *)
Definition set_label (python3 : bool) (i : Z) (text : string) : stx scene exn unit :=
  if python3 then raise_st NameError else
  _ ← change_node i (λ n, set_look (selected n) (highlighted n) (color n) (node_size n) (Some text) n);
  update_appearance i.
(** [set_svg_icon], given the size of the picture. *)
Definition set_svg_icon (i : Z) (picture : Q * Q) (width height : option Q) (align_x align_y : Q) : stx scene exn unit :=
  if bool_decide (width = None ∧ height = None) then raise_st (ValueError "either width or height must be given") else
  n ← the_node i;
  let '(x, y) := center n in
  let it := new_svg_item x y picture in
  it ← (match width with
        | Some w => lift_py (do_set_property "width" (transform_distance_simulation_to_canvas w) it)
        | None => mret it
        end);
  it ← (match height with
        | Some h => lift_py (do_set_property "height" (transform_distance_simulation_to_canvas h) it)
        | None => mret it
        end);
  _ ← change_node i (set_svg (Some (update_svg_position x y (it, (align_x, align_y)))));
  update_appearance i.
(** [add_link] and [remove_link]. *)
Definition add_link (i : Z) (l : link_id) : stx scene exn unit := change_node i (λ n, set_links (links n ++ [l]) n).
Fixpoint remove_first {A} `{EqDecision A} (x : A) (l : list A) : option (list A) :=
  match l with
  | [] => None
  | y :: l => if decide (x = y) then Some l else cons y <$> remove_first x l
  end.
Definition remove_link (i : Z) (l : link_id) : stx scene exn unit :=
  n ← the_node i;
  ls ← lift_py (or_raise (ValueError "list.remove(x): x not in list") (remove_first l (links n)));
  change_node i (set_links ls).
(** The property [has_mobility], which remembers its answer. *)
Definition get_has_mobility (net : network) (i : Z) : stx scene exn bool :=
  n ← the_node i;
  match has_mobility n with
  | Some b => mret b
  | None =>
      let b := bool_decide (is_Some (node_mobility net i)) in
      _ ← change_node i (set_has_mobility b);
      mret b
  end.

(** ** Channels and the dictionaries *)

(** [Channel.set_position]. *)
Definition set_channel_position (c : Z) (x y : Q) : stx scene exn unit :=
  _ ← modify_st (λ s, with_channels (alter (λ ch, Channel (x, y) (channel_links ch)) c (channels s)) s);
  ch ← the_channel c;
  for_st update_points (channel_links ch).

Definition DEFAULT_NODE_SIZE : Q := 1.
(** [Node.__init__]; a new ellipse is at the origin. *)
Definition new_node : node :=
  let n := Node (0%Q, 0%Q) [] false false 2155905279 DEFAULT_NODE_SIZE (Ellipse 0 0 0 "") None None None None in
  set_shape (node_shape n) n.
Definition get_node (i : Z) : stx scene exn unit :=
  modify_st (λ s, match nodes s !! i with Some _ => s | None => with_nodes (<[i := new_node]> (nodes s)) s end).
Definition get_channel (c : Z) : stx scene exn unit :=
  modify_st (λ s, match channels s !! c with
                  | Some _ => s
                  | None => with_channels (<[c := Channel (0%Q, 0%Q) []]> (channels s)) s
                  end).
(** [create_link]: the constructor of [WiredLink] enters the link at both ends and does not draw it. *)
Definition create_link (i : Z) (e : endpoint) : stx scene exn unit :=
  modify_st (λ s,
    let l := Wire (length (wires s)) in
    let s := with_wires (wires s ++ [WiredLink i e None]) s in
    let s := with_nodes (alter (λ n, set_links (links n ++ [l]) n) i (nodes s)) s in
    match e with
    | AtNode j => with_nodes (alter (λ n, set_links (links n ++ [l]) n) j (nodes s)) s
    | AtChannel c => with_channels (alter (λ ch, Channel (channel_center ch) (channel_links ch ++ [l])) c (channels s)) s
    end).

(** ** [scan_topology] *)

Context `{!Graphviz}.

Definition node_name (i : Z) : string := "Node " +:+ str_of_Z i.
Definition channel_name (c : Z) : string := "Channel " +:+ str_of_Z c.

(** One device on a channel with at most two of them: a link to the other node. *)
Definition scan_other (net : network) (i : Z) (mob : option (Q * Q)) (g : graph) (j : Z) : stx scene exn graph :=
  _ ← get_node j;
  if decide (j = i) then mret g else
  g ← (match mob with
       | Some _ => mret g
       | None => b ← get_has_mobility net j;
                 mret (if b : bool then g else add_edge (node_name i) (node_name j) g)
       end);
  _ ← get_node i;
  _ ← create_link i (AtNode j);
  mret g.
(** One device of the node [i]. *)
Definition scan_device (net : network) (i : Z) (mob : option (Q * Q)) (g : graph) (d : device) : stx scene exn graph :=
  s ← get_st;
  let '(t, tb) := lookup_netdevice_traits (dev_type d) (table s) in
  _ ← modify_st (with_table tb);
  if default false (is_wireless t) then mret g else
  if is_virtual t then mret g else
  c ← lift_py (or_raise AttributeError (dev_channel d));
  if (2 <? length (channel_devices net c)) then
    let g := match mob with None => add_edge (node_name i) (channel_name c) g | Some _ => g end in
    _ ← get_channel c;
    _ ← get_node i;
    _ ← get_channel c;
    _ ← create_link i (AtChannel c);
    mret g
  else fold_st (scan_other net i mob) g (channel_devices net c).
(** One node; [red] is the color a node with a mobility model gets. *)
Definition red : Z := rgba 65535 0 0.
Definition scan_node (net : network) (g : graph) (i : Z) : stx scene exn graph :=
  _ ← get_node i;
  let mob := node_mobility net i in
  g ← (match mob with
       | Some (x, y) =>
           _ ← set_color i red;
           let '(cx, cy) := transform_point_simulation_to_canvas x y in
           _ ← set_position i cx cy;
           mret g
       | None => mret (add_node (node_name i) g)
       end);
  fold_st (scan_device net i mob) g (node_devices net i).

(** One node of the graph after the layout; [obj] is the variable of the loop, which keeps its value when
    the type is neither of the two. *)
Definition place (obj : option endpoint) (np : string * string) : stx scene exn (option endpoint) :=
  s ← get_st;
  match split_all " "%char np.1, split_all ","%char np.2 with
  | [ty; id], [sx; sy] =>
      x ← lift_py (or_raise (ValueError "could not convert string to float") (float_of sx));
      y ← lift_py (or_raise (ValueError "could not convert string to float") (float_of sy));
      obj ← (if decide (ty = "Node") then
               i ← lift_py (or_raise (ValueError "invalid literal for int()") (py_int id));
               _ ← lift_py (or_raise KeyError (nodes s !! i)); mret (Some (AtNode i))
             else if decide (ty = "Channel") then
               c ← lift_py (or_raise (ValueError "invalid literal for int()") (py_int id));
               _ ← lift_py (or_raise KeyError (channels s !! c)); mret (Some (AtChannel c))
             else mret obj);
      match obj with
      | Some (AtNode i) => _ ← set_position i x y; mret obj
      | Some (AtChannel c) => _ ← set_channel_position c x y; mret obj
      | None => raise_st UnboundLocalError
      end
  | _, _ => raise_st (ValueError "not enough values to unpack")
  end.
Definition scan_topology (net : network) : stx scene exn unit :=
  g ← fold_st (scan_node net) (Graph [] []) (node_range net);
  _ ← fold_st place None (layout g);
  mret tt.

(** ** Positions, selection *)

(** [_update_node_positions]; [t] numbers the iteration over the dictionary. *)
Definition update_node (net : network) (i : Z) : stx scene exn unit :=
  b ← get_has_mobility net i;
  if b : bool then
    match node_mobility net i with
    | Some (x, y) => let '(cx, cy) := transform_point_simulation_to_canvas x y in set_position i cx cy
    | None => mret tt
    end
  else mret tt.
Definition update_node_positions (t : nat) (net : network) : stx scene exn unit :=
  s ← get_st; for_st (update_node net) (dict_keys t (nodes s)).
(** [node_size_changed]. *)
Definition node_size_changed (t : nat) (size : Q) : stx scene exn unit :=
  s ← get_st; for_st (λ i, set_size i size) (dict_keys t (nodes s)).

Definition set_nodes_of_interest (l : list Z) : stx scene exn unit :=
  modify_st (λ s, with_selection (selected_node s) (mode s) l s).
Definition interest_of_selection (s : scene) : list Z := match selected_node s with Some i => [i] | None => [] end.
(** [set_show_transmissions_mode]. *)
Definition set_show_transmissions_mode (net : network) (m : show_mode) : stx scene exn unit :=
  _ ← modify_st (λ s, with_selection (selected_node s) m (interest s) s);
  s ← get_st;
  set_nodes_of_interest (match m with
                         | ShowAll => node_range net
                         | ShowNone => []
                         | ShowSelected => interest_of_selection s
                         end).

(** The argument of [select_node]: nothing, a number or a node of the simulator, a node shown, or
    anything else. *)
Inductive selection := NoNode | Number (i : Z) | Shown (i : Z) | Anything.
Definition select_node (a : selection) : stx scene exn unit :=
  s ← get_st;
  node ← (match a with
          | NoNode => mret None
          | Number i => _ ← lift_py (or_raise KeyError (nodes s !! i)); mret (Some i)
          | Shown i => mret (Some i)
          | Anything => raise_st TypeError
          end);
  if decide (node = selected_node s) then mret tt else
  _ ← (match selected_node s with Some i => set_selected i false | None => mret tt end);
  _ ← modify_st (λ s, with_selection node (mode s) (interest s) s);
  _ ← (match node with Some i => set_selected i true | None => mret tt end);
  s ← get_st;
  if decide (mode s = ShowSelected) then set_nodes_of_interest (interest_of_selection s) else mret tt.

(** ** [plugins/wifi_intrastructure_link.py] *)

(** [WifiLink.__init__]: its call [set_ap(None)] returns at once, since the access point is [None]. *)
Definition new_wifi_link (i : Z) : stx scene exn nat :=
  s ← get_st;
  _ ← modify_st (λ s, with_wifis (wifis s ++ [Wifi i None None true]) s);
  mret (length (wifis s)).
Definition set_ap (k : nat) (a : option Z) : stx scene exn unit :=
  s ← get_st;
  w ← lift_py (or_raise IndexError (wifis s !! k));
  if decide (a = ap w) then mret tt else
  _ ← (match ap w with Some b => remove_link b (WifiLink k) | None => mret tt end);
  _ ← modify_st (λ s, with_wifis (<[k := Wifi (sta w) a (points w) (bool_decide (is_Some a))]> (wifis s)) s);
  _ ← (match a with Some b => add_link b (WifiLink k) | None => mret tt end);
  update_points (WifiLink k).
(** [destroy] takes the link off the canvas; it stays in the list of the access point, where
    [update_points] passes over it. *)
Definition destroy (k : nat) : stx scene exn unit :=
  modify_st (λ s, with_wifis (alter (λ w, Wifi (sta w) None (points w) false) k (wifis s)) s).

(** [scan_nodes], called when the topology has been scanned. *)
Definition scan_wifi_device (i : Z) (kd : nat * device) : stx scene exn unit :=
  match dev_mac kd.2 with
  | Some StaWifiMac =>
      k ← new_wifi_link i;
      modify_st (λ s, with_wifi_monitor (access_points s) (stations s ++ [(i, kd.1, k)]) s)
  | Some ApWifiMac => modify_st (λ s, with_wifi_monitor (<[dev_address kd.2 := i]> (access_points s)) (stations s) s)
  | _ => mret tt
  end.
Definition scan_nodes (t : nat) (net : network) : stx scene exn unit :=
  s ← get_st;
  _ ← for_st (λ st, destroy st.2) (stations s);
  _ ← modify_st (with_wifi_monitor ∅ []);
  for_st (λ i, for_st (scan_wifi_device i) (imap pair (node_devices net i))) (dict_keys t (nodes s)).
Definition periodic_update_station (net : network) (st : Z * nat * nat) : stx scene exn unit :=
  let '(i, kd, k) := st in
  d ← lift_py (or_raise IndexError (node_devices net i !! kd));
  if negb (dev_link_up d) then set_ap k None else
  if decide (dev_bssid d = "00:00:00:00:00:00") then set_ap k None else
  s ← get_st;
  a ← lift_py (or_raise KeyError (access_points s !! dev_bssid d));
  set_ap k (Some a).
(** [WifiLinkMonitor.simulation_periodic_update] and [update_view]. *)
Definition wifi_periodic_update (net : network) : stx scene exn unit :=
  s ← get_st; for_st (periodic_update_station net) (stations s).
Definition wifi_update_view : stx scene exn unit :=
  s ← get_st; for_st (λ st, update_points (WifiLink st.2)) (stations s).
End scene.

(** The scene when the window has been made. *)
Definition empty_scene : scene :=
  Scene ∅ ∅ [] [] (Some (-10000, -10000, 10000, 10000)%Q) None ShowAll [] netdevice_traits ∅ [].

(** ** Names of nodes in the graph *)

Lemma digits_no_space l : Forall is_digit l → Forall (λ c, is_space c = false ∧ c ≠ " "%char ∧ c ≠ "-"%char ∧ c ≠ "+"%char ∧ c ≠ "_"%char) l.
Proof.
  intros Hl. eapply Forall_impl; [exact Hl|]. intros c Hc. unfold is_digit in Hc. apply bool_decide_unpack in Hc.
  repeat (apply elem_of_cons in Hc as [->|Hc]; [by split_and!|]). by apply not_elem_of_nil in Hc.
Qed.
Lemma split_all_whole c s : Forall (λ d, d ≠ c) (chars s) → split_all c s = [s].
Proof.
  induction s as [|d s IH]; [done|]. cbn. intros [Hd Hs]%Forall_cons. rewrite decide_False by congruence.
  by rewrite IH.
Qed.
Lemma split_all_app' a c b : Forall (λ d, d ≠ c) (chars a) → split_all c (a +:+ String c b) = a :: split_all c b.
Proof.
  induction a as [|d a IH]; cbn; [by rewrite decide_True|]. intros [Hd Ha]%Forall_cons.
  rewrite decide_False by congruence. by rewrite IH.
Qed.
Lemma strip_digits s : Forall (λ c, is_space c = false) (chars s) → strip s = s.
Proof.
  intros Hs. unfold strip. assert (∀ l, Forall (λ c, is_space c = false) l → drop_spaces l = l) as Hd.
  { intros [|c l] Hl; [done|]. inversion_clear Hl as [|? ? Hc _]. cbn. by rewrite Hc. }
  rewrite (Hd (chars s)) by done. rewrite Hd by (by apply Forall_reverse).
  by rewrite reverse_involutive, implode_chars.
Qed.
Lemma drop_underscores_digits b l : Forall is_digit l → l ≠ [] ∨ b = true → drop_underscores b l = Some l.
Proof.
  intros Hl. revert b. induction Hl as [|c l Hc Hl IH]; intros b Hb; cbn; [destruct Hb as [?| ->]; done|].
  assert (c ≠ "_"%char) as Hn.
  { pose proof (digits_no_space [c]) as Hd. assert (Forall is_digit [c]) as Hs by (by constructor).
    specialize (Hd Hs). inversion_clear Hd. tauto. }
  rewrite decide_False by done. unfold is_digit in *. destruct (bool_decide _); [|done]. rewrite IH by auto. done.
Qed.
Lemma py_int_str z : (0 <= z)%Z → py_int (str_of_Z z) = Some z.
Proof.
  intros Hz. unfold str_of_Z. destruct (Z.ltb_spec z 0); [lia|].
  destruct (str_of_N_digits (Z.to_N z)) as [Hd Hn]. pose proof (digits_no_space _ Hd) as Hs.
  unfold py_int. rewrite strip_digits by (eapply Forall_impl; [exact Hs|]; by intros ? (? & _)).
  assert (drop_underscores false (chars (str_of_N (Z.to_N z))) = Some (chars (str_of_N (Z.to_N z)))) as Hu.
  { apply drop_underscores_digits; [done|]. left. intros E. apply Hn. by rewrite <-(implode_chars (str_of_N _)), E. }
  assert (int_of_str (str_of_N (Z.to_N z)) = Some z) as Hi by (rewrite int_of_str_of_N; f_equal; lia).
  rewrite <-(implode_chars (str_of_N (Z.to_N z))) in Hi. clear Hn Hd.
  destruct (chars (str_of_N (Z.to_N z))) as [|c l]; [done|]. apply Forall_cons in Hs as [(_ & _ & Hm & Hp & _) _].
  assert ((drop_underscores false (c :: l) ≫= λ d, int_of_str (implode d)) = Some z) as Hnum by (by rewrite Hu).
  clear Hi Hu. destruct c as [[] [] [] [] [] [] [] []]; first [exact Hnum|congruence].
Qed.

Lemma split_name ty i : Forall (λ d, d ≠ " "%char) (chars ty) → (0 <= i)%Z →
  split_all " "%char (ty +:+ String " "%char (str_of_Z i)) = [ty; str_of_Z i].
Proof.
  intros Hty Hi. rewrite (split_all_app' ty) by done. unfold str_of_Z. destruct (Z.ltb_spec i 0); [lia|].
  f_equal. apply split_all_whole. destruct (str_of_N_digits (Z.to_N i)) as [Hd _].
  eapply Forall_impl; [by apply digits_no_space|]. by intros ? (_ & ? & _).
Qed.
Lemma split_node_name i : (0 <= i)%Z → split_all " "%char (node_name i) = ["Node"; str_of_Z i].
Proof. apply (split_name "Node"). repeat constructor; done. Qed.
Lemma split_channel_name i : (0 <= i)%Z → split_all " "%char (channel_name i) = ["Channel"; str_of_Z i].
Proof. apply (split_name "Channel"). repeat constructor; done. Qed.


(** ** What the operations that draw leave alone *)

Definition ends (w : wire) : Z * endpoint := (node1 w, node2 w).
Definition wifi_ends (w : wifi_link) : Z * option Z := (sta w, ap w).

(** Which objects exist and which links they list. *)
Record same_skeleton (s s' : scene) : Prop := {
  sk_nodes : links <$> nodes s' = links <$> nodes s;
  sk_channels : channel_links <$> channels s' = channel_links <$> channels s;
  sk_wires : ends <$> wires s' = ends <$> wires s;
  sk_wifis : wifi_ends <$> wifis s' = wifi_ends <$> wifis s;
  sk_table : table s' = table s;
  sk_aps : access_points s' = access_points s;
  sk_stations : stations s' = stations s
}.
#[global] Instance same_skeleton_preorder : PreOrder same_skeleton.
Proof.
  split; [by constructor|]. intros s1 s2 s3 [] []. constructor; congruence.
Qed.

Lemma sk_node s s' i : same_skeleton s s' → links <$> nodes s' !! i = links <$> nodes s !! i.
Proof. intros [E _ _ _ _ _ _]. by rewrite <-!lookup_fmap, E. Qed.
Lemma sk_channel s s' c : same_skeleton s s' → channel_links <$> channels s' !! c = channel_links <$> channels s !! c.
Proof. intros [_ E _ _ _ _ _]. by rewrite <-!lookup_fmap, E. Qed.
Lemma sk_wire s s' k : same_skeleton s s' → ends <$> wires s' !! k = ends <$> wires s !! k.
Proof. intros [_ _ E _ _ _ _]. by rewrite <-!list_lookup_fmap, E. Qed.
Lemma sk_wifi s s' k : same_skeleton s s' → wifi_ends <$> wifis s' !! k = wifi_ends <$> wifis s !! k.
Proof. intros [_ _ _ E _ _ _]. by rewrite <-!list_lookup_fmap, E. Qed.

(** The links that an object lists, and whether it exists. *)
Definition links_at (s : scene) (e : endpoint) : option (list link_id) :=
  match e with AtNode i => links <$> nodes s !! i | AtChannel c => channel_links <$> channels s !! c end.
Definition position (s : scene) (e : endpoint) : Q * Q :=
  match e with
  | AtNode i => default (0, 0)%Q (center <$> nodes s !! i)
  | AtChannel c => default (0, 0)%Q (channel_center <$> channels s !! c)
  end.
Lemma sk_links_at s s' e : same_skeleton s s' → links_at s' e = links_at s e.
Proof. intros Hs. destruct e; [by apply sk_node|by apply sk_channel]. Qed.

Definition incident (we : Z * endpoint) (e : endpoint) : Prop := e = AtNode we.1 ∨ e = we.2.

(** Every wire is listed at both its ends; every link listed exists and a wire is listed only at its
    ends; the ends of wireless links exist. *)
Record links_ok (s : scene) : Prop := {
  wire_listed k we e : ends <$> wires s !! k = Some we → incident we e →
    ∃ ls, links_at s e = Some ls ∧ Wire k ∈ ls;
  listed_wire k e ls : links_at s e = Some ls → Wire k ∈ ls → ∃ we, ends <$> wires s !! k = Some we ∧ incident we e;
  listed_wifi k e ls : links_at s e = Some ls → WifiLink k ∈ ls → is_Some (wifis s !! k);
  wifi_exists k we : wifi_ends <$> wifis s !! k = Some we →
    is_Some (links_at s (AtNode we.1)) ∧ ∀ a, we.2 = Some a → is_Some (links_at s (AtNode a))
}.
Lemma sk_links_ok s s' : same_skeleton s s' → links_ok s → links_ok s'.
Proof.
  intros Hs [H1 H2 H3 H4]. constructor.
  - intros k we e. rewrite (sk_wire _ _ _ Hs), (sk_links_at _ _ _ Hs). apply H1.
  - intros k e ls. rewrite (sk_wire _ _ _ Hs), (sk_links_at _ _ _ Hs). apply H2.
  - intros k e ls. rewrite (sk_links_at _ _ _ Hs). intros E1 E2. destruct (H3 k e ls E1 E2) as [w Hw].
    pose proof (sk_wifi _ _ k Hs) as E. rewrite Hw in E. destruct (wifis s' !! k); [by eexists|done].
  - intros k we. rewrite (sk_wifi _ _ _ Hs). intros [H5 H6]%H4. setoid_rewrite (sk_links_at _ _ _ Hs). auto.
Qed.

(** What the view remembers besides: the answers of [has_mobility], the selection. *)
Record same_memory (s s' : scene) : Prop := {
  sm_mobility : has_mobility <$> nodes s' = has_mobility <$> nodes s;
  sm_selected : selected <$> nodes s' = selected <$> nodes s;
  sm_node : selected_node s' = selected_node s;
  sm_mode : mode s' = mode s;
  sm_interest : interest s' = interest s
}.
#[global] Instance same_memory_preorder : PreOrder same_memory.
Proof. split; [by constructor|]. intros s1 s2 s3 [] []. constructor; congruence. Qed.

(** A wire is drawn between the places where its ends are. *)
Definition fresh (s : scene) (k : nat) : Prop :=
  ∃ w, wires s !! k = Some w ∧ path w = Some (position s (AtNode (node1 w)), position s (node2 w)).

(** Drawing changes nothing of that, and what was drawn right stays so. *)
Record redrawn (s s' : scene) : Prop := {
  rd_skeleton : same_skeleton s s';
  rd_position e : position s' e = position s e;
  rd_memory : same_memory s s';
  rd_fresh k : fresh s k → fresh s' k
}.
#[global] Instance redrawn_preorder : PreOrder redrawn.
Proof.
  split; [by constructor|]. intros s1 s2 s3 [] []. constructor; [by etransitivity|congruence|by etransitivity|auto].
Qed.

Lemma get_position_runs s e : is_Some (links_at s e) → get_position e s = (Ok (position s e), s).
Proof.
  intros [ls Hl]. destruct e; cbn in *; unfold the_node, the_channel, get_st, lift_py, mbind, stx_bind; cbn.
  - by destruct (nodes s !! i).
  - by destruct (channels s !! c).
Qed.

Definition link_exists (s : scene) (l : link_id) : Prop :=
  match l with Wire k => is_Some (wires s !! k) | WifiLink k => is_Some (wifis s !! k) end.

Lemma fmap_insert_same {A B} (f : A → B) (k : nat) (x y : A) (l : list A) : l !! k = Some x → f y = f x → f <$> <[k := y]> l = f <$> l.
Proof. intros Hk E. rewrite list_fmap_insert, E. apply list_insert_id. by rewrite list_lookup_fmap, Hk. Qed.

Lemma redraw_wire s k w (s' := with_wires (<[k := WiredLink (node1 w) (node2 w) (Some (position s (AtNode (node1 w)), position s (node2 w)))]> (wires s)) s) :
  wires s !! k = Some w → redrawn s s' ∧ fresh s' k.
Proof.
  intros Hw. assert (fresh s' k) as Hf.
  { eexists. split; [apply list_lookup_insert_eq; by eapply lookup_lt_Some|done]. }
  split; [|done]. constructor; [|done|by constructor|].
  - constructor; try done. cbn. by eapply fmap_insert_same.
  - intros k' (w' & Hw' & Hp). destruct (decide (k' = k)) as [->|Hn]; [done|].
    exists w'. split; [|done]. cbn. by rewrite list_lookup_insert_ne.
Qed.
Lemma redraw_wifi s k w p : wifis s !! k = Some w →
  redrawn s (with_wifis (<[k := Wifi (sta w) (ap w) p (visible w)]> (wifis s)) s).
Proof.
  intros Hw. constructor; [|done|by constructor|done]. constructor; try done. cbn. by eapply fmap_insert_same.
Qed.

Lemma update_points_runs l s : links_ok s → link_exists s l →
  runs (update_points l) s (λ _ s', redrawn s s' ∧ ∀ k, l = Wire k → fresh s' k).
Proof.
  intros [H1 _ _ H4] Hl. destruct l as [k|k]; destruct Hl as [w Hw]; unfold update_points, runs.
  - exists tt. eexists. assert (∀ e, incident (ends w) e → is_Some (links_at s e)) as He.
    { intros e Hi. destruct (H1 k (ends w) e) as (ls & Els & _); [by rewrite Hw|done|by exists ls]. }
    split.
    + unfold get_st, lift_py, mbind, stx_bind. rewrite Hw. cbn -[get_position].
      rewrite !get_position_runs by (apply He; unfold incident; auto). reflexivity.
    + destruct (redraw_wire s k w Hw) as [Hr Hf]. split; [exact Hr|]. by intros ? [= <-].
  - destruct (H4 k (wifi_ends w)) as [E1 E2]; [by rewrite Hw|]. cbn in E1, E2. destruct (ap w) as [a|] eqn:Ea.
    + exists tt. eexists. split.
      * unfold get_st, lift_py, mbind, stx_bind. rewrite Hw. cbn -[get_position]. rewrite Ea.
        rewrite (get_position_runs s (AtNode (sta w)) E1), (get_position_runs s (AtNode a) (E2 a eq_refl)).
        reflexivity.
      * split; [|done]. rewrite <-Ea. by apply redraw_wifi.
    + exists tt, s. split; [|done]. unfold get_st, lift_py, mbind, stx_bind. rewrite Hw. cbn. by rewrite Ea.
Qed.

Lemma redraw_links ls s : links_ok s → (∀ l, l ∈ ls → link_exists s l) →
  runs (for_st update_points ls) s (λ _ s', redrawn s s' ∧ ∀ k, Wire k ∈ ls → fresh s' k).
Proof.
  revert s. induction ls as [|l ls IH]; intros s Hs Hl; cbn.
  { apply runs_ret. split; [done|]. intros k Hk. by apply not_elem_of_nil in Hk. }
  eapply runs_bind; [apply (update_points_runs l); [done|apply Hl; left]|]. intros _ s1 [Hr Hf]. cbn.
  eapply runs_weaken; [apply IH|].
  - eapply sk_links_ok; [apply Hr|done].
  - intros l' Hl'. pose proof (Hl l' (list_elem_of_further _ _ _ Hl')) as He.
    destruct l' as [k|k]; destruct He as [w Hw].
    + pose proof (sk_wire _ _ k (rd_skeleton _ _ Hr)) as E. rewrite Hw in E. cbn. by destruct (wires s1 !! k).
    + pose proof (sk_wifi _ _ k (rd_skeleton _ _ Hr)) as E. rewrite Hw in E. cbn. by destruct (wifis s1 !! k).
  - intros _ s2 [Hr2 Hf2]. split; [by etransitivity|]. intros k [Hk|Hk]%elem_of_cons; [|auto].
    apply (rd_fresh _ _ Hr2). by apply Hf.
Qed.

Lemma lookup_change {A} (f : A → A) (i j : Z) (m : gmap Z A) : alter f i m !! j = if decide (j = i) then f <$> m !! j else m !! j.
Proof. case_decide as E; [subst j; by rewrite lookup_alter_eq|by rewrite lookup_alter_ne]. Qed.
Lemma fmap_alter_same {A B} (g : A → B) (f : A → A) (i : Z) (m : gmap Z A) : (∀ a, g (f a) = g a) → g <$> alter f i m = g <$> m.
Proof.
  intros Hg. apply map_eq. intros j. rewrite !lookup_fmap, lookup_change. case_decide; [|done].
  destruct (m !! j); cbn; [by rewrite Hg|done].
Qed.

(** A change of a node that keeps what the scene depends on. *)
Definition quiet (f : node → node) : Prop :=
  ∀ n, center (f n) = center n ∧ links (f n) = links n ∧ has_mobility (f n) = has_mobility n ∧ selected (f n) = selected n.
Lemma fresh_same s s' k : wires s' = wires s → (∀ e, position s' e = position s e) → fresh s k → fresh s' k.
Proof. intros Hw Hp (w & E1 & E2). exists w. by rewrite Hw, !Hp. Qed.
Lemma redrawn_by_position s s' : same_skeleton s s' → same_memory s s' → wires s' = wires s →
  (∀ e, position s' e = position s e) → redrawn s s'.
Proof.
  intros Hs Hm Hw Hp. constructor; [done..|]. intros k. by apply fresh_same.
Qed.
Lemma quiet_redrawn i f s : quiet f → redrawn s (with_nodes (alter f i (nodes s)) s).
Proof.
  intros Hf. apply redrawn_by_position; [| |done|].
  - constructor; try done. cbn. apply fmap_alter_same. apply Hf.
  - constructor; try done; cbn; apply fmap_alter_same; apply Hf.
  - intros [j|c]; [|done]. cbn. rewrite lookup_change. case_decide; [|done].
    destruct (nodes s !! j) as [n|]; cbn; [|done]. apply Hf.
Qed.
Lemma change_node_runs i f s Q : Q tt (with_nodes (alter f i (nodes s)) s) → runs (change_node i f) s Q.
Proof. intros HQ. by eexists tt, _. Qed.
Lemma the_node_bind {A} i n s (k : node → stx scene exn A) Q :
  nodes s !! i = Some n → runs (k n) s Q → runs (the_node i ≫= k) s Q.
Proof.
  intros Hn (a & s' & Hk & HQ). exists a, s'. split; [|done].
  unfold the_node, get_st, lift_py, mbind, stx_bind. by rewrite Hn.
Qed.
Lemma modify_bind {A} f s (k : unit → stx scene exn A) Q : runs (k tt) (f s) Q → runs (modify_st f ≫= k) s Q.
Proof. intros (a & s' & Hk & HQ). by exists a, s'. Qed.
Lemma change_node_bind {A} i f s (k : unit → stx scene exn A) Q :
  runs (k tt) (with_nodes (alter f i (nodes s)) s) Q → runs (change_node i f ≫= k) s Q.
Proof. intros Hk. by apply (modify_bind (λ s, with_nodes (alter f i (nodes s)) s)). Qed.
Lemma get_bind {A} s (k : scene → stx scene exn A) Q : runs (k s) s Q → runs (get_st ≫= k) s Q.
Proof. intros (a & s' & Hk & HQ). by exists a, s'. Qed.
Lemma lift_bind {A B} (b : B) s (k : B → stx scene exn A) Q : runs (k b) s Q → runs (lift_py (Ok b) ≫= k) s Q.
Proof. intros (a & s' & Hk & HQ). by exists a, s'. Qed.

(** The object [e] is now at [p], everything else where it was, and its wires follow it. *)
Record moved (e : endpoint) (p : Q * Q) (s s' : scene) : Prop := {
  mv_skeleton : same_skeleton s s';
  mv_memory : same_memory s s';
  mv_position e' : position s' e' = if decide (e' = e) then p else position s e';
  mv_fresh_at k we : ends <$> wires s !! k = Some we → incident we e → fresh s' k;
  mv_fresh k : fresh s k → fresh s' k
}.
Lemma moved_redrawn e p s s1 s2 : moved e p s s1 → redrawn s1 s2 → moved e p s s2.
Proof.
  intros [M1 M2 M3 M4 M5] [R1 R2 R3 R4]. constructor; [by etransitivity|by etransitivity| |eauto..].
  intros e'. by rewrite R2, M3.
Qed.
Lemma moved_by_redraw e p s s1 s' ls :
  links_ok s → same_skeleton s s1 → same_memory s s1 → wires s1 = wires s →
  (∀ e', position s1 e' = if decide (e' = e) then p else position s e') → links_at s e = Some ls →
  redrawn s1 s' → (∀ k, Wire k ∈ ls → fresh s' k) → moved e p s s'.
Proof.
  intros Hok Hs Hm Hw Hp Hl [R1 R2 R3 R4] Hf.
  assert (∀ k we, ends <$> wires s !! k = Some we → incident we e → fresh s' k) as Hat.
  { intros k we E1 E2. destruct (wire_listed s Hok k we e E1 E2) as (ls' & E3 & E4). apply Hf. congruence. }
  constructor; [by etransitivity|by etransitivity|intros e'; by rewrite R2|done|].
  intros k (w & E1 & E2). destruct (decide (incident (ends w) e)) as [Hi|Hi].
  - apply (Hat k (ends w)); [by rewrite E1|done].
  - apply R4. exists w. split; [by rewrite Hw|]. rewrite !Hp, E2.
    rewrite !decide_False; [done|..]; intros E; apply Hi; [right|left]; done.
Qed.
Lemma links_exist s e ls : links_ok s → links_at s e = Some ls → ∀ l, l ∈ ls → link_exists s l.
Proof.
  intros Hok Hl [k|k] Hk; cbn.
  - destruct (listed_wire s Hok k e ls Hl Hk) as (we & E & _). by destruct (wires s !! k).
  - by apply (listed_wifi s Hok k e ls).
Qed.

Section facts.
Context `{Rounding} `{!DictIter Z} `{!Graphviz}.

Lemma set_position_runs i x y s : links_ok s → is_Some (nodes s !! i) →
  runs (set_position i x y) s (λ _ s', moved (AtNode i) (x, y) s s').
Proof.
  intros Hok [n Hn]. unfold set_position.
  apply change_node_bind. set (s1 := with_nodes _ s).
  assert (nodes s1 !! i = Some (set_center (x, y) n)) as Hn1 by (cbn; rewrite lookup_alter_eq, Hn; done).
  assert (same_skeleton s s1) as Hsk by (constructor; try done; cbn; by apply fmap_alter_same).
  assert (same_memory s s1) as Hme by (constructor; try done; cbn; by apply fmap_alter_same).
  assert (∀ e', position s1 e' = if decide (e' = AtNode i) then (x, y) else position s e') as Hpos.
  { intros [j|c]; cbn; [|done]. rewrite lookup_change. destruct (decide (j = i)) as [->|Hj].
    - rewrite Hn, decide_True by done. done.
    - rewrite decide_False by congruence. done. }
  eapply the_node_bind; [exact Hn1|]. cbn [svg set_center links label_pos node_size].
  eapply (runs_bind _ _ _ (λ _ s2, redrawn s1 s2)).
  { destruct (svg n); [|by apply runs_ret]. apply change_node_runs. by apply quiet_redrawn. }
  intros _ s2 R2. assert (links_ok s2) as Hok2.
  { eapply sk_links_ok; [apply R2|]. by eapply sk_links_ok. }
  assert (links_at s2 (AtNode i) = Some (links n)) as Hl2.
  { rewrite (sk_links_at _ _ _ (rd_skeleton _ _ R2)). cbn [links_at]. by rewrite Hn1. }
  eapply runs_bind; [apply (redraw_links (links n)); [done|by apply (links_exist _ (AtNode i))]|].
  cbn. intros _ s3 [R3 Hf].
  assert (moved (AtNode i) (x, y) s s3) as Hmv.
  { eapply (moved_by_redraw _ _ s s1 s3 (links n)); try done; [by cbn; rewrite Hn|by etransitivity]. }
  eapply (runs_bind _ _ _ (λ _ s4, moved (AtNode i) (x, y) s s4)).
  { destruct (bool_decide _); [|by apply runs_ret]. apply change_node_runs.
    eapply moved_redrawn; [done|by apply quiet_redrawn]. }
  intros _ s4 Hmv4. apply runs_modify. eapply moved_redrawn; [exact Hmv4|].
  by apply redrawn_by_position; [constructor..| |].
Qed.

Lemma the_channel_bind {A} c ch s (k : channel → stx scene exn A) Q :
  channels s !! c = Some ch → runs (k ch) s Q → runs (the_channel c ≫= k) s Q.
Proof.
  intros Hc (a & s' & Hk & HQ). exists a, s'. split; [|done].
  unfold the_channel, get_st, lift_py, mbind, stx_bind. by rewrite Hc.
Qed.
Lemma set_channel_position_runs c x y s : links_ok s → is_Some (channels s !! c) →
  runs (set_channel_position c x y) s (λ _ s', moved (AtChannel c) (x, y) s s').
Proof.
  intros Hok [ch Hc]. unfold set_channel_position.
  apply (modify_bind (λ s, with_channels (alter (λ ch, Channel (x, y) (channel_links ch)) c (channels s)) s)).
  set (s1 := with_channels _ s).
  assert (channels s1 !! c = Some (Channel (x, y) (channel_links ch))) as Hc1 by (cbn;
    rewrite lookup_alter_eq, Hc; done).
  assert (same_skeleton s s1) as Hsk by (constructor; try done; cbn; by apply fmap_alter_same).
  assert (∀ e', position s1 e' = if decide (e' = AtChannel c) then (x, y) else position s e') as Hpos.
  { intros [j|c']; cbn; [done|]. rewrite lookup_change. destruct (decide (c' = c)) as [->|Hj].
    - rewrite Hc, decide_True by done. done.
    - rewrite decide_False by congruence. done. }
  eapply the_channel_bind; [exact Hc1|]. cbn [channel_links].
  assert (links_ok s1) as Hok1 by (by eapply sk_links_ok).
  assert (links_at s1 (AtChannel c) = Some (channel_links ch)) as Hl1 by (cbn [links_at]; by rewrite Hc1).
  eapply runs_weaken; [apply (redraw_links (channel_links ch)); [done|by apply (links_exist _ (AtChannel c))]|].
  cbn. intros _ s3 [R3 Hf].
  assert (links_at s (AtChannel c) = Some (channel_links ch)) as Hl by (cbn; by rewrite Hc).
  assert (same_memory s s1) as Hme by (by constructor). by eapply (moved_by_redraw _ _ s s1 s3 (channel_links ch)).
Qed.

Lemma moved_same e s s' : moved e (position s e) s s' → redrawn s s'.
Proof. intros [M1 M2 M3 _ M5]. constructor; [done| |done|done]. intros e'. rewrite M3. case_decide; by subst. Qed.
Lemma sk_exists s s' i : same_skeleton s s' → is_Some (nodes s !! i) → is_Some (nodes s' !! i).
Proof. intros Hs [n Hn]. pose proof (sk_node _ _ i Hs) as E. rewrite Hn in E. by destruct (nodes s' !! i). Qed.

Lemma update_position_runs i s : links_ok s → is_Some (nodes s !! i) → runs (update_position i) s (λ _ s', redrawn s s').
Proof.
  intros Hok [n Hn]. assert (is_Some (links_at s (AtNode i))) as Hl by (cbn; rewrite Hn; by eexists).
  unfold update_position. eapply (runs_bind _ _ _ (λ p s', p = position s (AtNode i) ∧ s' = s)).
  { exists (position s (AtNode i)), s. by rewrite get_position_runs. }
  cbn beta. intros p s' [-> ->]. eapply runs_weaken; [apply set_position_runs; [done|by eexists]|].
  cbn beta. intros _ s' Hm. rewrite <-surjective_pairing in Hm. by eapply moved_same.
Qed.
Lemma update_appearance_runs i s : links_ok s → is_Some (nodes s !! i) → runs (update_appearance i) s (λ _ s', redrawn s s').
Proof.
  intros Hok [n Hn]. unfold update_appearance. eapply the_node_bind; [exact Hn|]. apply change_node_bind.
  set (s1 := with_nodes _ s). assert (redrawn s s1) as R1 by (by apply quiet_redrawn).
  destruct (label n); [|by apply runs_ret].
  eapply (runs_bind _ _ _ (λ _ s2, redrawn s s2)).
  { destruct (bool_decide _); [by apply runs_ret|]. apply change_node_runs.
    etransitivity; [exact R1|by apply quiet_redrawn]. }
  intros _ s2 R2. eapply runs_weaken; [apply update_position_runs|].
  - eapply sk_links_ok; [apply R2|done].
  - eapply sk_exists; [apply R2|by eexists].
  - cbn beta. intros _ s3 R3. by etransitivity.
Qed.
Lemma restyle_runs i f s : quiet f → links_ok s → is_Some (nodes s !! i) →
  runs (change_node i f ≫= λ _, update_appearance i) s (λ _ s', redrawn s s').
Proof.
  intros Hf Hok Hi. apply change_node_bind.
  assert (redrawn s (with_nodes (alter f i (nodes s)) s)) as R by (by apply quiet_redrawn).
  eapply runs_weaken; [apply update_appearance_runs|].
  - eapply sk_links_ok; [apply R|done].
  - eapply sk_exists; [apply R|done].
  - cbn beta. intros _ s3 R3. by etransitivity.
Qed.
Lemma set_color_runs i c s : links_ok s → is_Some (nodes s !! i) → runs (set_color i c) s (λ _ s', redrawn s s').
Proof. by apply restyle_runs. Qed.
Lemma set_size_runs i q s : links_ok s → is_Some (nodes s !! i) → runs (set_size i q) s (λ _ s', redrawn s s').
Proof. by apply restyle_runs. Qed.
Lemma set_highlighted_runs i b s : links_ok s → is_Some (nodes s !! i) → runs (set_highlighted i b) s (λ _ s', redrawn s s').
Proof. by apply restyle_runs. Qed.

(** ** New objects *)

Definition create_link_in (i : Z) (e : endpoint) (s : scene) : scene :=
  let l := Wire (length (wires s)) in
  let s := with_wires (wires s ++ [WiredLink i e None]) s in
  let s := with_nodes (alter (λ n, set_links (links n ++ [l]) n) i (nodes s)) s in
  match e with
  | AtNode j => with_nodes (alter (λ n, set_links (links n ++ [l]) n) j (nodes s)) s
  | AtChannel c => with_channels (alter (λ ch, Channel (channel_center ch) (channel_links ch ++ [l])) c (channels s)) s
  end.
Lemma create_link_wires i e s : wires (create_link_in i e s) = wires s ++ [WiredLink i e None].
Proof. by destruct e. Qed.
(** Who lists what after a link has been made. *)
Lemma create_link_listed i e s e' ls' : links_at (create_link_in i e s) e' = Some ls' →
  ∃ ls new, links_at s e' = Some ls ∧ ls' = ls ++ new ∧ Forall (eq (Wire (length (wires s)))) new ∧
    (new ≠ [] ↔ incident (i, e) e').
Proof.
  set (l := Wire (length (wires s))). destruct e as [j|c], e' as [j'|c']; cbn; unfold incident; cbn.
  - rewrite !lookup_change. destruct (nodes s !! j') as [n|]; [|by repeat case_decide]. cbn.
    destruct (decide (j' = j)) as [Ej|Ej], (decide (j' = i)) as [Ei|Ei]; cbn; intros [= <-]; exists (links n).
    + exists [l; l]. split_and!; [done|by rewrite <-app_assoc|auto|]. split; [intros _; left; congruence|done].
    + exists [l]. split_and!; [auto..|]. split; [intros _; right; congruence|done].
    + exists [l]. split_and!; [auto..|]. split; [intros _; left; congruence|done].
    + exists []. rewrite app_nil_r. split_and!; [done..|]. split; [done|]. intros [?|?]; congruence.
  - intros E. exists ls', []. rewrite app_nil_r. split_and!; naive_solver.
  - rewrite !lookup_change. destruct (nodes s !! j') as [n|]; [|by case_decide]. cbn.
    case_decide; cbn; intros [= <-]; exists (links n).
    + exists [l]. split_and!; [auto..|]. subst. split; [auto|done].
    + exists []. rewrite app_nil_r. split_and!; naive_solver.
  - rewrite !lookup_change. destruct (channels s !! c') as [n|]; [|by case_decide]. cbn.
    case_decide; cbn; intros [= <-]; exists (channel_links n).
    + exists [l]. split_and!; [auto..|]. subst. split; [auto|done].
    + exists []. rewrite app_nil_r. split_and!; naive_solver.
Qed.

Lemma create_link_exists i e s e' : is_Some (links_at s e') → is_Some (links_at (create_link_in i e s) e').
Proof.
  intros [ls Hl]. destruct e as [j|c], e' as [j'|c']; cbn in *; rewrite ?lookup_change; repeat case_decide; cbn;
    (destruct (nodes s !! j') || destruct (channels s !! c')); cbn; by eexists.
Qed.
Lemma create_link_ok i e s : links_ok s → is_Some (links_at s (AtNode i)) → is_Some (links_at s e) →
  links_ok (create_link_in i e s).
Proof.
  intros Hok Hi He. set (s' := create_link_in i e s).
  assert (∀ k we, ends <$> wires s !! k = Some we → ends <$> wires s' !! k = Some we) as Hold.
  { intros k we E. unfold s'. rewrite create_link_wires. destruct (wires s !! k) eqn:Ew; [|done].
    by rewrite (lookup_app_l_Some _ _ _ _ Ew). }
  assert (wifis s' = wifis s) as Hwf by (by destruct e).
  constructor.
  - intros k we e' E1 E2. destruct (create_link_exists i e s e') as [ls' Hls'].
    { unfold s' in E1. rewrite create_link_wires in E1. destruct (wires s !! k) as [w|] eqn:Ew.
      - rewrite (lookup_app_l_Some _ _ _ _ Ew) in E1.
        destruct (wire_listed s Hok k we e') as (ls & ? & _); [by rewrite Ew|done|by eexists].
      - apply lookup_ge_None in Ew. rewrite lookup_app_r in E1 by done.
        destruct (k - length (wires s)); cbn in E1; [|by destruct n].
        injection E1 as <-. by destruct E2 as [-> | ->]. }
    exists ls'. split; [done|]. destruct (create_link_listed i e s e' ls' Hls') as (ls & new & Hls & -> & Hnew & Hne).
    unfold s' in E1. rewrite create_link_wires in E1. destruct (wires s !! k) as [w|] eqn:Ew.
    + rewrite (lookup_app_l_Some _ _ _ _ Ew) in E1.
      destruct (wire_listed s Hok k we e') as (ls0 & ? & ?); [by rewrite Ew|done|].
      apply elem_of_app. left. congruence.
    + apply lookup_ge_None in Ew. rewrite lookup_app_r in E1 by done. apply elem_of_app. right.
      destruct (k - length (wires s)) eqn:Ek; cbn in E1; [|by destruct n]. injection E1 as <-.
      assert (k = length (wires s)) as -> by lia. destruct new as [|x new]; [|inversion_clear Hnew; subst; left].
      exfalso. by apply (proj2 Hne).
  - intros k e' ls' Hls' Hk. destruct (create_link_listed i e s e' ls' Hls') as (ls & new & Hls & -> & Hnew & Hne).
    apply elem_of_app in Hk as [Hk|Hk].
    + destruct (listed_wire s Hok k e' ls Hls Hk) as (we & ? & ?). eauto.
    + assert (new ≠ []) as Hn by (by intros ->; apply not_elem_of_nil in Hk). exists (i, e). split; [|by apply Hne].
      rewrite Forall_forall in Hnew. injection (Hnew _ Hk) as <-. unfold s'. rewrite create_link_wires.
      by rewrite lookup_app_r, Nat.sub_diag by done.
  - intros k e' ls' Hls' Hk. destruct (create_link_listed i e s e' ls' Hls') as (ls & new & Hls & -> & Hnew & Hne).
    rewrite Hwf. apply elem_of_app in Hk as [Hk|Hk]; [by eapply listed_wifi|].
    rewrite Forall_forall in Hnew. by specialize (Hnew _ Hk).
  - intros k we. rewrite Hwf. intros [H1 H2]%(wifi_exists s Hok). split; [by apply create_link_exists|].
    intros a Ha. by apply create_link_exists, H2.
Qed.

(** A new node or channel lists no links. *)
Lemma add_object_ok s s' e : links_ok s → wires s' = wires s → wifis s' = wifis s → links_at s e = None →
  (∀ e', links_at s' e' = if decide (e' = e) then Some [] else links_at s e') → links_ok s'.
Proof.
  intros [H1 H2 H3 H4] Hw Hwf Hn He. assert (∀ e', is_Some (links_at s e') → links_at s' e' = links_at s e') as Ho.
  { intros e' [ls Hl]. rewrite He, decide_False; [done|]. intros ->. congruence. }
  constructor.
  - intros k we e'. rewrite Hw. intros E1 E2. destruct (H1 k we e' E1 E2) as (ls & E3 & E4).
    exists ls. rewrite Ho by (by eexists). done.
  - intros k e' ls. rewrite He, Hw. case_decide; [|by apply H2]. intros [= <-] Hk. by apply not_elem_of_nil in Hk.
  - intros k e' ls. rewrite He, Hwf. case_decide; [|by apply H3]. intros [= <-] Hk. by apply not_elem_of_nil in Hk.
  - intros k we. rewrite Hwf. intros [E1 E2]%H4. split; [by rewrite Ho|]. intros a Ha. rewrite Ho; auto.
Qed.

(** ** The scan *)

Section scan.
Context (net : network).

(** The wires a device asks for, and all wires of the network in the order of the scan. *)
Definition device_wires (i : Z) (d : device) : list (Z * endpoint) :=
  if wired (traits_of (dev_type d)) then
    match dev_channel d with
    | None => []
    | Some c => if (2 <? length (channel_devices net c)) then [(i, AtChannel c)]
                else (λ j, (i, AtNode j)) <$> filter (λ j, j ≠ i) (channel_devices net c)
    end
  else [].
Definition network_wires : list (Z * endpoint) :=
  i ← node_range net; d ← node_devices net i; device_wires i d.

(** A wired device is on a channel, and the devices on a channel belong to nodes of the network. *)
Definition network_ok : Prop :=
  ∀ i d, d ∈ node_devices net i → wired (traits_of (dev_type d)) = true →
    ∃ c, dev_channel d = Some c ∧ (0 <= c)%Z ∧ ∀ j, j ∈ channel_devices net c → j ∈ node_range net.

(** What the graph names exists, and only nodes without a mobility model are in it. *)
Definition named (s : scene) (name : string) : Prop :=
  (∃ i, name = node_name i ∧ (0 <= i)%Z ∧ is_Some (links_at s (AtNode i))) ∨
  (∃ c, name = channel_name c ∧ (0 <= c)%Z ∧ is_Some (links_at s (AtChannel c))).
Record scan_inv (ws : list (Z * endpoint)) (s : scene) (g : graph) : Prop := {
  si_ok : links_ok s;
  si_table : table_ok (table s);
  si_wires : ends <$> wires s = ws;
  si_nodes i : is_Some (nodes s !! i) → i ∈ node_range net;
  si_mobility i n b : nodes s !! i = Some n → has_mobility n = Some b → b = bool_decide (is_Some (node_mobility net i));
  si_graph name : name ∈ graph_nodes g → named s name
}.
(** The scene and the graph only grow. *)
Record grown (s s' : scene) (g g' : graph) : Prop := {
  gr_objects e : is_Some (links_at s e) → is_Some (links_at s' e);
  gr_graph name : name ∈ graph_nodes g → name ∈ graph_nodes g'
}.
Lemma grown_refl s g : grown s s g g.
Proof. done. Qed.
Lemma grown_trans s1 s2 s3 g1 g2 g3 : grown s1 s2 g1 g2 → grown s2 s3 g2 g3 → grown s1 s3 g1 g3.
Proof. intros [] []. constructor; auto. Qed.

Lemma range_nonneg i : i ∈ node_range net → (0 <= i)%Z.
Proof. intros (k & -> & _)%list_elem_of_fmap. lia. Qed.
Lemma graph_nodes_add_node a g n : n ∈ graph_nodes (add_node a g) ↔ n = a ∨ n ∈ graph_nodes g.
Proof. unfold add_node. case_decide; cbn; [|rewrite elem_of_app, list_elem_of_singleton]; naive_solver. Qed.
Lemma graph_nodes_add_edge a b g n : n ∈ graph_nodes (add_edge a b g) ↔ n = a ∨ n = b ∨ n ∈ graph_nodes g.
Proof. unfold add_edge. case_decide; cbn [graph_nodes]; rewrite !graph_nodes_add_node; naive_solver. Qed.
Lemma named_mono s s' name : (∀ e, is_Some (links_at s e) → is_Some (links_at s' e)) → named s name → named s' name.
Proof. intros He [(i & ? & ? & ?)|(c & ? & ? & ?)]; [left|right]; eauto. Qed.

Lemma get_node_inv i ws s g : scan_inv ws s g → i ∈ node_range net →
  runs (get_node i) s (λ _ s', scan_inv ws s' g ∧ grown s s' g g ∧ is_Some (links_at s' (AtNode i))).
Proof.
  intros Hi Hr. unfold get_node. apply runs_modify. destruct (nodes s !! i) as [n|] eqn:En.
  { split_and!; [done|done|]. cbn. rewrite En. by eexists. }
  set (s' := with_nodes _ s). destruct Hi as [H1 H2 H3 H4 H5 H6].
  assert (∀ e', links_at s' e' = if decide (e' = AtNode i) then Some [] else links_at s e') as Hl.
  { intros [j|c]; cbn; [|done]. destruct (decide (j = i)) as [->|Hj].
    - by rewrite lookup_insert_eq, decide_True.
    - by rewrite lookup_insert_ne, decide_False by congruence. }
  assert (∀ e, is_Some (links_at s e) → is_Some (links_at s' e)) as Hg.
  { intros e He. rewrite Hl. case_decide; [by eexists|done]. }
  split_and!; [|by constructor|by rewrite Hl, decide_True].
  constructor; [|done|done|..].
  - eapply (add_object_ok s s' (AtNode i)); [done..| |exact Hl]. cbn. by rewrite En.
  - intros j. cbn. destruct (decide (j = i)) as [->|Hj]; [done|]. rewrite lookup_insert_ne by done. apply H4.
  - intros j n b. cbn. destruct (decide (j = i)) as [->|Hj].
    + rewrite lookup_insert_eq. by intros [= <-].
    + rewrite lookup_insert_ne by done. apply H5.
  - intros name Hname. eapply named_mono; [exact Hg|auto].
Qed.
Lemma get_channel_inv c ws s g : scan_inv ws s g →
  runs (get_channel c) s (λ _ s', scan_inv ws s' g ∧ grown s s' g g ∧ is_Some (links_at s' (AtChannel c))).
Proof.
  intros Hi. unfold get_channel. apply runs_modify. destruct (channels s !! c) as [n|] eqn:En.
  { split_and!; [done|done|]. cbn. rewrite En. by eexists. }
  set (s' := with_channels _ s). destruct Hi as [H1 H2 H3 H4 H5 H6].
  assert (∀ e', links_at s' e' = if decide (e' = AtChannel c) then Some [] else links_at s e') as Hl.
  { intros [j|c']; cbn; [done|]. destruct (decide (c' = c)) as [->|Hj].
    - by rewrite lookup_insert_eq, decide_True.
    - by rewrite lookup_insert_ne, decide_False by congruence. }
  assert (∀ e, is_Some (links_at s e) → is_Some (links_at s' e)) as Hg.
  { intros e He. rewrite Hl. case_decide; [by eexists|done]. }
  split_and!; [|by constructor|by rewrite Hl, decide_True].
  constructor; [|done|done|done|done|].
  - eapply (add_object_ok s s' (AtChannel c)); [done..| |exact Hl]. cbn. by rewrite En.
  - intros name Hname. eapply named_mono; [exact Hg|auto].
Qed.
Lemma create_link_inv i e ws s g : scan_inv ws s g → is_Some (links_at s (AtNode i)) → is_Some (links_at s e) →
  runs (create_link i e) s (λ _ s', scan_inv (ws ++ [(i, e)]) s' g ∧ grown s s' g g).
Proof.
  intros [H1 H2 H3 H4 H5 H6] Hi He. unfold create_link.
  apply (runs_modify (create_link_in i e)). split; [|by constructor; [apply create_link_exists|]].
  assert (∀ j, is_Some (nodes (create_link_in i e s) !! j) → ∃ n', nodes s !! j = Some n' ∧
            has_mobility <$> nodes (create_link_in i e s) !! j = Some (has_mobility n')) as Hn.
  { intros j. destruct e as [j'|c]; cbn; rewrite ?lookup_change; repeat case_decide; destruct (nodes s !! j) as [n0|];
      cbn; intros [n Hn]; simplify_eq; eexists; split; reflexivity. }
  constructor.
  - by apply create_link_ok.
  - by destruct e.
  - rewrite create_link_wires, fmap_app, H3. done.
  - intros j (n' & Hn' & _)%Hn. apply H4. by eexists.
  - intros j n b En Eb. destruct (Hn j) as (n' & Hn' & Em); [by eexists|]. rewrite En in Em. cbn in Em.
    apply (H5 j n'); [done|]. congruence.
  - intros name Hname. eapply named_mono; [apply create_link_exists|auto].
Qed.

Lemma scan_inv_skeleton ws s s' g : same_skeleton s s' → has_mobility <$> nodes s' = has_mobility <$> nodes s →
  scan_inv ws s g → scan_inv ws s' g ∧ grown s s' g g.
Proof.
  intros Hs Hm [H1 H2 H3 H4 H5 H6].
  assert (∀ e, is_Some (links_at s e) → is_Some (links_at s' e)) as Hg by (intros e;
    by rewrite (sk_links_at _ _ _ Hs)).
  split; [|by constructor]. constructor.
  - by eapply sk_links_ok.
  - by rewrite (sk_table _ _ Hs).
  - by rewrite (sk_wires _ _ Hs).
  - intros i [n Hn]. apply H4. pose proof (sk_node _ _ i Hs) as E. rewrite Hn in E. by destruct (nodes s !! i).
  - intros i n b Hn Hb. pose proof (f_equal (λ m, m !! i) Hm) as E. cbn in E. rewrite !lookup_fmap, Hn in E. cbn in E.
    destruct (nodes s !! i) as [n'|] eqn:En; [|done]. apply (H5 i n'); [done|]. cbn in E. congruence.
  - intros name Hname. eapply named_mono; [exact Hg|auto].
Qed.

Lemma get_has_mobility_inv i ws s g : scan_inv ws s g → is_Some (links_at s (AtNode i)) →
  runs (get_has_mobility net i) s (λ b s', b = bool_decide (is_Some (node_mobility net i)) ∧ scan_inv ws s' g ∧
    grown s s' g g ∧ same_skeleton s s' ∧ wires s' = wires s ∧ ∀ e, position s' e = position s e).
Proof.
  intros Hi [ls Hl]. cbn in Hl. destruct (nodes s !! i) as [n|] eqn:En; [|done].
  unfold get_has_mobility. eapply the_node_bind; [exact En|]. destruct (has_mobility n) as [b|] eqn:Eb.
  { apply runs_ret. split_and!; [by eapply si_mobility|done..]. }
  apply change_node_bind, runs_ret. set (s' := with_nodes _ s).
  assert (same_skeleton s s') as Hsk by (constructor; try done; cbn; by apply fmap_alter_same).
  assert (∀ e, is_Some (links_at s e) → is_Some (links_at s' e)) as Hg by (intros e;
    by rewrite (sk_links_at _ _ _ Hsk)).
  destruct Hi as [H1 H2 H3 H4 H5 H6]. split_and!; [done| |by constructor|done|done|].
  - constructor; [by eapply sk_links_ok|done|done|..].
    + intros j [n' Hn']. apply H4. cbn in Hn'. rewrite lookup_change in Hn'.
      case_decide; destruct (nodes s !! j); simplify_eq/=; by eexists.
    + intros j n' b. cbn. rewrite lookup_change. case_decide as Ej; [|apply H5]. subst j. rewrite En.
      cbn. intros [= <-]. cbn. by intros [= <-].
    + intros name Hname. eapply named_mono; [exact Hg|auto].
  - intros [j|c]; cbn; [|done]. rewrite lookup_change. case_decide; [|done]. by destruct (nodes s !! j).
Qed.

(** The edges the scan adds name objects that exist. *)
Lemma scan_inv_edge ws s g a b : scan_inv ws s g → named s a → named s b → scan_inv ws s (add_edge a b g).
Proof.
  intros [H1 H2 H3 H4 H5 H6] Ha Hb. constructor; [done..|]. intros name [->|[->|?]]%graph_nodes_add_edge; auto.
Qed.
Lemma grown_edge s g a b : grown s s g (add_edge a b g).
Proof. constructor; [done|]. intros name Hn. apply graph_nodes_add_edge. auto. Qed.

Lemma scan_other_inv i mob ws s g j : scan_inv ws s g → i ∈ node_range net → j ∈ node_range net →
  is_Some (links_at s (AtNode i)) →
  runs (scan_other net i mob g j) s (λ g' s',
    scan_inv (ws ++ (if decide (j ≠ i) then [(i, AtNode j)] else [])) s' g' ∧ grown s s' g g').
Proof.
  intros Hs Hi Hj Hei. unfold scan_other. eapply runs_bind; [by apply get_node_inv|].
  intros _ s1 (Hs1 & Hg1 & Hej). destruct (decide (j = i)) as [->|Hji].
  { apply runs_ret. rewrite decide_False by tauto. by rewrite app_nil_r. }
  rewrite decide_True by done.
  eapply (runs_bind _ _ _ (λ g2 s2, scan_inv ws s2 g2 ∧ grown s1 s2 g g2)).
  { destruct mob; [by apply runs_ret|]. eapply runs_bind; [by apply get_has_mobility_inv|].
    intros b s2 (_ & Hs2 & Hg2 & _). apply runs_ret. destruct b; [done|].
    split; [|eapply grown_trans; [exact Hg2|apply grown_edge]].
    apply scan_inv_edge; [done|..]; left; eexists; (split; [reflexivity|]); (split; [by apply range_nonneg|]).
    - by apply (gr_objects _ _ _ _ Hg2), (gr_objects _ _ _ _ Hg1).
    - by apply (gr_objects _ _ _ _ Hg2). }
  cbn beta. intros g2 s2 (Hs2 & Hg2). eapply runs_bind; [by apply get_node_inv|].
  intros _ s3 (Hs3 & Hg3 & Hei3). eapply runs_bind; [apply create_link_inv; [exact Hs3|done|]|].
  { by apply (gr_objects _ _ _ _ Hg3), (gr_objects _ _ _ _ Hg2). }
  cbn beta. intros _ s4 [Hs4 Hg4]. apply runs_ret. split; [done|]. eauto using grown_trans.
Qed.

Lemma fold_scan_inv {A} (f : graph → A → stx scene exn graph) (new : A → list (Z * endpoint)) (P : A → Prop) ok l ws s g :
  (∀ ws s g a, scan_inv ws s g → (∀ e, ok e → is_Some (links_at s e)) → P a →
     runs (f g a) s (λ g' s', scan_inv (ws ++ new a) s' g' ∧ grown s s' g g')) →
  scan_inv ws s g → (∀ e, ok e → is_Some (links_at s e)) → (∀ a, a ∈ l → P a) →
  runs (fold_st f g l) s (λ g' s', scan_inv (ws ++ (l ≫= new)) s' g' ∧ grown s s' g g').
Proof.
  intros Hf. revert ws s g. induction l as [|a l IH]; intros ws s g Hs Hok HP; cbn.
  { apply runs_ret. by rewrite app_nil_r. }
  eapply runs_bind; [apply Hf; [done..|apply HP; left]|]. cbn beta. intros g1 s1 [Hs1 Hg1].
  eapply runs_weaken; [apply IH; [exact Hs1|..]|].
  - intros e He. by apply (gr_objects _ _ _ _ Hg1), Hok.
  - intros b Hb. apply HP. by right.
  - cbn beta. intros g2 s2 [Hs2 Hg2]. rewrite <-app_assoc in Hs2. eauto using grown_trans.
Qed.

Lemma others_bind i l : (l ≫= λ j, if decide (j ≠ i) then [(i, AtNode j)] else []) = (λ j, (i, AtNode j)) <$> filter (λ j, j ≠ i) l.
Proof. induction l as [|j l IH]; [done|]. rewrite filter_cons. cbn. rewrite IH. by case_decide. Qed.

Lemma scan_device_inv i mob ws s g d : network_ok → scan_inv ws s g → i ∈ node_range net → is_Some (links_at s (AtNode i)) →
  d ∈ node_devices net i →
  runs (scan_device net i mob g d) s (λ g' s', scan_inv (ws ++ device_wires i d) s' g' ∧ grown s s' g g').
Proof.
  intros Hnet Hs Hi Hei Hd. unfold scan_device, device_wires. apply get_bind.
  destruct (lookup_netdevice_traits_ok (dev_type d) (table s) (si_table _ _ _ Hs)) as [E Ht]. rewrite E.
  set (tb := (lookup_netdevice_traits _ _).2) in *. clearbody tb. clear E. apply modify_bind.
  set (s1 := with_table tb s).
  assert (scan_inv ws s1 g ∧ grown s s1 g g) as [Hs1 Hg1].
  { destruct Hs as [H1 H2 H3 H4 H5 H6]. split; [|done]. constructor; try done. destruct H1; by constructor. }
  clear Hs. specialize (Hnet i d Hd).
  unfold wired in *. destruct (default false (is_wireless (traits_of (dev_type d)))); cbn [negb andb] in *.
  { apply runs_ret. by rewrite app_nil_r. }
  destruct (is_virtual (traits_of (dev_type d))); cbn [negb andb] in *; [apply runs_ret; by rewrite app_nil_r|].
  destruct Hnet as (c & Ec & Hc & Hr); [done|]. rewrite Ec. apply lift_bind.
  destruct (2 <? length (channel_devices net c)).
  - eapply runs_bind; [by apply get_channel_inv|]. intros _ s2 (Hs2 & Hg2 & Hec).
    eapply runs_bind; [by apply get_node_inv|]. intros _ s3 (Hs3 & Hg3 & Hei3).
    eapply runs_bind; [by apply get_channel_inv|]. intros _ s4 (Hs4 & Hg4 & Hec4).
    eapply runs_bind; [apply create_link_inv; [exact Hs4|by apply (gr_objects _ _ _ _ Hg4)|done]|].
    cbn beta. intros _ s5 [Hs5 Hg5]. apply runs_ret.
    assert (grown s1 s5 g g) as Hg15 by eauto using grown_trans. destruct mob; [by eauto using grown_trans|].
    split; [|eapply grown_trans; [exact Hg1|]; eapply grown_trans; [exact Hg15|apply grown_edge]].
    apply scan_inv_edge; [done|..].
    + left. exists i. split_and!; [done|by apply range_nonneg|]. by apply (gr_objects _ _ _ _ Hg15).
    + right. exists c. split_and!; [done..|]. by apply (gr_objects _ _ _ _ Hg5).
  - rewrite <-others_bind.
    eapply runs_weaken; [apply (fold_scan_inv _ (λ j, if decide (j ≠ i) then [(i, AtNode j)] else []) (λ j, j ∈ node_range net) (λ e, e = AtNode i))|].
    + intros ws' s' g' j Hs' He' Hj. apply scan_other_inv; auto.
    + exact Hs1.
    + by intros e ->.
    + exact Hr.
    + cbn beta. intros g' s' [? ?]. eauto using grown_trans.
Qed.

(** What the scan has done for a node. *)
Definition scanned (i : Z) (s : scene) (g : graph) : Prop :=
  is_Some (links_at s (AtNode i)) ∧ (node_mobility net i = None → node_name i ∈ graph_nodes g).
Lemma scanned_grown i s s' g g' : grown s s' g g' → scanned i s g → scanned i s' g'.
Proof. intros [Hg1 Hg2] [H1 H2]. split; auto. Qed.

Lemma scan_node_inv i ws s g : network_ok → scan_inv ws s g → i ∈ node_range net →
  runs (scan_node net g i) s (λ g' s', scan_inv (ws ++ (node_devices net i ≫= device_wires i)) s' g' ∧ grown s s' g g' ∧ scanned i s' g').
Proof.
  intros Hnet Hs Hi. unfold scan_node. eapply runs_bind; [by apply get_node_inv|]. intros _ s1 (Hs1 & Hg1 & He1).
  eapply (runs_bind _ _ _ (λ g2 s2, scan_inv ws s2 g2 ∧ grown s1 s2 g g2 ∧ scanned i s2 g2)).
  { unfold scanned. destruct (node_mobility net i) as [[x y]|] eqn:Em.
    - assert (is_Some (nodes s1 !! i)) as Hn by (destruct He1 as [? He1]; cbn in He1; by destruct (nodes s1 !! i)).
      eapply runs_bind; [apply set_color_runs; [apply Hs1|done]|]. cbn beta. intros _ s2 R2.
      unfold transform_point_simulation_to_canvas.
      destruct (scan_inv_skeleton ws s1 s2 g) as [Hs2 Hg2]; [apply R2|apply R2|done|].
      eapply runs_bind; [apply set_position_runs; [apply Hs2|by eapply sk_exists; [apply R2|]]|].
      cbn beta. intros _ s3 M3. apply runs_ret.
      destruct (scan_inv_skeleton ws s2 s3 g) as [Hs3 Hg3]; [apply M3|apply M3|done|].
      assert (grown s1 s3 g g) as Hg by eauto using grown_trans.
      split_and!; [done..|by apply (gr_objects _ _ _ _ Hg)|done].
    - apply runs_ret. split_and!; [|constructor; [done|]; intros n Hn; apply graph_nodes_add_node; auto|done|].
      + destruct Hs1 as [H1 H2 H3 H4 H5 H6]. constructor; [done..|]. intros n [->|Hn]%graph_nodes_add_node; [|auto].
        left. exists i. split_and!; [done|by apply range_nonneg|done].
      + intros _. apply graph_nodes_add_node. auto. }
  cbn beta. intros g2 s2 (Hs2 & Hg2 & Hd2).
  eapply runs_weaken; [apply (fold_scan_inv _ (device_wires i) (λ d, d ∈ node_devices net i) (λ e, e = AtNode i))|].
  - intros ws' s' g' d Hs' He' Hd. apply scan_device_inv; auto.
  - exact Hs2.
  - intros e ->. apply Hd2.
  - done.
  - cbn beta. intros g3 s3 [Hs3 Hg3]. split_and!; [done|by eauto using grown_trans|by eapply scanned_grown].
Qed.

Lemma scan_nodes_inv l ws s g : network_ok → scan_inv ws s g → (∀ i, i ∈ l → i ∈ node_range net) →
  runs (fold_st (scan_node net) g l) s (λ g' s',
    scan_inv (ws ++ (l ≫= λ i, node_devices net i ≫= device_wires i)) s' g' ∧ grown s s' g g' ∧ ∀ i, i ∈ l → scanned i s' g').
Proof.
  intros Hnet. revert ws s g. induction l as [|i l IH]; intros ws s g Hs Hl; cbn.
  { apply runs_ret. rewrite app_nil_r. split_and!; [done..|]. intros i Hi. by apply not_elem_of_nil in Hi. }
  eapply runs_bind; [apply scan_node_inv; [done..|apply Hl; left]|]. cbn beta. intros g1 s1 (Hs1 & Hg1 & Hd1).
  eapply runs_weaken; [apply IH; [exact Hs1|]|].
  { intros j Hj. apply Hl. by right. }
  cbn beta. intros g2 s2 (Hs2 & Hg2 & Hd2). rewrite <-app_assoc in Hs2. split_and!; [done|by eapply grown_trans|].
  intros j [->|Hj]%elem_of_cons; [by eapply scanned_grown|auto].
Qed.
Lemma network_wires_nodes we : we ∈ network_wires → we.1 ∈ node_range net.
Proof.
  unfold network_wires. intros (i & Hwe & Hi)%list_elem_of_bind. apply list_elem_of_bind in Hwe as (d & Hwe & Hd).
  assert (we.1 = i) as ->; [|done]. unfold device_wires in Hwe.
  destruct (wired _); [|by apply not_elem_of_nil in Hwe].
  destruct (dev_channel d) as [c|]; [|by apply not_elem_of_nil in Hwe].
  destruct (2 <? _); [by apply list_elem_of_singleton in Hwe as ->|].
  by apply list_elem_of_fmap in Hwe as (j & -> & _).
Qed.

(** *** After the layout *)

(** A sequence of moves: the scene keeps its shape, and the wires of the nodes in [l] are drawn right. *)
Record settled (l : Z → Prop) (s s' : scene) : Prop := {
  st_skeleton : same_skeleton s s';
  st_mobility : has_mobility <$> nodes s' = has_mobility <$> nodes s;
  st_fresh k : fresh s k → fresh s' k;
  st_fresh_at k we i : l i → ends <$> wires s !! k = Some we → incident we (AtNode i) → fresh s' k
}.
Lemma settled_moved l s e p s1 s2 : moved e p s s1 → settled l s1 s2 → settled (λ i, l i ∨ e = AtNode i) s s2.
Proof.
  intros [M1 M2 M3 M4 M5] [T1 T2 T3 T4]. constructor; [by etransitivity|by rewrite T2; apply M2|auto|].
  intros k we i [Hi|Hi] E1 E2; [|subst e; eauto]. eapply (T4 k we i); [done| |done]. by rewrite (sk_wire _ _ _ M1).
Qed.
Lemma settled_weaken (l l' : Z → Prop) s s' : (∀ i, l' i → l i) → settled l s s' → settled l' s s'.
Proof. intros Hl [T1 T2 T3 T4]. constructor; eauto. Qed.

Lemma place_runs obj name pos s :
  links_ok s → named s name → (∃ sx sy x y, split_all ","%char pos = [sx; sy] ∧ float_of sx = Some x ∧ float_of sy = Some y) →
  runs (place obj (name, pos)) s (λ _ s', ∃ e p, moved e p s s' ∧ ∀ i, (0 <= i)%Z → name = node_name i → e = AtNode i).
Proof.
  intros Hok Hn (sx & sy & x & y & Es & Ex & Ey). unfold place. apply get_bind. cbn [fst snd].
  destruct Hn as [(i & -> & Hi & [ls Hl])|(c & -> & Hc & [ls Hl])]; cbn in Hl.
  - rewrite split_node_name, Es, Ex, Ey by done. do 2 apply lift_bind. rewrite decide_True by done.
    destruct (nodes s !! i) as [n|] eqn:En; [|done].
    eapply (runs_bind _ _ _ (λ o s', o = Some (AtNode i) ∧ s' = s)).
    { rewrite py_int_str by done. apply lift_bind. rewrite En. apply lift_bind. by apply runs_ret. }
    cbn beta. intros o s' [-> ->]. eapply runs_bind; [apply set_position_runs; [done|by eexists]|].
    cbn beta. intros _ s' Hm. apply runs_ret. exists (AtNode i), (x, y). split; [done|].
    intros j Hj Ej. do 2 f_equal. pose proof (split_node_name i Hi) as E1. rewrite Ej, (split_node_name j Hj) in E1.
    injection E1 as E1. apply (inj Some). by rewrite <-(py_int_str i), <-(py_int_str j), E1.
  - rewrite split_channel_name, Es, Ex, Ey by done. do 2 apply lift_bind. rewrite decide_False, decide_True by done.
    destruct (channels s !! c) as [n|] eqn:En; [|done].
    eapply (runs_bind _ _ _ (λ o s', o = Some (AtChannel c) ∧ s' = s)).
    { rewrite py_int_str by done. apply lift_bind. rewrite En. apply lift_bind. by apply runs_ret. }
    cbn beta. intros o s' [-> ->]. eapply runs_bind; [apply set_channel_position_runs; [done|by eexists]|].
    cbn beta. intros _ s' Hm. apply runs_ret. exists (AtChannel c), (x, y). split; [done|].
    intros j Hj Ej. pose proof (split_channel_name c Hc) as E1. by rewrite Ej, (split_node_name j Hj) in E1.
Qed.
Lemma place_all_runs obj nps s :
  links_ok s →
  (∀ name pos, (name, pos) ∈ nps → named s name ∧
     ∃ sx sy x y, split_all ","%char pos = [sx; sy] ∧ float_of sx = Some x ∧ float_of sy = Some y) →
  runs (fold_st place obj nps) s (λ _ s', settled (λ i, (0 <= i)%Z ∧ node_name i ∈ nps.*1) s s').
Proof.
  revert obj s. induction nps as [|[name pos] nps IH]; intros obj s Hok Hn; cbn.
  { apply runs_ret. constructor; [done..|]. intros k we i [_ Hi]. by apply not_elem_of_nil in Hi. }
  destruct (Hn name pos) as [Hn1 Hn2]; [left|]. eapply runs_bind; [by apply place_runs|].
  cbn beta. intros obj' s1 (e & p & Hm & He).
  assert (∀ e, is_Some (links_at s e) → is_Some (links_at s1 e)) as Hg by (intros e';
    by rewrite (sk_links_at _ _ _ (mv_skeleton _ _ _ _ Hm))).
  eapply runs_weaken; [apply IH|].
  - eapply sk_links_ok; [apply Hm|done].
  - intros name' pos' H'. destruct (Hn name' pos') as [Hn1' Hn2']; [by right|]. split; [by eapply named_mono|done].
  - cbn beta. intros _ s2 Hst. eapply settled_weaken; [|by eapply settled_moved]. cbn beta.
    intros i [Hi [Hname|Hname]%elem_of_cons]; [right; by apply He|by left].
Qed.
End scan.

(** ** Positions from the simulator *)

Definition canvas_point (p : Q * Q) : Q * Q := transform_point_simulation_to_canvas p.1 p.2.
(** The node is shown where the simulator has it, and its wires reach it. *)
Definition at_place (net : network) (i : Z) (s : scene) : Prop :=
  ∀ p, node_mobility net i = Some p →
    position s (AtNode i) = canvas_point p ∧
    ∀ k we, ends <$> wires s !! k = Some we → incident we (AtNode i) → fresh s k.

Lemma update_node_runs net i ws s g : scan_inv net ws s g → is_Some (links_at s (AtNode i)) →
  runs (update_node net i) s (λ _ s', scan_inv net ws s' g ∧ same_skeleton s s' ∧ (∀ k, fresh s k → fresh s' k) ∧
    at_place net i s' ∧ ∀ j, at_place net j s → at_place net j s').
Proof.
  intros Hs He. unfold update_node. eapply runs_bind; [by apply get_has_mobility_inv|].
  cbn beta. intros b s1 (-> & Hs1 & Hg1 & Hsk1 & Hw1 & Hpos1).
  assert (∀ k, fresh s k → fresh s1 k) as Hf1 by (intros k; by apply fresh_same).
  assert (∀ j, at_place net j s → at_place net j s1) as Hp1.
  { intros j Hj p Hp. destruct (Hj p Hp) as [E1 E2]. rewrite Hpos1. split; [done|]. rewrite Hw1. eauto. }
  unfold at_place at 1. destruct (node_mobility net i) as [[x y]|] eqn:Em; cbn [bool_decide].
  2: { rewrite bool_decide_false by (by intros []). apply runs_ret. by split_and!. }
  rewrite bool_decide_true by done. unfold transform_point_simulation_to_canvas.
  eapply runs_weaken; [apply set_position_runs; [apply Hs1|]|].
  { destruct (gr_objects _ _ _ _ Hg1 _ He) as [ls Hl]. cbn in Hl. by destruct (nodes s1 !! i). }
  cbn beta. intros _ s2 M. pose proof M as [M1 M2 M3 M4 M5]. split_and!.
  - by eapply scan_inv_skeleton; [exact M1|apply M2|].
  - by etransitivity.
  - auto.
  - intros p [= <-]. split; [by rewrite M3, decide_True|]. intros k we. rewrite (sk_wire _ _ _ M1). eauto.
  - intros j Hj p Hp. destruct (Hp1 j Hj p Hp) as [E1 E2]. rewrite M3. split.
    + destruct (decide (AtNode j = AtNode i)) as [[= ->]|]; [|done]. rewrite Em in Hp. by injection Hp as <-.
    + intros k we. rewrite (sk_wire _ _ _ M1). eauto.
Qed.
Lemma update_nodes_runs net l ws s g : scan_inv net ws s g → (∀ i, i ∈ l → is_Some (links_at s (AtNode i))) →
  runs (for_st (update_node net) l) s (λ _ s', scan_inv net ws s' g ∧ same_skeleton s s' ∧ (∀ k, fresh s k → fresh s' k) ∧
    ∀ i, i ∈ l ∨ at_place net i s → at_place net i s').
Proof.
  revert s. induction l as [|i l IH]; intros s Hs Hl; cbn.
  { apply runs_ret. split_and!; [done..|]. intros i [Hi|?]; [by apply not_elem_of_nil in Hi|done]. }
  eapply runs_bind; [apply update_node_runs; [done|apply Hl; left]|]. cbn beta.
  intros _ s1 (Hs1 & Hk1 & Hf1 & Hi1 & Ho1).
  eapply runs_weaken; [apply IH; [exact Hs1|]|].
  { intros j Hj. rewrite (sk_links_at _ _ _ Hk1). apply Hl. by right. }
  cbn beta. intros _ s2 (Hs2 & Hk2 & Hf2 & Hi2). split_and!; [done|by etransitivity|auto|].
  intros j [[->|Hj]%elem_of_cons|Hj]; apply Hi2; auto.
Qed.

(** The nodes of two states of a network, where nodes may have moved. *)
Definition same_nodes (net net' : network) : Prop :=
  length (node_list net) = length (node_list net') ∧ ∀ i, is_Some (node_mobility net i) ↔ is_Some (node_mobility net' i).
Lemma scan_inv_same_nodes net net' ws s g : same_nodes net net' → scan_inv net ws s g → scan_inv net' ws s g.
Proof.
  intros [Hl Hm] [H1 H2 H3 H4 H5 H6].
  assert (node_range net = node_range net') as Hr by (unfold node_range; by rewrite Hl).
  constructor; [done..| | |done].
  - intros i. rewrite <-Hr. apply H4.
  - intros i n b Hn Hb. rewrite (H5 i n b Hn Hb). by apply bool_decide_ext.
Qed.

Lemma scan_topology_settles net : network_ok net →
  runs (scan_topology net) empty_scene (λ _ s, ∃ g, scan_inv net (network_wires net) s g ∧
    (∀ i, i ∈ node_range net → is_Some (links_at s (AtNode i))) ∧
    ∀ k we, ends <$> wires s !! k = Some we → node_mobility net we.1 = None → fresh s k).
Proof.
  intros Hnet. unfold scan_topology.
  eapply runs_bind; [apply (scan_nodes_inv net (node_range net) []); [done| |done]|].
  { constructor; try done; [|intros i []; done|intros name Hn; by apply not_elem_of_nil in Hn].
    constructor; intros k; try done; by intros []. }
  cbn beta. intros g s (Hs & _ & Hd). change (scan_inv net (network_wires net) s g) in Hs.
  eapply runs_bind; [apply place_all_runs; [apply Hs|]|].
  { intros name pos Hnp. split; [|by eapply layout_pos]. apply (si_graph _ _ _ _ Hs).
    rewrite <-layout_nodes. apply list_elem_of_fmap. by exists (name, pos). }
  cbn beta. intros _ s' [T1 T2 T3 T4]. apply runs_ret. exists g.
  destruct (scan_inv_skeleton net (network_wires net) s s' g) as [Hs' Hg']; [done..|]. split_and!; [done|..].
  - intros i Hi. apply (gr_objects _ _ _ _ Hg'). by apply Hd.
  - intros k we E Hm. rewrite (sk_wire _ _ _ T1) in E.
    assert (we.1 ∈ node_range net) as Hi.
    { apply network_wires_nodes. rewrite <-(si_wires _ _ _ _ Hs). rewrite <-list_lookup_fmap in E.
      by eapply list_elem_of_lookup_2. }
    apply (T4 k we we.1); [|done|by left]. split; [by eapply range_nonneg|]. rewrite layout_nodes. by apply Hd.
Qed.

(** C14: On every network in which wired devices have channels, whatever positions the layout program
    finds and in whatever order dictionaries are iterated: scanning the topology, and updating the
    positions when nodes may have moved, returns; then there is exactly one node shown for every
    node of the network, exactly the wires the devices ask for, every node with a mobility model is
    where the simulator has it, and every wire is drawn between the places of its two ends. *)
Theorem scan_topology_spec (t : nat) (net net' : network) :
  network_ok net → same_nodes net net' →
  runs (scan_topology net ≫= λ _, update_node_positions t net') empty_scene (λ _ s,
    (∀ i, is_Some (nodes s !! i) ↔ i ∈ node_range net) ∧
    ends <$> wires s = network_wires net ∧
    (∀ i p, i ∈ node_range net → node_mobility net' i = Some p → position s (AtNode i) = canvas_point p) ∧
    ∀ w, w ∈ wires s → path w = Some (position s (AtNode (node1 w)), position s (node2 w))).
Proof.
  intros Hnet Hsame. eapply runs_bind; [by apply scan_topology_settles|]. cbn beta.
  intros _ s (g & Hs & Hex & Hf). pose proof (scan_inv_same_nodes _ _ _ _ _ Hsame Hs) as Hs'.
  unfold update_node_positions. apply get_bind.
  assert (∀ s', same_skeleton s s' → ∀ i, is_Some (nodes s' !! i) ↔ i ∈ node_range net) as Hnodes.
  { intros s' Hk i. pose proof (sk_node _ _ i Hk) as E. specialize (Hex i). cbn in Hex. split.
    - intros [n Hn]. apply (si_nodes _ _ _ _ Hs). rewrite Hn in E. by destruct (nodes s !! i).
    - intros [ls Hl]%Hex. rewrite Hl in E. by destruct (nodes s' !! i). }
  eapply runs_weaken; [apply update_nodes_runs; [exact Hs'|]|].
  { intros i Hi. apply elem_of_dict_keys in Hi. by apply Hex, (Hnodes s). }
  cbn beta. intros _ s' (Hs2 & Hk & Hfm & Hp). split_and!.
  - by apply Hnodes.
  - apply (si_wires _ _ _ _ Hs2).
  - intros i p Hi Hm. destruct (Hp i) with p as [E _]; [|done|done]. left. apply elem_of_dict_keys.
    by apply (Hnodes s).
  - intros w [k Hw]%list_elem_of_lookup. assert (fresh s' k) as (w' & E1 & E2); [|by simplify_eq].
    pose proof (sk_wire _ _ k Hk) as E. rewrite Hw in E. cbn in E.
    assert (node1 w ∈ node_range net) as Hi.
    { apply (network_wires_nodes net (ends w)). rewrite <-(si_wires _ _ _ _ Hs2). apply list_elem_of_fmap. exists w.
      split; [done|]. by eapply list_elem_of_lookup_2. }
    destruct (node_mobility net' (node1 w)) as [p|] eqn:Em.
    + destruct (Hp (node1 w)) with p as [_ E']; [|done|].
      * left. apply elem_of_dict_keys. by apply (Hnodes s).
      * apply (E' k (ends w)); [by rewrite Hw|by left].
    + apply Hfm, (Hf k (ends w)); [done|]. destruct (node_mobility net (ends w).1) eqn:En; [|done].
      destruct (proj1 (proj2 Hsame (node1 w))) as [? ?]; [by eexists|congruence].
Qed.

(** ** Selection *)

(** At most one node is marked as selected, the one [selected_node] refers to, and the simulator reports
    on the nodes the mode asks for. *)
Record selection_ok (s : scene) : Prop := {
  so_marked i n : nodes s !! i = Some n → selected n = bool_decide (selected_node s = Some i);
  so_exists i : selected_node s = Some i → is_Some (nodes s !! i);
  so_interest : match mode s with
                | ShowAll => True
                | ShowNone => interest s = []
                | ShowSelected => interest s = interest_of_selection s
                end
}.

(** What a change of the selection leaves alone. *)
Record reselected (s s' : scene) : Prop := {
  rs_skeleton : same_skeleton s s';
  rs_position e : position s' e = position s e;
  rs_mode : mode s' = mode s;
  rs_fresh k : fresh s k → fresh s' k
}.
#[global] Instance reselected_preorder : PreOrder reselected.
Proof. split; [by constructor|]. intros s1 s2 s3 [] []. constructor; [by etransitivity|congruence|congruence|auto]. Qed.

Definition mark (b : bool) (n : node) : node := set_look b (highlighted n) (color n) (node_size n) (label n) n.
Lemma set_selected_runs i b s : links_ok s → is_Some (nodes s !! i) →
  runs (set_selected i b) s (λ _ s', reselected s s' ∧ selected_node s' = selected_node s ∧ interest s' = interest s ∧
    ∀ j, selected <$> nodes s' !! j = if decide (j = i) then Some b else selected <$> nodes s !! j).
Proof.
  intros Hok Hi. unfold set_selected. apply change_node_bind. fold (mark b). set (s1 := with_nodes _ s).
  assert (same_skeleton s s1) as Hsk by (constructor; try done; cbn; by apply fmap_alter_same).
  assert (∀ e, position s1 e = position s e) as Hp.
  { intros [j|c]; cbn; [|done]. rewrite lookup_change. case_decide; [|done]. by destruct (nodes s !! j). }
  eapply runs_weaken; [apply update_appearance_runs; [by eapply sk_links_ok|by eapply sk_exists]|].
  cbn beta. intros _ s' [R1 R2 [Rm1 Rm2 Rm3 Rm4 Rm5] R4]. split_and!.
  - constructor; [by etransitivity|intros e; by rewrite R2|by rewrite Rm4|]. intros k Hk. apply R4.
    by apply (fresh_same s).
  - by rewrite Rm3.
  - by rewrite Rm5.
  - intros j. rewrite <-!lookup_fmap, Rm2. cbn. rewrite !lookup_fmap, lookup_change.
    case_decide as Ej; [|done]. subst j. destruct Hi as [n ->]. done.
Qed.

Definition wanted (a : selection) : option Z := match a with Number i | Shown i => Some i | _ => None end.

Lemma unselect_runs s : links_ok s → selection_ok s →
  runs (match selected_node s with Some i => set_selected i false | None => mret tt end) s (λ _ s',
    reselected s s' ∧ interest s' = interest s ∧ ∀ j n, nodes s' !! j = Some n → selected n = false).
Proof.
  intros Hok [S1 S2 S3]. destruct (selected_node s) as [i|] eqn:Ei.
  - eapply runs_weaken; [by apply set_selected_runs; [|apply S2]|]. cbn beta. intros _ s' (Hr & _ & Hint & Hm).
    split_and!; [done..|]. intros j n Hn. specialize (Hm j). rewrite Hn in Hm. cbn in Hm.
    case_decide as Ej; [by injection Hm|]. destruct (nodes s !! j) as [n'|] eqn:En; [|done]. cbn in Hm.
    injection Hm as ->.
    rewrite (S1 j n' En). apply bool_decide_false. congruence.
  - apply runs_ret. split_and!; [done..|]. intros j n Hn. rewrite (S1 j n Hn). by apply bool_decide_false.
Qed.
Lemma select_runs o s : links_ok s → (∀ j n, nodes s !! j = Some n → selected n = false) → selected_node s = o →
  (∀ i, o = Some i → is_Some (nodes s !! i)) →
  runs (match o with Some i => set_selected i true | None => mret tt end) s (λ _ s',
    reselected s s' ∧ selected_node s' = o ∧ interest s' = interest s ∧
    ∀ j n, nodes s' !! j = Some n → selected n = bool_decide (o = Some j)).
Proof.
  intros Hok Hn Ho Hex. destruct o as [i|].
  - eapply runs_weaken; [apply set_selected_runs; auto|]. cbn beta. intros _ s' (Hr & Hs' & Hint & Hm).
    split_and!; [done|congruence|done|].
    intros j n Ej. specialize (Hm j). rewrite Ej in Hm. cbn in Hm. case_decide as E.
    + subst j. injection Hm as ->. by rewrite bool_decide_true.
    + destruct (nodes s !! j) as [n'|] eqn:En; [|done]. cbn in Hm. injection Hm as ->. rewrite (Hn _ _ En).
      rewrite bool_decide_false; [done|]. congruence.
  - apply runs_ret. split_and!; [done..|]. intros j n Ej. rewrite (Hn _ _ Ej). by rewrite bool_decide_false.
Qed.

(** Selecting a node that is shown, by its number or itself, or nothing, makes it the only node that
    is marked, and tells the simulator when only the transmissions of the selected node are wanted; it
    moves nothing and no wire goes out of date.  A number no node has raises KeyError, any other
    argument TypeError, and nothing has changed then. *)
Theorem select_node_spec (a : selection) (s : scene) :
  links_ok s → selection_ok s → (∀ i, a = Shown i → is_Some (nodes s !! i)) →
  match select_node a s with
  | (Ok _, s') => selection_ok s' ∧ selected_node s' = wanted a ∧ a ≠ Anything ∧ same_skeleton s s' ∧
                  (∀ e, position s' e = position s e) ∧ (∀ k, fresh s k → fresh s' k)
  | (Raise e, s') => s' = s ∧ ((∃ i, a = Number i ∧ nodes s !! i = None ∧ e = KeyError) ∨ (a = Anything ∧ e = TypeError))
  end.
Proof.
  intros Hok Hsel Hshown.
  assert (a = Anything ∨ (∃ i, a = Number i ∧ nodes s !! i = None) ∨ (a ≠ Anything ∧ ∀ i, wanted a = Some i → is_Some (nodes s !! i)))
    as [->|[(i & -> & Hi)|[Ha Hex]]].
  { destruct a as [|i|i|]; [right; right; by split| |right; right; split; [done|intros ? [= <-];
      by apply Hshown]|by left].
    destruct (nodes s !! i) eqn:E; [right; right; split; [done|intros ? [= <-]; by eexists]|right; left; eauto]. }
  { cbn. split; [done|by right]. }
  { unfold select_node, get_st, mbind, stx_bind. cbn. rewrite Hi. cbn. split; [done|]. left. by exists i. }
  enough (runs (select_node a) s (λ _ s', selection_ok s' ∧ selected_node s' = wanted a ∧ reselected s s')) as (u & s' & -> & H1 & H2 & H3).
  { destruct H3. by split_and!. }
  unfold select_node. apply get_bind.
  eapply (runs_bind _ _ _ (λ o s', o = wanted a ∧ s' = s)).
  { destruct a; cbn in *; [by apply runs_ret| |by apply runs_ret|done]. destruct (Hex i) as [n ->]; [done|].
    apply lift_bind. by apply runs_ret. }
  cbn beta. intros o s0 [-> ->]. case_decide as Esame; [apply runs_ret; by rewrite Esame|].
  eapply runs_bind; [by apply unselect_runs|]. cbn beta. intros _ s1 (R1 & I1 & M1).
  apply (modify_bind (λ s, with_selection (wanted a) (mode s) (interest s) s)). set (s2 := with_selection _ _ _ s1).
  assert (reselected s1 s2) as R2 by (constructor; [by constructor|by intros []|done|intros k (w & ? & ?);
    by exists w]).
  eapply runs_bind; [apply (select_runs (wanted a) s2)|].
  - eapply sk_links_ok; [apply R2|]. eapply sk_links_ok; [apply R1|done].
  - exact M1.
  - done.
  - intros i Hi. apply (sk_exists s s1); [apply R1|auto].
  - cbn beta. intros _ s3 (R3 & E3 & I3 & M3). apply get_bind.
    assert (reselected s s3) as R by (etransitivity; [exact R1|]; by etransitivity).
    assert (∀ i, wanted a = Some i → is_Some (nodes s3 !! i)) as Hex3 by (intros i Hi; apply (sk_exists s s3);
      [apply R|auto]).
    assert (mode s3 = mode s) as Em by apply R.
    case_decide as Ed.
    + apply runs_modify. split_and!; [|done|].
      * constructor; cbn; rewrite ?E3; try done. rewrite Ed. by unfold interest_of_selection; cbn; rewrite ?E3.
      * etransitivity; [exact R|]. constructor; [by constructor|by intros []|done|intros k (w & ? & ?); by exists w].
    + apply runs_ret. split_and!; [|done|done]. constructor; rewrite ?E3; try done.
      rewrite I3. cbn [interest s2 with_selection]. rewrite I1. destruct (mode s3) eqn:Ems; try done.
      pose proof (so_interest _ Hsel) as Hi. by rewrite <-Em in Hi.
Qed.

(** ** Wireless links *)

Definition listings (k : nat) (ls : list link_id) : nat := length (filter (λ l, l = WifiLink k) ls).
(** A wireless link is listed once at its access point and nowhere else; stations have links. *)
Record wifi_ok (s : scene) : Prop := {
  wf_listed k w i ls : wifis s !! k = Some w → links_at s (AtNode i) = Some ls →
    listings k ls = if decide (ap w = Some i) then 1 else 0;
  wf_stations i kd k : (i, kd, k) ∈ stations s → ∃ w, wifis s !! k = Some w ∧ sta w = i;
  wf_aps b i : access_points s !! b = Some i → is_Some (links_at s (AtNode i))
}.

Lemma listings_app k ls ls' : listings k (ls ++ ls') = listings k ls + listings k ls'.
Proof. unfold listings. by rewrite filter_app, length_app. Qed.
Lemma remove_first_listed k ls : listings k ls ≠ 0 → ∃ ls', remove_first (WifiLink k) ls = Some ls'.
Proof.
  induction ls as [|l ls IH]; [done|]. cbn [remove_first]. unfold listings in *. rewrite filter_cons.
  case_decide as E1.
  - subst l. rewrite decide_True by done. by eexists.
  - rewrite decide_False by congruence. intros [ls' ->]%IH. by eexists.
Qed.
Lemma remove_first_spec k ls ls' : remove_first (WifiLink k) ls = Some ls' →
  (∀ l, l ≠ WifiLink k → l ∈ ls' ↔ l ∈ ls) ∧ listings k ls = S (listings k ls') ∧
  ∀ k', k' ≠ k → listings k' ls' = listings k' ls.
Proof.
  revert ls'. induction ls as [|l ls IH]; intros ls'; cbn [remove_first]; [done|].
  unfold listings in *. case_decide as E.
  - intros [= <-]. subst l. rewrite filter_cons, decide_True by done. split_and!; [|done|].
    + intros l Hl. rewrite elem_of_cons. naive_solver.
    + intros k' Hk. by rewrite filter_cons, decide_False by congruence.
  - destruct (remove_first (WifiLink k) ls) as [ls0|]; [|done]. intros [= <-].
    destruct (IH ls0 eq_refl) as (H1 & H2 & H3).
    split_and!.
    + intros l' Hl'. rewrite !elem_of_cons. naive_solver.
    + rewrite !filter_cons, !(decide_False (P := l = WifiLink k)) by congruence. done.
    + intros k' Hk. rewrite !filter_cons. case_decide; cbn; by rewrite H3.
Qed.

(** The links of a node when the link [k] changes from the access point [b] to [a]. *)
Definition relink (k : nat) (b a : option Z) (i : Z) (ls : list link_id) : list link_id :=
  let ls := if decide (b = Some i) then default ls (remove_first (WifiLink k) ls) else ls in
  if decide (a = Some i) then ls ++ [WifiLink k] else ls.
Definition reassociated (k : nat) (w : wifi_link) (a : option Z) (s : scene) : scene :=
  with_wifis (<[k := Wifi (sta w) a (points w) (bool_decide (is_Some a))]> (wifis s))
    (with_nodes (map_imap (λ i n, Some (set_links (relink k (ap w) a i (links n)) n)) (nodes s)) s).

Lemma relink_member k b a i ls l : l ≠ WifiLink k → l ∈ relink k b a i ls ↔ l ∈ ls.
Proof.
  intros Hl. unfold relink.
  assert (l ∈ (if decide (b = Some i) then default ls (remove_first (WifiLink k) ls) else ls) ↔ l ∈ ls) as E.
  { case_decide; [|done]. destruct (remove_first _ ls) as [ls'|] eqn:Er; [|done].
    by apply (remove_first_spec k ls ls' Er). }
  destruct (decide (a = Some i)); [|exact E]. rewrite elem_of_app, list_elem_of_singleton, E. naive_solver.
Qed.
Lemma relink_listings k b a i ls : listings k ls = (if decide (b = Some i) then 1 else 0) →
  listings k (relink k b a i ls) = if decide (a = Some i) then 1 else 0.
Proof.
  intros Hl. unfold relink.
  assert (listings k (if decide (b = Some i) then default ls (remove_first (WifiLink k) ls) else ls) = 0) as E.
  { destruct (decide (b = Some i)) as [Hb|Hb]; [|exact Hl].
    destruct (remove_first_listed k ls) as [ls' Er]; [by rewrite Hl|]. rewrite Er. change (listings k ls' = 0).
    destruct (remove_first_spec k ls ls' Er) as (_ & ? & _). lia. }
  destruct (decide (a = Some i)); [|exact E]. rewrite listings_app, E. unfold listings.
  by rewrite filter_cons, decide_True.
Qed.
Lemma relink_other k b a i ls k' : k' ≠ k → listings k' (relink k b a i ls) = listings k' ls.
Proof.
  intros Hk. unfold relink.
  assert (listings k' (if decide (b = Some i) then default ls (remove_first (WifiLink k) ls) else ls) = listings k' ls) as E.
  { case_decide; [|done]. destruct (remove_first _ ls) as [ls'|] eqn:Er; [|done].
    by apply (remove_first_spec k ls ls' Er). }
  destruct (decide (a = Some i)); [|exact E]. rewrite listings_app, E. unfold listings.
  rewrite filter_cons, decide_False by congruence. cbn. lia.
Qed.

Lemma reassociated_links k w a s e : links_at (reassociated k w a s) e =
  match e with AtNode i => relink k (ap w) a i <$> links_at s e | AtChannel _ => links_at s e end.
Proof. destruct e as [i|c]; cbn; [|done]. rewrite map_lookup_imap. by destruct (nodes s !! i). Qed.
Lemma reassociated_position k w a s e : position (reassociated k w a s) e = position s e.
Proof. destruct e as [i|c]; cbn; [|done]. rewrite map_lookup_imap. by destruct (nodes s !! i). Qed.
Lemma reassociated_exists k w a s e : is_Some (links_at (reassociated k w a s) e) ↔ is_Some (links_at s e).
Proof. rewrite reassociated_links. destruct e; [|done]. by rewrite fmap_is_Some. Qed.

Lemma reassociated_ok k w a s : links_ok s → wifis s !! k = Some w → (∀ i, a = Some i → is_Some (links_at s (AtNode i))) →
  links_ok (reassociated k w a s).
Proof.
  intros [H1 H2 H3 H4] Hw Ha. set (s' := reassociated k w a s).
  assert (∀ e ls', links_at s' e = Some ls' → ∃ ls, links_at s e = Some ls ∧ ∀ l, l ≠ WifiLink k → l ∈ ls' ↔ l ∈ ls) as Hl.
  { intros e ls'. unfold s'. rewrite reassociated_links. destruct e as [i|c]; [|by exists ls'].
    intros (ls & Hls & ->)%fmap_Some. exists ls. split; [done|]. intros l Hl. by apply relink_member. }
  constructor.
  - intros j we e E1 E2. destruct (H1 j we e E1 E2) as (ls & E3 & E4).
    destruct (proj2 (reassociated_exists k w a s e)) as [ls' Els]; [by eexists|]. exists ls'. split; [done|].
    destruct (Hl e ls' Els) as (ls0 & E5 & E6). simplify_eq. by apply E6.
  - intros j e ls' Els Hj. destruct (Hl e ls' Els) as (ls & E1 & E2). apply (H2 j e ls); [done|]. by apply E2.
  - intros j e ls' Els Hj. cbn. destruct (decide (j = k)) as [->|Hjk].
    + rewrite list_lookup_insert_eq by (by eapply lookup_lt_Some). by eexists.
    + rewrite list_lookup_insert_ne by done. destruct (Hl e ls' Els) as (ls & E1 & E2).
      apply (H3 j e ls); [done|]. apply E2; congruence.
  - intros j we Hj. enough (is_Some (links_at s (AtNode we.1)) ∧ ∀ i, we.2 = Some i → is_Some (links_at s (AtNode i))) as [E1 E2].
    { split; [by apply reassociated_exists|]. intros i Hi. apply reassociated_exists; auto. }
    change (wifis s') with (<[k := Wifi (sta w) a (points w) (bool_decide (is_Some a))]> (wifis s)) in Hj.
    destruct (decide (j = k)) as [->|Hjk].
    + rewrite list_lookup_insert_eq in Hj by (by eapply lookup_lt_Some). injection Hj as <-.
      destruct (H4 k (wifi_ends w)) as [E1 _]; [by rewrite Hw|]. split; [done|]. intros i Hi. by apply Ha.
    + rewrite list_lookup_insert_ne in Hj by done. by apply (H4 j).
Qed.
Lemma reassociated_wifi_ok k w a s : wifi_ok s → wifis s !! k = Some w → wifi_ok (reassociated k w a s).
Proof.
  intros [W1 W2 W3] Hw. constructor.
  - intros j w' i ls'. cbn [wifis reassociated with_wifis]. rewrite reassociated_links.
    intros Hj (ls & Hls & ->)%fmap_Some.
    destruct (decide (j = k)) as [->|Hjk].
    + rewrite list_lookup_insert_eq in Hj by (by eapply lookup_lt_Some). injection Hj as <-. cbn.
      apply relink_listings. by apply W1.
    + rewrite list_lookup_insert_ne in Hj by done. rewrite relink_other by done. by apply W1.
  - intros i kd j Hst. destruct (W2 i kd j Hst) as (w' & Hw' & Hs'). cbn. destruct (decide (j = k)) as [->|Hjk].
    + rewrite list_lookup_insert_eq by (by eapply lookup_lt_Some). simplify_eq. by eexists.
    + rewrite list_lookup_insert_ne by done. eauto.
  - intros b i Hb. rewrite reassociated_exists. by eapply W3.
Qed.

Lemma sk_wifi_ok s s' : same_skeleton s s' → wifi_ok s → wifi_ok s'.
Proof.
  intros Hs [W1 W2 W3].
  assert (∀ k w', wifis s' !! k = Some w' → ∃ w, wifis s !! k = Some w ∧ wifi_ends w = wifi_ends w') as Hw.
  { intros k w' E. pose proof (sk_wifi _ _ k Hs) as E'. rewrite E in E'. destruct (wifis s !! k) as [w|]; [|done].
    injection E' as E1 E2. exists w. split; [done|]. unfold wifi_ends. congruence. }
  constructor.
  - intros k w' i ls Hk. rewrite (sk_links_at _ _ _ Hs). intros Hl.
    destruct (Hw k w' Hk) as (w & E1 & [= _ <-]). by apply (W1 k w).
  - intros i kd k. rewrite (sk_stations _ _ Hs). intros (w & E1 & E2)%W2. pose proof (sk_wifi _ _ k Hs) as E'.
    rewrite E1 in E'.
    destruct (wifis s' !! k) as [w'|]; [|done]. injection E' as E3 _. exists w'. split; [done|congruence].
  - intros b i. rewrite (sk_aps _ _ Hs), (sk_links_at _ _ _ Hs). apply W3.
Qed.

(** What an association changes: the access point of one link. *)
Record associated (k : nat) (a : option Z) (s s' : scene) : Prop := {
  as_links : links_ok s';
  as_wifi : wifi_ok s';
  as_ends : ∃ w, wifis s !! k = Some w ∧ wifi_ends <$> wifis s' = <[k := (sta w, a)]> (wifi_ends <$> wifis s);
  as_aps : access_points s' = access_points s;
  as_stations : stations s' = stations s;
  as_position e : position s' e = position s e;
  as_fresh j : fresh s j → fresh s' j
}.

(** [set_ap] in terms of [relink]: first the old access point, then the new one. *)
Lemma relink_none k i n : set_links (relink k None None i (links n)) n = n.
Proof. unfold relink. rewrite !decide_False by done. by destruct n. Qed.
Lemma relink_remove k b (m : gmap Z node) n ls : m !! b = Some n → remove_first (WifiLink k) (links n) = Some ls →
  alter (set_links ls) b m = map_imap (λ i n, Some (set_links (relink k (Some b) None i (links n)) n)) m.
Proof.
  intros Hn Hr. apply map_eq. intros i. rewrite lookup_change, map_lookup_imap. unfold relink.
  destruct (m !! i) as [n'|] eqn:En; cbn; [|by case_decide].
  rewrite (decide_False (P := None = Some i)) by done. case_decide as E.
  - subst i. simplify_eq. by rewrite decide_True, Hr by done.
  - rewrite decide_False by congruence. by destruct n'.
Qed.
Lemma relink_add k b a (m : gmap Z node) :
  alter (λ n, set_links (links n ++ [WifiLink k]) n) a (map_imap (λ i n, Some (set_links (relink k b None i (links n)) n)) m)
  = map_imap (λ i n, Some (set_links (relink k b (Some a) i (links n)) n)) m.
Proof.
  apply map_eq. intros i. rewrite lookup_change, !map_lookup_imap. unfold relink.
  destruct (m !! i) as [n'|] eqn:En; cbn; [|by case_decide].
  rewrite (decide_False (P := None = Some i)) by done. case_decide as E.
  - subst i. by rewrite (decide_True (P := Some a = Some a)) by done.
  - by rewrite (decide_False (P := Some a = Some i)) by congruence.
Qed.

Lemma set_ap_runs k a s : links_ok s → wifi_ok s → is_Some (wifis s !! k) → (∀ i, a = Some i → is_Some (links_at s (AtNode i))) →
  runs (set_ap k a) s (λ _ s', associated k a s s').
Proof.
  intros Hok Hwf [w Hw] Ha. unfold set_ap. apply get_bind. rewrite Hw. apply lift_bind. case_decide as Esame.
  { subst a. apply runs_ret. constructor; try done. exists w. split; [done|]. symmetry. apply list_insert_id.
    by rewrite list_lookup_fmap, Hw. }
  assert (∀ i, ap w = Some i → is_Some (links_at s (AtNode i))) as Hb.
  { intros i. apply (wifi_exists s Hok k (wifi_ends w)). by rewrite Hw. }
  set (relinked := λ o, with_nodes (map_imap (λ i n, Some (set_links (relink k (ap w) o i (links n)) n)) (nodes s)) s).
  eapply (runs_bind _ _ _ (λ _ s', s' = relinked None)).
  { destruct (ap w) as [b|] eqn:Eb.
    - destruct (Hb b eq_refl) as [ls Hls]. cbn in Hls. destruct (nodes s !! b) as [n|] eqn:En; [|done].
      injection Hls as Hls.
      destruct (remove_first_listed k (links n)) as [ls' Hr].
      { rewrite (wf_listed s Hwf k w b (links n)); [rewrite decide_True by done; done|done|cbn; by rewrite En]. }
      unfold remove_link. eapply the_node_bind; [exact En|]. rewrite Hr. apply lift_bind. apply change_node_runs.
      unfold relinked. f_equal. by eapply relink_remove.
    - apply runs_ret. unfold relinked. destruct s. unfold with_nodes. cbn. f_equal.
      apply map_eq. intros i. rewrite map_lookup_imap. destruct (nodes0 !! i) as [n|]; cbn; [|done].
      by rewrite relink_none. }
  cbn beta. intros _ s1 ->.
  apply (modify_bind (λ s, with_wifis (<[k := Wifi (sta w) a (points w) (bool_decide (is_Some a))]> (wifis s)) s)).
  eapply (runs_bind _ _ _ (λ _ s', s' = reassociated k w a s)).
  { destruct a as [i|]; [|by apply runs_ret]. apply change_node_runs. unfold reassociated, relinked.
    rewrite <-(relink_add k (ap w) i (nodes s)). done. }
  cbn beta. intros _ s1 ->. pose proof (reassociated_ok k w a s Hok Hw Ha) as Hok'.
  eapply runs_weaken; [apply (update_points_runs (WifiLink k)); [exact Hok'|]|].
  { cbn. rewrite list_lookup_insert_eq by (by eapply lookup_lt_Some). by eexists. }
  cbn beta. intros _ s' [R _]. pose proof R as [R1 R2 R3 R4]. constructor.
  - by eapply sk_links_ok.
  - eapply sk_wifi_ok; [exact R1|]. by apply reassociated_wifi_ok.
  - exists w. split; [done|]. rewrite (sk_wifis _ _ R1). cbn. by rewrite list_fmap_insert.
  - by rewrite (sk_aps _ _ R1).
  - by rewrite (sk_stations _ _ R1).
  - intros e. by rewrite R2, reassociated_position.
  - intros j Hj. apply R4. apply (fresh_same s); [done| |done]. intros e. by rewrite reassociated_position.
Qed.

(** The access point a station should be linked to. *)
Definition expected_ap (s : scene) (d : device) : option Z :=
  if negb (dev_link_up d) then None else
  if decide (dev_bssid d = "00:00:00:00:00:00") then None else access_points s !! dev_bssid d.
Definition bssid_known (s : scene) (d : device) : Prop :=
  dev_link_up d = true → dev_bssid d ≠ "00:00:00:00:00:00" → is_Some (access_points s !! dev_bssid d).

Lemma periodic_station_runs net i kd k d s : links_ok s → wifi_ok s → is_Some (wifis s !! k) →
  node_devices net i !! kd = Some d → bssid_known s d →
  runs (periodic_update_station net (i, kd, k)) s (λ _ s', associated k (expected_ap s d) s s').
Proof.
  intros Hok Hwf Hk Hd Hb. unfold periodic_update_station, expected_ap. rewrite Hd. apply lift_bind.
  destruct (dev_link_up d) eqn:Eu; cbn [negb]; [|by apply set_ap_runs].
  case_decide as Ez; [by apply set_ap_runs|]. apply get_bind. destruct (Hb Eu Ez) as [a Ea]. rewrite Ea.
  apply lift_bind.
  apply set_ap_runs; [done..|]. intros ? [= <-]. by eapply wf_aps.
Qed.

Definition link_of (st : Z * nat * nat) : nat := st.2.
Lemma periodic_stations_run net l s : links_ok s → wifi_ok s → NoDup (link_of <$> l) → (∀ st, st ∈ l → st ∈ stations s) →
  (∀ i kd k, (i, kd, k) ∈ l → ∃ d, node_devices net i !! kd = Some d ∧ bssid_known s d) →
  runs (for_st (periodic_update_station net) l) s (λ _ s',
    links_ok s' ∧ wifi_ok s' ∧ (∀ e, position s' e = position s e) ∧ (∀ j, fresh s j → fresh s' j) ∧ stations s' = stations s ∧
    (∀ k, k ∉ link_of <$> l → wifi_ends <$> wifis s' !! k = wifi_ends <$> wifis s !! k) ∧
    ∀ i kd k d, (i, kd, k) ∈ l → node_devices net i !! kd = Some d → wifi_ends <$> wifis s' !! k = Some (i, expected_ap s d)).
Proof.
  revert s. induction l as [|[[i kd] k] l IH]; intros s Hok Hwf Hnd Hst Hd; cbn [for_st].
  { apply runs_ret. split_and!; try done. intros i kd k d Hi. by apply not_elem_of_nil in Hi. }
  rewrite fmap_cons in Hnd. apply NoDup_cons in Hnd as [Hnk Hnd]. cbn in Hnk.
  destruct (Hd i kd k) as (d & Ed & Eb); [left|].
  destruct (wf_stations s Hwf i kd k) as (w & Hw & Hsta); [apply Hst; left|].
  eapply runs_bind; [by apply (periodic_station_runs net i kd k d s); [..|by eexists| |]|].
  cbn beta. intros _ s1 [A1 A2 (w0 & Ew & A3) A4 A5 A6 A7]. simplify_eq.
  assert (∀ d', expected_ap s1 d' = expected_ap s d') as Hexp by (intros d'; unfold expected_ap; by rewrite A4).
  eapply runs_weaken; [apply (IH s1); [done..| |]|].
  - intros st Hin. rewrite A5. apply Hst. by right.
  - intros i' kd' k' Hin. destruct (Hd i' kd' k') as (d' & ? & ?); [by right|]. exists d'. split; [done|].
    unfold bssid_known. by rewrite A4.
  - cbn beta. intros _ s2 (B1 & B2 & B3 & B4 & B5 & B6 & B7).
    assert (∀ k', k' ≠ k → wifi_ends <$> wifis s1 !! k' = wifi_ends <$> wifis s !! k') as Hother.
    { intros k' Hk'. rewrite <-!list_lookup_fmap, A3. by rewrite list_lookup_insert_ne. }
    split_and!; [done|done|intros e; by rewrite B3|auto|congruence|..].
    + intros k' Hk'. rewrite fmap_cons, not_elem_of_cons in Hk'. destruct Hk' as [Hk1 Hk2]. rewrite B6 by done.
      by apply Hother.
    + intros i' kd' k' d' [Heq|Hin]%elem_of_cons Hd'.
      * injection Heq as -> -> ->. rewrite B6 by done. rewrite <-list_lookup_fmap, A3. simplify_eq.
        rewrite list_lookup_insert_eq; [done|]. rewrite length_fmap. by eapply lookup_lt_Some.
      * rewrite (B7 i' kd' k' d') by done. by rewrite Hexp.
Qed.

(** C30: When the access points of all associated stations are shown, the periodic update links every
    station to the access point with the BSSID of its device, or to none when the device is down or not
    associated; the link is listed once at that access point and nowhere else, nothing moves and no
    wire goes out of date. *)
Theorem wifi_periodic_update_spec (net : network) (s : scene) :
  links_ok s → wifi_ok s → NoDup (link_of <$> stations s) →
  (∀ i kd k, (i, kd, k) ∈ stations s → ∃ d, node_devices net i !! kd = Some d ∧ bssid_known s d) →
  runs (wifi_periodic_update net) s (λ _ s',
    wifi_ok s' ∧ (∀ e, position s' e = position s e) ∧ (∀ j, fresh s j → fresh s' j) ∧
    ∀ i kd k d, (i, kd, k) ∈ stations s → node_devices net i !! kd = Some d →
      wifi_ends <$> wifis s' !! k = Some (i, expected_ap s d)).
Proof.
  intros Hok Hwf Hnd Hd. unfold wifi_periodic_update. apply get_bind.
  eapply runs_weaken; [by apply (periodic_stations_run net (stations s))|]. cbn beta.
  intros _ s' (_ & ? & ? & ? & _ & _ & ?). by split_and!.
Qed.

(** A station that is associated with an access point that is not shown stops the update. *)
Lemma unknown_bssid net i kd k d s : node_devices net i !! kd = Some d → dev_link_up d = true →
  dev_bssid d ≠ "00:00:00:00:00:00" → access_points s !! dev_bssid d = None →
  periodic_update_station net (i, kd, k) s = (Raise KeyError, s).
Proof.
  intros Hd Hu Hz Hn. unfold periodic_update_station, get_st, lift_py, mbind, stx_bind. rewrite Hd. cbn.
  rewrite Hu. cbn.
  rewrite decide_False by done. by rewrite Hn.
Qed.
End facts.

(** ** A concrete network *)

Module SceneDemo.
#[export] Existing Instance exact.
(** Every node of the graph is put at the origin. *)
#[export] Program Instance origin_layout : Graphviz := {|
  layout g := (λ n, (n, "0,0")) <$> graph_nodes g;
  float_of s := if decide (s = "0") then Some 0%Q else None
|}.
Next Obligation. cbn. by rewrite <-list_fmap_compose, list_fmap_id. Qed.
Next Obligation. cbn in *. match goal with Hp : _ |- _ => apply list_elem_of_fmap in Hp as (n' & [= -> ->] & _) end. by exists "0", "0", 0%Q, 0%Q. Qed.

Definition csma (c : Z) : device := Device "CsmaNetDevice" (Some c) None "" true "".
Definition p2p (c : Z) : device := Device "PointToPointNetDevice" (Some c) None "" true "".
Definition station (bssid : string) : device := Device "WifiNetDevice" None (Some StaWifiMac) "a1" true bssid.
Definition access_point : device := Device "WifiNetDevice" None (Some ApWifiMac) "b2" true "b2".
(** Two nodes with a point-to-point link, three on a CSMA channel; the first node moves and has an access
    point, the last one is a station. *)
Definition demo_net (x : Q) (bssid : string) : network := Network
  [NsNode (Some (x, 2%Q)) [p2p 10; csma 20; access_point];
   NsNode None [p2p 10; csma 20];
   NsNode None [csma 20; station bssid]]
  (λ c, if (c =? 10)%Z then [0; 1]%Z else [0; 1; 2]%Z).
Definition demo_scene : scene := ((scan_topology (demo_net 1 "b2") ≫= λ _, update_node_positions 0 (demo_net 5 "b2")) empty_scene).2.
Definition wifi_scene : scene := (scan_nodes 0 (demo_net 5 "b2") demo_scene).2.
End SceneDemo.
Import SceneDemo.

Lemma scan_topology_spec_witness :
  ends <$> wires demo_scene = [(0, AtNode 1); (0, AtChannel 20); (1, AtNode 0); (1, AtChannel 20); (2, AtChannel 20)]%Z ∧
  runs (scan_topology (demo_net 1 "b2") ≫= λ _, update_node_positions 0 (demo_net 5 "b2")) empty_scene (λ _ s,
    ∀ w, w ∈ wires s → path w = Some (position s (AtNode (node1 w)), position s (node2 w))).
Proof.
  split; [vm_compute; reflexivity|].
  eapply runs_weaken; [apply (scan_topology_spec 0 (demo_net 1 "b2") (demo_net 5 "b2"))|by intros _ s (_ & _ & _ & Hw)].
  - intros i d Hd Hw. unfold node_devices, get_ns_node in Hd.
    destruct (Z.ltb_spec i 0); [by apply not_elem_of_nil in Hd|].
    assert (∀ j, j ∈ [0; 1; 2]%Z → j ∈ node_range (demo_net 1 "b2")) as Hr by done.
    destruct (Z.to_nat i) as [|[|[|]]]; cbn in Hd; repeat (apply elem_of_cons in Hd as [->|Hd]; [|]);
      try (by apply not_elem_of_nil in Hd); try (by vm_compute in Hw); eexists; (split; [reflexivity|]);
        (split; [done|]);
      intros j Hj; apply Hr; set_solver.
  - split; [reflexivity|]. intros i. unfold node_mobility, get_ns_node. destruct (Z.ltb_spec i 0); [done|].
    by destruct (Z.to_nat i) as [|[|[|]]].
Defined.

(** Two nodes without wires: an access point, and a station that is not linked yet. *)
Definition two_nodes : scene :=
  Scene (<[0%Z := new_node]> {[1%Z := new_node]}) ∅ [] [Wifi 1 None None true] (Some (0, 0, 1, 1)%Q) None ShowSelected []
    netdevice_traits {["b2" := 0%Z]} [(1%Z, 0, 0)].
Definition two_net : network := Network [NsNode None [access_point]; NsNode None [station "b2"]] (λ _, []).

Lemma two_nodes_links i ls : links_at two_nodes (AtNode i) = Some ls → ls = [].
Proof.
  cbn. intros (n & Hn & ->)%fmap_Some. apply lookup_insert_Some in Hn as [[_ <-]|[_ Hn]]; [done|].
  by apply lookup_singleton_Some in Hn as [_ <-].
Qed.
Lemma two_nodes_ok : links_ok two_nodes ∧ wifi_ok two_nodes ∧ selection_ok two_nodes.
Proof.
  split_and!; constructor.
  - done.
  - intros k [i|c] ls Hl Hk; [|done]. apply two_nodes_links in Hl as ->. by apply not_elem_of_nil in Hk.
  - intros k [i|c] ls Hl Hk; [|done]. apply two_nodes_links in Hl as ->. by apply not_elem_of_nil in Hk.
  - intros [|[|k]] we Hk; cbn in Hk; [|done..]. injection Hk as <-. split; [by eexists|done].
  - intros [|[|k]] w i ls Hk Hl; cbn in Hk; [|done..]. injection Hk as <-. by apply two_nodes_links in Hl as ->.
  - intros i kd k Hin. apply list_elem_of_singleton in Hin as [= -> -> ->]. by eexists.
  - intros b i Hb. cbn in Hb. apply lookup_singleton_Some in Hb as [_ <-]. by eexists.
  - intros i n Hn. cbn in *. apply lookup_insert_Some in Hn as [[_ <-]|[_ Hn]]; [done|].
    by apply lookup_singleton_Some in Hn as [_ <-].
  - done.
  - done.
Qed.

Lemma select_node_spec_witness :
  links_ok two_nodes ∧ selection_ok two_nodes ∧ (select_node (Number 1) two_nodes).1 = Ok tt ∧
  interest (select_node (Number 1) two_nodes).2 = [1%Z] ∧ selection_ok (select_node (Number 1) two_nodes).2.
Proof.
  destruct two_nodes_ok as (H1 & _ & H3). split; [exact H1|]. split; [exact H3|].
  split; [vm_compute; reflexivity|]. split; [vm_compute; reflexivity|].
  pose proof (select_node_spec (Number 1) two_nodes H1 H3 (λ i E, match E with end)) as Hs.
  destruct (select_node (Number 1) two_nodes) as [[u|e] s'] eqn:E; [exact (proj1 Hs)|].
  exfalso. destruct Hs as [_ [(i & [= <-] & Hn & _)|[Ha _]]]; [by vm_compute in Hn|done].
Defined.

Lemma wifi_periodic_update_spec_witness :
  expected_ap two_nodes (station "b2") = Some 0%Z ∧
  runs (wifi_periodic_update two_net) two_nodes (λ _ s', wifi_ends <$> wifis s' !! 0 = Some (1%Z, Some 0%Z)).
Proof.
  split; [vm_compute; reflexivity|]. destruct two_nodes_ok as (H1 & H2 & _).
  eapply runs_weaken; [apply (wifi_periodic_update_spec two_net two_nodes H1 H2)|].
  - apply NoDup_singleton.
  - intros i kd k Hin. apply list_elem_of_singleton in Hin as [= -> -> ->]. exists (station "b2").
    split; [reflexivity|].
    intros _ _. vm_compute. by eexists.
  - cbn beta. intros _ s' (_ & _ & _ & Hap). apply (Hap 1%Z 0 0 (station "b2")); [left|reflexivity].
Defined.

(** *** Runs that show defects *)

(** A channel between three nodes that all have a mobility model is not in the graph, so it stays at the
    origin, wherever its nodes are. *)
Definition mobile_net : network := Network
  [NsNode (Some (10, 10)%Q) [csma 20]; NsNode (Some (20, 10)%Q) [csma 20]; NsNode (Some (10, 20)%Q) [csma 20]] (λ _, [0; 1; 2]%Z).
Lemma channel_at_origin : position (scan_topology mobile_net empty_scene).2 (AtChannel 20) = (0, 0)%Q.
Proof. vm_compute. reflexivity. Qed.

(** A second scan of wireless devices leaves the destroyed links in the lists of the access points. *)
Definition rescanned : scene :=
  ((scan_nodes 0 two_net ≫= λ _, wifi_periodic_update two_net ≫= λ _, scan_nodes 0 two_net ≫= λ _, wifi_periodic_update two_net)
     (with_wifi_monitor ∅ [] (with_wifis [] two_nodes))).2.
Lemma destroyed_link_listed : links_at rescanned (AtNode 0) = Some [WifiLink 0; WifiLink 1] ∧ ap <$> wifis rescanned !! 0 = Some None.
Proof. split; vm_compute; reflexivity. Qed.
