(* ===== verification/VizStats.v ===== *)
(** * VizStats: transmissions, drops and interface statistics of the visualizer

    [src/visualizer/visualizer/core.py]: [do_simulation_periodic_update] keeps the samples of the last
    periods, [_update_transmissions_view] and [_update_drops_view] average them and show an arrow with a
    label for every pair of nodes, and for every node that drops packets; arrows are canvas items that
    are kept and used again.  [plugins/interface_statistics.py]: [StatisticsCollector], which keeps the
    counters of the last ten periods and computes rates.

    The canvas items are the list [items] of a record [overlay]; a list of positions in it is the list
    [_transmission_arrows] or [_drop_arrows].  Logarithm, arc tangent, text formats and the
    conversion of pixels are the class [Canvas]. *)

From stdpp Require Import base list strings gmap.
From Stdlib Require Import QArith Qround Qabs Lqa.
From S2P Require Import Prelude PyNum VizSvg VizScene.
Open Scope nat_scope.

(** ** Samples of the last periods *)

(** [while len(l) > k: l.pop(0)]. *)
Fixpoint trim {A} (fuel : nat) (k : Z) (l : list A) : option (py exn (list A)) :=
  match fuel with
  | 0 => None
  | S fuel =>
      if (k <? length l)%Z then
        match l with
        | [] => Some (Raise IndexError)
        | _ :: l => trim fuel k l
        end
      else Some (Ok l)
  end.
Definition keep_last {A} (k : Z) (l : list A) : py exn (list A) := default (Raise IndexError) (trim (S (S (length l))) k l).

(** The loop ends: it leaves the last [k] elements, and for a negative [k] it empties the list and
    raises. *)
Lemma trim_fuel {A} fuel k (l : list A) : length l + 1 < fuel →
  trim fuel k l = Some (if (k <? 0)%Z then Raise IndexError else Ok (drop (length l - Z.to_nat k) l)).
Proof.
  revert fuel. induction l as [|x l IH]; intros [|fuel] Hf; cbn [length] in *; try lia; cbn [trim length].
  - destruct (Z.ltb_spec k 0%nat), (Z.ltb_spec k 0); try lia; done.
  - destruct (Z.ltb_spec k (S (length l))) as [Hk|Hk].
    + rewrite IH by lia. destruct (Z.ltb_spec k 0); [done|].
      replace (S (length l) - Z.to_nat k) with (S (length l - Z.to_nat k)) by lia. done.
    + destruct (Z.ltb_spec k 0); [lia|]. replace (S (length l) - Z.to_nat k) with 0 by lia. done.
Qed.
Lemma keep_last_spec {A} k (l : list A) :
  keep_last k l = if (k <? 0)%Z then Raise IndexError else Ok (drop (length l - Z.to_nat k) l).
Proof. unfold keep_last. by rewrite trim_fuel by lia. Qed.

Record transmission := Transmission { transmitter : Z; receiver : Z; tx_bytes : Z }.
Record packet_drop := PacketDrop { dropper : Z; drop_bytes : Z }.
(** The fields [_last_transmissions] and [_last_drops]. *)
Record samples := Samples { last_transmissions : list (list transmission); last_drops : list (list packet_drop) }.

Section periodic.
Context `{Rounding}.
(** [do_simulation_periodic_update], with the value of the smoothing adjustment and the samples the
    simulator has for the last period. *)
Definition do_simulation_periodic_update (smoothing : Q) (txs : list transmission) (drops : list packet_drop) :
    stx samples exn unit :=
  let smooth_factor := match num_int (Flt (fmul smoothing 10)) with Int z => z | Flt _ => 0%Z end in
  s ← get_st;
  let l := last_transmissions s ++ [txs] in
  _ ← modify_st (λ s, Samples l (last_drops s));
  l ← lift_py (keep_last smooth_factor l);
  _ ← modify_st (λ s, Samples l (last_drops s));
  let d := last_drops s ++ [drops] in
  _ ← modify_st (λ s, Samples (last_transmissions s) d);
  d ← lift_py (keep_last smooth_factor d);
  modify_st (λ s, Samples (last_transmissions s) d).
End periodic.

(** ** Averages *)

Section averages.
Context {K : Type} `{Countable K}.
(** The dictionary of the sums of bytes and the numbers of samples, by key. *)
Definition add_sample (m : gmap K (Z * Z)) (kb : K * Z) : gmap K (Z * Z) :=
  let '(b, c) := default (0, 0)%Z (m !! kb.1) in
  <[kb.1 := (b + kb.2, c + 1)%Z]> m.
Definition averages (sets : list (list (K * Z))) : gmap K (Z * Z) :=
  foldl (λ m set, foldl add_sample m set) ∅ sets.

Definition sum_bytes (l : list Z) : Z := foldr Z.add 0%Z l.
(** The samples of one key. *)
Definition of_key (k : K) (l : list (K * Z)) : list Z := snd <$> filter (λ kb, kb.1 = k) l.

Lemma add_samples_spec m l k :
  foldl add_sample m l !! k =
    match of_key k l with
    | [] => m !! k
    | bs => let '(b, c) := default (0, 0)%Z (m !! k) in Some (b + sum_bytes bs, c + length bs)%Z
    end.
Proof.
  revert m. induction l as [|[k' b'] l IH]; intros m; [done|]. cbn [foldl]. rewrite IH. unfold of_key, add_sample.
  rewrite filter_cons. cbn [fst snd]. destruct (decide (k' = k)) as [->|Hk].
  - rewrite fmap_cons. cbn [snd].
    destruct (m !! k) as [[b c]|]; cbn beta iota delta [from_option id]; rewrite lookup_insert_eq; unfold sum_bytes;
      destruct (snd <$> filter _ l) as [|x r]; cbn -[Z.add]; do 2 f_equal; lia.
  - destruct (default (0, 0)%Z (m !! k')) as [b c]. by rewrite lookup_insert_ne.
Qed.
Lemma averages_join sets : averages sets = foldl add_sample ∅ (concat sets).
Proof. unfold averages. generalize (∅ : gmap K (Z * Z)). induction sets as [|l sets IH]; intros m; cbn; [done|]. by rewrite IH, foldl_app. Qed.
(** The dictionary has the keys of the samples, each with the sum and the number of its samples. *)
Lemma averages_spec sets k :
  averages sets !! k = match of_key k (concat sets) with
                       | [] => None
                       | bs => Some (sum_bytes bs, length bs : Z)
                       end.
Proof. rewrite averages_join, add_samples_spec, lookup_empty. by destruct (of_key k (concat sets)). Qed.
End averages.

(** ** Arrows *)

(** An arrow with its label; [line] is [None] until the first [set_property("points", ...)]. *)
Record arrow := Arrow {
  visible : bool;
  line_width : Q;
  line : option ((Q * Q) * (Q * Q));
  label_visible : bool;
  label_font : Z;
  label_text : string;
  anchor_south : bool;
  label_offset : Q;
  label_at : Q * Q;
  label_angle : Q
}.
Record overlay := Overlay { items : list arrow; pool : list nat }.

(** The functions of [math], of the canvas and of the simulator the drawing uses: [convert_from_pixels] and
    [LineClipping] are one function here, the middle of the visible part of a line. *)
Class Canvas := {
  log : Q → Q;
  atan2 : Q → Q → Q;
  pi_over_2 : Q;
  format_2f : Q → string;
  label_over_line_position : Q * Q → Q * Q → Q * Q
}.

Section arrows.
Context `{Rounding} `{!DictIter Z} `{!DictIter (Z * Z)} `{!Canvas}.
Definition st : Type := scene * overlay.
Definition on_scene {A} (m : stx scene exn A) : stx st exn A := λ s, let '(r, sc) := m s.1 in (r, (sc, s.2)).
Definition change_item (a : nat) (f : arrow → arrow) : stx st exn unit :=
  modify_st (λ s, (s.1, Overlay (alter f a (items s.2)) (pool s.2))).
Definition set_visible (b lb : bool) (i : arrow) : arrow :=
  Arrow b (line_width i) (line i) lb (label_font i) (label_text i) (anchor_south i) (label_offset i) (label_at i) (label_angle i).
Definition new_arrow : arrow := Arrow true 2 None true 0 "" false 0 (0, 0)%Q 0.

(** All arrows of the list are hidden, with their labels. *)
Definition hide_arrows : stx st exn unit := s ← get_st; for_st (λ a, change_item a (set_visible false false)) (pool s.2).
(** [old_arrows.pop()], or a new pair of items. *)
Definition take_arrow : stx st exn nat := λ s,
  match last (pool s.2) with
  | Some a => (Ok a, (s.1, Overlay (items s.2) (removelast (pool s.2))))
  | None => (Ok (length (items s.2)), (s.1, Overlay (items s.2 ++ [new_arrow]) (pool s.2)))
  end.
(** The loop over an averages dictionary; [pool] is the list that is being popped from, and stays as it is
    when the loop raises. *)
Definition show_arrows {K} (nodes : K → list Z) (draw : K → Z * Z → nat → stx st exn unit) (l : list (K * (Z * Z))) :
    stx st exn unit :=
  _ ← hide_arrows;
  new ← map_st (λ kv, _ ← for_st (λ i, on_scene (get_node i)) (nodes kv.1);
                      a ← take_arrow;
                      _ ← draw kv.1 kv.2 a;
                      mret a) l;
  modify_st (λ s, (s.1, Overlay (items s.2) (new ++ pool s.2))).
Definition dict_items {K} `{DictIter K} (t : nat) (m : gmap K (Z * Z)) : list (K * (Z * Z)) :=
  omap (λ k, (λ v, (k, v)) <$> m !! k) (dict_keys t m).

(** [max(0.1, math.log(float(bytes)/count/self.sample_period)*k)]; the logarithm of a number that is not
    positive raises. *)
Definition arrow_width (bytes count : Z) (period k : Q) : py exn Q :=
  x ← fdiv_py (rnd (inject_Z bytes)) (inject_Z count);
  x ← fdiv_py x period;
  if Qle_bool x 0 then Raise (ValueError "math domain error")
  else Ok (val (num_max (lit (1 # 10)) (Flt (fmul (log x) k)))).
(** [float(bytes*8)/1e3/count/self.sample_period]. *)
Definition kbps (bytes count : Z) (period : Q) : py exn Q :=
  x ← fdiv_py (rnd (inject_Z (bytes * 8))) 1000;
  x ← fdiv_py x (inject_Z count);
  fdiv_py x period.
Definition BITRATE_FONT_SIZE : Q := 10.
Definition font_size (k : Q) : Z :=
  match num_int (Flt (fadd 1 (fmul BITRATE_FONT_SIZE k))) with Int z => z | Flt _ => 0%Z end.

(** The body of the loop of [_update_transmissions_view]. *)
Definition draw_transmission (period k : Q) (key : Z * Z) (bc : Z * Z) (a : nat) : stx st exn unit :=
  _ ← change_item a (λ i, set_visible true (label_visible i) i);
  w ← lift_py (arrow_width bc.1 bc.2 period k);
  p1 ← on_scene (get_position (AtNode key.1));
  p2 ← on_scene (get_position (AtNode key.2));
  r ← lift_py (kbps bc.1 bc.2 period);
  let angle := atan2 (fsub p2.2 p1.2) (fsub p2.1 p1.1) in
  let upright := Qle_bool (- pi_over_2) angle && Qle_bool angle pi_over_2 in
  change_item a (λ _, Arrow true w (Some (p1, p2)) true (font_size k)
    (if upright then format_2f r +:+ " kbit/s →" else "← " +:+ format_2f r +:+ " kbit/s")
    upright (if upright then fdiv (- w) 2 else fdiv w 2) (label_over_line_position p1 p2) angle).
(** The body of the loop of [_update_drops_view]; [edge_y] is the lower edge of the window. *)
Definition draw_drop (period k edge_y : Q) (key : Z) (bc : Z * Z) (a : nat) : stx st exn unit :=
  _ ← change_item a (λ i, set_visible true (label_visible i) i);
  w ← lift_py (arrow_width bc.1 bc.2 period k);
  p1 ← on_scene (get_position (AtNode key));
  let p2 := (p1.1, edge_y) in
  r ← lift_py (kbps bc.1 bc.2 period);
  change_item a (λ i, Arrow true w (Some (p1, p2)) true (font_size k) (format_2f r +:+ " kbit/s")
    (anchor_south i) (label_offset i) (fdiv (fadd p1.1 p2.1) 2, fdiv (fadd p1.2 p2.2) 2) (label_angle i)).

(** [size] is the value of the node size adjustment, [t] numbers the iteration over the dictionary. *)
Definition update_transmissions_view (t : nat) (size period : Q) (sm : samples) : stx st exn unit :=
  show_arrows (λ key, [key.1; key.2]) (draw_transmission period (fdiv size 5))
    (dict_items t (averages ((λ set : list transmission, (λ x, ((transmitter x, receiver x), tx_bytes x)) <$> set) <$> last_transmissions sm))).
Definition update_drops_view (t : nat) (size period edge_y : Q) (sm : samples) : stx st exn unit :=
  show_arrows (λ key, [key]) (draw_drop period (fdiv size 5) edge_y)
    (dict_items t (averages ((λ set : list packet_drop, (λ x, (dropper x, drop_bytes x)) <$> set) <$> last_drops sm))).

(** *** Every arrow is used once *)

(** All items of the overlay are in the list. *)
Definition pool_ok (o : overlay) : Prop := pool o ≡ₚ seq 0 (length (items o)).
Definition hidden (i : arrow) : Prop := visible i = false ∧ label_visible i = false.

Lemma hide_all_runs l (s : st) :
  runs (for_st (λ a, change_item a (set_visible false false)) l) s (λ _ s',
    s'.1 = s.1 ∧ pool s'.2 = pool s.2 ∧ length (items s'.2) = length (items s.2) ∧
    ∀ a it, items s'.2 !! a = Some it → (a ∈ l ∨ ∀ it', items s.2 !! a = Some it' → hidden it') → hidden it).
Proof.
  revert s. induction l as [|a l IH]; intros s; cbn [for_st].
  { apply runs_ret. split_and!; [done..|]. intros a it Ha [Hl|Hl]; [by apply not_elem_of_nil in Hl|eauto]. }
  eapply runs_bind; [apply (runs_modify _ _ (λ _ s', s' = (s.1, Overlay (alter (set_visible false false) a (items s.2)) (pool s.2)))); reflexivity|].
  cbn beta. intros _ s1 ->. eapply runs_weaken; [apply IH|]. cbn. intros _ s2 (H1 & H2 & H3 & H4).
  split_and!; [done..|by rewrite H3, length_alter|]. intros b it Hb Hor. apply (H4 b it Hb).
  destruct (decide (b = a)) as [->|Hba].
  - right. intros it' Hit. rewrite list_lookup_alter_eq in Hit. apply fmap_Some in Hit as (it0 & _ & ->). done.
  - destruct Hor as [[?|?]%elem_of_cons|Hor]; [done|by left|]. right. intros it' Hit.
    rewrite list_lookup_alter_ne in Hit by done. eauto.
Qed.

(** What drawing for a key does: it makes the item [a] show [v] for [key]; the scene is only looked at. *)
Definition draws {K} (nodes : K → list Z) (draw : K → Z * Z → nat → stx st exn unit)
    (P : (endpoint → Q * Q) → K → Z * Z → arrow → Prop) (ok : Z * Z → Prop) : Prop :=
  ∀ key v a s, ok v → (∀ i, i ∈ nodes key → is_Some (links_at s.1 (AtNode i))) → a < length (items s.2) →
    runs (draw key v a) s (λ _ s', s'.1 = s.1 ∧ pool s'.2 = pool s.2 ∧
      ∃ it, items s'.2 = <[a := it]> (items s.2) ∧ P (position s.1) key v it).

Lemma get_nodes_runs l (s : st) :
  runs (for_st (λ i, on_scene (get_node i)) l) s (λ _ s', s'.2 = s.2 ∧ (∀ e, position s'.1 e = position s.1 e) ∧
    (∀ e, is_Some (links_at s.1 e) → is_Some (links_at s'.1 e)) ∧ ∀ i, i ∈ l → is_Some (links_at s'.1 (AtNode i))).
Proof.
  revert s. induction l as [|i l IH]; intros s; cbn [for_st].
  { apply runs_ret. split_and!; [done..|]. intros i Hi. by apply not_elem_of_nil in Hi. }
  set (sc := match nodes s.1 !! i with Some _ => s.1 | None => with_nodes (<[i := new_node]> (nodes s.1)) s.1 end).
  eapply (runs_bind _ _ _ (λ _ s', s' = (sc, s.2))).
  { exists tt, (sc, s.2). split; [|done]. unfold on_scene, get_node, modify_st. done. }
  cbn beta. intros _ s1 ->. eapply runs_weaken; [apply IH|]. cbn. intros _ s2 (H1 & H2 & H3 & H4).
  assert (∀ e, position sc e = position s.1 e) as Hp.
  { intros e. unfold sc. destruct (nodes s.1 !! i) eqn:E; [done|]. destruct e as [j|c]; cbn; [|done].
    destruct (decide (j = i)) as [->|Hj]; [by rewrite lookup_insert_eq, E|by rewrite lookup_insert_ne]. }
  assert (∀ e, is_Some (links_at s.1 e) → is_Some (links_at sc e)) as Hg.
  { intros e He. unfold sc. destruct (nodes s.1 !! i) eqn:E; [done|]. destruct e as [j|c]; cbn in *; [|done].
    destruct (decide (j = i)) as [->|Hj]; [rewrite lookup_insert_eq; by eexists|by rewrite lookup_insert_ne]. }
  assert (is_Some (links_at sc (AtNode i))) as Hi.
  { unfold sc. destruct (nodes s.1 !! i) eqn:E; cbn; [rewrite E; by eexists|rewrite lookup_insert_eq; by eexists]. }
  split_and!; [done|intros e; by rewrite H2|intros e He; by apply H3, Hg|].
  intros j [->|Hj]%elem_of_cons; [by apply (H3 (AtNode i))|by apply H4].
Qed.

(** An arrow that is taken is one of the free ones or a new one. *)
Lemma take_arrow_runs busy (s : st) : busy ++ pool s.2 ≡ₚ seq 0 (length (items s.2)) →
  runs take_arrow s (λ a s', s'.1 = s.1 ∧ a ∉ busy ∧ (busy ++ [a]) ++ pool s'.2 ≡ₚ seq 0 (length (items s'.2)) ∧
    (∀ b, b ≠ a → items s'.2 !! b = items s.2 !! b) ∧ a < length (items s'.2) ∧
    length (items s'.2) = length (items s.2) `max` S (length busy)).
Proof.
  intros Hp. pose proof (Permutation_length Hp) as Hlen. rewrite length_app, length_seq in Hlen.
  assert (∀ a, a ∈ busy ++ pool s.2 ↔ a < length (items s.2)) as Hin by (intros a; rewrite Hp, elem_of_seq; lia).
  assert (NoDup (busy ++ pool s.2)) as Hnd by (rewrite Hp; apply NoDup_seq).
  unfold runs, take_arrow. destruct (last (pool s.2)) as [a|] eqn:Ea.
  - apply last_Some in Ea as [l Hl]. rewrite Hl in *. rewrite removelast_last. do 2 eexists.
    split; [reflexivity|]. cbn.
    rewrite length_app in Hlen. cbn in Hlen. split_and!; [done| | |done| |lia].
    + rewrite NoDup_app in Hnd. destruct Hnd as (_ & Hnd & _). intros Hb. apply (Hnd a Hb). set_solver.
    + rewrite <-Hp. by rewrite <-app_assoc, (Permutation_app_comm [a]).
    + apply Hin. set_solver.
  - apply last_None in Ea. rewrite Ea in *. do 2 eexists. split; [reflexivity|]. cbn. rewrite length_app. cbn in *.
    rewrite app_nil_r in *. split_and!; [done| | | |lia|lia].
    + intros Hb. apply Hin in Hb. lia.
    + rewrite seq_app. cbn. by rewrite Hp.
    + intros b Hb. destruct (decide (b < length (items s.2))); [by rewrite lookup_app_l|].
      rewrite lookup_app_r by lia. destruct (b - length (items s.2)) as [|m] eqn:E; [lia|]. cbn.
      symmetry. apply lookup_ge_None. lia.
Qed.

Definition respects {K} (P : (endpoint → Q * Q) → K → Z * Z → arrow → Prop) : Prop :=
  ∀ p p' key v it, (∀ e, p e = p' e) → P p key v it → P p' key v it.
Lemma show_loop_runs {K} (nodes_of : K → list Z) draw P ok (l : list (K * (Z * Z))) busy (s : st) :
  draws nodes_of draw P ok → respects P → Forall (λ kv, ok kv.2) l → busy ++ pool s.2 ≡ₚ seq 0 (length (items s.2)) →
  runs (map_st (λ kv, for_st (λ i, on_scene (get_node i)) (nodes_of kv.1) ≫= λ _, take_arrow ≫= λ a, draw kv.1 kv.2 a ≫= λ _, mret a) l) s
    (λ new s', busy ++ new ++ pool s'.2 ≡ₚ seq 0 (length (items s'.2)) ∧
      (∀ e, position s'.1 e = position s.1 e) ∧
      length (items s'.2) = length (items s.2) `max` (length busy + length l) ∧
      (∀ b, b ∉ new → items s'.2 !! b = items s.2 !! b) ∧
      (∀ b, b ∈ busy → items s'.2 !! b = items s.2 !! b) ∧
      Forall2 (λ kv a, ∃ it, items s'.2 !! a = Some it ∧ P (position s.1) kv.1 kv.2 it) l new).
Proof.
  intros Hdraw Hext. revert busy s. induction l as [|[key v] l IH]; intros busy s Hok Hp; cbn [map_st].
  { apply runs_ret. pose proof (Permutation_length Hp) as Hl. rewrite length_app, length_seq in Hl.
    split_and!; [by rewrite app_nil_l|done|cbn; lia|done|done|constructor]. }
  apply Forall_cons in Hok as [Hv Hok]. cbn in Hv.
  eapply (runs_bind _ _ _ (λ a s1, a ∉ busy ∧ (busy ++ [a]) ++ pool s1.2 ≡ₚ seq 0 (length (items s1.2)) ∧
     (∀ e, position s1.1 e = position s.1 e) ∧ length (items s1.2) = length (items s.2) `max` S (length busy) ∧
     (∀ b, b ≠ a → items s1.2 !! b = items s.2 !! b) ∧ ∃ it, items s1.2 !! a = Some it ∧ P (position s.1) key v it)).
  { eapply runs_bind; [apply get_nodes_runs|]. cbn beta. intros _ s1 (E1 & E2 & E3 & E4).
    eapply runs_bind; [apply (take_arrow_runs busy); by rewrite E1|]. cbn beta.
    intros a s2 (F1 & F2 & F3 & F4 & F5 & F6).
    eapply runs_bind; [apply (Hdraw key v a s2 Hv); [rewrite F1; apply E4|done]|].
    cbn beta. intros _ s3 (G1 & G2 & it & G3 & G4). apply runs_ret. rewrite G3, length_insert, G1, G2, F1.
    split_and!; [done|done|done| | |].
    - by rewrite F6, E1.
    - intros b Hb. rewrite list_lookup_insert_ne by done. by rewrite F4, E1.
    - exists it. split; [by apply list_lookup_insert_eq|]. eapply Hext; [|exact G4]. intros e. by rewrite F1, E2. }
  cbn beta. intros a s1 (E1 & E2 & E3 & E4 & E5 & it & E6 & E7).
  eapply runs_bind; [apply (IH (busy ++ [a]) s1); done|]. cbn beta.
  intros new s2 (F1 & F2 & F3 & F4 & F5 & F6). apply runs_ret.
  assert (items s2.2 !! a = Some it) as Ha by (rewrite F5 by set_solver; done).
  split_and!.
  - rewrite <-F1, <-app_assoc. done.
  - intros e. by rewrite F2.
  - rewrite F3, E4, length_app. cbn. lia.
  - intros b Hb. apply not_elem_of_cons in Hb as [Hba Hbn]. rewrite <-E5 by done. by apply F4.
  - intros b Hb. rewrite F5 by set_solver. apply E5. by intros ->.
  - constructor; [by exists it|]. eapply Forall2_impl; [exact F6|]. cbn. intros kv b (it' & ? & ?). exists it'.
    split; [done|]. by eapply Hext.
Qed.

(** After the loop every key has one arrow of its own, and the others are hidden. *)
Lemma show_arrows_runs {K} (nodes_of : K → list Z) draw P ok (l : list (K * (Z * Z))) (s : st) :
  draws nodes_of draw P ok → respects P → Forall (λ kv, ok kv.2) l → pool_ok s.2 →
  runs (show_arrows nodes_of draw l) s (λ _ s',
    pool_ok s'.2 ∧ length (items s'.2) = length (items s.2) `max` length l ∧
    ∃ new, NoDup new ∧ Forall2 (λ kv a, ∃ it, items s'.2 !! a = Some it ∧ P (position s.1) kv.1 kv.2 it) l new ∧
      ∀ a it, items s'.2 !! a = Some it → a ∉ new → hidden it).
Proof.
  intros Hdraw Hext Hok Hp. unfold show_arrows, hide_arrows.
  eapply (runs_bind _ _ _ (λ _ s1, s1.1 = s.1 ∧ pool s1.2 = pool s.2 ∧ length (items s1.2) = length (items s.2) ∧
    ∀ a it, items s1.2 !! a = Some it → hidden it)).
  { destruct (hide_all_runs (pool s.2) s) as (u & s1 & E & H1 & H2 & H3 & H4). exists u, s1. split; [exact E|].
    split_and!; [done..|]. intros a it Ha. apply (H4 a it Ha). left. rewrite Hp, elem_of_seq.
    apply lookup_lt_Some in Ha. lia. }
  cbn beta. intros _ s1 (H1 & H2 & H3 & H4). unfold pool_ok in Hp.
  eapply runs_bind; [apply (show_loop_runs nodes_of draw P ok l [] s1 Hdraw Hext Hok);
    rewrite app_nil_l, H2, H3; exact Hp|].
  cbn beta. intros new s2 (F1 & F2 & F3 & F4 & _ & F6). apply runs_modify. cbn in *. split_and!.
  - exact F1.
  - by rewrite F3, H3.
  - exists new. split_and!.
    + assert (NoDup (new ++ pool s2.2)) as Hnd by (rewrite F1; apply NoDup_seq). apply NoDup_app in Hnd. tauto.
    + by rewrite H1 in F6.
    + intros a it Ha Hnew. rewrite F4 in Ha by done. eauto.
Qed.

(** *** What is drawn *)

(** Positive numbers do not round to zero: byte rates are far from the smallest double. *)
Definition no_underflow : Prop := ∀ q, (0 < q)%Q → (0 < rnd q)%Q.

Lemma fdiv_py_pos a b : no_underflow → (0 < a)%Q → (0 < b)%Q → ∃ q, fdiv_py a b = Ok q ∧ (0 < q)%Q.
Proof.
  intros Hu Ha Hb. unfold fdiv_py. destruct (Qeq_bool b 0) eqn:E; [apply Qeq_bool_iff in E; lra|].
  eexists. split; [done|]. apply Hu. by apply Qlt_shift_div_l; [|lra].
Qed.
Lemma inject_pos z : (0 < z)%Z → (0 < inject_Z z)%Q.
Proof. unfold Qlt, inject_Z. cbn. lia. Qed.
Lemma arrow_width_ok bytes count period k : no_underflow → (0 < bytes)%Z → (0 < count)%Z → (0 < period)%Q →
  ∃ w, arrow_width bytes count period k = Ok w.
Proof.
  intros Hu Hb Hc Hp. unfold arrow_width.
  destruct (fdiv_py_pos (rnd (inject_Z bytes)) (inject_Z count) Hu) as (x & -> & Hx);
    [by apply Hu, inject_pos|by apply inject_pos|].
  cbn [mbind py_bind]. destruct (fdiv_py_pos x period Hu Hx Hp) as (y & -> & Hy). cbn [mbind py_bind].
  destruct (Qle_bool y 0) eqn:E; [apply Qle_bool_iff in E; lra|]. by eexists.
Qed.
Lemma kbps_ok bytes count period : no_underflow → (0 < bytes)%Z → (0 < count)%Z → (0 < period)%Q →
  ∃ r, kbps bytes count period = Ok r.
Proof.
  intros Hu Hb Hc Hp. unfold kbps.
  destruct (fdiv_py_pos (rnd (inject_Z (bytes * 8))) 1000 Hu) as (x & -> & Hx); [apply Hu, inject_pos; lia|done|].
  cbn [mbind py_bind]. destruct (fdiv_py_pos x (inject_Z count) Hu Hx) as (y & -> & Hy);
    [by apply inject_pos|]. cbn [mbind py_bind].
  destruct (fdiv_py_pos y period Hu Hy Hp) as (z & -> & _). by eexists.
Qed.

Definition positive (bc : Z * Z) : Prop := (0 < bc.1 ∧ 0 < bc.2)%Z.
(** The arrow [it] shows the transmissions of a pair, or the drops of a node. *)
Definition shows_transmission (period k : Q) (pos : endpoint → Q * Q) (key : Z * Z) (bc : Z * Z) (it : arrow) : Prop :=
  visible it = true ∧ label_visible it = true ∧ line it = Some (pos (AtNode key.1), pos (AtNode key.2)) ∧
  arrow_width bc.1 bc.2 period k = Ok (line_width it) ∧
  ∃ r, kbps bc.1 bc.2 period = Ok r ∧ (label_text it = format_2f r +:+ " kbit/s →" ∨ label_text it = "← " +:+ format_2f r +:+ " kbit/s").
Definition shows_drops (period k edge_y : Q) (pos : endpoint → Q * Q) (key : Z) (bc : Z * Z) (it : arrow) : Prop :=
  visible it = true ∧ label_visible it = true ∧ line it = Some (pos (AtNode key), ((pos (AtNode key)).1, edge_y)) ∧
  arrow_width bc.1 bc.2 period k = Ok (line_width it) ∧
  ∃ r, kbps bc.1 bc.2 period = Ok r ∧ label_text it = format_2f r +:+ " kbit/s".

Lemma on_scene_position e (s : st) : is_Some (links_at s.1 e) → on_scene (get_position e) s = (Ok (position s.1 e), s).
Proof. intros He. unfold on_scene. rewrite get_position_runs by done. by destruct s. Qed.
Lemma position_bind {A} e (s : st) (k : Q * Q → stx st exn A) Q :
  is_Some (links_at s.1 e) → runs (k (position s.1 e)) s Q → runs (on_scene (get_position e) ≫= k) s Q.
Proof. intros He (a & s' & Hk & HQ). exists a, s'. unfold mbind, stx_bind. by rewrite on_scene_position. Qed.
Lemma ok_bind {A B} (b : B) (s : st) (k : B → stx st exn A) Q : runs (k b) s Q → runs (lift_py (Ok b) ≫= k) s Q.
Proof. intros (a & s' & Hk & HQ). by exists a, s'. Qed.
Lemma alter_twice (a : nat) f g (l : list arrow) it : l !! a = Some it → alter g a (alter f a l) = <[a := g (f it)]> l.
Proof.
  intros Ha. apply list_eq. intros b. destruct (decide (b = a)) as [->|Hb].
  - rewrite !list_lookup_alter_eq, Ha. cbn. symmetry. apply list_lookup_insert_eq. by eapply lookup_lt_Some.
  - by rewrite !list_lookup_alter_ne, list_lookup_insert_ne by done.
Qed.
Lemma change_bind {A} a f (s : st) (k : unit → stx st exn A) Q :
  runs (k tt) (s.1, Overlay (alter f a (items s.2)) (pool s.2)) Q → runs (change_item a f ≫= k) s Q.
Proof. intros (x & s' & Hk & HQ). by exists x, s'. Qed.

Lemma draw_transmission_draws period k : no_underflow → (0 < period)%Q →
  draws (λ key, [key.1; key.2]) (draw_transmission period k) (shows_transmission period k) positive.
Proof.
  intros Hu Hp key v a s [Hb Hc] Hn Ha. destruct (lookup_lt_is_Some_2 _ _ Ha) as [it Hit]. unfold draw_transmission.
  apply change_bind. destruct (arrow_width_ok v.1 v.2 period k) as [w Ew]; [done..|]. rewrite Ew. apply ok_bind.
  apply position_bind; [apply Hn; left|]. apply position_bind; [apply Hn; right; left|].
  destruct (kbps_ok v.1 v.2 period) as [r Er]; [done..|]. rewrite Er. apply ok_bind. cbn [fst].
  apply runs_modify. cbn [fst snd items pool]. split; [done|]. split; [done|]. eexists.
  split; [by apply alter_twice|].
  unfold shows_transmission. cbn [visible label_visible line line_width label_text]. split_and!; [done..|].
  exists r. split; [done|].
  destruct (_ && _); auto.
Qed.
Lemma draw_drop_draws period k edge_y : no_underflow → (0 < period)%Q →
  draws (λ key, [key]) (draw_drop period k edge_y) (shows_drops period k edge_y) positive.
Proof.
  intros Hu Hp key v a s [Hb Hc] Hn Ha. destruct (lookup_lt_is_Some_2 _ _ Ha) as [it Hit]. unfold draw_drop.
  apply change_bind. destruct (arrow_width_ok v.1 v.2 period k) as [w Ew]; [done..|]. rewrite Ew. apply ok_bind.
  apply position_bind; [apply Hn; left|].
  destruct (kbps_ok v.1 v.2 period) as [r Er]; [done..|]. rewrite Er. apply ok_bind. cbn [fst].
  apply runs_modify. cbn [fst snd items pool]. split; [done|]. split; [done|]. eexists.
  split; [by apply alter_twice|].
  unfold shows_drops. cbn [visible label_visible line line_width label_text]. split_and!; [done..|]. by exists r.
Qed.

Lemma dict_items_spec {K} `{DictIter K} t (m : gmap K (Z * Z)) : dict_items t m ≡ₚ map_to_list m.
Proof.
  unfold dict_items. rewrite dict_keys_perm. rewrite <-(list_fmap_id (map_to_list m)) at 2.
  assert (∀ k v, (k, v) ∈ map_to_list m → m !! k = Some v) as Hm by (intros k v; apply elem_of_map_to_list).
  induction (map_to_list m) as [|[k v] l IH]; [done|]. cbn. rewrite (Hm k v) by left. cbn. f_equiv.
  apply IH. intros k' v' Hin. apply Hm. by right.
Qed.
Lemma averages_positive {K} `{Countable K} (sets : list (list (K * Z))) :
  Forall (Forall (λ kb, 0 < kb.2)%Z) sets → map_Forall (λ _, positive) (averages sets).
Proof.
  intros Hs k v. rewrite averages_spec. destruct (of_key k (concat sets)) as [|b bs] eqn:E; [done|]. intros [= <-].
  assert (Forall (λ b, 0 < b)%Z (b :: bs)) as Hb.
  { rewrite <-E. unfold of_key. apply Forall_fmap, Forall_forall. intros kb [_ Hin]%list_elem_of_filter.
    apply Forall_concat in Hs. rewrite Forall_forall in Hs. by apply Hs. }
  apply Forall_cons in Hb as [Hb Hbs]. split; cbn [fst snd length]; [|lia].
  unfold sum_bytes in *. assert (0 <= foldr Z.add 0 bs)%Z by (clear -Hbs; induction Hbs; cbn [foldr]; lia).
  cbn [foldr]. lia.
Qed.

Definition pair_samples (sm : samples) : list (list ((Z * Z) * Z)) :=
  (λ set : list transmission, (λ x, ((transmitter x, receiver x), tx_bytes x)) <$> set) <$> last_transmissions sm.
(** The item of a key and the others, after an update. *)
Definition one_arrow_each {K} `{Countable K} (P : K → Z * Z → arrow → Prop) (m : gmap K (Z * Z)) (o : overlay) : Prop :=
  ∃ f : K → nat,
    (∀ k v, m !! k = Some v → ∃ it, items o !! f k = Some it ∧ P k v it) ∧
    (∀ k k', is_Some (m !! k) → is_Some (m !! k') → f k = f k' → k = k') ∧
    ∀ a it, items o !! a = Some it → (∀ k, is_Some (m !! k) → a ≠ f k) → hidden it.

Lemma one_arrow_from_lists {K} `{Countable K} (P : K → Z * Z → arrow → Prop) (m : gmap K (Z * Z)) o l new :
  l ≡ₚ map_to_list m → NoDup new →
  Forall2 (λ kv a, ∃ it, items o !! a = Some it ∧ P kv.1 kv.2 it) l new →
  (∀ a it, items o !! a = Some it → a ∉ new → hidden it) → one_arrow_each P m o.
Proof.
  intros Hl Hnd H2 Hh.
  assert (NoDup l.*1) as Hndl by (rewrite Hl; apply NoDup_fst_map_to_list).
  assert (length new = length l) as Hlen by (symmetry; by eapply Forall2_length).
  set (g := list_to_map (zip l.*1 new) : gmap K nat).
  assert (∀ k a, g !! k = Some a ↔ ∃ i v, l !! i = Some (k, v) ∧ new !! i = Some a) as Hg.
  { intros k a. unfold g. rewrite <-elem_of_list_to_map by (rewrite fst_zip; [done|rewrite length_fmap; lia]). split.
    - intros [i Hi]%list_elem_of_lookup. apply lookup_zip_Some in Hi as [Hi1 Hi2].
      rewrite list_lookup_fmap in Hi1. apply fmap_Some in Hi1 as ([k' v] & Hi1 & ->). by exists i, v.
    - intros (i & v & Hi1 & Hi2). apply (list_elem_of_lookup_2 _ i). apply lookup_zip_Some. split; [|done].
      by rewrite list_lookup_fmap, Hi1. }
  assert (∀ k v, m !! k = Some v → ∃ i a, l !! i = Some (k, v) ∧ new !! i = Some a ∧ g !! k = Some a) as Hin.
  { intros k v Hk. assert ((k, v) ∈ l) as [i Hi]%list_elem_of_lookup by (rewrite Hl; by apply elem_of_map_to_list).
    destruct (lookup_lt_is_Some_2 new i) as [a Ha]; [rewrite Hlen; by eapply lookup_lt_Some|]. exists i, a.
    split_and!; [done..|].
    apply Hg. by exists i, v. }
  exists (λ k, default 0 (g !! k)). split_and!.
  - intros k v Hk. destruct (Hin k v Hk) as (i & a & Hi & Ha & ->). exact (Forall2_lookup_lr _ _ _ _ _ _ H2 Hi Ha).
  - intros k k' [v Hk] [v' Hk'].
    destruct (Hin k v Hk) as (i & a & Hi & Ha & ->), (Hin k' v' Hk') as (i' & a' & Hi' & Ha' & ->).
    cbn. intros ->. assert (i = i') as -> by (eapply (NoDup_lookup new); eauto). congruence.
  - intros a it Ha Hno. apply (Hh a it Ha). intros [i Hi]%list_elem_of_lookup.
    destruct (lookup_lt_is_Some_2 l i) as [[k v] Hkv]; [rewrite <-Hlen; by eapply lookup_lt_Some|].
    apply (Hno k).
    + exists v. apply elem_of_map_to_list. rewrite <-Hl. by eapply list_elem_of_lookup_2.
    + assert (g !! k = Some a) as ->; [|done]. apply Hg. by exists i, v.
Qed.

(** C31: When all samples have bytes, the update of the transmissions returns, whatever the rounding (as
    long as positive numbers stay positive) and the order of the dictionary: every pair of nodes in the
    samples has exactly one arrow of its own, drawn between the two nodes, with the width and the rate of
    the average of the pair; all other arrows and labels are hidden; and every arrow ever made is still
    in the list, so that their number is the largest number of pairs that had to be shown. *)
Theorem update_transmissions_view_spec (t : nat) (size period : Q) (sm : samples) (s : st) :
  no_underflow → (0 < period)%Q → Forall (Forall (λ x, 0 < tx_bytes x)%Z) (last_transmissions sm) → pool_ok s.2 →
  runs (update_transmissions_view t size period sm) s (λ _ s',
    pool_ok s'.2 ∧
    length (items s'.2) = length (items s.2) `max` base.size (averages (pair_samples sm)) ∧
    one_arrow_each (shows_transmission period (fdiv size 5) (position s.1)) (averages (pair_samples sm)) s'.2).
Proof.
  intros Hu Hp Hs Hpool. unfold update_transmissions_view. fold (pair_samples sm).
  set (m := averages (pair_samples sm)).
  pose proof (dict_items_spec t m) as Hl.
  assert (map_Forall (λ _, positive) m) as Hpos.
  { apply averages_positive. unfold pair_samples. apply Forall_fmap. eapply Forall_impl; [exact Hs|].
    intros set Hset. cbn. apply Forall_fmap. eapply Forall_impl; [exact Hset|]. done. }
  eapply runs_weaken; [apply (show_arrows_runs _ _ (shows_transmission period (fdiv size 5)) positive)|].
  - by apply draw_transmission_draws.
  - intros p p' key v it Hpp (? & ? & ? & ? & ?). unfold shows_transmission. rewrite <-!Hpp. by split_and!.
  - apply Forall_forall. intros [k v] Hin. rewrite Hl in Hin. apply elem_of_map_to_list in Hin. by apply (Hpos k).
  - exact Hpool.
  - cbn beta. intros _ s' (H1 & H2 & new & H3 & H4 & H5). split_and!; [done| |].
    + by rewrite H2, Hl, length_map_to_list.
    + by eapply one_arrow_from_lists.
Qed.

Definition drop_samples (sm : samples) : list (list (Z * Z)) :=
  (λ set : list packet_drop, (λ x, (dropper x, drop_bytes x)) <$> set) <$> last_drops sm.
(** The same for the nodes that drop packets; their arrows point to the lower edge of the window. *)
Lemma update_drops_view_spec (t : nat) (size period edge_y : Q) (sm : samples) (s : st) :
  no_underflow → (0 < period)%Q → Forall (Forall (λ x, 0 < drop_bytes x)%Z) (last_drops sm) → pool_ok s.2 →
  runs (update_drops_view t size period edge_y sm) s (λ _ s',
    pool_ok s'.2 ∧
    length (items s'.2) = length (items s.2) `max` base.size (averages (drop_samples sm)) ∧
    one_arrow_each (shows_drops period (fdiv size 5) edge_y (position s.1)) (averages (drop_samples sm)) s'.2).
Proof.
  intros Hu Hp Hs Hpool. unfold update_drops_view. fold (drop_samples sm). set (m := averages (drop_samples sm)).
  pose proof (dict_items_spec t m) as Hl.
  assert (map_Forall (λ _, positive) m) as Hpos.
  { apply averages_positive. unfold drop_samples. apply Forall_fmap. eapply Forall_impl; [exact Hs|].
    intros set Hset. cbn. apply Forall_fmap. eapply Forall_impl; [exact Hset|]. done. }
  eapply runs_weaken; [apply (show_arrows_runs _ _ (shows_drops period (fdiv size 5) edge_y) positive)|].
  - by apply draw_drop_draws.
  - intros p p' key v it Hpp (? & ? & ? & ? & ?). unfold shows_drops. rewrite <-!Hpp. by split_and!.
  - apply Forall_forall. intros [k v] Hin. rewrite Hl in Hin. apply elem_of_map_to_list in Hin. by apply (Hpos k).
  - exact Hpool.
  - cbn beta. intros _ s' (H1 & H2 & new & H3 & H4 & H5). split_and!; [done| |].
    + by rewrite H2, Hl, length_map_to_list.
    + by eapply one_arrow_from_lists.
Qed.
End arrows.

(** ** [plugins/interface_statistics.py] *)

Record counters := Counters { transmitted_packets : Z; transmitted_bytes : Z; received_packets : Z; received_bytes : Z }.
Record net_dev_stats := NetDevStats {
  txPackets : Z; txBytes : Z; rxPackets : Z; rxBytes : Z;
  txPacketRate : Q; rxPacketRate : Q; txBitRate : Q; rxBitRate : Q
}.
Definition NODE_STATISTICS_MEMORY : Z := 10.
(** [node_statistics]: for every node the counters of its interfaces, one list per period. *)
Definition collector : Type := gmap Z (list (list counters)).

(** [simulation_periodic_update]. *)
Definition add_statistics (c : collector) (st : Z * list counters) : py exn collector :=
  l ← keep_last NODE_STATISTICS_MEMORY (default [] (c !! st.1) ++ [st.2]);
  Ok (<[st.1 := l]> c).
Definition simulation_periodic_update (stats : list (Z * list counters)) (c : collector) : py exn collector :=
  py_foldl add_statistics c stats.

Section rates.
Context `{Rounding}.
(** [outStat.txPacketRate = (stats.transmittedPackets - tx_packets1[iface])/k] and the like. *)
Definition rate (factor : Z) (now first : Z) (k : Q) : py exn Q := fdiv_py (inject_Z ((now - first) * factor)) k.
Definition interface_rates (k : Q) (first : list counters) (iface : nat) (c : counters) : py exn net_dev_stats :=
  f ← or_raise IndexError (first !! iface);
  tp ← rate 1 (transmitted_packets c) (transmitted_packets f) k;
  rp ← rate 1 (received_packets c) (received_packets f) k;
  tb ← rate 8 (transmitted_bytes c) (transmitted_bytes f) k;
  rb ← rate 8 (received_bytes c) (received_bytes f) k;
  Ok (NetDevStats (transmitted_packets c) (transmitted_bytes c) (received_packets c) (received_bytes c) tp rp tb rb).
Fixpoint py_mapi {A B} (f : nat → A → py exn B) (i : nat) (l : list A) : py exn (list B) :=
  match l with
  | [] => Ok []
  | x :: l => y ← f i x; ys ← py_mapi f (S i) l; Ok (y :: ys)
  end.
(** [get_interface_statistics]. *)
Definition get_interface_statistics (sample_period : Q) (node : Z) (c : collector) : py exn (list net_dev_stats) :=
  match c !! node with
  | None => Ok []
  | Some raw =>
      if (length raw <? NODE_STATISTICS_MEMORY)%Z then Ok [] else
      if negb (length raw =? NODE_STATISTICS_MEMORY)%Z then Raise (Exception_ "AssertionError") else
      first ← or_raise IndexError (head raw);
      final ← or_raise IndexError (last raw);
      py_mapi (interface_rates (fmul sample_period (inject_Z (NODE_STATISTICS_MEMORY - 1))) first) 0 final
  end.
End rates.

(** The samples of a node in a sequence of reports. *)
Definition node_samples (node : Z) (reports : list (Z * list counters)) : list (list counters) :=
  snd <$> filter (λ r, r.1 = node) reports.
Definition last_ten {A} (l : list A) : list A := drop (length l - 10) l.
Lemma last_ten_snoc {A} (l : list A) x : last_ten (last_ten l ++ [x]) = last_ten (l ++ [x]).
Proof.
  unfold last_ten. rewrite !length_app, length_drop. cbn. destruct (decide (length l ≤ 9)).
  - replace (length l - 10) with 0 by lia. by rewrite drop_0, Nat.sub_0_r.
  - replace (length l + 1 - 10) with (S (length l - 10)) by lia.
    rewrite (drop_app_le l) by lia. destruct (decide (length l = 10)) as [E|E].
    + rewrite E. cbn. rewrite drop_app_le by (rewrite drop_0; lia). by rewrite drop_0.
    + replace (length l - (length l - 10) + 1 - 10) with 1 by lia. rewrite drop_app_le by (rewrite length_drop; lia).
      rewrite drop_drop. do 2 f_equal. lia.
Qed.

Definition last_samples (node : Z) (l : list (Z * list counters)) : option (list (list counters)) :=
  match node_samples node l with [] => None | ss => Some (last_ten ss) end.
Lemma last_samples_default node l : default [] (last_samples node l) = last_ten (node_samples node l).
Proof. unfold last_samples. by destruct (node_samples node l). Qed.
Lemma add_statistics_run l c r : (∀ node, c !! node = last_samples node l) →
  ∃ c', add_statistics c r = Ok c' ∧ ∀ node, c' !! node = last_samples node (l ++ [r]).
Proof.
  unfold collector in *. intros Hc. destruct r as [n cs].
  assert (add_statistics c (n, cs) = Ok (<[n := last_ten (default [] (c !! n) ++ [cs])]> c)) as ->.
  { unfold add_statistics. by rewrite keep_last_spec. }
  eexists. split; [reflexivity|]. intros node. unfold last_samples, node_samples.
  rewrite filter_app, fmap_app, filter_cons, filter_nil. cbn [fst]. fold (node_samples node l).
  destruct (decide (n = node)) as [->|Hn].
  - rewrite lookup_insert_eq, Hc, last_samples_default, last_ten_snoc. cbn. by destruct (node_samples node l).
  - rewrite lookup_insert_ne by done. rewrite Hc. cbn. by rewrite app_nil_r.
Qed.
Lemma collect_run reports l c : (∀ node, c !! node = last_samples node l) →
  ∃ c', py_foldl (λ c r, simulation_periodic_update r c) c reports = Ok c' ∧
    ∀ node, c' !! node = last_samples node (l ++ concat reports).
Proof.
  assert (∀ r l c, (∀ node, c !! node = last_samples node l) →
    ∃ c', simulation_periodic_update r c = Ok c' ∧ ∀ node, c' !! node = last_samples node (l ++ r)) as Hone.
  { intros r. induction r as [|x r IH]; intros l' c' Hc'; [exists c'; by rewrite app_nil_r|].
    destruct (add_statistics_run l' c' x Hc') as (c1 & E1 & H1). destruct (IH (l' ++ [x]) c1 H1) as (c2 & E2 & H2).
    exists c2. unfold simulation_periodic_update in *. cbn [py_foldl]. rewrite E1. cbn [mbind py_bind].
    split; [done|].
    intros node. by rewrite H2, <-app_assoc. }
  revert l c. induction reports as [|r reports IH]; intros l c Hc; cbn [py_foldl concat]; [exists c;
    by rewrite app_nil_r|].
  destruct (Hone r l c Hc) as (c1 & E1 & H1). destruct (IH (l ++ r) c1 H1) as (c2 & E2 & H2).
  exists c2. rewrite E1. cbn [mbind py_bind]. split; [done|]. intros node. by rewrite H2, <-app_assoc.
Qed.

Section rates_spec.
Context `{Rounding}.
(** The statistics of an interface: its counters now, and the rates since nine periods. *)
Definition stats_of (k : Q) (first final : counters) : net_dev_stats :=
  NetDevStats (transmitted_packets final) (transmitted_bytes final) (received_packets final) (received_bytes final)
    (fdiv (inject_Z ((transmitted_packets final - transmitted_packets first) * 1)) k)
    (fdiv (inject_Z ((received_packets final - received_packets first) * 1)) k)
    (fdiv (inject_Z ((transmitted_bytes final - transmitted_bytes first) * 8)) k)
    (fdiv (inject_Z ((received_bytes final - received_bytes first) * 8)) k).
Lemma interface_rates_run k first i c : ¬ (k == 0)%Q →
  interface_rates k first i c = match first !! i with Some f => Ok (stats_of k f c) | None => Raise IndexError end.
Proof.
  intros Hk. assert (∀ a, fdiv_py a k = Ok (fdiv a k)) as Hd.
  { intros a. unfold fdiv_py. destruct (Qeq_bool k 0) eqn:E; [|done]. by apply Qeq_bool_iff in E. }
  unfold interface_rates, rate. destruct (first !! i) as [f|]; cbn [or_raise mbind py_bind]; [|done]. by rewrite !Hd.
Qed.
Lemma rates_run k first i final : ¬ (k == 0)%Q →
  py_mapi (interface_rates k first) i final =
    if (i + length final <=? length first) || (length final =? 0) then Ok (zip_with (stats_of k) (drop i first) final) else Raise IndexError.
Proof.
  intros Hk. revert i. induction final as [|c final IH]; intros i; cbn [py_mapi length].
  { rewrite orb_true_r. by destruct (drop i first). }
  rewrite orb_false_r, interface_rates_run by done. destruct (first !! i) as [f|] eqn:Ef; cbn [mbind py_bind].
  - rewrite IH. pose proof (lookup_lt_Some _ _ _ Ef) as Hi. rewrite (drop_S _ _ _ Ef). cbn [zip_with].
    assert ((S i + length final <=? length first) || (length final =? 0) = (i + S (length final) <=? length first)) as ->.
    { destruct (Nat.leb_spec (S i + length final) (length first)), (Nat.leb_spec (i + S (length final)) (length first)),
        (Nat.eqb_spec (length final) 0); try done; lia. }
    by destruct (i + S (length final) <=? length first).
  - apply lookup_ge_None in Ef. destruct (Nat.leb_spec (i + S (length final)) (length first)); [lia|done].
Qed.

(** After any sequence of periodic updates the collector holds the last ten samples of every node, no
    more.  Asked for a node, it answers with nothing before it has ten samples; then, for every interface
    of the last sample, with its counters and with the rates between the oldest sample kept and the last
    one, over nine sample periods; and it raises IndexError when interfaces have been added since the
    oldest sample. *)
Theorem interface_statistics_spec (reports : list (list (Z * list counters))) :
  ∃ c, py_foldl (λ c r, simulation_periodic_update r c) ∅ reports = Ok c ∧
    ∀ node period, let ss := node_samples node (concat reports) in
      let k := fmul period (inject_Z (NODE_STATISTICS_MEMORY - 1)) in
      (c !! node = match ss with [] => None | _ => Some (last_ten ss) end) ∧
      (length ss < 10 → get_interface_statistics period node c = Ok []) ∧
      (∀ old first mid final, ss = old ++ first :: mid ++ [final] → length mid = 8 → ¬ (k == 0)%Q →
         get_interface_statistics period node c =
           if (length final <=? length first) || (length final =? 0) then Ok (zip_with (stats_of k) first final) else Raise IndexError).
Proof.
  destruct (collect_run reports [] ∅) as (c & E & Hc); [done|]. exists c. split; [done|]. intros node period ss k.
  rewrite app_nil_l in Hc. split_and!.
  - rewrite Hc. unfold last_samples. fold ss. by destruct ss.
  - intros Hlen. unfold get_interface_statistics. rewrite Hc. unfold last_samples. fold ss.
    destruct ss as [|s0 ss']; [done|].
    unfold last_ten. replace (length (s0 :: ss') - 10) with 0 by lia. rewrite drop_0.
    destruct (Z.ltb_spec (length (s0 :: ss')) NODE_STATISTICS_MEMORY); [done|].
    unfold NODE_STATISTICS_MEMORY in *. lia.
  - intros old first mid final Hss Hmid Hk. unfold get_interface_statistics. rewrite Hc. unfold last_samples. fold ss.
    assert (last_ten ss = first :: mid ++ [final]) as Hlast.
    { rewrite Hss. unfold last_ten. rewrite length_app. cbn [length]. rewrite length_app, Hmid. cbn [length].
      replace (length old + S (8 + 1) - 10) with (length old) by lia. by rewrite drop_app_length. }
    destruct ss as [|s0 ss'] eqn:Ess; [by destruct old|]. rewrite <-Ess, Hlast in *.
    assert (length (first :: mid ++ [final]) = 10) as Hten by (cbn; rewrite length_app, Hmid; done).
    rewrite Hten. cbn [head or_raise].
    change (10%nat <? NODE_STATISTICS_MEMORY)%Z with false.
    change (10%nat =? NODE_STATISTICS_MEMORY)%Z with true. cbn [negb mbind py_bind].
    rewrite app_comm_cons, last_snoc. cbn [or_raise mbind py_bind]. fold k.
    rewrite (rates_run k first 0 final Hk). by rewrite drop_0.
Qed.
End rates_spec.

(** ** Concrete updates *)

Module StatsDemo.
#[export] Existing Instance exact.
(** A canvas whose functions are simple. *)
#[export] Instance demo_canvas : Canvas :=
  {| log := λ q, q; atan2 := λ y x, y; pi_over_2 := 2; format_2f := λ _, "1.00"; label_over_line_position := λ p q, p |}.
(** One arrow, shown, from an earlier update. *)
Definition one_arrow : overlay := Overlay [Arrow true 1 None true 1 "old" true 0 (0, 0)%Q 0] [0].
Definition demo_samples : samples := Samples [[Transmission 0 1 100]; [Transmission 1 0 50; Transmission 0 1 20]] [].
Definition demo_state : st := (two_nodes, one_arrow).
End StatsDemo.
Import StatsDemo.

Lemma update_transmissions_view_spec_witness :
  averages (pair_samples demo_samples) !! (0%Z, 1%Z) = Some (120%Z, 2%Z) ∧
  runs (update_transmissions_view 0 1 (1 # 10) demo_samples) demo_state (λ _ s',
    length (items s'.2) = 2 ∧ pool_ok s'.2).
Proof.
  split; [vm_compute; reflexivity|].
  eapply runs_weaken; [apply (update_transmissions_view_spec 0 1 (1 # 10) demo_samples demo_state)|].
  - intros q Hq. exact Hq.
  - reflexivity.
  - repeat constructor.
  - exact (Permutation_refl [0]).
  - cbn beta. intros _ s' (Hp & Hl & _). split; [|exact Hp]. rewrite Hl. vm_compute. reflexivity.
Defined.

(** A sample without bytes makes the logarithm raise.  The arrow taken for it stays visible and is in no list
    any more, so that no later update can hide it. *)
Definition after_zero : st := (update_transmissions_view 0 1 (1 # 10) (Samples [[Transmission 0 1 0]] []) demo_state).2.
Lemma zero_bytes :
  (update_transmissions_view 0 1 (1 # 10) (Samples [[Transmission 0 1 0]] []) demo_state).1 = Raise (ValueError "math domain error") ∧
  pool after_zero.2 = [] ∧ visible <$> items (update_transmissions_view 1 1 (1 # 10) (Samples [] []) after_zero).2.2 = [true].
Proof. split_and!; vm_compute; reflexivity. Qed.
