(* ===== verification/VizHud.v ===== *)
(** * VizHud: the axes and the movements of the visualizer

    [src/visualizer/visualizer/hud.py]: [Axes] draws a horizontal and a vertical axis with labelled ticks
    along the edges of the window; [_compute_divisions] chooses the distance of the ticks.  From
    [core.py]: scrolling with the mouse, the zoom, [center_on_node], [autoscale_view], and
    dragging a node.

    [math.log10] and the widgets that hold the zoom and the visible part are parameters (classes
    [Log10] and [Adjustments]). *)

From stdpp Require Import base list strings.
From Stdlib Require Import QArith Qround Qabs Qpower Lqa.
From S2P Require Import Prelude PyNum VizSvg VizScene.
Open Scope nat_scope.

(** ** [_compute_divisions] *)

(** The logarithm of a power of ten is its exponent, and the logarithm is monotone. *)
Class Log10 := {
  log10 : Q → Q;
  log10_lower x (e : Z) : (Qpower 10 e <= x)%Q → (inject_Z e <= log10 x)%Q;
  log10_upper x (e : Z) : (0 < x)%Q → (x <= Qpower 10 e)%Q → (log10 x <= inject_Z e)%Q
}.

Section axes.
Context `{Rounding} `{!Log10}.

Definition rint (x : Q) : Z := Qfloor (fadd x (1 # 2)).
(** [pow(10, e)]: an integer, or a float for a negative exponent. *)
Definition pow10 (e : Z) : Q := if (e <? 0)%Z then rnd (Qpower 10 e) else Qpower 10 e.
Definition closer (a b target : Q) : bool := num_lt (Flt (Qabs (fsub a target))) (Flt (Qabs (fsub b target))).

(** One round of the loop: the distance of the ticks, and the first tick. *)
Definition division (dx_over_ndiv xi : Q) : py exn (Q * Q) :=
  let tbe := log10 dx_over_ndiv in
  let div := pow10 (rint tbe) in
  let div := if closer (fdiv div 2) div dx_over_ndiv then fdiv div 2
             else if closer (fmul div 2) div dx_over_ndiv then fmul div 2 else div in
  q ← fdiv_py xi div;
  Ok (fsub (fmul div (inject_Z (Qceiling q))) div, div).
(** The loop over [range(5)] with its variables [ndiv], [x0] and [div]. *)
Definition compute_divisions (xi xf : Q) : py exn (Q * Q) :=
  if negb (num_lt (Flt xi) (Flt xf)) then Raise (Exception_ "AssertionError") else
  let dx := fsub xf xi in
  let text_width := fdiv (fdiv dx 5) 2 in
  let dx_over_ndiv := fdiv dx 5 in
  r ← py_foldl (λ (v : Z * option (Q * Q)) n,
        d ← division dx_over_ndiv xi;
        ndiv ← (if (1 <? n)%Z then q ← fdiv_py dx text_width; Ok (rint q) else Ok v.1);
        Ok (ndiv, Some d)) (5%Z, None) [0; 1; 2; 3; 4]%Z;
  or_raise UnboundLocalError r.2.

(** [x = x0; while x < x2: ...; x += div]: the ticks. *)
Fixpoint tick_loop (fuel : nat) (x div x2 : Q) : option (list Q) :=
  match fuel with
  | 0 => None
  | S fuel => if num_lt (Flt x) (Flt x2) then cons x <$> tick_loop fuel (fadd x div) div x2 else Some []
  end.

(** ** Labels *)

(** A label: whether it is shown, its text and its place. *)
Record hud_label := HudLabel { hud_visible : bool; hud_text : string; hud_at : Q * Q }.
(** [get_label] takes the first unused label or makes a new one, for every text in turn. *)
Fixpoint use_labels (texts : list (string * (Q * Q))) (unused : list hud_label) : list hud_label * list hud_label :=
  match texts with
  | [] => ([], unused)
  | (t, p) :: texts =>
      let '(used, rest) := use_labels texts (tail unused) in (HudLabel true t p :: used, rest)
  end.
Definition hide (l : hud_label) : hud_label := HudLabel false (hud_text l) (hud_at l).

(** What [update_view] draws: the two paths, as lists of segments, and the labels. *)
Record axes := Axes { hlines : list ((Q * Q) * (Q * Q)); vlines : list ((Q * Q) * (Q * Q)); labels : list hud_label }.

(** [update_view]: [x1], [y1], [x2], [y2] are the corners of the visible part in canvas units, [fmt] is
    [%G], and the loops have the given fuel. *)
Definition hud_update_view (fmt : Q → string) (fuel : nat) (zoom x1 y1 x2 y2 : Q) (a : axes) : py exn (option axes) :=
  offset ← fdiv_py 10 zoom;
  line_width ← fdiv_py 5 zoom;
  let yc := fsub y2 (fdiv line_width 2) in
  '(x0, xdiv) ← compute_divisions (fdiv x1 PIXELS_PER_METER) (fdiv x2 PIXELS_PER_METER);
  let xs := tick_loop fuel x0 xdiv (fdiv x2 PIXELS_PER_METER) in
  let xc := fadd x1 (fdiv line_width 2) in
  '(y0, ydiv) ← compute_divisions (fdiv y1 PIXELS_PER_METER) (fdiv y2 PIXELS_PER_METER);
  let ys := tick_loop fuel y0 ydiv (fdiv y2 PIXELS_PER_METER) in
  Ok (xs ← xs; ys ← ys;
      let px x := fmul PIXELS_PER_METER x in
      let texts := ((λ x, (fmt x, (px x, fsub yc offset))) <$> xs) ++ ((λ y, (fmt y, (fadd xc offset, px y))) <$> ys) in
      let '(used, rest) := use_labels texts (hide <$> labels a) in
      Some (Axes (((x1, yc), (x2, yc)) :: ((λ x, ((px x, fsub yc offset), (px x, yc))) <$> xs))
                 (((xc, y1), (xc, y2)) :: ((λ y, ((xc, px y), (fadd xc offset, px y))) <$> ys))
                 (used ++ rest))).
End axes.

(** The labels in use are shown with their texts, the others are hidden, and none is lost. *)
Lemma use_labels_spec texts unused :
  let '(used, rest) := use_labels texts unused in
  used = (λ tp, HudLabel true tp.1 tp.2) <$> texts ∧ rest = drop (length texts) unused.
Proof.
  revert unused. induction texts as [|[t p] texts IH]; intros unused; cbn; [by rewrite drop_0|].
  specialize (IH (tail unused)). destruct (use_labels texts (tail unused)) as [used rest]. destruct IH as [-> ->].
  split; [done|]. destruct unused; cbn; by rewrite ?drop_nil.
Qed.
Lemma use_labels_count texts unused : length ((use_labels texts unused).1 ++ (use_labels texts unused).2) = length texts `max` length unused.
Proof.
  pose proof (use_labels_spec texts unused) as Hs. destruct (use_labels texts unused) as [used rest].
  destruct Hs as [-> ->].
  cbn. rewrite length_app, length_fmap, length_drop. lia.
Qed.

(** ** The ticks *)

Section ticks.
Context {Rnd : Rounding} {Prec : Precise} {Log : Log10}.

Lemma pow10_pos e : (0 < Qpower 10 e)%Q.
Proof. by apply Qpower_0_lt. Qed.
Lemma pow10_succ e : (Qpower 10 (e + 1) == 10 * Qpower 10 e)%Q.
Proof. rewrite Qpower_plus by done. change (Qpower 10 1) with 10%Q. ring. Qed.
Lemma pow10_near e : (Qpower 10 e * (999999999999 # 1000000000000) <= pow10 e ∧ pow10 e <= Qpower 10 e * (1000000000001 # 1000000000000))%Q.
Proof.
  pose proof (pow10_pos e) as Hp. unfold pow10. destruct (e <? 0)%Z; [apply rnd_pos; lra|]. lra.
Qed.

Lemma inject_pred e : (inject_Z (e - 1) == inject_Z e - 1)%Q.
Proof. unfold Z.sub. rewrite inject_Z_plus. reflexivity. Qed.
Lemma inject_succ e : (inject_Z (e + 1) == inject_Z e + 1)%Q.
Proof. rewrite inject_Z_plus. reflexivity. Qed.
(** Rounding to the next integer is off by little more than a half. *)
Lemma rint_near x : (Qabs x <= 1000)%Q → (inject_Z (rint x) <= x + (3 # 5) ∧ x < inject_Z (rint x) + (3 # 5))%Q.
Proof.
  intros Hx. apply Qabs_Qle_condition in Hx. unfold rint, fadd.
  destruct (rnd_within (x + (1 # 2)) 1001) as [H1 H2]; [apply Qabs_Qle_condition; lra|].
  pose proof (Qfloor_le (rnd (x + (1 # 2)))) as H3. pose proof (Qlt_floor (rnd (x + (1 # 2)))) as H4.
  rewrite inject_succ in H4. lra.
Qed.
(** The power of ten is within a factor of ten of the distance looked for. *)
Lemma rint_log10 d : (Qpower 10 (-400) <= d)%Q → (d <= Qpower 10 400)%Q →
  let p := Qpower 10 (rint (log10 d)) in (p <= 10 * d ∧ d <= 10 * p)%Q.
Proof.
  intros Hd1 Hd2. pose proof (pow10_pos (-400)) as Hd0. set (e := rint (log10 d)).
  assert (Qabs (log10 d) <= 1000)%Q as Hl.
  { assert (0 < d)%Q as Hd by lra. apply log10_lower in Hd1. apply log10_upper in Hd2; [|done].
    apply Qabs_Qle_condition.
    change (inject_Z (-400)) with (-400)%Q in Hd1. change (inject_Z 400) with 400%Q in Hd2. lra. }
  destruct (rint_near (log10 d) Hl) as [H1 H2]. fold e in H1, H2. cbn zeta. split.
  - apply Qnot_lt_le. intros Hlt. assert (d <= Qpower 10 (e - 1))%Q as Hle.
    { pose proof (pow10_succ (e - 1)) as E. rewrite Z.sub_add in E. lra. }
    apply log10_upper in Hle; [|lra]. rewrite inject_pred in Hle. lra.
  - apply Qnot_lt_le. intros Hlt. assert (Qpower 10 (e + 1) <= d)%Q as Hle by (rewrite pow10_succ; lra).
    apply log10_lower in Hle. rewrite inject_succ in Hle. lra.
Qed.

(** The distance chosen: there are between one and twenty-six of them in the range. *)
Definition chosen (p d : Q) : Q :=
  if closer (fdiv p 2) p d then fdiv p 2 else if closer (fmul p 2) p d then fmul p 2 else p.
Lemma closer_true a b t : closer a b t = true → (Qabs (a - t) * (99 # 100) <= Qabs (b - t))%Q.
Proof.
  unfold closer, fsub. intros E%num_lt_spec. cbn in E. pose proof (rnd_abs (a - t)) as [Ha _].
  pose proof (rnd_abs (b - t)) as [_ Hb].
  pose proof (Qabs_nonneg (a - t)). lra.
Qed.
Lemma closer_false a b t : closer a b t = false → (Qabs (b - t) * (99 # 100) <= Qabs (a - t))%Q.
Proof.
  unfold closer, fsub. intros E%num_lt_false. cbn in E. pose proof (rnd_abs (a - t)) as [_ Ha].
  pose proof (rnd_abs (b - t)) as [Hb _].
  pose proof (Qabs_nonneg (b - t)). lra.
Qed.
Lemma chosen_bounds p d : (0 < p)%Q → (p <= 10 * d * (1001 # 1000))%Q → (d <= 10 * p * (1001 # 1000))%Q →
  (0 < chosen p d ∧ chosen p d <= (51 # 10) * d ∧ d <= (51 # 10) * chosen p d)%Q.
Proof.
  intros Hp H1 H2. unfold chosen.
  destruct (rnd_pos (p / 2)) as [Hh1 Hh2]; [apply Qle_shift_div_l; lra|].
  assert (p / 2 == p * (1 # 2))%Q as Eh by field.
  destruct (rnd_pos (p * 2)) as [Ht1 Ht2]; [lra|]. unfold fdiv, fmul.
  destruct (closer (rnd (p / 2)) p d) eqn:E1; [apply closer_true in E1|apply closer_false in E1;
    destruct (closer (rnd (p * 2)) p d) eqn:E2; [apply closer_true in E2|apply closer_false in E2]].
  all: generalize dependent (rnd (p / 2)); intros h ? ?; generalize dependent (rnd (p * 2)); intros t ? ?.
  all: repeat match goal with |- context [Qabs ?x] => fail 1 | E : context [Qabs ?x] |- _ => revert E end.
  all: repeat (apply Qabs_case; intros ?); intros; split_and!; lra.
Qed.

(** The first tick is almost a multiple of the distance, the last one before the range or at its start. *)
Lemma division_near d xi (div := chosen (pow10 (rint (log10 d))) d) : (0 < div)%Q → (Qabs xi <= 30000000 * div)%Q →
  ∃ (z : Z) x0, division d xi = Ok (x0, div) ∧
    (Qabs (x0 - (inject_Z z - 1) * div) <= div * (1 # 1000))%Q ∧
    (xi - div * (1 # 1000) <= inject_Z z * div ∧ inject_Z z * div <= xi + div * (1001 # 1000))%Q.
Proof.
  intros Hd Hx. apply Qabs_Qle_condition in Hx. unfold division. fold (chosen (pow10 (rint (log10 d))) d). fold div.
  unfold fdiv_py. destruct (Qeq_bool div 0) eqn:E0; [apply Qeq_bool_iff in E0; lra|]. cbn [mbind py_bind].
  unfold fdiv.
  assert (xi / div * div == xi)%Q as Er by (field; lra). set (r := (xi / div)%Q) in *.
  destruct (rnd_within r 30000000) as [Hq1 Hq2].
  { apply Qabs_Qle_condition. split; [apply Qle_shift_div_l|apply Qle_shift_div_r]; lra. }
  set (q := rnd r) in *. set (z := Qceiling q). exists z.
  pose proof (Qle_ceiling q) as Hc1. pose proof (Qceiling_lt q) as Hc2. fold z in Hc1, Hc2.
  rewrite inject_pred in Hc2.
  assert (0 <= (inject_Z z - (r - (1 # 10000))) * div)%Q as Hz1 by (apply Qmult_le_0_compat; lra).
  assert (0 <= (r + 1 + (1 # 10000) - inject_Z z) * div)%Q as Hz2 by (apply Qmult_le_0_compat; lra).
  unfold fsub, fmul. destruct (rnd_within (div * inject_Z z) (40000000 * div)) as [Hm1 Hm2];
    [apply Qabs_Qle_condition; lra|].
  set (m := rnd (div * inject_Z z)) in *.
  destruct (rnd_within (m - div) (50000000 * div)) as [Hx1 Hx2]; [apply Qabs_Qle_condition; lra|].
  exists (rnd (m - div)). split; [done|]. split; [apply Qabs_Qle_condition|]; lra.
Qed.

(** A step of the loop moves on by the distance, but for a thousandth of it. *)
Lemma next_tick x div : (0 < div)%Q → (Qabs x <= 30000000 * div)%Q → (Qabs (fadd x div - (x + div)) <= div * (1 # 10000))%Q.
Proof.
  intros Hd Hx. apply Qabs_Qle_condition in Hx. unfold fadd.
  destruct (rnd_within (x + div) (40000000 * div)) as [H1 H2]; [apply Qabs_Qle_condition; lra|].
  apply Qabs_Qle_condition. lra.
Qed.
Lemma inject_S (i : nat) : (inject_Z (Z.of_nat (S i)) == inject_Z (Z.of_nat i) + 1)%Q.
Proof. rewrite Nat2Z.inj_succ, <-Z.add_1_r. apply inject_succ. Qed.
Lemma inject_nonneg (i : nat) : (0 <= inject_Z (Z.of_nat i))%Q.
Proof. unfold Qle. cbn. lia. Qed.
(** The loop of the ticks ends, and has a tick near every multiple before the end. *)
Lemma tick_loop_near n x div x2 : (0 < div)%Q → (- (30000000 * div) <= x)%Q → (x2 <= 30000000 * div)%Q →
  (x2 - x <= inject_Z (Z.of_nat n) * ((9 # 10) * div))%Q →
  ∃ l, tick_loop (S n) x div x2 = Some l ∧ length l ≤ n ∧
    (∀ i t, l !! i = Some t → Qabs (t - (x + inject_Z (Z.of_nat i) * div)) <= inject_Z (Z.of_nat i) * (div * (1 # 10000)) ∧ t < x2)%Q ∧
    (x2 <= x + inject_Z (Z.of_nat (length l)) * (div * (10001 # 10000)))%Q.
Proof.
  intros Hd Hlo Hhi. revert x Hlo. induction n as [|n IH]; intros x Hlo Hn; cbn [tick_loop].
  - change (inject_Z (Z.of_nat 0)) with 0%Q in Hn. rewrite (proj2 (num_lt_false (Flt x) (Flt x2))) by (cbn; lra).
    exists []. split_and!; [done..|]. change (inject_Z (Z.of_nat (length []))) with 0%Q. lra.
  - rewrite inject_S in Hn. destruct (num_lt (Flt x) (Flt x2)) eqn:E.
    + apply num_lt_spec in E. cbn in E.
      pose proof (next_tick x div Hd) as Hs. apply Qabs_Qle_condition in Hs; [|apply Qabs_Qle_condition; lra].
      destruct (IH (fadd x div)) as (l & Hl & Hlen & Hi & He); [lra|lra|].
      cbn [tick_loop] in Hl. rewrite Hl. exists (x :: l). split_and!; [done|cbn; lia| |].
      * intros [|i] t Ht; cbn in Ht.
        -- injection Ht as <-. split; [|done]. apply Qabs_Qle_condition. change (inject_Z (Z.of_nat 0)) with 0%Q. lra.
        -- destruct (Hi i t Ht) as [Ht1 Ht2]. split; [|done]. apply Qabs_Qle_condition in Ht1.
           apply Qabs_Qle_condition.
           rewrite inject_S. lra.
      * cbn [length]. rewrite inject_S. lra.
    + apply num_lt_false in E. cbn in E. exists []. split_and!; [done|cbn; lia|done|].
      change (inject_Z (Z.of_nat (length []))) with 0%Q. lra.
Qed.

(** All rounds of the loop compute the same: the number [ndiv] they refine is never used. *)
Lemma compute_divisions_once xi xf x0 div : (xi < xf)%Q →
  division (fdiv (fsub xf xi) 5) xi = Ok (x0, div) → ¬ (fdiv (fdiv (fsub xf xi) 5) 2 == 0)%Q →
  compute_divisions xi xf = Ok (x0, div).
Proof.
  intros Hx Hdiv Hd. unfold compute_divisions. rewrite (proj2 (num_lt_spec (Flt xi) (Flt xf))) by done. cbn [negb].
  cbn [py_foldl]. rewrite Hdiv. cbn [mbind py_bind].
  unfold fdiv_py. destruct (Qeq_bool _ 0) eqn:E; [by apply Qeq_bool_iff in E|]. done.
Qed.
(** What the loop is given: the fifth of the range, and the distance chosen for it. *)
Lemma fifth_near xi xf (d := fdiv (fsub xf xi) 5) : (xi < xf)%Q →
  (xf - xi <= d * (5001 # 1000) ∧ d * (4999 # 1000) <= xf - xi)%Q ∧ ¬ (fdiv d 2 == 0)%Q.
Proof.
  intros Hx. unfold d, fdiv, fsub. destruct (rnd_pos (xf - xi)) as [H1 H2]; [lra|]. set (dx := rnd (xf - xi)) in *.
  destruct (rnd_pos (dx / 5)) as [H3 H4]; [apply Qle_shift_div_l; lra|].
  assert (dx / 5 == dx * (1 # 5))%Q as E5 by field. set (e := rnd (dx / 5)) in *.
  split; [lra|]. destruct (rnd_pos (e / 2)) as [H5 H6]; [apply Qle_shift_div_l; lra|].
  assert (e / 2 == e * (1 # 2))%Q as E2 by field. lra.
Qed.

(** C37: For every visible range that is neither extremely small nor large nor smaller than a millionth of its
    coordinates, with any rounding of the relative precision of doubles, the choice of the divisions returns,
    the loop over the ticks ends after at most 30 of them, and the ticks are what an axis needs: they are, up to
    a hundredth of their distance, consecutive multiples of a distance that fits into the range and of which
    fewer than 26 fit; the first one is just before the range or at its start, and every multiple inside the
    range has its tick. *)
Theorem axis_ticks (xi xf : Q) :
  (Qpower 10 (-300) <= xf - xi)%Q → (xf - xi <= Qpower 10 300)%Q →
  (Qabs xi <= 1000000 * (xf - xi))%Q → (Qabs xf <= 1000000 * (xf - xi))%Q →
  ∃ (z : Z) x0 div l, compute_divisions xi xf = Ok (x0, div) ∧ tick_loop 31 x0 div xf = Some l ∧
    (0 < div ∧ div <= (103 # 100) * (xf - xi) ∧ xf - xi <= 26 * div)%Q ∧
    (xi - div * (101 # 100) <= inject_Z z * div ∧ inject_Z z * div <= xi + div * (1 # 100))%Q ∧
    1 ≤ length l ≤ 30 ∧
    (∀ i t, l !! i = Some t → Qabs (t - (inject_Z z + inject_Z (Z.of_nat i)) * div) <= div * (1 # 100) ∧ t < xf)%Q ∧
    (xf <= (inject_Z z + inject_Z (Z.of_nat (length l))) * div + div * (1 # 100))%Q.
Proof.
  intros Hlo Hhi Hi Hf. pose proof (pow10_pos (-300)) as Hp0. assert (xi < xf)%Q as Hx by lra. clear Hp0.
  destruct (fifth_near xi xf Hx) as [[Hd1 Hd2] Hd3]. set (d := fdiv (fsub xf xi) 5) in *.
  destruct (rint_log10 d) as [Hr1 Hr2].
  { pose proof (Qpower_le_compat_l 10 (-400) (-301) ltac:(lia) ltac:(lra)) as H1.
    pose proof (pow10_succ (-301)) as H2. change (-301 + 1)%Z with (-300)%Z in H2. revert Hlo H1 H2.
    generalize (Qpower 10 (-400)), (Qpower 10 (-301)), (Qpower 10 (-300)). intros. lra. }
  { pose proof (Qpower_le_compat_l 10 300 400 ltac:(lia) ltac:(lra)) as H1. revert Hhi H1.
    generalize (Qpower 10 400), (Qpower 10 300). intros. lra. }
  pose proof (pow10_near (rint (log10 d))) as [Hn1 Hn2]. pose proof (pow10_pos (rint (log10 d))) as Hp.
  destruct (chosen_bounds (pow10 (rint (log10 d))) d) as (Hb1 & Hb2 & Hb3); [lra|lra|lra|].
  apply Qabs_Qle_condition in Hi, Hf.
  destruct (division_near d xi) as (z & x0 & Ediv & Hx0 & Hz1 & Hz2); [done|apply Qabs_Qle_condition; lra|].
  set (div := chosen _ d) in *. clearbody div. clear Hr1 Hr2 Hn1 Hn2 Hp Hlo Hhi. apply Qabs_Qle_condition in Hx0.
  destruct (tick_loop_near 30 x0 div xf) as (l & El & Hlen & Hl & He); [done|lra|lra| |].
  { change (inject_Z (Z.of_nat 30)) with 30%Q. lra. }
  exists (z - 1)%Z, x0, div, l. split; [by apply compute_divisions_once|]. split; [done|]. split; [lra|].
  assert (∀ k : nat, k ≤ 30 → 0 <= (30 - inject_Z (Z.of_nat k)) * div)%Q as Hk.
  { intros k Hk. apply Qmult_le_0_compat; [|lra].
    assert (inject_Z (Z.of_nat k) <= inject_Z 30)%Q as H1 by (rewrite <-Zle_Qle; lia).
    change (inject_Z 30) with 30%Q in H1. lra. }
  rewrite inject_pred. split; [lra|]. split.
  { destruct l; [|cbn in *; lia]. change (inject_Z (Z.of_nat (length []))) with 0%Q in He. lra. }
  split.
  - intros i t Ht. destruct (Hl i t Ht) as [H1 H2]. split; [|done]. apply Qabs_Qle_condition in H1.
    apply Qabs_Qle_condition.
    apply lookup_lt_Some in Ht. specialize (Hk i ltac:(lia)). pose proof (inject_pred z) as Ez. revert Ez.
    generalize (inject_Z (z - 1)). intros y Ez.
    assert (y * div == (inject_Z z - 1) * div)%Q as Ey by (rewrite Ez; reflexivity). lra.
  - specialize (Hk (length l) Hlen). lra.
Qed.
End ticks.

(** A logarithm rounded down, to try the axes with. *)
Module HudDemo.
#[export] Existing Instance exact.
Fixpoint log_up (fuel : nat) (k : Z) (x : Q) : Z :=
  match fuel with
  | 0 => k
  | S fuel => if Qle_bool (Qpower 10 (k + 1)) x then log_up fuel (k + 1) x else k
  end.
Definition floor_log10 (x : Q) : Z := log_up (Z.to_nat (Z.log2_up (Z.pos (Qden x)) + Z.log2_up (Z.abs (Qnum x) + 1))) (- Z.log2_up (Z.pos (Qden x))) x.

Lemma power_mono a b : (a <= b)%Z → (Qpower 10 a <= Qpower 10 b)%Q.
Proof. intros Hab. by apply Qpower_le_compat_l. Qed.
Lemma power_ge (n : Z) : (1 <= n)%Z → (inject_Z n <= Qpower 10 (Z.log2_up n))%Q.
Proof.
  intros Hn. pose proof (Z.log2_up_nonneg n) as H0. change 10%Q with (inject_Z 10). rewrite <-Zpower_Qpower by done.
  rewrite <-Zle_Qle. apply Z.le_trans with (2 ^ Z.log2_up n)%Z; [|apply Z.pow_le_mono_l; lia].
  destruct (decide (n = 1%Z)) as [->|Hn1]; [done|]. by apply Z.log2_up_spec; lia.
Qed.
Lemma log_up_spec fuel k x : (Qpower 10 k <= x)%Q → (x < Qpower 10 (k + Z.of_nat fuel))%Q →
  (Qpower 10 (log_up fuel k x) <= x ∧ x < Qpower 10 (log_up fuel k x + 1))%Q.
Proof.
  revert k. induction fuel as [|fuel IH]; intros k H1 H2; cbn [log_up].
  - rewrite Z.add_0_r in H2. lra.
  - destruct (Qle_bool (Qpower 10 (k + 1)) x) eqn:E.
    + apply Qle_bool_iff in E. apply IH; [done|].
      replace (k + 1 + Z.of_nat fuel)%Z with (k + Z.of_nat (S fuel))%Z by lia. done.
    + split; [done|]. apply Qnot_le_lt. intros Hle. apply Qle_bool_iff in Hle. congruence.
Qed.
Lemma floor_log10_spec x : (0 < x)%Q → (Qpower 10 (floor_log10 x) <= x ∧ x < Qpower 10 (floor_log10 x + 1))%Q.
Proof.
  intros Hx. unfold floor_log10. set (a := Z.log2_up (Z.pos (Qden x))). set (b := Z.log2_up (Z.abs (Qnum x) + 1)).
  pose proof (Z.log2_up_nonneg (Z.pos (Qden x))) as Ha. pose proof (Z.log2_up_nonneg (Z.abs (Qnum x) + 1)) as Hb.
  assert (0 < Qnum x)%Z as Hn by (unfold Qlt in Hx; cbn in Hx; lia).
  pose proof (power_ge (Z.pos (Qden x)) ltac:(lia)) as H1.
  pose proof (power_ge (Z.abs (Qnum x) + 1) ltac:(lia)) as H2.
  fold a in H1. fold b in H2. pose proof (pow10_pos a) as Hpa. pose proof (pow10_pos b) as Hpb.
  assert (x * inject_Z (Z.pos (Qden x)) == inject_Z (Qnum x))%Q as Ex by (destruct x as [n d]; unfold Qeq; cbn; lia).
  assert (1 <= inject_Z (Z.pos (Qden x)))%Q as Hd by (unfold Qle; cbn; lia).
  assert (1 <= inject_Z (Qnum x))%Q as Hn1 by (unfold Qle; cbn; lia).
  apply log_up_spec.
  - rewrite Qpower_opp. apply Qle_shift_inv_r; [done|]. nra.
  - replace (- a + Z.of_nat (Z.to_nat (a + b)))%Z with b by lia.
    assert (inject_Z (Qnum x) < Qpower 10 b)%Q as H3.
    { rewrite Z.abs_eq, inject_Z_plus in H2 by lia. change (inject_Z 1) with 1%Q in H2. lra. }
    nra.
Qed.
#[export] Program Instance demo_log10 : Log10 := {| log10 := λ x, inject_Z (floor_log10 x) |}.
Next Obligation.
  cbn. pose proof (pow10_pos e). destruct (floor_log10_spec x) as [_ Hx]; [lra|].
  rewrite <-Zle_Qle. assert (e < floor_log10 x + 1)%Z; [|lia]. apply (Qpower_lt_compat_l_inv 10); [lra|done].
Qed.
Next Obligation.
  cbn. destruct (floor_log10_spec x) as [Hf _]; [done|].
  rewrite <-Zle_Qle. apply (Qpower_le_compat_l_inv 10); [lra|done].
Qed.
End HudDemo.
Import HudDemo.

Lemma axis_ticks_witness : ∃ (z : Z) x0 div l,
  compute_divisions 3 10 = Ok (x0, div) ∧ tick_loop 31 x0 div 10 = Some l ∧ 1 ≤ length l ≤ 30 ∧ (0 < div)%Q.
Proof.
  destruct (axis_ticks 3 10) as (z & x0 & div & l & H1 & H2 & (H3 & _) & _ & H4 & _).
  - vm_compute. discriminate.
  - vm_compute. discriminate.
  - vm_compute. discriminate.
  - vm_compute. discriminate.
  - exists z, x0, div, l. split; [exact H1|]. split; [exact H2|]. split; [exact H4|exact H3].
Defined.
