(* ===== verification/VizMoves.v ===== *)
(** * VizMoves: scrolling, zooming and dragging in the visualizer

    The handlers of [Visualizer] in [src/visualizer/visualizer/core.py] that change what part of the scene
    is visible or where a node is: panning with the middle button, the scroll wheel, [center_on_node],
    [autoscale_view], the bounds of the canvas, and dragging a node.  The visible part is the record
    [viewport]; what GTK does with the values it is given is the class [Gtk]; the scene is that of
    [VizScene]. *)

From stdpp Require Import base list strings gmap.
From Stdlib Require Import QArith Qround Qabs Qminmax Lqa.
From S2P Require Import Prelude PyNum VizSvg VizScene.
Open Scope nat_scope.

(** The values and page sizes of the two scroll bars, in pixels, and the zoom. *)
Record viewport := Viewport { h_value : Q; v_value : Q; h_page : Q; v_page : Q; zoom : Q }.

(** [Gtk.Adjustment.set_value] keeps a value within the limits of the adjustment, and the canvas converts
    between its units and pixels by its origin and its scale. *)
Class Gtk := {
  clamp_h : Q → Q;
  clamp_v : Q → Q;
  clamp_zoom : Q → Q;
  origin : Q * Q;
  clamp_zoom_spec q : (1 # 100 <= q)%Q → (1 # 100 <= clamp_zoom q ∧ clamp_zoom q <= q)%Q
}.

Section moves.
Context `{Rounding} `{!Gtk} `{!DictIter Z}.

Definition set_h (q : Q) (v : viewport) : viewport := Viewport (clamp_h q) (v_value v) (h_page v) (v_page v) (zoom v).
Definition set_v (q : Q) (v : viewport) : viewport := Viewport (h_value v) (clamp_v q) (h_page v) (v_page v) (zoom v).
(** [self.zoom.set_value(q)]; its handler sets the scale of the canvas. *)
Definition set_zoom (q : Q) (v : viewport) : viewport := Viewport (h_value v) (v_value v) (h_page v) (v_page v) (clamp_zoom q).
(** [convert_to_pixels] and [convert_from_pixels]. *)
Definition convert_to_pixels (v : viewport) (p : Q * Q) : Q * Q :=
  (fmul (fsub p.1 origin.1) (zoom v), fmul (fsub p.2 origin.2) (zoom v)).
Definition convert_from_pixels (v : viewport) (p : Q * Q) : Q * Q :=
  (fadd (fdiv p.1 (zoom v)) origin.1, fadd (fdiv p.2 (zoom v)) origin.2).

(** ** Panning and the scroll wheel *)

(** [_PanningState]: the pointer and the values of the scroll bars when the button was pressed. *)
Record panning_state := PanningState { initial_mouse_pos : Q * Q; initial_canvas_pos : Q * Q }.
Definition begin_panning (pointer : Q * Q) (v : viewport) : panning_state := PanningState pointer (h_value v, v_value v).
(** [_panning_motion] asserts that a panning has begun. *)
Definition panning_motion (pointer : Q * Q) (pv : option panning_state * viewport) : py exn (option panning_state * viewport) :=
  match pv.1 with
  | None => Raise (Exception_ "AssertionError")
  | Some p =>
      let dx := fsub pointer.1 (initial_mouse_pos p).1 in
      let dy := fsub pointer.2 (initial_mouse_pos p).2 in
      Ok (Some p, set_v (fsub (initial_canvas_pos p).2 dy) (set_h (fsub (initial_canvas_pos p).1 dx) (pv.2)))
  end.
Definition end_panning (pv : option panning_state * viewport) : option panning_state * viewport := (None, pv.2).
(** [_canvas_button_press] and [_canvas_button_release]: the middle button. *)
Definition canvas_button_press (button : Z) (pointer : Q * Q) (pv : option panning_state * viewport) : bool * (option panning_state * viewport) :=
  if (button =? 2)%Z then (true, (Some (begin_panning pointer pv.2), pv.2)) else (false, pv).
Definition canvas_button_release (button : Z) (pv : option panning_state * viewport) : bool * (option panning_state * viewport) :=
  if (button =? 2)%Z then (true, end_panning pv) else (false, pv).
Inductive scroll_direction := ScrollUp | ScrollDown | ScrollOther.
Definition canvas_scroll_event (d : scroll_direction) (v : viewport) : bool * viewport :=
  match d with
  | ScrollUp => (true, set_zoom (fmul (zoom v) (5 # 4)) v)
  | ScrollDown => (true, set_zoom (fdiv (zoom v) (5 # 4)) v)
  | ScrollOther => (false, v)
  end.

(** [center_on_node] on a position, and the following of a node in [_update_node_positions]. *)
Definition center_on (p : Q * Q) (v : viewport) : viewport :=
  let '(px, py) := convert_to_pixels v p in
  set_v (fsub py (fdiv (v_page v) 2)) (set_h (fsub px (fdiv (h_page v) 2)) v).
Definition center_on_node (a : selection) (s : scene) (v : viewport) : py exn viewport :=
  match a with
  | Number i => n ← or_raise KeyError (nodes s !! i); Ok (center_on (center n) v)
  | Shown i => Ok (center_on (position s (AtNode i)) v)
  | NoNode | Anything => Raise TypeError
  end.
(** [set_follow_node] for a node of the simulation. *)
Definition set_follow_node (i : Z) (s : scene) : py exn (option Z) :=
  _ ← or_raise KeyError (nodes s !! i);
  Ok (Some i).
(** [_update_node_positions] with the scroll bars: a node that was moved and that the window follows is brought
    to the middle of the window. *)
Definition on_nodes {A} (m : stx scene exn A) : stx (scene * viewport) exn A := λ s, let '(r, sc) := m s.1 in (r, (sc, s.2)).
Definition follow_node (net : network) (follow : option Z) (i : Z) : stx (scene * viewport) exn unit :=
  b ← on_nodes (get_has_mobility net i);
  if b : bool then
    match node_mobility net i with
    | Some (x, y) =>
        let '(cx, cy) := transform_point_simulation_to_canvas x y in
        _ ← on_nodes (set_position i cx cy);
        if decide (follow = Some i) then modify_st (λ s, (s.1, center_on (cx, cy) s.2)) else mret tt
    | None => mret tt
    end
  else mret tt.
Definition follow_node_positions (t : nat) (net : network) (follow : option Z) : stx (scene * viewport) exn unit :=
  s ← get_st; for_st (follow_node net follow) (dict_keys t (nodes s.1)).

(** ** [autoscale_view] *)

Definition list_min (l : list Q) : option Q := match l with [] => None | x :: l => Some (foldl qmin x l) end.
Definition list_max (l : list Q) : option Q := match l with [] => None | x :: l => Some (foldl qmax x l) end.
(** The computation on the positions of the nodes: the new zoom and the point that [scroll_to] brings to the
    upper left corner, or nothing when the nodes do not spread in both directions. *)
Definition autoscale (ps : list (Q * Q)) (v : viewport) : py exn (option (viewport * (Q * Q))) :=
  min_x ← or_raise (ValueError "min() arg is an empty sequence") (list_min ps.*1);
  min_y ← or_raise (ValueError "min() arg is an empty sequence") (list_min ps.*2);
  max_x ← or_raise (ValueError "max() arg is an empty sequence") (list_max ps.*1);
  max_y ← or_raise (ValueError "max() arg is an empty sequence") (list_max ps.*2);
  let min_px := convert_to_pixels v (min_x, min_y) in
  let max_px := convert_to_pixels v (max_x, max_y) in
  let new_dx := fmul (3 # 2) (fsub max_px.1 min_px.1) in
  let new_dy := fmul (3 # 2) (fsub max_px.2 min_px.2) in
  if Qeq_bool new_dx 0 || Qeq_bool new_dy 0 then Ok None else
  let v := set_zoom (qmin (fdiv (h_page v) new_dx) (fdiv (v_page v) new_dy)) v in
  let p1 := convert_from_pixels v (h_value v, v_value v) in
  let p2 := convert_from_pixels v (fadd (h_value v) (h_page v), fadd (v_value v) (v_page v)) in
  let width := fsub p2.1 p1.1 in
  let height := fsub p2.2 p1.2 in
  let center_x := fdiv (fadd min_x max_x) 2 in
  let center_y := fdiv (fadd min_y max_y) 2 in
  Ok (Some (v, (fsub center_x (fdiv width 2), fsub center_y (fdiv height 2)))).
(** [autoscale_view] with the positions of the nodes of the scene. *)
Definition autoscale_view (t : nat) (net : network) (v : viewport) : stx scene exn (option (viewport * (Q * Q))) :=
  s ← get_st;
  if bool_decide (nodes s = ∅) then mret None else
  _ ← update_node_positions t net;
  s ← get_st;
  lift_py (autoscale ((λ i, position s (AtNode i)) <$> dict_keys (S t) (nodes s)) v).

(** ** Dragging a node *)

(** [NodeDragState]: the pointer in canvas units and the position of the node when the drag began. *)
Record drag_state := NodeDragState { canvas0 : Q * Q; sim0 : Q * Q }.
(** [mob.SetPosition(pos)]. *)
Definition set_mobility (i : Z) (p : Q * Q) (net : network) : network :=
  Network (alter (λ n, NsNode (Some p) (devices n)) (Z.to_nat i) (node_list net)) (channel_devices net).
Definition begin_node_drag (i : Z) (pointer : Q * Q) (net : network) (d : option drag_state) : option drag_state :=
  match node_mobility net i, d with
  | Some p, None => Some (NodeDragState pointer p)
  | _, _ => d
  end.
Definition node_drag_motion (i : Z) (pointer : Q * Q) (d : option drag_state) (net : network) : stx scene exn (bool * network) :=
  match node_mobility net i, d with
  | Some _, Some d =>
      let dx := fsub pointer.1 (canvas0 d).1 in
      let dy := fsub pointer.2 (canvas0 d).2 in
      let x := fadd (sim0 d).1 (transform_distance_canvas_to_simulation dx) in
      let y := fadd (sim0 d).2 (transform_distance_canvas_to_simulation dy) in
      let '(cx, cy) := transform_point_simulation_to_canvas x y in
      _ ← set_position i cx cy;
      mret (true, set_mobility i (x, y) net)
  | _, _ => mret (false, net)
  end.
Definition end_node_drag (d : option drag_state) : option drag_state := None.

(** [set_bounds] of the module, for the hook that it registers. *)
Definition set_bounds_hook (x1 y1 x2 y2 : Q) : py exn (Q * Q * Q * Q) :=
  if negb (num_lt (Flt x1) (Flt x2)) || negb (num_lt (Flt y1) (Flt y2)) then Raise (Exception_ "AssertionError") else
  let '(cx1, cy1) := transform_point_simulation_to_canvas x1 y1 in
  let '(cx2, cy2) := transform_point_simulation_to_canvas x2 y2 in
  Ok (cx1, cy1, cx2, cy2).
End moves.

(** ** The least and the greatest *)

Lemma qmin_spec a b : (qmin a b <= a ∧ qmin a b <= b)%Q ∧ (qmin a b = a ∨ qmin a b = b).
Proof. unfold qmin. destruct (num_min_spec (Flt a) (Flt b)) as (H1 & H2 & H3). cbn in *. split; [done|]. destruct H3 as [-> | ->]; auto. Qed.

(** *** Following a node *)

Section follow.
Context `{Rounding} `{!Gtk} `{!DictIter Z}.
Lemma center_on_again p q v : center_on p (center_on q v) = center_on p v.
Proof. reflexivity. Qed.

(** The scroll bars after some rounds of an update that follows a node. *)
Definition followed (net : network) (follow : option Z) (v v' : viewport) : Prop :=
  v' = v ∨ ∃ i x y, follow = Some i ∧ node_mobility net i = Some (x, y) ∧
    v' = center_on (transform_point_simulation_to_canvas x y) v.
Lemma followed_trans net f v1 v2 v3 : followed net f v1 v2 → followed net f v2 v3 → followed net f v1 v3.
Proof.
  intros H1 [->|(i & x & y & Hf & Hm & ->)]; [done|]. destruct H1 as [->|(? & ? & ? & _ & _ & ->)];
    right; exists i, x, y; by rewrite ?center_on_again.
Qed.
Lemma unmoved net f v (P Q : Prop) : P → Q → P ∧ Q ∧ followed net f v v.
Proof. intros ??. split; [done|]. split; [done|]. by left. Qed.
Lemma follow_node_scene net f i s v : let r := follow_node net f i (s, v) in
  r.1 = (update_node net i s).1 ∧ r.2.1 = (update_node net i s).2 ∧ followed net f v r.2.2.
Proof.
  unfold follow_node, update_node, on_nodes, mbind, stx_bind, modify_st, mret, stx_ret. cbn.
  destruct (get_has_mobility net i s) as [[[]|e] s1]; cbn; [|apply unmoved; done..].
  destruct (node_mobility net i) as [[x y]|] eqn:Hm; cbn; [|apply unmoved; done].
  destruct (set_position i (fmul x PIXELS_PER_METER) (fmul y PIXELS_PER_METER) s1) as [[[]|e] s2]; cbn;
    [|apply unmoved; done].
  case_decide; [|by apply unmoved]. cbn. split; [done|]. split; [done|]. right. by exists i, x, y.
Qed.
(** Following a node does not change what is done to the scene, and when it changes the scroll bars, it
    changes them once, to show the followed node in the middle. *)
Lemma follow_node_positions_spec t net f s v : let r := follow_node_positions t net f (s, v) in
  r.1 = (update_node_positions t net s).1 ∧ r.2.1 = (update_node_positions t net s).2 ∧ followed net f v r.2.2.
Proof.
  change (follow_node_positions t net f (s, v)) with (for_st (follow_node net f) (dict_keys t (nodes s)) (s, v)).
  change (update_node_positions t net s) with (for_st (update_node net) (dict_keys t (nodes s)) s).
  generalize (dict_keys t (nodes s)) as l.
  intros l. revert s v. induction l as [|i l IH]; intros s v; [apply unmoved; done|].
  cbn [for_st]. unfold mbind, stx_bind.
  destruct (follow_node_scene net f i s v) as (E1 & E2 & Hv). revert E1 E2 Hv.
  destruct (follow_node net f i (s, v)) as [[[]|e] [s1 v1]], (update_node net i s) as [r2 s2]; cbn;
    intros <- <- Hv; [|done].
  destruct (IH s1 v1) as (? & ? & ?). do 2 (split; [done|]); by eapply followed_trans.
Qed.
End follow.

(** *** Autoscaling with rounding *)

Section autoscale.
Context {Rnd : Rounding} {Prec : Precise} {G : Gtk}.




End autoscale.

Section exact.
#[local] Existing Instance exact.
Context `{!Gtk} `{!DictIter Z}.

(** *** Dragging *)

Lemma set_mobility_same i p net : is_Some (node_mobility net i) → node_mobility (set_mobility i p net) i = Some p.
Proof.
  unfold node_mobility, get_ns_node. destruct (i <? 0)%Z; [by intros []|]. cbn. rewrite list_lookup_alter_eq.
  destruct (node_list net !! Z.to_nat i); [done|by intros []].
Qed.
Lemma set_mobility_other i j p net : (0 <= i)%Z → j ≠ i → node_mobility (set_mobility i p net) j = node_mobility net j.
Proof.
  intros Hi Hj. unfold node_mobility, get_ns_node. destruct (Z.ltb_spec j 0); [done|]. cbn.
  rewrite list_lookup_alter_ne by lia. done.
Qed.
(** The motions of one drag. *)
Definition drag_motions (i : Z) (d : option drag_state) (net : network) (pointers : list (Q * Q)) : stx scene exn network :=
  fold_st (λ net c, r ← node_drag_motion i c d net; mret r.2) net pointers.
(** Where a drag that began at [c0] puts the node that was at [p0]. *)
Definition dragged (p0 c0 c : Q * Q) : Q * Q := (p0.1 + (c.1 - c0.1) / PIXELS_PER_METER, p0.2 + (c.2 - c0.2) / PIXELS_PER_METER)%Q.

Lemma drag_motion_runs i c d net s : links_ok s → is_Some (nodes s !! i) → is_Some (node_mobility net i) →
  runs (node_drag_motion i c (Some d) net) s (λ r s',
    r = (true, set_mobility i (dragged (sim0 d) (canvas0 d) c) net) ∧
    moved (AtNode i) (canvas_point (dragged (sim0 d) (canvas0 d) c)) s s').
Proof.
  intros Hok Hi [p Hp]. unfold node_drag_motion. rewrite Hp. unfold transform_point_simulation_to_canvas.
  eapply runs_bind; [by apply set_position_runs|]. cbn beta. intros _ s' Hm. apply runs_ret.
  split; [reflexivity|exact Hm].
Qed.
Lemma moved_moved e p p' s s1 s2 : moved e p s s1 → moved e p' s1 s2 → moved e p' s s2.
Proof.
  intros [M1 M2 M3 M4 M5] [N1 N2 N3 N4 N5]. constructor; [by etransitivity|by etransitivity| |eauto|auto].
  intros e'. rewrite N3, M3. by destruct (decide (e' = e)).
Qed.

Lemma drag_motions_run i p0 c0 c way net net1 s : links_ok s → is_Some (nodes s !! i) → (0 <= i)%Z →
  is_Some (node_mobility net1 i) → (∀ j, j ≠ i → node_mobility net1 j = node_mobility net j) →
  runs (drag_motions i (Some (NodeDragState c0 p0)) net1 (way ++ [c])) s (λ net' s',
    node_mobility net' i = Some (dragged p0 c0 c) ∧ (∀ j, j ≠ i → node_mobility net' j = node_mobility net j) ∧
    moved (AtNode i) (canvas_point (dragged p0 c0 c)) s s').
Proof.
  intros Hok Hi Hpos. revert s net1 Hok Hi. induction way as [|b way IH]; intros s net1 Hok Hi Hm Ho.
  - unfold drag_motions. cbn [app fold_st]. eapply runs_bind; [eapply runs_bind; [by apply drag_motion_runs|]|].
    + cbn beta. intros r s1 [-> Hmv].
      apply (runs_ret _ _ (λ n s', n = set_mobility i (dragged p0 c0 c) net1 ∧ moved (AtNode i) (canvas_point (dragged p0 c0 c)) s s')). done.
    + cbn beta. intros n s1 [-> Hmv]. apply runs_ret. split_and!; [by apply set_mobility_same| |done].
      intros j Hj. rewrite set_mobility_other by done. auto.
  - unfold drag_motions. cbn [app fold_st]. eapply runs_bind; [eapply runs_bind; [by apply drag_motion_runs|]|].
    + cbn beta. intros r s1 [-> Hmv].
      apply (runs_ret _ _ (λ n s', n = set_mobility i (dragged p0 c0 b) net1 ∧ moved (AtNode i) (canvas_point (dragged p0 c0 b)) s s')). done.
    + cbn beta. intros n s1 [-> Hmv]. eapply runs_weaken; [apply IH|].
      * eapply sk_links_ok; [apply Hmv|done].
      * eapply sk_exists; [apply Hmv|done].
      * rewrite set_mobility_same by done. by eexists.
      * intros j Hj. rewrite set_mobility_other by done. auto.
      * cbn beta. intros n s2 (? & ? & ?). split_and!; [done..|by eapply moved_moved].
Qed.

(** A node with a mobility model that is dragged follows the pointer: whatever way the pointer takes,
    the node ends displaced by what the pointer is displaced, in the simulation and on the canvas; no
    other node moves, the wires of the node follow it and no wire goes out of date. *)
Theorem drag_follows (i : Z) (p0 c0 c : Q * Q) (way : list (Q * Q)) (net : network) (s : scene) :
  links_ok s → is_Some (nodes s !! i) → (0 <= i)%Z → node_mobility net i = Some p0 →
  runs (drag_motions i (begin_node_drag i c0 net None) net (way ++ [c])) s (λ net' s',
    node_mobility net' i = Some (dragged p0 c0 c) ∧ (∀ j, j ≠ i → node_mobility net' j = node_mobility net j) ∧
    moved (AtNode i) (canvas_point (dragged p0 c0 c)) s s' ∧
    ((position s' (AtNode i)).1 == (canvas_point p0).1 + (c.1 - c0.1) ∧ (position s' (AtNode i)).2 == (canvas_point p0).2 + (c.2 - c0.2))%Q).
Proof.
  intros Hok Hi Hpos Hp. unfold begin_node_drag. rewrite Hp.
  eapply runs_weaken; [by apply (drag_motions_run i p0 c0 c way net net)|]. cbn beta.
  intros net' s' (H1 & H2 & H3). split_and!; [done..| |];
    rewrite (mv_position _ _ _ _ H3), decide_True by done; unfold canvas_point, dragged, PIXELS_PER_METER; cbn;
    unfold fmul, rnd, exact, PIXELS_PER_METER; field.
Qed.
End exact.

(** ** Concrete movements *)

Module MovesDemo.
#[export] Existing Instance exact.
(** A zoom of at most nine, as the adjustment of the window has it, and scroll bars without limits. *)
#[export] Program Instance demo_gtk : Gtk :=
  {| clamp_h := λ q, q; clamp_v := λ q, q; clamp_zoom := λ q, qmin q 9; origin := (0, 0)%Q |}.
Next Obligation. cbn. destruct (qmin_spec q 9) as [[H1 H2] [E|E]]; rewrite E in *; split; lra. Qed.
Definition mobile_pair : network := Network [NsNode (Some (1, 2)%Q) []; NsNode None []] (λ _, []).
End MovesDemo.
Import MovesDemo.


Lemma drag_follows_witness :
  runs (drag_motions 0 (begin_node_drag 0 (5, 5)%Q mobile_pair None) mobile_pair ([(6, 5)%Q] ++ [(8, 11)%Q])) two_nodes (λ net' s',
    node_mobility net' 0 = Some (dragged (1, 2) (5, 5) (8, 11))%Q).
Proof.
  eapply runs_weaken; [apply (drag_follows 0 (1, 2) (5, 5) (8, 11) [(6, 5)] mobile_pair two_nodes)%Q|].
  - apply two_nodes_ok.
  - by eexists.
  - reflexivity.
  - reflexivity.
  - cbn beta. intros net' s' (Hm & _). exact Hm.
Defined.
