(* ===== verification/BindScan.v ===== *)
(** * BindScan: what the scan of the headers decides

    [bindings/python/ns3modulescan-modular.py] scans the headers of one module with pybindgen and
    writes the script that later generates its Python bindings; for every C++ declaration pybindgen calls
    the hook [PreScanHook], which decides by annotations what is wrapped and how.
    [bindings/python/ns3modulescan.py] holds the table [type_annotations] that the hook consults and
    changes, and an older scan of all modules at once, which sorts the modules with [topsort].

    A declaration is the record [decl]; the dictionaries that the hook fills and the shared table are the
    record [hook_state].  pygccxml and the declarations found by name are the class [Templates]. *)

From stdpp Require Import base list strings gmap relations.
From Stdlib Require Import Ascii.
From S2P Require Import Prelude PyStr RadUtil Topsort TestJobs.
Open Scope nat_scope.

(** ** [os.path.split] and [get_ns3_relative_path] *)

Definition slash : ascii := "/"%char.
Fixpoint drop_slashes (l : list ascii) : list ascii :=
  match l with c :: r => if decide (c = slash) then drop_slashes r else l | [] => [] end.
Definition rstrip_slashes (s : string) : string := implode (reverse (drop_slashes (reverse (chars s)))).
(** [os.path.split(p)]: the slashes at the end of the head go, unless it is nothing else. *)
Definition path_split (p : string) : string * string :=
  match split_last slash p with
  | None => ("", p)
  | Some (a, tail) =>
      let head := a +:+ "/" in
      (if decide (Forall (.= slash) (chars head)) then head else rstrip_slashes head, tail)
  end.
(** [os.path.join] with any number of arguments needs at least one. *)
Definition join_all (l : list string) : py exn string :=
  match l with [] => Raise TypeError | x :: l => Ok (foldl Path.join x l) end.

Definition AssertionError : exn := Exception_ "AssertionError".
(** The loop; [strict] is the modular script, which stops when [os.path.split] makes no progress. *)
Fixpoint relative_loop (strict : bool) (fuel : nat) (head : string) (l : list string) : option (py exn string) :=
  match fuel with
  | 0 => None
  | S fuel =>
      if decide (head = "") then Some (Raise AssertionError) else
      let '(new_head, tail) := path_split head in
      if strict && bool_decide (new_head = head) then Some (Raise (ValueError ""))
      else if decide (tail = "ns3") then Some (join_all l)
      else relative_loop strict fuel new_head (tail :: l)
  end.
(** [get_ns3_relative_path] of the modular script; a path that is None or empty gives None. *)
Definition get_ns3_relative_path (path : option string) : py exn (option string) :=
  match path with
  | None | Some "" => Ok None
  | Some p => Some <$> default (Raise AssertionError) (relative_loop true (S (String.length p)) p [])
  end.

(** The same on a path that is given by its components: what follows the last component [ns3]. *)
Fixpoint after_last (x : string) (l : list string) : option (list string) :=
  match l with
  | [] => None
  | y :: l => match after_last x l with
              | Some r => Some r
              | None => if decide (y = x) then Some l else None
              end
  end.
Definition path_of (rooted : bool) (comps : list string) : string := (if rooted then "/" else "") +:+ join "/" comps.
Definition relative_to_ns3 (rooted : bool) (comps : list string) : py exn string :=
  match after_last "ns3" comps with
  | Some [] => Raise TypeError
  | Some l => Ok (join "/" l)
  | None => Raise (if rooted then ValueError "" else AssertionError)
  end.
Definition component (c : string) : Prop := c ≠ "" ∧ has_char slash c = false.

Example relative_example :
  get_ns3_relative_path (Some "/build/include/ns3/node.h") = Ok (Some "node.h") ∧
  get_ns3_relative_path (Some "/usr/include/x.h") = Raise (ValueError "") ∧
  get_ns3_relative_path (Some "x.h") = Raise AssertionError ∧
  get_ns3_relative_path (Some "/a/ns3/b//c.h") = Ok (Some "b/c.h") ∧ get_ns3_relative_path (Some "ns3/") = Ok (Some "").
Proof. vm_compute. by split_and!. Qed.

(** *** The loop ends *)

Lemma drop_slashes_length l : length (drop_slashes l) ≤ length l.
Proof. induction l as [|c l IH]; cbn; [done|]. case_decide; cbn; lia. Qed.
Lemma length_chars s : length (chars s) = String.length s.
Proof. induction s; cbn; auto. Qed.
Lemma length_implode l : String.length (implode l) = length l.
Proof. induction l; cbn; auto. Qed.
Lemma string_length_app a b : String.length (a +:+ b) = String.length a + String.length b.
Proof. by rewrite <-!length_chars, chars_app, length_app. Qed.
Lemma rstrip_slash s : rstrip_slashes (s +:+ "/") = rstrip_slashes s.
Proof. unfold rstrip_slashes. by rewrite chars_app, reverse_app. Qed.
Lemma rstrip_length s : String.length (rstrip_slashes s) ≤ String.length s.
Proof.
  unfold rstrip_slashes. rewrite length_implode, length_reverse, <-length_chars.
  etransitivity; [apply drop_slashes_length|]. by rewrite length_reverse.
Qed.
Lemma path_split_shorter p h t : path_split p = (h, t) → p ≠ "" → h = p ∨ String.length h < String.length p.
Proof.
  unfold path_split. destruct (split_last slash p) as [[a b]|] eqn:E.
  - apply split_last_Some in E as [-> _].
    case_decide as Ha; intros [= <- <-] _; rewrite string_length_app; cbn [String.length].
    + destruct b as [|c b]; [by left|]. right. rewrite string_length_app. cbn. lia.
    + right. rewrite rstrip_slash. pose proof (rstrip_length a). lia.
  - intros [= <- <-] Hp. right. destruct p; [done|cbn; lia].
Qed.
Lemma relative_loop_ends fuel head l : String.length head < fuel → is_Some (relative_loop true fuel head l).
Proof.
  revert head l. induction fuel as [|fuel IH]; intros head l Hl; [lia|]. cbn [relative_loop].
  case_decide as Hh; [by eexists|]. destruct (path_split head) as [h t] eqn:E.
  destruct (path_split_shorter _ _ _ E Hh) as [->|Hs].
  - rewrite bool_decide_true by done. by eexists.
  - case_bool_decide; [by eexists|]. cbn. case_decide; [by eexists|]. apply IH. lia.
Qed.

(** *** Paths by components *)

Lemma Forall_one {A} (P : A → Prop) x : Forall P [x] → P x.
Proof. apply Forall_singleton. Qed.
Lemma rstrip_clean s c : c ≠ slash → rstrip_slashes (s +:+ String c "") = s +:+ String c "".
Proof.
  intros Hc. unfold rstrip_slashes. rewrite chars_app, reverse_app. change (reverse (chars (String c ""))) with [c].
  cbn [app drop_slashes]. rewrite decide_False by done. rewrite reverse_cons, reverse_involutive.
  by rewrite implode_app, implode_chars.
Qed.
Lemma string_last s : s ≠ "" → ∃ r c, s = r +:+ String c "".
Proof.
  intros Hs. destruct (exists_last (l := chars s)) as (l & c & E); [by destruct s|].
  exists (implode l), c. rewrite <-(implode_chars s), E. by rewrite implode_app.
Qed.
Lemma rstrip_component s c : component c → rstrip_slashes (s +:+ c) = s +:+ c.
Proof.
  intros [Hne Hs]. destruct (string_last c Hne) as (r & d & ->). rewrite string_app_assoc. apply rstrip_clean.
  intros ->. rewrite has_char_app in Hs. cbn in Hs. by rewrite orb_true_r in Hs.
Qed.
Lemma path_join_snoc sep l x : l ≠ [] → join sep (l ++ [x]) = join sep l +:+ sep +:+ x.
Proof.
  intros Hl. induction l as [|y l IH]; [done|]. destruct l as [|z l]; [done|].
  change (join sep ((y :: z :: l) ++ [x])) with (y +:+ sep +:+ join sep ((z :: l) ++ [x])).
  rewrite IH by done. change (join sep (y :: z :: l)) with (y +:+ sep +:+ join sep (z :: l)).
  by rewrite !string_app_assoc.
Qed.
(** The head of a path with components is the path without the last one. *)
Lemma path_split_of rooted comps c : Forall component comps → component c →
  path_split (path_of rooted (comps ++ [c])) = (path_of rooted comps, c).
Proof.
  intros Hcs Hc. unfold path_split, path_of. induction comps as [|d comps _] using rev_ind; cbn [app].
  - cbn [join]. destruct rooted; cbn [String.append].
    + rewrite (proj2 (split_last_Some slash (String "/" c) "" c)) by (split; [done|apply Hc]).
      rewrite decide_True by (by repeat constructor). done.
    + rewrite (proj2 (split_last_None slash c)) by apply Hc. done.
  - set (p := (if rooted then "/" else "") +:+ join "/" (comps ++ [d])).
    assert ((if rooted then "/" else "") +:+ join "/" ((comps ++ [d]) ++ [c]) = p +:+ String slash c) as ->.
    { rewrite path_join_snoc by (by destruct comps). unfold p. change (String slash c) with ("/" +:+ c).
      by rewrite !string_app_assoc. }
    rewrite (proj2 (split_last_Some slash _ p c)) by (split; [done|apply Hc]).
    apply Forall_app in Hcs as [_ Hd%Forall_one].
    assert (∃ r, p = r +:+ d) as [r Er].
    { unfold p. destruct comps as [|y comps]; [by eexists|]. rewrite path_join_snoc by done.
      eexists. by rewrite !string_app_assoc. }
    rewrite Er, decide_False.
    + by rewrite rstrip_slash, (rstrip_component r d Hd).
    + rewrite !chars_app, !Forall_app. intros [[_ Hf] _]. destruct Hd as [Hne Hs].
      destruct d as [|e d]; [done|]. cbn in Hf. inversion_clear Hf; subst. cbn in Hs. done.
Qed.

Lemma after_last_snoc x l y : after_last x (l ++ [y]) = if decide (y = x) then Some [] else (λ r, r ++ [y]) <$> after_last x l.
Proof.
  induction l as [|z l IH]; cbn; [by case_decide|]. rewrite IH. case_decide; [done|].
  destruct (after_last x l); cbn; [done|]. by case_decide.
Qed.
Lemma join_component a c : (∃ r d, component d ∧ a = r +:+ d) → component c → Path.join a c = a +:+ "/" +:+ c.
Proof.
  intros (r & d & [Hd Hs] & ->) [Hc Hcs]. unfold Path.join. destruct (string_last d Hd) as (d' & x & ->).
  rewrite has_char_app in Hs. apply orb_false_iff in Hs as [_ Hx]. cbn in Hx.
  rewrite orb_false_r, bool_decide_eq_false in Hx.
  assert (startswith c "/" = false) as ->.
  { destruct (startswith c "/") eqn:E; [|done]. apply startswith_spec in E as [c' ->]. cbn in Hcs. done. }
  rewrite decide_False.
  - unfold Path.ends_slash. rewrite !chars_app. cbn [chars]. rewrite app_assoc, last_snoc.
    rewrite bool_decide_false by (intros ->; done). done.
  - intros E%(f_equal String.length). rewrite !string_length_app in E. cbn in E. lia.
Qed.
Lemma foldl_join a l : (∃ r d, component d ∧ a = r +:+ d) → Forall component l → foldl Path.join a l = join "/" (a :: l).
Proof.
  intros Ha Hl. revert a Ha. induction Hl as [|y l Hy Hl IH]; intros a Ha; [done|]. cbn [foldl].
  rewrite join_component by done. rewrite IH.
  - destruct l as [|z l]; [done|].
    change (join "/" (a :: y :: z :: l)) with (a +:+ "/" +:+ y +:+ "/" +:+ join "/" (z :: l)).
    change (join "/" ((a +:+ "/" +:+ y) :: z :: l)) with ((a +:+ "/" +:+ y) +:+ "/" +:+ join "/" (z :: l)).
    by rewrite !string_app_assoc.
  - exists (a +:+ "/"), y. split; [done|]. by rewrite string_app_assoc.
Qed.

Lemma path_of_nonempty rooted comps c : component c → path_of rooted (comps ++ [c]) ≠ "".
Proof.
  intros [Hc _] E. assert (String.length (path_of rooted (comps ++ [c])) = 0) as L by (by rewrite E).
  unfold path_of in L. rewrite string_length_app in L.
  assert (String.length c = 0); [|by destruct c]. destruct comps as [|y comps]; [cbn in L; lia|].
  rewrite path_join_snoc, !string_length_app in L by done. lia.
Qed.
Lemma path_of_proper rooted comps c : Forall component comps → component c → path_of rooted comps ≠ path_of rooted (comps ++ [c]).
Proof.
  intros _ [Hc _] E. apply (f_equal String.length) in E. unfold path_of in E. rewrite !string_length_app in E.
  assert (String.length c = 0); [|by destruct c]. destruct comps as [|y comps]; [cbn in E; lia|].
  rewrite path_join_snoc, !string_length_app in E by done. lia.
Qed.
(** The loop on the components that are left, with those after them collected. *)
Lemma relative_loop_of fuel rooted comps l : Forall component comps → Forall component l →
  length comps < fuel →
  relative_loop true fuel (path_of rooted comps) l =
    Some (match after_last "ns3" comps with
          | Some r => join_all (r ++ l)
          | None => Raise (if rooted then ValueError "" else AssertionError)
          end).
Proof.
  revert fuel l. induction comps as [|c comps IH] using rev_ind; intros fuel l Hcs Hl Hf;
    (destruct fuel as [|fuel]; [lia|]); cbn [relative_loop].
  - by destruct rooted.
  - apply Forall_app in Hcs as [Hcs Hc%Forall_one]. rewrite decide_False by (by apply path_of_nonempty).
    rewrite path_split_of by done. rewrite bool_decide_false by (by apply path_of_proper). cbn [andb].
    rewrite after_last_snoc. rewrite length_app in Hf. cbn in Hf. case_decide as Hn; [done|].
    rewrite IH; [|done|by constructor|lia]. destruct (after_last "ns3" comps); cbn; [|done]. by rewrite <-app_assoc.
Qed.
Lemma after_last_components x l r : Forall component l → after_last x l = Some r → Forall component r.
Proof.
  intros Hl. revert r. induction Hl as [|y l Hy Hl IH]; intros r; cbn; [done|].
  destruct (after_last x l); [by intros [= <-]; apply IH|]. case_decide; [|done]. by intros [= <-].
Qed.

(** C24: [get_ns3_relative_path] returns for every path.  On a path that is made of components it is the part
    after the last component [ns3]; it raises TypeError when nothing follows that one, and without one
    ValueError for an absolute path and AssertionError for a relative path. *)
Theorem get_ns3_relative_path_spec :
  (∀ p l, is_Some (relative_loop true (S (String.length p)) p l)) ∧
  ∀ rooted comps, Forall component comps → rooted = true ∨ comps ≠ [] →
    get_ns3_relative_path (Some (path_of rooted comps)) = Some <$> relative_to_ns3 rooted comps.
Proof.
  split; [intros p l; apply relative_loop_ends; lia|]. intros rooted comps Hcs Hne.
  assert (path_of rooted comps ≠ "") as Hp.
  { induction comps as [|c comps _] using rev_ind; [by destruct Hne as [->|]|].
    apply Forall_app in Hcs as [_ Hc%Forall_one]. by apply path_of_nonempty. }
  assert (length comps ≤ String.length (path_of rooted comps)) as Hlen.
  { clear Hne Hp. induction comps as [|c comps IH] using rev_ind; [cbn; lia|].
    apply Forall_app in Hcs as [Hcs [Hc _]%Forall_one]. specialize (IH Hcs). rewrite length_app.
    unfold path_of in *. rewrite string_length_app in *. assert (0 < String.length c) by (destruct c;
      [done|cbn; lia]).
    destruct comps as [|y comps]; [cbn in *; lia|]. rewrite path_join_snoc, !string_length_app by done.
    cbn [length] in *. lia. }
  pose proof (relative_loop_of (S (String.length (path_of rooted comps))) rooted comps [] Hcs ltac:(done) ltac:(lia)) as E.
  unfold get_ns3_relative_path. destruct (path_of rooted comps) as [|ch p] eqn:Ep; [done|]. rewrite E. cbn [default].
  unfold relative_to_ns3. destruct (after_last "ns3" comps) as [[|x r]|] eqn:Ea; [done| |done].
  rewrite app_nil_r. cbn [join_all]. pose proof (after_last_components _ _ _ Hcs Ea) as Hr.
  apply Forall_cons in Hr as [Hx Hr]. rewrite foldl_join; [done| |done]. by exists "", x.
Qed.

(** The older script has no test for progress: for an absolute path without [ns3] it does not end. *)
Lemma relative_loop_old rooted comps l fuel : rooted = true → Forall component comps → after_last "ns3" comps = None →
  relative_loop false fuel (path_of rooted comps) l = None.
Proof.
  intros -> Hcs Hn. revert comps l Hcs Hn. induction fuel as [|fuel IH]; intros comps l Hcs Hn; [done|].
  cbn [relative_loop].
  induction comps as [|c comps _] using rev_ind.
  - change (path_split (path_of true [])) with ("/", ""). cbn [andb]. rewrite decide_False by done.
    rewrite decide_False by done. by apply (IH []).
  - apply Forall_app in Hcs as [Hcs Hc%Forall_one]. rewrite decide_False by (by apply path_of_nonempty).
    rewrite path_split_of by done. cbn [andb]. rewrite after_last_snoc in Hn. case_decide; [done|].
    apply IH; [done|]. by destruct (after_last "ns3" comps).
Qed.

(** ** Declarations and annotations *)

(** [repr] of a string of ASCII characters. *)
Definition hex_digit (n : nat) : ascii := default "0"%char (chars "0123456789abcdef" !! n).
Definition repr_char (q c : ascii) : string :=
  let n := nat_of_ascii c in
  if decide (c = q) then String "\" (String c "") else
  if decide (c = "\"%char) then "\\" else
  if decide (c = nl_char) then "\n" else if decide (n = 13) then "\r" else if decide (c = tab_char) then "\t" else
  if (n <? 32) || (n =? 127) then "\x" +:+ String (hex_digit (n / 16)) (String (hex_digit (n mod 16)) "") else String c "".
Definition repr (s : string) : string :=
  let q := if has_char "'" s && negb (has_char dq_char s) then dq_char else "'"%char in
  String q (concat_str (repr_char q <$> chars s) +:+ String q "").
Definition repr_list (l : list string) : string := "[" +:+ join ", " (repr <$> l) +:+ "]".

(** The classes of pygccxml that the hook tells apart; the other kinds of calls have arguments too. *)
Inductive decl_kind := Class_ | Enumeration | FreeFunction | MemberFunction (parent : string) | Constructor | OtherCall | OtherDecl.
#[global] Instance decl_kind_eq_dec : EqDecision decl_kind.
Proof. solve_decision. Defined.
(** [defaults] are the default values of the arguments. *)
Record decl := Decl {
  kind : decl_kind; decl_name : string; file_name : option string; decl_text : string; decl_string : string;
  defaults : list (option string) }.

(** pygccxml: the arguments of a template by its text, whether a text is an instance of a template, the parameters
    of an instance, and the file of the declaration that a name stands for, if it stands for one. *)
Class Templates := {
  template_args : string → list string;
  is_instantiation : string → bool;
  template_parameters : string → list string;
  find_declaration : string → option (option string)
}.

Inductive annotation := NoValue | True_ | Text (s : string) | Params (m : gmap string (gmap string string)).
#[global] Instance annotation_eq_dec : EqDecision annotation.
Proof. solve_decision. Defined.
Abbreviation annotations := (gmap string annotation).

(** [type_annotations] of [ns3modulescan.py]. *)
Definition type_annotations : gmap string annotations := list_to_map [
  ("::ns3::AttributeChecker",
    {[ "automatic_type_narrowing" := Text "true"; "allow_subclassing" := Text "false" ]});
  ("::ns3::AttributeValue",
    {[ "automatic_type_narrowing" := Text "true"; "allow_subclassing" := Text "false" ]});
  ("::ns3::CommandLine",
    {[ "allow_subclassing" := Text "true" ]});
  ("::ns3::NscTcpL4Protocol",
    {[ "ignore" := Text "true" ]});
  ("ns3::RandomVariable::RandomVariable(ns3::RandomVariableBase const & variable) [constructor]",
    {[ "ignore" := NoValue ]});
  ("ns3::RandomVariableBase * ns3::RandomVariable::Peek() const [member function]",
    {[ "ignore" := NoValue ]});
  ("void ns3::RandomVariable::GetSeed(uint32_t * seed) const [member function]",
    {[ "params" := Params {[ "seed" := {[ "direction" := "out"; "array_length" := "6" ]} : gmap string string ]} ]});
  ("bool ns3::TypeId::LookupAttributeByName(std::string name, ns3::TypeId::AttributeInformation * info) const [member function]",
    {[ "params" := Params {[ "info" := {[ "transfer_ownership" := "false" ]} : gmap string string ]} ]});
  ("static bool ns3::TypeId::LookupByNameFailSafe(std::string name, ns3::TypeId * tid) [member function]",
    {[ "ignore" := NoValue ]});
  ("bool ns3::TraceSourceAccessor::ConnectWithoutContext(ns3::ObjectBase * obj, ns3::CallbackBase const & cb) const [member function]",
    {[ "params" := Params {[ "obj" := {[ "transfer_ownership" := "false" ]} : gmap string string ]} ]});
  ("bool ns3::TraceSourceAccessor::Connect(ns3::ObjectBase * obj, std::string context, ns3::CallbackBase const & cb) const [member function]",
    {[ "params" := Params {[ "obj" := {[ "transfer_ownership" := "false" ]} : gmap string string ]} ]});
  ("bool ns3::TraceSourceAccessor::DisconnectWithoutContext(ns3::ObjectBase * obj, ns3::CallbackBase const & cb) const [member function]",
    {[ "params" := Params {[ "obj" := {[ "transfer_ownership" := "false" ]} : gmap string string ]} ]});
  ("bool ns3::TraceSourceAccessor::Disconnect(ns3::ObjectBase * obj, std::string context, ns3::CallbackBase const & cb) const [member function]",
    {[ "params" := Params {[ "obj" := {[ "transfer_ownership" := "false" ]} : gmap string string ]} ]});
  ("bool ns3::AttributeAccessor::Set(ns3::ObjectBase * object, ns3::AttributeValue const & value) const [member function]",
    {[ "params" := Params {[ "object" := {[ "transfer_ownership" := "false" ]} : gmap string string ]} ]});
  ("ns3::EmpiricalVariable::EmpiricalVariable(ns3::RandomVariableBase const & variable) [constructor]",
    {[ "ignore" := NoValue ]});
  ("static ns3::AttributeList * ns3::AttributeList::GetGlobal() [member function]",
    {[ "caller_owns_return" := Text "false" ]});
  ("void ns3::CommandLine::Parse(int argc, char * * argv) const [member function]",
    {[ "ignore" := NoValue ]});
  ("extern void ns3::PythonCompleteConstruct(ns3::Ptr<ns3::Object> object, ns3::TypeId typeId, ns3::AttributeList const & attributes) [free function]",
    {[ "ignore" := NoValue ]});
  ("ns3::Ptr<ns3::Ipv4RoutingProtocol> ns3::Ipv4ListRouting::GetRoutingProtocol(uint32_t index, int16_t & priority) const [member function]",
    {[ "params" := Params {[ "priority" := {[ "direction" := "out" ]} : gmap string string ]} ]});
  ("ns3::Ipv4RoutingTableEntry * ns3::GlobalRouter::GetInjectedRoute(uint32_t i) [member function]",
    {[ "params" := Params {[ "return" := {[ "caller_owns_return" := "false" ]} : gmap string string ]} ]});
  ("ns3::Ipv4RoutingTableEntry * ns3::Ipv4GlobalRouting::GetRoute(uint32_t i) const [member function]",
    {[ "params" := Params {[ "return" := {[ "caller_owns_return" := "false" ]} : gmap string string ]} ]});
  ("::ns3::TestCase",
    {[ "ignore" := Text "true" ]});
  ("::ns3::TestRunner",
    {[ "ignore" := Text "true" ]});
  ("::ns3::TestSuite",
    {[ "ignore" := Text "true" ]})].

(** The table that all calls share, the two dictionaries of one call, and the default values of the declaration, which
    the hook corrects in place. *)
Record hook_state := HookState {
  table : gmap string annotations; global_annotations : annotations;
  parameter_annotations : gmap string (gmap string string); arguments : list (option string) }.

Section hook.
Context `{!Templates} (headers_map : gmap string string) (module : string).

Definition annotate (k : string) (v : annotation) : stx hook_state exn unit :=
  modify_st (λ s, HookState (table s) (<[k := v]> (global_annotations s)) (parameter_annotations s) (arguments s)).
Definition update_annotations (m : annotations) : stx hook_state exn unit :=
  modify_st (λ s, HookState (table s) (m ∪ global_annotations s) (parameter_annotations s) (arguments s)).
Definition when (b : bool) (m : stx hook_state exn unit) : stx hook_state exn unit := if b then m else mret tt.

Definition is_call (d : decl) : bool :=
  match kind d with FreeFunction | MemberFunction _ | Constructor | OtherCall => true | _ => false end.
Definition is_member_of (parent : string) (d : decl) : bool :=
  match kind d with MemberFunction p => bool_decide (p = parent) | _ => false end.

(** The methods that are wrapped by hand. *)
Definition annotate_methods (d : decl) : stx hook_state exn unit :=
  _ ← when (is_member_of "Object" d && bool_decide (decl_name d = "GetObject") && bool_decide (template_args (decl_text d) = ["ns3::Object"]))
        (annotate "template_instance_names" (Text "ns3::Object=>GetObject"));
  _ ← when (is_member_of "Simulator" d && startswith (decl_name d) "Schedule") (annotate "ignore" NoValue);
  when (is_member_of "Simulator" d && bool_decide (decl_name d = "Run")) (annotate "ignore" True_).

(** Default values that gccxml reports without their argument. *)
Definition fix_default (v : option string) : option string :=
  match v with
  | Some "ns3::MilliSeconds( )" => Some "ns3::MilliSeconds(0)"
  | Some "ns3::Seconds( )" => Some "ns3::Seconds(0)"
  | _ => v
  end.
Definition fix_defaults (d : decl) : stx hook_state exn unit :=
  when (is_call d) (modify_st (λ s, HookState (table s) (global_annotations s) (parameter_annotations s) (fix_default <$> arguments s))).

(** The modules of the parameters of a template that are found and lie below [ns3]. *)
Definition add_parameter_module (l : list string) (p : string) : py exn (list string) :=
  match find_declaration p with
  | None => Ok l
  | Some f => match get_ns3_relative_path f with
              | Raise (ValueError _) => Ok l
              | Raise e => Raise e
              | Ok None => Raise KeyError
              | Ok (Some h) => m ← or_raise KeyError (headers_map !! h); Ok (l ++ [m])
              end
  end.
Definition module_of_class (d : decl) (definition_module : string) : py exn string :=
  if is_instantiation (decl_string d) then
    l ← py_foldl add_parameter_module [] (template_parameters (decl_name d));
    Ok (if decide (module ∈ l) then module else definition_module)
  else Ok definition_module.

(** The part for classes; the result is the module and whether the hook is finished. *)
Definition annotate_class (d : decl) (definition_module : string) : stx hook_state exn (string * bool) :=
  m ← lift_py (module_of_class d definition_module);
  _ ← when (negb (bool_decide (m = module))) (annotate "import_from_module" (Text ("ns." +:+ replace_all "-" "_" m)));
  let ds := decl_string d in
  if startswith ds "::ns3::SimpleRefCount<" then
    _ ← annotate "incref_method" (Text "Ref");
    _ ← annotate "decref_method" (Text "Unref");
    _ ← annotate "peekref_method" (Text "GetReferenceCount");
    _ ← annotate "automatic_type_narrowing" (Text "true");
    mret (m, true)
  else if startswith ds "::ns3::Callback<" then _ ← annotate "ignore" NoValue; mret (m, true)
  else if startswith ds "::ns3::TracedCallback<" then _ ← annotate "ignore" NoValue; mret (m, true)
  else if startswith ds "::ns3::Ptr<" then _ ← annotate "ignore" NoValue; mret (m, true)
  else
    s ← get_st;
    _ ← match table s !! ds with Some a => update_annotations a | None => mret tt end;
    mret (m, false).

(** The part for functions: whether the hook is finished. *)
Definition annotate_function (d : decl) (definition_module : string) : stx hook_state exn bool :=
  if negb (bool_decide (definition_module = module)) then _ ← annotate "ignore" NoValue; mret true
  else if bool_decide (decl_name d = "PeekPointer") then _ ← annotate "ignore" NoValue; mret true
  else mret false.

(** The entry of a call in the table: its [params] go to the parameters and are deleted from the table; a
    dictionary takes no update from anything else. *)
Definition annotate_from_table (d : decl) : stx hook_state exn unit :=
  s ← get_st;
  match table s !! decl_text d with
  | None => mret tt
  | Some a =>
      _ ← (match a !! "params" with
           | None => mret tt
           | Some (Params m) =>
               modify_st (λ s, HookState (<[decl_text d := delete "params" a]> (table s)) (global_annotations s)
                                 (m ∪ parameter_annotations s) (arguments s))
           | Some _ => raise_st TypeError
           end);
      update_annotations (delete "params" a)
  end.

(** [PreScanHook.__call__]. *)
Definition pre_scan_hook (d : decl) : stx hook_state exn unit :=
  match get_ns3_relative_path (file_name d) with
  | Raise (ValueError _) | Ok None => mret tt
  | Raise e => raise_st e
  | Ok (Some ns3_header) =>
      if decide (ns3_header = "") then mret tt else
      definition_module ← lift_py (or_raise KeyError (headers_map !! ns3_header));
      _ ← annotate "pygen_comment" (Text (ns3_header +:+ " (module " +:+ repr definition_module +:+ "): " +:+ decl_text d));
      _ ← annotate_methods d;
      _ ← fix_defaults d;
      '(definition_module, finished) ← (match kind d with Class_ => annotate_class d definition_module | _ => mret (definition_module, false) end);
      if finished : bool then mret tt else
      _ ← when (bool_decide (kind d = Enumeration) && negb (bool_decide (definition_module = module)))
            (annotate "import_from_module" (Text ("ns." +:+ definition_module)));
      finished ← (match kind d with FreeFunction => annotate_function d definition_module | _ => mret false end);
      if finished : bool then mret tt else
      match kind d with
      | FreeFunction | MemberFunction _ | Constructor => annotate_from_table d
      | _ => mret tt
      end
  end.
End hook.

(** ** What the hook decides *)

Section decisions.
Context `{!Templates} (headers_map : gmap string string) (module : string).

(** What the module of a declaration is meant to be.  A file lies in a module by the table of headers; a file that is
    not below [ns3] lies in none, and its declarations are passed over. *)
Definition lies_in (f : option string) (m : string) : Prop := ∃ h, get_ns3_relative_path f = Ok (Some h) ∧ headers_map !! h = Some m.
Definition outside (f : option string) : Prop := ∃ msg, get_ns3_relative_path f = Raise (ValueError msg).
(** The module of a parameter of a template is known, or the parameter has none. *)
Definition parameter_ok (p : string) : Prop :=
  ∀ f, find_declaration p = Some f → outside f ∨ ∃ m, lies_in f m.
Definition parameter_in (m p : string) : Prop := ∃ f, find_declaration p = Some f ∧ lies_in f m.
(** An instance of a template belongs to this module if one of its parameters does, and every other declaration to the
    module of its header. *)
Definition is_instance (d : decl) : Prop := kind d = Class_ ∧ is_instantiation (decl_string d) = true.
Inductive attributed (d : decl) : option string → Prop :=
| attributed_outside :
    outside (file_name d) ∨ get_ns3_relative_path (file_name d) = Ok None ∨ get_ns3_relative_path (file_name d) = Ok (Some "") →
    attributed d None
| attributed_header dm :
    get_ns3_relative_path (file_name d) ≠ Ok (Some "") → lies_in (file_name d) dm → ¬ is_instance d → attributed d (Some dm)
| attributed_here dm p :
    get_ns3_relative_path (file_name d) ≠ Ok (Some "") → lies_in (file_name d) dm → is_instance d →
    (∀ q, q ∈ template_parameters (decl_name d) → parameter_ok q) →
    p ∈ template_parameters (decl_name d) → parameter_in module p → attributed d (Some module)
| attributed_there dm :
    get_ns3_relative_path (file_name d) ≠ Ok (Some "") → lies_in (file_name d) dm → is_instance d →
    (∀ q, q ∈ template_parameters (decl_name d) → parameter_ok q) →
    (∀ q, q ∈ template_parameters (decl_name d) → ¬ parameter_in module q) → attributed d (Some dm).

(** The module that the code attributes a declaration to; [None] when it is passed over. *)
Definition decl_module (d : decl) : py exn (option string) :=
  match get_ns3_relative_path (file_name d) with
  | Raise (ValueError _) | Ok None => Ok None
  | Raise e => Raise e
  | Ok (Some h) =>
      if decide (h = "") then Ok None else
      dm ← or_raise KeyError (headers_map !! h);
      Some <$> (match kind d with Class_ => module_of_class headers_map module d dm | _ => Ok dm end)
  end.

(** *** The code attributes a declaration as it is meant to *)

Lemma parameter_step l p :
  parameter_ok p ∧ (∃ l', add_parameter_module headers_map l p = Ok l' ∧ ∀ m, m ∈ l' ↔ m ∈ l ∨ parameter_in m p) ∨
  ¬ parameter_ok p ∧ ∃ e, add_parameter_module headers_map l p = Raise e.
Proof.
  unfold add_parameter_module, parameter_ok, parameter_in, lies_in, outside.
  destruct (find_declaration p) as [f|] eqn:Ef; [|left; split; [done|]; exists l; split; [done|]; intros m;
    split; [by left|by intros [?|(f & ? & _)]]].
  destruct (get_ns3_relative_path f) as [[h|]|e] eqn:Eh.
  - destruct (headers_map !! h) as [m|] eqn:Em; cbn.
    + left. split; [intros ? [= <-]; right; by exists m, h|]. eexists. split; [done|].
      intros m'. rewrite elem_of_app, list_elem_of_singleton. split; (intros [?|Hr]; [by left|right]).
      * subst m'. by exists f; split; [|exists h].
      * destruct Hr as (f' & [= <-] & h' & E1 & E2). congruence.
    + right. split; [|by eexists]. intros Hp. destruct (Hp f eq_refl) as [[msg E]|(m & h' & E & Em')]; congruence.
  - right. split; [|by eexists]. intros Hp. destruct (Hp f eq_refl) as [[msg E]|(m & h' & E & Em')]; congruence.
  - assert ((∃ msg, e = ValueError msg) ∨ ¬ ∃ msg, e = ValueError msg) as [[msg ->]|Hn]
      by (destruct e; first [by left; eexists|by right; intros [? [=]]]).
    + left. split; [intros ? [= <-]; left; by exists msg|]. exists l. split; [done|].
      intros m. split; [by left|]. intros [?|(f' & [= <-] & h' & E1 & E2)]; [done|congruence].
    + right. split; [|destruct e; first [by eexists|by destruct Hn; eexists]].
      intros Hp. destruct (Hp f eq_refl) as [[msg E]|(m & h' & E & Em')]; [|congruence]. apply Hn. exists msg.
      congruence.
Qed.
Lemma parameters_run ps l :
  (∀ p, p ∈ ps → parameter_ok p) ∧
    (∃ l', py_foldl (add_parameter_module headers_map) l ps = Ok l' ∧ ∀ m, m ∈ l' ↔ m ∈ l ∨ ∃ p, p ∈ ps ∧ parameter_in m p) ∨
  (∃ p, p ∈ ps ∧ ¬ parameter_ok p) ∧ ∃ e, py_foldl (add_parameter_module headers_map) l ps = Raise e.
Proof.
  revert l. induction ps as [|p ps IH]; intros l; cbn.
  { left. split; [by intros ? ?%elem_of_nil|]. exists l. split; [done|]. set_solver. }
  destruct (parameter_step l p) as [(Hp & l1 & -> & H1)|[Hp [e ->]]]; cbn.
  2: { right. split; [exists p; split; [by left|done]|by eexists]. }
  destruct (IH l1) as [(Hps & l' & -> & H2)|[(q & Hq & Hnq) He]].
  - left. split; [intros q [->|Hq]%elem_of_cons; auto|]. exists l'. split; [done|]. intros m. rewrite H2, H1.
    set_solver.
  - right. split; [|done]. exists q. split; [by right|done].
Qed.
Lemma attributed_iff d om : attributed d om ↔ decl_module d = Ok om.
Proof.
  unfold decl_module, module_of_class. split.
  - intros Ha. destruct Ha as [Ho|dm Hne (h & Eh & Em) Hni|dm p Hne (h & Eh & Em) [Hk Hi] Hok Hp Hin|dm Hne (h & Eh & Em) [Hk Hi] Hok Hnin].
    + destruct Ho as [[msg ->]|[-> | ->]]; done.
    + rewrite Eh. rewrite decide_False by congruence. rewrite Em. cbn.
      destruct (kind d) eqn:Ek; cbn; try done. destruct (is_instantiation (decl_string d)) eqn:Ei; [|done].
      by destruct Hni.
    + rewrite Eh. rewrite decide_False by congruence. rewrite Em, Hk, Hi. cbn.
      destruct (parameters_run (template_parameters (decl_name d)) []) as [(_ & l & -> & Hl)|[(q & Hq & Hnq) _]].
      * cbn. rewrite decide_True; [done|]. apply Hl. right. by exists p.
      * by destruct Hnq; apply Hok.
    + rewrite Eh. rewrite decide_False by congruence. rewrite Em, Hk, Hi. cbn.
      destruct (parameters_run (template_parameters (decl_name d)) []) as [(_ & l & -> & Hl)|[(q & Hq & Hnq) _]].
      * cbn. rewrite decide_False; [done|]. intros [?%elem_of_nil|(q & Hq & Hin)]%Hl; [done|]. by apply (Hnin q).
      * by destruct Hnq; apply Hok.
  - destruct (get_ns3_relative_path (file_name d)) as [[h|]|e] eqn:Eh.
    + case_decide as Eh'; [intros [= <-]; constructor; subst h; auto|].
      destruct (headers_map !! h) as [dm|] eqn:Em; [|done]. cbn.
      assert (get_ns3_relative_path (file_name d) ≠ Ok (Some "")) as Hne by congruence.
      assert (lies_in (file_name d) dm) as Hl by (by exists h).
      destruct (decide (kind d = Class_)) as [Hk|Hk].
      2: { intros Hm. assert (om = Some dm) as -> by (destruct (kind d); simplify_eq/=; congruence).
           eapply attributed_header; [done..|]. by intros []. }
      rewrite Hk. destruct (is_instantiation (decl_string d)) eqn:Ei; cbn.
      2: { intros [= <-]. eapply attributed_header; [done..|]. intros [_ E]. congruence. }
      destruct (parameters_run (template_parameters (decl_name d)) []) as [(Hok & l & -> & Hps)|[_ [e ->]]]; [|done].
      cbn. case_decide as Hin; intros [= <-].
      * apply Hps in Hin as [?%elem_of_nil|(p & Hp & Hpm)]; [done|]. by eapply attributed_here.
      * eapply attributed_there; try done. intros q Hq Hqm. apply Hin, Hps. right. by exists q.
    + intros [= <-]. constructor. auto.
    + destruct e; intros [= <-]. constructor. left. by eexists.
Qed.

Definition has_ignore (tbl : gmap string annotations) (k : string) : bool := bool_decide (is_Some (tbl !! k ≫= lookup "ignore")).
(** Whether the entry of the declaration in the table is used for its parameters. *)
Definition consults (om : option string) (d : decl) : bool :=
  match om, kind d with
  | Some m, FreeFunction => bool_decide (m = module) && negb (bool_decide (decl_name d = "PeekPointer"))
  | Some _, (MemberFunction _ | Constructor) => true
  | _, _ => false
  end.
(** Whether the declaration is left out of the bindings. *)
Definition left_out (tbl : gmap string annotations) (om : option string) (d : decl) : bool :=
  match om, kind d with
  | Some _, MemberFunction p =>
      bool_decide (p = "Simulator") && (startswith (decl_name d) "Schedule" || bool_decide (decl_name d = "Run")) || has_ignore tbl (decl_text d)
  | Some _, Constructor => has_ignore tbl (decl_text d)
  | Some m, FreeFunction => negb (consults om d) || has_ignore tbl (decl_text d)
  | Some _, Class_ =>
      negb (startswith (decl_string d) "::ns3::SimpleRefCount<") &&
      (startswith (decl_string d) "::ns3::Callback<" || startswith (decl_string d) "::ns3::TracedCallback<" ||
       startswith (decl_string d) "::ns3::Ptr<" || has_ignore tbl (decl_string d))
  | _, _ => false
  end.
(** The Python module that the declaration is imported from. *)
Definition imported_from (om : option string) (d : decl) : option annotation :=
  match om, kind d with
  | Some m, Class_ => if decide (m = module) then None else Some (Text ("ns." +:+ replace_all "-" "_" m))
  | Some m, Enumeration => if decide (m = module) then None else Some (Text ("ns." +:+ m))
  | _, _ => None
  end.
Definition params_of (tbl : gmap string annotations) (k : string) : gmap string (gmap string string) :=
  match tbl !! k ≫= lookup "params" with Some (Params m) => m | _ => ∅ end.

Definition table_ok (tbl : gmap string annotations) : Prop :=
  ∀ k a, tbl !! k = Some a → a !! "import_from_module" = None ∧ ∀ v, a !! "params" = Some v → ∃ m, v = Params m.
Definition table_after (tbl : gmap string annotations) (om : option string) (d : decl) : gmap string annotations :=
  if consults om d then alter (delete "params") (decl_text d) tbl else tbl.

(** What one call of the hook leaves. *)
Record decided (tbl : gmap string annotations) (om : option string) (d : decl) (s : hook_state) : Prop := {
  dc_ignore : is_Some (global_annotations s !! "ignore") ↔ left_out tbl om d = true;
  dc_import : global_annotations s !! "import_from_module" = imported_from om d;
  dc_params : parameter_annotations s = if consults om d then params_of tbl (decl_text d) else ∅;
  dc_table : table s = table_after tbl om d;
  dc_arguments : arguments s = if bool_decide (is_Some om) && is_call d then fix_default <$> defaults d else defaults d
}.

Lemma entry_update (a g : annotations) : a !! "import_from_module" = None →
  (a ∪ g) !! "import_from_module" = g !! "import_from_module" ∧
  (is_Some ((a ∪ g) !! "ignore") ↔ is_Some (g !! "ignore") ∨ bool_decide (is_Some (a !! "ignore")) = true).
Proof.
  intros Hi. rewrite !lookup_union, Hi. split; [by destruct (g !! _)|].
  rewrite union_is_Some, bool_decide_eq_true. tauto.
Qed.
Lemma from_table_run tbl ga ar d : table_ok tbl →
  ∃ s, annotate_from_table d (HookState tbl ga ∅ ar) = (Ok tt, s) ∧
    table s = alter (delete "params") (decl_text d) tbl ∧ parameter_annotations s = params_of tbl (decl_text d) ∧ arguments s = ar ∧
    global_annotations s !! "import_from_module" = ga !! "import_from_module" ∧
    (is_Some (global_annotations s !! "ignore") ↔ is_Some (ga !! "ignore") ∨ has_ignore tbl (decl_text d) = true).
Proof.
  intros Hok. unfold annotate_from_table, params_of, has_ignore, update_annotations, mbind, stx_bind, get_st, modify_st, mret, stx_ret. cbn.
  destruct (tbl !! decl_text d) as [a|] eqn:Ea; cbn.
  - destruct (Hok _ _ Ea) as [Hi Hp].
    assert (∀ g : annotations, (delete "params" a ∪ g) !! "import_from_module" = g !! "import_from_module" ∧
      (is_Some ((delete "params" a ∪ g) !! "ignore") ↔ is_Some (g !! "ignore") ∨ bool_decide (is_Some (a !! "ignore")) = true)) as Hg.
    { intros g. rewrite <-(lookup_delete_ne a "params" "ignore") by done. apply entry_update.
      by rewrite lookup_delete_ne. }
    destruct (a !! "params") as [v|] eqn:Ev; cbn.
    + destruct (Hp v eq_refl) as [m ->]. eexists. split; [reflexivity|]. cbn.
      split_and!; [|by rewrite map_union_empty|done|apply Hg|apply Hg].
      apply map_eq. intros k. destruct (decide (k = decl_text d)) as [->|Hk].
      * by rewrite lookup_insert_eq, lookup_alter_eq, Ea.
      * by rewrite lookup_insert_ne, lookup_alter_ne.
    + eexists. split; [reflexivity|]. cbn. split_and!; [|done|done|apply Hg|apply Hg].
      symmetry. apply alter_id. intros a' Ha'. rewrite Ea in Ha'. injection Ha' as <-. by apply delete_id.
  - eexists. split; [reflexivity|]. cbn. split_and!; try done; [symmetry; apply alter_id; by rewrite Ea|].
    split; [by left|]. by intros [?|Hf].
Qed.

Ltac hook_eval := unfold annotate, update_annotations, when, get_st, modify_st, lift_py, raise_st, mbind, stx_bind, mret, stx_ret; cbn.

(** The steps that all kinds share, on fresh dictionaries. *)
Definition method_ignored (d : decl) : bool :=
  is_member_of "Simulator" d && (startswith (decl_name d) "Schedule" || bool_decide (decl_name d = "Run")).
Lemma methods_run d tbl c ar : ∃ ga, 
  (_ ← annotate "pygen_comment" c; _ ← annotate_methods d; fix_defaults d) (HookState tbl ∅ ∅ ar) =
    (Ok tt, HookState tbl ga ∅ (if is_call d then fix_default <$> ar else ar)) ∧
  ga !! "import_from_module" = None ∧ (is_Some (ga !! "ignore") ↔ method_ignored d = true).
Proof.
  unfold annotate_methods, fix_defaults, method_ignored. hook_eval.
  destruct (_ && bool_decide (template_args _ = _));
    destruct (is_member_of "Simulator" d), (startswith (decl_name d) "Schedule"),
    (bool_decide (decl_name d = "Run")), (is_call d); cbn; eexists; (split; [reflexivity|]); (split;
      [by simplify_map_eq|]);
    (split; [|intros E; try discriminate E; simplify_map_eq; by eexists]); intros [v Hv]; by simplify_map_eq.
Qed.
Lemma after_three {S A} (a b c : stx S exn unit) (rest : stx S exn A) s s1 :
  (_ ← a; _ ← b; c) s = (Ok tt, s1) → (_ ← a; _ ← b; _ ← c; rest) s = rest s1.
Proof.
  unfold mbind, stx_bind. destruct (a s) as [[[]|e] sa]; [|done]. destruct (b sa) as [[[]|e] sb]; [|done].
  destruct (c sb) as [[[]|e] sc]; [|done]. by intros [= <-].
Qed.

(** The part for classes. *)
Lemma class_run tbl ga ar d dm m : table_ok tbl → module_of_class headers_map module d dm = Ok m →
  is_call d = false → kind d = Class_ → ga !! "import_from_module" = None → ¬ is_Some (ga !! "ignore") →
  ∃ b s, annotate_class headers_map module d dm (HookState tbl ga ∅ ar) = (Ok (m, b), s) ∧
    table s = tbl ∧ parameter_annotations s = ∅ ∧ arguments s = ar ∧
    global_annotations s !! "import_from_module" = imported_from (Some m) d ∧
    (is_Some (global_annotations s !! "ignore") ↔ left_out tbl (Some m) d = true).
Proof.
  intros Hok Hm _ Hk Hi Hg. unfold annotate_class, imported_from, left_out. rewrite Hk. hook_eval. rewrite Hm.
  assert (ga !! "ignore" = None) as Hn by (by apply eq_None_not_Some).
  case_bool_decide as Em; [rewrite decide_True by done|rewrite decide_False by done]; cbn;
    destruct (startswith (decl_string d) "::ns3::SimpleRefCount<"), (startswith (decl_string d) "::ns3::Callback<"),
      (startswith (decl_string d) "::ns3::TracedCallback<"), (startswith (decl_string d) "::ns3::Ptr<");
    cbn; try (do 2 eexists; split; [reflexivity|]; cbn; split_and!; [done..| |];
      [by simplify_map_eq|]; simplify_map_eq; split; [try done; by intros []|done]).
  all: unfold has_ignore; destruct (tbl !! decl_string d) as [a|] eqn:Ea; cbn; do 2 eexists; (split;
    [reflexivity|]); cbn;
    (split_and!; [done..| |]).
  all: try (destruct (Hok _ _ Ea) as [Hai _]; destruct (entry_update a ga Hai) as [E1 E2];
    destruct (entry_update a (<["import_from_module":=Text ("ns." +:+ replace_all "-" "_" m)]> ga) Hai) as [E3 E4]).
  all: try first [by rewrite E1|by rewrite E3; simplify_map_eq|by simplify_map_eq].
  all: first [rewrite E2|rewrite E4, lookup_insert_ne by done]; rewrite Hn; split; [|by right];
    intros [[? [=]]|?]; done.
Qed.

(** A call that gets as far as the table. *)
Lemma table_decided tbl ga d m : table_ok tbl → consults (Some m) d = true → is_call d = true →
  imported_from (Some m) d = None → ga !! "import_from_module" = None →
  (left_out tbl (Some m) d = true ↔ is_Some (ga !! "ignore") ∨ has_ignore tbl (decl_text d) = true) →
  ∃ s, annotate_from_table d (HookState tbl ga ∅ (fix_default <$> defaults d)) = (Ok tt, s) ∧ decided tbl (Some m) d s.
Proof.
  intros Hok Hc Hd Hi Hgi Hl.
  destruct (from_table_run tbl ga (fix_default <$> defaults d) d Hok) as (s & Hr & T1 & T2 & T3 & T4 & T5).
  exists s. split; [exact Hr|].
  split; unfold table_after; rewrite ?Hc, ?Hd; try done; [by rewrite T5, Hl|by rewrite T4, Hi].
Qed.

Lemma hook_run tbl om d : table_ok tbl → decl_module d = Ok om →
  ∃ s, pre_scan_hook headers_map module d (HookState tbl ∅ ∅ (defaults d)) = (Ok tt, s) ∧ decided tbl om d s.
Proof.
  intros Hok Hm. unfold pre_scan_hook, decl_module in *.
  assert (∀ o, o = None → om = o → ∃ s, (mret () : stx hook_state exn ()) (HookState tbl ∅ ∅ (defaults d)) = (Ok (), s) ∧ decided tbl om d s) as Hskip.
  { intros o -> ->. eexists. split; [reflexivity|]. split; cbn; try done. by split; [intros []|]. }
  destruct (get_ns3_relative_path (file_name d)) as [[h|]|e] eqn:Er; [|by apply (Hskip None); simplify_eq|].
  2: { destruct e; simplify_eq. by apply (Hskip None). }
  case_decide; [by apply (Hskip None); simplify_eq|].
  destruct (headers_map !! h) as [dm|] eqn:Eh; [|done]. cbn [or_raise mbind py_bind] in *.
  assert (∀ A (f : string → stx hook_state exn A) s, (lift_py (Ok dm) ≫= f) s = f dm s) as -> by done.
  destruct (methods_run d tbl (Text (h +:+ " (module " +:+ repr dm +:+ "): " +:+ decl_text d)) (defaults d)) as (ga & Hrun & Hgi & Hgn).
  rewrite (after_three _ _ _ _ _ _ Hrun). clear Hrun.
  assert (∃ m, om = Some m ∧ (match kind d with Class_ => module_of_class headers_map module d dm | _ => Ok dm end) = Ok m) as (m & -> & Hmod).
  { destruct (match kind d with Class_ => _ | _ => _ end); [|done]. cbn in Hm. injection Hm as <-. by eexists. }
  clear Hm Hskip. unfold method_ignored, is_member_of, is_call in Hgn. unfold is_call.
  destruct (kind d) as [| | |p| | |] eqn:Ek; cbn [andb] in *; [|injection Hmod as ->..].
  - destruct (class_run tbl ga (defaults d) d dm m) as (b & s & Hr & T1 & T2 & T3 & T4 & T5);
      [done..|by unfold is_call; rewrite Ek|done|done|by rewrite Hgn|].
    exists s. split; [|split; unfold table_after, consults, is_call; by rewrite ?Ek].
    unfold mbind at 1, stx_bind at 1. rewrite Hr. by destruct b.
  - hook_eval. destruct (bool_decide (m = module)) eqn:Em; cbn; eexists; (split; [reflexivity|]);
      split; unfold table_after, consults, is_call, imported_from, left_out; rewrite Ek; cbn; simplify_map_eq;
        try done;
      [apply bool_decide_eq_true in Em|apply bool_decide_eq_false in Em]; by case_decide.
  - unfold annotate_function. hook_eval.
    destruct (bool_decide (m = module)) eqn:Em; cbn;
      [destruct (bool_decide (decl_name d = "PeekPointer")) eqn:Ep; cbn|].
    2: { apply table_decided; unfold consults, is_call, imported_from, left_out, consults;
         rewrite ?Ek, ?Em, ?Ep; try done.
         cbn. rewrite Hgn. naive_solver. }
    all: eexists; (split; [reflexivity|]); split;
      unfold table_after, consults, is_call, imported_from, left_out, consults; rewrite ?Ek, ?Em, ?Ep; cbn;
      simplify_map_eq; try done; naive_solver.
  - apply table_decided; unfold consults, is_call, imported_from, left_out; rewrite ?Ek; try done.
    by rewrite Hgn, orb_true_iff.
  - apply table_decided; unfold consults, is_call, imported_from, left_out; rewrite ?Ek; try done. rewrite Hgn.
    naive_solver.
  - eexists. split; [reflexivity|].
    split; unfold table_after, consults, is_call, imported_from, left_out; rewrite Ek; done.
  - eexists. split; [reflexivity|].
    split; unfold table_after, consults, is_call, imported_from, left_out; rewrite Ek; done.
Qed.

(** *** A whole scan *)

(** pybindgen calls the hook for one declaration after the other, with new dictionaries each time; the table is
    shared. *)
Fixpoint scan_hooks (tbl : gmap string annotations) (ds : list decl) : py exn (list hook_state) :=
  match ds with
  | [] => Ok []
  | d :: ds =>
      match pre_scan_hook headers_map module d (HookState tbl ∅ ∅ (defaults d)) with
      | (Ok _, s) => rest ← scan_hooks (table s) ds; Ok (s :: rest)
      | (Raise e, _) => Raise e
      end
  end.

Lemma table_after_lookup tbl om d k : table_after tbl om d !! k =
  (λ a, if bool_decide (consults om d = true ∧ decl_text d = k) then delete "params" a else a) <$> tbl !! k.
Proof.
  unfold table_after. destruct (consults om d).
  - destruct (decide (decl_text d = k)) as [<-|Hk].
    + rewrite lookup_alter_eq. by rewrite bool_decide_true.
    + rewrite lookup_alter_ne, bool_decide_false by naive_solver. by destruct (tbl !! k).
  - rewrite bool_decide_false by naive_solver. by destruct (tbl !! k).
Qed.
Lemma table_after_ok tbl om d : table_ok tbl → table_ok (table_after tbl om d).
Proof.
  intros Hok k a. rewrite table_after_lookup. destruct (tbl !! k) as [a0|] eqn:E; [|done]. intros [= <-].
  destruct (Hok _ _ E) as [H1 H2]. case_bool_decide; [|done]. split; [by rewrite lookup_delete_ne|]. intros v.
  by rewrite lookup_delete_eq.
Qed.
Lemma has_ignore_after tbl om d k : has_ignore (table_after tbl om d) k = has_ignore tbl k.
Proof.
  unfold has_ignore. rewrite table_after_lookup. destruct (tbl !! k); [|done]. cbn.
  destruct (bool_decide (_ ∧ _)); [|done]. by rewrite lookup_delete_ne.
Qed.
Lemma left_out_after tbl om d om' d' : left_out (table_after tbl om d) om' d' = left_out tbl om' d'.
Proof. unfold left_out. by rewrite !has_ignore_after. Qed.
Lemma params_after tbl om d k : params_of (table_after tbl om d) k =
  if bool_decide (consults om d = true ∧ decl_text d = k) then ∅ else params_of tbl k.
Proof.
  unfold params_of. rewrite table_after_lookup. destruct (tbl !! k); cbn; [|by case_bool_decide].
  case_bool_decide; [by rewrite lookup_delete_eq|done].
Qed.

(** Whether a declaration before [i] has used the same entry. *)
Definition used_before (ds : list decl) (i : nat) (d : decl) : Prop :=
  ∃ j d' om', j < i ∧ ds !! j = Some d' ∧ attributed d' om' ∧ consults om' d' = true ∧ decl_text d' = decl_text d.
Lemma used_before_cons d om ds i d1 : decl_module d = Ok om →
  used_before (d :: ds) (S i) d1 ↔ consults om d = true ∧ decl_text d = decl_text d1 ∨ used_before ds i d1.
Proof.
  intros Hm. split.
  - intros ([|j] & d' & om' & Hj & Hd & Ha & Hc & Ht); cbn in Hd.
    + injection Hd as <-. apply attributed_iff in Ha. left. split; congruence.
    + right. exists j, d', om'. split_and!; try done. lia.
  - intros [[Hc Ht]|(j & d' & om' & Hj & Hd)].
    + exists 0, d, om. split_and!; try done; [lia|]. by apply attributed_iff.
    + exists (S j), d', om'. split; [lia|done].
Qed.
Lemma used_before_dec ds i d : used_before ds i d ∨ ¬ used_before ds i d.
Proof.
  revert i. induction ds as [|d' ds IH]; intros i.
  { right. by intros (j & ? & ? & _ & ? & _). }
  destruct i as [|i]; [right; intros (j & ? & ? & ? & _); lia|].
  destruct (decl_module d') as [om|e] eqn:Hm.
  - rewrite (used_before_cons d' om ds i d Hm). destruct (IH i) as [?|?]; [by left; right|].
    destruct (decide (consults om d' = true ∧ decl_text d' = decl_text d)); [by left; left|right; tauto].
  - destruct (IH i) as [(j & x & om & Hj & Hx)|Hn].
    + left. exists (S j), x, om. split; [lia|done].
    + right. intros ([|j] & x & om & Hj & Hx & Ha & Hr); cbn in Hx.
      * injection Hx as <-. apply attributed_iff in Ha. congruence.
      * apply Hn. exists j, x, om. split_and!; try done; [lia|apply Hr..].
Qed.
(** A declaration that cannot be attributed ends the scan. *)
Lemma hook_raises tbl d e : decl_module d = Raise e → ∃ s, pre_scan_hook headers_map module d (HookState tbl ∅ ∅ (defaults d)) = (Raise e, s).
Proof.
  intros Hm. unfold pre_scan_hook, decl_module in *.
  destruct (get_ns3_relative_path (file_name d)) as [[h|]|e'] eqn:Er; [|done|destruct e'; simplify_eq; by eexists].
  case_decide; [done|].
  destruct (headers_map !! h) as [dm|] eqn:Eh; [|cbn in Hm; injection Hm as <-; by eexists].
  cbn [or_raise mbind py_bind] in *.
  assert (∀ A (f : string → stx hook_state exn A) s, (lift_py (Ok dm) ≫= f) s = f dm s) as -> by done.
  destruct (methods_run d tbl (Text (h +:+ " (module " +:+ repr dm +:+ "): " +:+ decl_text d)) (defaults d)) as (ga & Hrun & _).
  rewrite (after_three _ _ _ _ _ _ Hrun). destruct (kind d); try done. unfold annotate_class. hook_eval.
  destruct (module_of_class headers_map module d dm); [done|]. cbn in Hm. injection Hm as <-. by eexists.
Qed.

(** C21: Over a whole scan in which every declaration can be attributed to a module or lies outside, the hook
    decides for each one as a table of the rules says: its module (that of its header, but this module for an
    instance of a template one of whose parameters is declared in it), whether it is left out, where it is
    imported from, and its default values; these do not depend on what was scanned before.  The annotations of
    parameters in the table are given to the first declaration with the text only, since the hook deletes them
    from the shared table.  A scan with a declaration that cannot be attributed ends with an exception. *)
Theorem scan_hooks_spec (tbl : gmap string annotations) (ds : list decl) :
  table_ok tbl →
  ((∀ d, d ∈ ds → ∃ om, attributed d om) →
   ∃ ss, scan_hooks tbl ds = Ok ss ∧ length ss = length ds ∧
    ∀ i d om s, ds !! i = Some d → attributed d om → ss !! i = Some s →
      (is_Some (global_annotations s !! "ignore") ↔ left_out tbl om d = true) ∧
      global_annotations s !! "import_from_module" = imported_from om d ∧
      (arguments s = if bool_decide (is_Some om) && is_call d then fix_default <$> defaults d else defaults d) ∧
      (consults om d = true → ¬ used_before ds i d → parameter_annotations s = params_of tbl (decl_text d)) ∧
      (consults om d = false ∨ used_before ds i d → parameter_annotations s = ∅)) ∧
  ((∃ d, d ∈ ds ∧ ∀ om, ¬ attributed d om) → ∃ e, scan_hooks tbl ds = Raise e).
Proof.
  revert tbl. induction ds as [|d ds IH]; intros tbl Hok.
  { split; [intros _; by exists []|]. by intros (d & ?%elem_of_nil & _). }
  destruct (decl_module d) as [om|e] eqn:Hm.
  2: { destruct (hook_raises tbl d e Hm) as [s Hr]. split; [|intros _; cbn [scan_hooks]; rewrite Hr; by eexists].
       intros Hds. destruct (Hds d) as [om Ha]; [by left|]. apply attributed_iff in Ha. congruence. }
  destruct (hook_run tbl om d Hok Hm) as (s & Hr & [D1 D2 D3 D4 D5]).
  destruct (IH (table_after tbl om d)) as [IH1 IH2]; [by apply table_after_ok|]. cbn [scan_hooks].
  rewrite Hr, D4. split.
  - intros Hds. destruct IH1 as (ss & -> & Hlen & Hss); [intros d' Hd'; apply Hds; by right|].
    exists (s :: ss). split; [done|]. split; [cbn; by rewrite Hlen|].
    intros [|i] d1 om1 s1 Hd Hm1 Hs; cbn in Hd, Hs; simplify_eq.
    + apply attributed_iff in Hm1. assert (om1 = om) as -> by congruence. do 3 (split; [done|]). rewrite D3.
      split; [by intros -> _|]. intros [-> | (j & ? & ? & ? & _)]; [done|lia].
    + destruct (Hss i d1 om1 s1) as (E1 & E2 & E3 & E4 & E5); [done..|]. rewrite left_out_after in E1.
      do 3 (split; [done|]).
      assert (used_before (d :: ds) (S i) d1 ↔ consults om d = true ∧ decl_text d = decl_text d1 ∨ used_before ds i d1) as Hu.
      { by apply used_before_cons. }
      rewrite Hu. rewrite params_after in E4. split.
      * intros Hc Hn. rewrite E4 by naive_solver. rewrite bool_decide_false by naive_solver. done.
      * intros [Hc|[Hh|Hb]]; [by apply E5; left| |by apply E5; right].
        destruct (used_before_dec ds i d1) as [Hb|Hnb]; [by apply E5; right|].
        destruct (consults om1 d1) eqn:Ec; [|by apply E5; left]. rewrite E4 by done. by rewrite bool_decide_true.
  - intros (d' & [->|Hd']%elem_of_cons & Hn); [by destruct (Hn om); apply attributed_iff|].
    destruct IH2 as [e ->]; [by exists d'|]. by exists e.
Qed.

(** ** The list of callback classes *)

Definition write (s : string) : stx string exn unit := modify_st (λ f, f +:+ s).
(** [scan_callback_classes]: the classes of the module by name and by text, the state is the text of the file. *)
Definition scan_callback_class (cls : string * string) : stx string exn unit :=
  if negb (startswith cls.1 "Callback<") then mret tt
  else if negb (is_instantiation cls.2) then raise_st AssertionError
  else write ("    " +:+ repr_list (template_parameters cls.2) +:+ "," +:+ nl).
Definition scan_callback_classes (classes : list (string * string)) : stx string exn unit :=
  _ ← write ("callback_classes = [" +:+ nl);
  _ ← for_st scan_callback_class classes;
  write ("]" +:+ nl).

(** When the callback classes are instances of templates, the file lists their parameters in order. *)
Definition callback_line (cls : string * string) : string :=
  if startswith cls.1 "Callback<" then "    " +:+ repr_list (template_parameters cls.2) +:+ "," +:+ nl else "".
Lemma scan_callback_classes_spec classes :
  Forall (λ cls, startswith cls.1 "Callback<" = true → is_instantiation cls.2 = true) classes →
  scan_callback_classes classes "" = (Ok tt, "callback_classes = [" +:+ nl +:+ concat_str (callback_line <$> classes) +:+ "]" +:+ nl).
Proof.
  intros Hcs. unfold scan_callback_classes, mbind, stx_bind. cbn [write modify_st].
  assert (∀ f, for_st scan_callback_class classes f = (Ok tt, f +:+ concat_str (callback_line <$> classes))) as Hfor.
  { induction Hcs as [|[name ds] classes Hc Hcs IH]; intros f; cbn [for_st fmap list_fmap concat_str].
    - by rewrite string_app_nil_r.
    - unfold mbind, stx_bind.
      assert (scan_callback_class (name, ds) f = (Ok tt, f +:+ callback_line (name, ds))) as ->.
      { unfold scan_callback_class, callback_line.
        cbn [fst snd] in *. destruct (startswith name "Callback<"); cbn [negb].
        - by rewrite Hc.
        - by rewrite string_app_nil_r. }
      by rewrite IH, string_app_assoc. }
  rewrite Hfor. by rewrite <-!string_app_assoc.
Qed.
End decisions.

(** ** Sections of a scan of all modules *)

(** A module of [ns3_modules]: its dependencies and its headers. *)
Abbreviation modules := (gmap string (list string * list string)).

Section sections.
Context `{!DictIter string}.




End sections.

(** ** Concrete scans *)

Definition entry_ok (a : annotations) : bool :=
  bool_decide (a !! "import_from_module" = None) && match a !! "params" with None | Some (Params _) => true | Some _ => false end.
Lemma table_ok_check tbl : forallb entry_ok (map_to_list tbl).*2 = true → table_ok tbl.
Proof.
  intros Hf k a Ha. rewrite forallb_forall in Hf.
  assert (entry_ok a = true) as [H1 H2]%andb_true_iff.
  { apply Hf. apply list_elem_of_In, list_elem_of_fmap. exists (k, a). split; [done|]. by apply elem_of_map_to_list. }
  apply bool_decide_eq_true in H1. split; [done|]. intros v Hv. rewrite Hv in H2. destruct v; try done. by eexists.
Qed.
Lemma type_annotations_ok : table_ok type_annotations.
Proof. apply table_ok_check. vm_compute. reflexivity. Qed.

Module ScanDemo.
#[export] Instance demo_templates : Templates :=
  {| template_args := λ _, []; is_instantiation := λ s, bool_decide (s = "::ns3::Box< ns3::Seed >");
     template_parameters := λ s, if decide (s = "Box< ns3::Seed >") then ["ns3::Seed"] else [];
     find_declaration := λ s, if decide (s = "ns3::Seed") then Some (Some "/b/ns3/random-variable.h") else None |}.
Definition headers : gmap string string := {[ "random-variable.h" := "core"; "tcp-header.h" := "point-to-point" ]}.
Definition get_seed : decl :=
  Decl (MemberFunction "RandomVariable") "GetSeed" (Some "/b/ns3/random-variable.h")
    "void ns3::RandomVariable::GetSeed(uint32_t * seed) const [member function]" "" [None].
Definition enum : decl := Decl Enumeration "Flags" (Some "/b/ns3/tcp-header.h") "ns3::Flags [enumeration]" "::ns3::Flags" [].
Definition foreign : decl := Decl FreeFunction "printf" (Some "/usr/include/stdio.h") "printf" "::printf" [].
(** An instance of a template of another module for a class of this one. *)
Definition box : decl := Decl Class_ "Box< ns3::Seed >" (Some "/b/ns3/tcp-header.h") "ns3::Box<ns3::Seed> [class]" "::ns3::Box< ns3::Seed >" [].
End ScanDemo.
Import ScanDemo.

Lemma get_ns3_relative_path_spec_witness :
  get_ns3_relative_path (Some (path_of true ["build"; "ns3"; "x"; "ns3"; "a"; "b.h"])) = Ok (Some "a/b.h").
Proof.
  rewrite (proj2 get_ns3_relative_path_spec true ["build"; "ns3"; "x"; "ns3"; "a"; "b.h"]).
  - reflexivity.
  - repeat constructor; done.
  - by left.
Defined.

Lemma scan_hooks_spec_witness :
  ∃ ss, scan_hooks headers "core" type_annotations [get_seed; box; foreign; get_seed] = Ok ss ∧ length ss = 4 ∧
    ∀ s, ss !! 1 = Some s → global_annotations s !! "import_from_module" = None.
Proof.
  destruct (scan_hooks_spec headers "core" type_annotations [get_seed; box; foreign; get_seed]) as [Hscan _].
  { apply type_annotations_ok. }
  destruct Hscan as (ss & Hrun & Hlen & Hss).
  - intros d [->|[->|[->|[->|[]%elem_of_nil]%elem_of_cons]%elem_of_cons]%elem_of_cons]%elem_of_cons;
      eexists; apply attributed_iff; vm_compute; reflexivity.
  - exists ss. split; [exact Hrun|]. split; [exact Hlen|]. intros s Hs.
    destruct (Hss 1 box (Some "core") s) as (_ & Hi & _); [reflexivity| |exact Hs|exact Hi].
    apply attributed_iff. vm_compute. reflexivity.
Defined.

(** The second declaration with the same text is scanned without its parameters. *)
Lemma params_given_once :
  match scan_hooks headers "core" type_annotations [get_seed; get_seed] with
  | Ok [s1; s2] =>
      parameter_annotations s1 !! "seed" ≫= lookup "direction" = Some "out" ∧ parameter_annotations s2 !! "seed" = None
  | _ => False
  end.
Proof. vm_compute. split; reflexivity. Qed.
(** The module of an enumeration keeps its dashes, which no name of a Python module has. *)
Lemma enum_module_dashes :
  match scan_hooks headers "core" type_annotations [enum] with
  | Ok [s] => global_annotations s !! "import_from_module" = Some (Text "ns.point-to-point")
  | _ => False
  end.
Proof. vm_compute. reflexivity. Qed.

