(* ===== verification/BindGen.v ===== *)
(** * BindGen: the customizations of the binding generator

    [bindings/python/ns3modulegen_core_customizations.py] teaches pybindgen the smart pointers and the callbacks
    of ns-3: [SmartPointerTransformation] takes the text [Ptr<T>] apart, [register_callback_classes] registers a
    handler for every callback type and [generate_callback_classes] writes the C++ classes that these handlers
    refer to.  [bindings/python/ns3modulegen-modular.py] is the program that runs them, with the handler of its
    errors.

    Which types pybindgen knows is the class [TypeHandlers]; its registry of handlers is a map from the text of
    a type. *)

From stdpp Require Import base list strings gmap.
From Stdlib Require Import Ascii.
From S2P Require Import Prelude PyStr.
Open Scope nat_scope.

(** ** Smart pointers *)

(** [s.endswith(t)], returning what is before it. *)
Definition string_rev (s : string) : string := implode (reverse (chars s)).
Definition strip_suffix (t s : string) : option string := string_rev <$> strip_prefix (string_rev t) (string_rev s).

(** The group of [(ns3::|::ns3::|)Ptr<([^>]+)>\s*$]: the alternatives in order, then all up to the first [>], then only
    white space. *)
Definition after_ptr (name : string) : option string :=
  match strip_prefix "ns3::Ptr<" name with
  | Some r => Some r
  | None => match strip_prefix "::ns3::Ptr<" name with Some r => Some r | None => strip_prefix "Ptr<" name end
  end.
Definition match_ptr (name : string) : option string :=
  r ← after_ptr name;
  '(inner, tail) ← split_once ">" r;
  if decide (inner ≠ "" ∧ Forall (λ c, is_space c = true) (chars tail)) then Some inner else None.

(** [_get_untransformed_type_traits]. *)
Definition drop_const (name1 : string) : string * bool :=
  let '(n, c) := match strip_prefix "const " name1 with Some r => (r, true) | None => (name1, false) end in
  match strip_suffix " const" n with Some r => (r, true) | None => (n, c) end.
Definition get_untransformed_type_traits (name : string) : option string * bool :=
  match match_ptr name with
  | None => (None, false)
  | Some g =>
      let '(n, is_const) := drop_const (strip g) in
      let new_name := n +:+ " *" in
      (Some (default new_name (strip_prefix "::" new_name)), is_const)
  end.
Definition get_untransformed_name (name : string) : option string := (get_untransformed_type_traits name).1.

(** [create_type_handler]: the corrected type, the original one, and the keyword that is set. *)
Inductive handler_class := Parameter_ | ReturnValue_ | OtherHandler.
Definition correct_ctype (orig_ctype : string) (is_const : bool) : string :=
  "ns3::Ptr< " +:+ implode (py_slice_to (chars orig_ctype) (-2)) +:+ (if is_const then " const >" else " >").
Definition create_type_handler (h : handler_class) (ctype : string) : py exn (string * string * string) :=
  keyword ← (match h with
             | Parameter_ => Ok "transfer_ownership" | ReturnValue_ => Ok "caller_owns_return"
             | OtherHandler => Raise (Exception_ "AssertionError")
             end);
  match get_untransformed_type_traits ctype with
  | (Some orig, is_const) => Ok (correct_ctype orig is_const, orig, keyword)
  | (None, _) => Raise TypeError
  end.
Definition untransform (untransformed_ctype expression : string) : string :=
  "const_cast<" +:+ untransformed_ctype +:+ "> (ns3::PeekPointer (" +:+ expression +:+ "))".
Definition transform (untransformed_ctype expression : string) : py exn string :=
  if bool_decide (last (chars untransformed_ctype) = Some "*"%char)
  then Ok ("ns3::Ptr< " +:+ implode (py_slice_to (chars untransformed_ctype) (-1)) +:+ " > (" +:+ expression +:+ ")")
  else Raise (if decide (untransformed_ctype = "") then IndexError else Exception_ "AssertionError").

Example ptr_examples :
  get_untransformed_type_traits "ns3::Ptr< ns3::Node const >" = (Some "ns3::Node *", true) ∧
  get_untransformed_type_traits "Ptr<const ::ns3::Packet> " = (Some "ns3::Packet *", true) ∧
  get_untransformed_type_traits "ns3::Ptr< ns3::Queue< ns3::Packet > >" = (None, false) ∧
  create_type_handler Parameter_ "::ns3::Ptr<ns3::Node>" = Ok ("ns3::Ptr< ns3::Node >", "ns3::Node *", "transfer_ownership").
Proof. vm_compute. by split_and!. Qed.

(** *** The texts that are pointers *)

(** A type without white space around it, without [const] and without the leading colons. *)
Record plain_type (t : string) : Prop := {
  pt_strip : strip t = t;
  pt_nonempty : t ≠ "";
  pt_no_angle : has_char ">" t = false;
  pt_no_front : startswith t "const " = false;
  pt_no_back : strip_suffix " const" t = None;
  pt_no_colons : startswith t "::" = false;
  pt_not_const : t ≠ "const"
}.
Definition spaces (s : string) : Prop := Forall (λ c, is_space c = true) (chars s).
(** The ways to write a constant or a plain type inside the pointer. *)
Inductive spelled (t : string) : string → bool → Prop :=
| spelled_plain : spelled t t false
| spelled_front : spelled t ("const " +:+ t) true
| spelled_back : spelled t (t +:+ " const") true
| spelled_both : spelled t ("const " +:+ t +:+ " const") true.
Definition ptr_prefix (p : string) : Prop := p = "" ∨ p = "ns3::" ∨ p = "::ns3::".

Lemma string_rev_app a b : string_rev (a +:+ b) = string_rev b +:+ string_rev a.
Proof. unfold string_rev. by rewrite chars_app, reverse_app, implode_app. Qed.
Lemma string_rev_involutive s : string_rev (string_rev s) = s.
Proof. unfold string_rev. by rewrite chars_implode, reverse_involutive, implode_chars. Qed.
Lemma strip_suffix_Some t s r : strip_suffix t s = Some r ↔ s = r +:+ t.
Proof.
  unfold strip_suffix. rewrite fmap_Some. setoid_rewrite strip_prefix_Some. split.
  - intros (x & Hx & ->). rewrite <-(string_rev_involutive s), Hx, string_rev_app.
    by rewrite string_rev_involutive.
  - intros ->. exists (string_rev r). by rewrite string_rev_app, string_rev_involutive.
Qed.
Lemma after_ptr_prefix p r : ptr_prefix p → after_ptr (p +:+ "Ptr<" +:+ r) = Some r.
Proof. by intros [->|[->| ->]]; unfold after_ptr; cbn. Qed.
Lemma after_ptr_Some name r : after_ptr name = Some r ↔ ∃ p, ptr_prefix p ∧ name = p +:+ "Ptr<" +:+ r.
Proof.
  split; [|by intros (p & Hp & ->); apply after_ptr_prefix]. unfold after_ptr.
  destruct (strip_prefix "ns3::Ptr<" name) as [r1|] eqn:E1;
    [intros [= ->]; apply strip_prefix_Some in E1 as ->; exists "ns3::"; split; [by right; left|done]|].
  destruct (strip_prefix "::ns3::Ptr<" name) as [r2|] eqn:E2;
    [intros [= ->]; apply strip_prefix_Some in E2 as ->; exists "::ns3::"; split; [by right; right|done]|].
  intros E3%strip_prefix_Some. subst. exists "". split; [by left|done].
Qed.
Lemma match_ptr_Some name g : match_ptr name = Some g ↔
  ∃ p tail, ptr_prefix p ∧ name = p +:+ "Ptr<" +:+ g +:+ ">" +:+ tail ∧ g ≠ "" ∧ has_char ">" g = false ∧ spaces tail.
Proof.
  unfold match_ptr. rewrite bind_Some. setoid_rewrite after_ptr_Some. split.
  - intros (r & (p & Hp & ->) & Hr). apply bind_Some in Hr as ([inner tail] & Hs & Hg).
    apply split_once_Some in Hs as [-> Hi].
    case_decide as Hd; [|done]. injection Hg as <-. destruct Hd. exists p, tail. by split_and!.
  - intros (p & tail & Hp & -> & Hg & Ha & Ht). exists (g +:+ ">" +:+ tail). split; [by exists p|].
    rewrite (proj2 (split_once_Some ">" (g +:+ ">" +:+ tail) g tail)) by done. cbn. by rewrite decide_True.
Qed.

(** The first and the last character are not white space. *)
Definition trimmed (x : string) : Prop :=
  (∃ c l, chars x = c :: l ∧ is_space c = false) ∧ (∃ l c, chars x = l ++ [c] ∧ is_space c = false).
Lemma drop_spaces_app w l : Forall (λ c, is_space c = true) w → drop_spaces (w ++ l) = drop_spaces l.
Proof. induction 1 as [|c w Hc _ IH]; cbn; [done|]. by rewrite Hc. Qed.
Lemma strip_spaces w1 x w2 : spaces w1 → spaces w2 → trimmed x → strip (w1 +:+ x +:+ w2) = x.
Proof.
  intros H1 H2 [(c & l & Ec & Hc) (l' & d & Ed & Hd)]. unfold strip. rewrite !chars_app, drop_spaces_app by done.
  rewrite Ec at 1. cbn [app drop_spaces]. rewrite Hc. rewrite app_comm_cons, <-Ec.
  rewrite reverse_app, drop_spaces_app.
  - rewrite Ed, reverse_snoc. cbn [drop_spaces]. rewrite Hd. rewrite reverse_cons, reverse_involutive, <-Ed.
    apply implode_chars.
  - by apply Forall_reverse.
Qed.
Lemma drop_spaces_length l : length (drop_spaces l) ≤ length l.
Proof. induction l as [|d l IH]; cbn; [done|]. destruct (is_space d); cbn; lia. Qed.
Lemma drop_spaces_head l c r : drop_spaces l = c :: r → is_space c = false.
Proof. induction l as [|d l IH]; cbn; [done|]. destruct (is_space d) eqn:E; [done|]. by intros [= <- _]. Qed.
Lemma strip_trimmed t : strip t = t → t ≠ "" → trimmed t.
Proof.
  intros Hs Hn. apply (f_equal chars) in Hs. unfold strip in Hs. rewrite chars_implode in Hs.
  destruct (drop_spaces (reverse (drop_spaces (chars t)))) as [|d r] eqn:E; [destruct t; [done|discriminate Hs]|].
  pose proof (drop_spaces_head _ _ _ E) as Hd. rewrite reverse_cons in Hs.
  split; [|by exists (reverse r), d].
  assert (length (chars t) ≤ length (drop_spaces (chars t))) as Hl.
  { rewrite <-Hs at 1. rewrite <-reverse_cons, length_reverse, <-E. etransitivity; [apply drop_spaces_length|].
    by rewrite length_reverse. }
  destruct (chars t) as [|c l] eqn:Et; [by destruct r|]. exists c, l. split; [done|]. cbn in Hl.
  destruct (is_space c); [|done]. pose proof (drop_spaces_length l). cbn in Hl. lia.
Qed.
Lemma trimmed_app_l a x : trimmed x → (∃ c l, chars a = c :: l ∧ is_space c = false) → trimmed (a +:+ x).
Proof.
  intros [_ (l' & d & Ed & Hd)] (c & l & Ec & Hc). unfold trimmed. rewrite chars_app. split.
  - exists c, (l ++ chars x). by rewrite Ec.
  - exists (chars a ++ l'), d. by rewrite Ed, app_assoc.
Qed.
Lemma trimmed_app_r a x : trimmed a → (∃ l c, chars x = l ++ [c] ∧ is_space c = false) → trimmed (a +:+ x).
Proof.
  intros [(c & l & Ec & Hc) _] (l' & d & Ed & Hd). unfold trimmed. rewrite chars_app. split.
  - exists c, (l ++ chars x). by rewrite Ec.
  - exists (chars a ++ l'), d. by rewrite Ed, app_assoc.
Qed.

(** The colons before a type may be left out. *)
Definition colons (cc : string) : Prop := cc = "" ∨ cc = "::".
Lemma colons_trimmed cc t : colons cc → trimmed t → trimmed (cc +:+ t).
Proof. intros [->| ->] Ht; [done|]. apply trimmed_app_l; [done|]. by exists ":"%char, [":"%char]. Qed.
Lemma spelled_trimmed u x c : trimmed u → spelled u x c → trimmed x.
Proof.
  intros Hu [].
  - done.
  - apply trimmed_app_l; [done|]. by exists "c"%char, (chars "onst ").
  - apply trimmed_app_r; [done|]. by exists (chars " cons"), "t"%char.
  - apply trimmed_app_l; [apply trimmed_app_r; [done|]; by exists (chars " cons"), "t"%char|].
    by exists "c"%char, (chars "onst ").
Qed.
Lemma spelled_no_angle u x c : has_char ">" u = false → spelled u x c → has_char ">" x = false.
Proof. intros Hu []; rewrite ?has_char_app, Hu; reflexivity. Qed.
Lemma startswith_false s p : startswith s p = false ↔ strip_prefix p s = None.
Proof. unfold startswith. rewrite bool_decide_eq_false, <-eq_None_not_Some. done. Qed.
Lemma colons_no_const cc t : colons cc → plain_type t → strip_prefix "const " (cc +:+ t) = None ∧ strip_suffix " const" (cc +:+ t) = None.
Proof.
  intros [->| ->] Ht; (split; [|apply eq_None_not_Some; intros [r Hr%strip_suffix_Some]]).
  - by apply startswith_false, Ht.
  - pose proof (pt_no_back _ Ht) as Hb. rewrite (proj2 (strip_suffix_Some " const" t r) Hr) in Hb. done.
  - done.
  - destruct r as [|a [|b r]]; [done|done|]. injection Hr as -> -> Hr.
    pose proof (pt_no_back _ Ht) as Hb. rewrite (proj2 (strip_suffix_Some " const" t r) Hr) in Hb. done.
Qed.
Lemma drop_const_spelled u x c : strip_prefix "const " u = None → strip_suffix " const" u = None → u ≠ "const" → spelled u x c → drop_const x = (u, c).
Proof.
  intros H1 H2 Hne Hx. unfold drop_const. destruct Hx.
  - by rewrite H1, H2.
  - by rewrite strip_prefix_app, H2.
  - assert (strip_prefix "const " (u +:+ " const") = None) as ->;
      [|by rewrite (proj2 (strip_suffix_Some " const" _ u) eq_refl)].
    apply eq_None_not_Some. intros [r Hr%strip_prefix_Some].
    do 6 (destruct u as [|? u]; [cbn in Hr; simplify_eq; done|]). cbn in Hr. simplify_eq.
  - rewrite strip_prefix_app. by rewrite (proj2 (strip_suffix_Some " const" _ u) eq_refl).
Qed.

Lemma spaces_no_angle w : spaces w → has_char ">" w = false.
Proof.
  intros Hw. destruct (has_char ">" w) eqn:E; [|done]. apply has_char_spec in E. unfold spaces in Hw.
  rewrite Forall_forall in Hw. by specialize (Hw _ E).
Qed.
Lemma no_colons_app t r : startswith t "::" = false → t ≠ "" → startswith r ":" = false → strip_prefix "::" (t +:+ r) = None.
Proof.
  intros H1%startswith_false Hne H2. apply eq_None_not_Some. intros [x Hx%strip_prefix_Some].
  destruct t as [|a [|b t]]; [done| |].
  - cbn in Hx. injection Hx as -> Hr. rewrite Hr in H2. done.
  - cbn in Hx. injection Hx as -> -> _. done.
Qed.
Lemma drop_two (l : list ascii) a b : py_slice_to (l ++ [a; b]) (-2) = l.
Proof.
  unfold py_slice_to. rewrite length_app. change (-2)%Z with (- (2%nat))%Z. rewrite py_bound_neg by lia. cbn [length].
  replace (length l + 2 - 2) with (length l) by lia. by rewrite take_app_length.
Qed.

(** A text with one [>] does not have another one. *)
Lemma two_angles a b x y : a +:+ ">" +:+ b = x +:+ ">" +:+ y → has_char ">" x = false → has_char ">" y = false → has_char ">" b = true → False.
Proof.
  revert x. induction a as [|c a IH]; intros x E Hx Hy Hb.
  - destruct x as [|d x]; cbn in E; injection E; [congruence|]. intros _ <-. cbn in Hx. done.
  - destruct x as [|d x]; cbn in E; injection E.
    + intros E' ->. rewrite <-E', has_char_app in Hy. by apply orb_false_iff in Hy as [_ Hy].
    + intros E' <-. apply (IH x E'); try done. cbn in Hx. by apply orb_false_iff in Hx as [_ ?].
Qed.

(** The type in a smart pointer to a plain type, and whether it is constant, are found. *)
Lemma traits_found t p cc x is_const w1 w2 tail :
  plain_type t → ptr_prefix p → colons cc → spelled (cc +:+ t) x is_const →
    spaces w1 → spaces w2 → spaces tail →
    get_untransformed_type_traits (p +:+ "Ptr<" +:+ (w1 +:+ x +:+ w2) +:+ ">" +:+ tail) = (Some (t +:+ " *"), is_const).
Proof.
  intros Ht Hp Hcc Hx H1 H2 H3. unfold get_untransformed_type_traits.
  pose proof (strip_trimmed t (pt_strip _ Ht) (pt_nonempty _ Ht)) as Htr.
  pose proof (spelled_trimmed _ _ _ (colons_trimmed _ _ Hcc Htr) Hx) as Hxt.
  assert (match_ptr (p +:+ "Ptr<" +:+ (w1 +:+ x +:+ w2) +:+ ">" +:+ tail) = Some (w1 +:+ x +:+ w2)) as ->.
  { apply match_ptr_Some. exists p, tail. split_and!; [done|done| | |done].
    - intros E%(f_equal chars). rewrite !chars_app in E. destruct Hxt as [(? & ? & E' & _) _]. rewrite E' in E.
      by destruct (chars w1).
    - rewrite !has_char_app, (spaces_no_angle w1), (spaces_no_angle w2) by done.
      rewrite (spelled_no_angle (cc +:+ t) x is_const); [done| |done]. rewrite has_char_app, (pt_no_angle _ Ht).
      by destruct Hcc as [->| ->]. }
  rewrite strip_spaces by done. destruct (colons_no_const cc t Hcc Ht) as [N1 N2].
  rewrite (drop_const_spelled (cc +:+ t) x is_const); [|done|done| |done].
  - destruct Hcc as [->| ->].
    + change ("" +:+ t) with t. by rewrite (no_colons_app t " *") by (apply Ht || done).
    + rewrite <-string_app_assoc, strip_prefix_app. done.
  - destruct Hcc as [->| ->]; [apply Ht|done].
Qed.
(** The texts that the regular expression matches. *)
Lemma smart_name_iff name :
  is_Some (get_untransformed_name name) ↔
     ∃ p g tail, ptr_prefix p ∧ name = p +:+ "Ptr<" +:+ g +:+ ">" +:+ tail ∧ g ≠ "" ∧ has_char ">" g = false ∧ spaces tail.
Proof.
  unfold get_untransformed_name, get_untransformed_type_traits. split.
  + destruct (match_ptr name) as [g|] eqn:E; [|by intros []]. intros _.
    apply match_ptr_Some in E as (p & tail & ?). by exists p, g, tail.
  + intros (p & g & tail & Hg). assert (match_ptr name = Some g) as -> by (apply match_ptr_Some; by exists p, tail).
    destruct (drop_const (strip g)). by eexists.
Qed.

(** C26: The texts that are taken for smart pointers are exactly those of the regular expression, so that a
    pointer to an instance of a template, in which a [>] precedes the last one, is refused.  For a plain type,
    one without [>], [const] and white space around it, written with or without the namespaces, with [const] and
    exactly one blank before or after it or both, and with any white space around that, the transformation finds
    the type and whether it is constant; and the type that it corrects the text to is found again as the same,
    so that the correction is stable. *)
Theorem smart_pointer_spec :
  (∀ name, is_Some (get_untransformed_name name) ↔
     ∃ p g tail, ptr_prefix p ∧ name = p +:+ "Ptr<" +:+ g +:+ ">" +:+ tail ∧ g ≠ "" ∧ has_char ">" g = false ∧ spaces tail) ∧
  (∀ a b, has_char ">" b = true → get_untransformed_name (a +:+ ">" +:+ b) = None) ∧
  ∀ t p cc x is_const w1 w2 tail, plain_type t → ptr_prefix p → colons cc → spelled (cc +:+ t) x is_const →
    spaces w1 → spaces w2 → spaces tail →
    get_untransformed_type_traits (p +:+ "Ptr<" +:+ (w1 +:+ x +:+ w2) +:+ ">" +:+ tail) = (Some (t +:+ " *"), is_const) ∧
    get_untransformed_type_traits (correct_ctype (t +:+ " *") is_const) = (Some (t +:+ " *"), is_const).
Proof.
  split; [apply smart_name_iff|]. split.
  - intros a b Hb. apply eq_None_not_Some. intros (p & g & tail & Hp & E & _ & Hg & Ht)%smart_name_iff.
    apply (two_angles a b (p +:+ "Ptr<" +:+ g) tail);
      [by rewrite E, <-!string_app_assoc| |by apply spaces_no_angle|done].
    rewrite !has_char_app, Hg. by destruct Hp as [->|[->| ->]].
  - intros. split; [by eapply traits_found|]. unfold correct_ctype. rewrite chars_app.
    change (chars " *") with [" "; "*"]%char. rewrite drop_two, implode_chars.
    destruct is_const.
    + assert ("ns3::Ptr< " +:+ t +:+ " const >" = "ns3::" +:+ "Ptr<" +:+ (" " +:+ (t +:+ " const") +:+ " ") +:+ ">" +:+ "") as ->
        by (cbn; rewrite <-?string_app_assoc; reflexivity).
      apply (traits_found t "ns3::" "" (t +:+ " const")); try done; [by right;
        left|by left|constructor|by repeat constructor..].
    + assert ("ns3::Ptr< " +:+ t +:+ " >" = "ns3::" +:+ "Ptr<" +:+ (" " +:+ t +:+ " ") +:+ ">" +:+ "") as ->
        by (cbn; rewrite <-?string_app_assoc; reflexivity).
      apply (traits_found t "ns3::" "" t); try done; [by right; left|by left|constructor|by repeat constructor..].
Qed.

(** ** Callbacks *)

(** pybindgen: whether a type can be returned by or passed to Python, the C++ text of the method that calls Python, and
    the name that a declared variable gets. *)
Class TypeHandlers := {
  return_known : string → bool;
  parameter_known : string → bool;
  proxy_method : string → list string → string;
  declare_variable : string → string
}.

(** A handler of a callback type: the class that implements it, the parameters of the template, [DISABLED]. *)
Record handler := Handler { callback_impl : string; handler_args : list string; disabled : bool }.
Definition callback_name (template_parameters : list string) : string := "ns3::Callback< " +:+ join ", " template_parameters +:+ " >".
Definition impl_name (n : nat) : string := "PythonCallbackImpl" +:+ str_of_N (N.of_nat n).

(** [register_callback_classes]. *)
Definition register_callback (reg : gmap string handler) (nc : nat * list string) : gmap string handler :=
  <[callback_name nc.2 := Handler (impl_name nc.1) nc.2 false]> reg.
Definition register_callback_classes (callbacks : list (list string)) (reg : gmap string handler) : gmap string handler :=
  foldl register_callback reg (imap pair callbacks).

(** What [convert_python_to_c] adds to a wrapper. *)
Record wrapper_code := WrapperCode { declarations : list string; parse_params : list string; before_call : list string; call_params : list string }.
Section callbacks.
Context `{!TypeHandlers}.

Definition callable_check (py_callback name : string) : list string :=
  ["!PyCallable_Check(" +:+ py_callback +:+ ")";
   esc "PyErr_SetString(PyExc_TypeError, \qparameter '" +:+ name +:+ esc "' must be callbale\q);"].
Definition convert_python_to_c (h : handler) (name : string) (default_value : option string) : py exn wrapper_code :=
  if disabled h then Raise (Exception_ "wrapper could not be generated") else
  let args := join ", " (handler_args h) in
  match default_value with
  | None =>
      let py_callback := declare_variable name in
      let cb := declare_variable (name +:+ "_cb_impl") in
      Ok (WrapperCode ["PyObject* " +:+ py_callback; "ns3::Ptr<" +:+ callback_impl h +:+ "> " +:+ cb] ["&" +:+ py_callback]
            (callable_check py_callback name ++ [cb +:+ " = ns3::Create<" +:+ callback_impl h +:+ "> (" +:+ py_callback +:+ ");"])
            ["ns3::Callback<" +:+ args +:+ "> (" +:+ cb +:+ ")"])
  | Some d =>
      let py_callback := declare_variable name in
      let value := declare_variable (name +:+ "_value") in
      Ok (WrapperCode ["PyObject* " +:+ py_callback +:+ " = NULL"; "ns3::Callback<" +:+ args +:+ "> " +:+ value +:+ " = " +:+ d] ["|&" +:+ py_callback]
            (["if (" +:+ py_callback +:+ ") {"] ++ callable_check py_callback name ++
             [value +:+ " = ns3::Callback<" +:+ args +:+ "> (ns3::Create<" +:+ callback_impl h +:+ "> (" +:+ py_callback +:+ "));"; "}"])
            [value])
  end.

(** The head of the C++ class of a callback. *)
Definition class_members (c : string) : list string := [
  "{";
  "public:";
  "    PyObject *m_callback;";
  "    " +:+ c +:+ "(PyObject *callback)";
  "    {";
  "        Py_INCREF(callback);";
  "        m_callback = callback;";
  "    }";
  "    virtual ~" +:+ c +:+ "()";
  "    {";
  "        PyGILState_STATE __py_gil_state;";
  "        __py_gil_state = (PyEval_ThreadsInitialized() ? PyGILState_Ensure() : (PyGILState_STATE) 0);";
  "        Py_DECREF(m_callback);";
  "        m_callback = NULL;";
  "        PyGILState_Release(__py_gil_state);";
  "    }";
  "";
  "    virtual bool IsEqual(ns3::Ptr<const ns3::CallbackImplBase> other_base) const";
  "    {";
  "        const " +:+ c +:+ " *other = dynamic_cast<const " +:+ c +:+ "*> (ns3::PeekPointer (other_base));";
  "        if (other != NULL)";
  "            return (other->m_callback == m_callback);";
  "        else";
  "            return false;";
  "    }";
  ""; ""].
Definition class_head (class_name : string) (template_parameters : list string) : string :=
  concat_str ((λ l, l +:+ nl) <$>
    "" :: ("class " +:+ class_name +:+ " : public ns3::CallbackImpl<" +:+ join ", " template_parameters +:+ ">") :: class_members class_name).

(** [generate_callback_classes]: the handlers, and the classes written by name and text.  A parameter that is not known
    disables the handler; a return type that is not known only gives a warning. *)
Definition generation : Type := gmap string handler * list (string * string).
Definition disable (h : handler) : handler := Handler (callback_impl h) (handler_args h) true.
Definition callback_parameters (args : list string) : list string := filter (λ a, a ≠ "ns3::empty") args.
Definition class_text (class_name callback_return : string) (args : list string) : string :=
  class_head class_name (callback_return :: args) +:+ proxy_method callback_return (callback_parameters args) +:+ "};" +:+ nl +:+ nl.
Definition generate_callback_class (nc : nat * list string) : stx generation exn unit :=
  let class_name := impl_name nc.1 in
  match nc.2 with
  | [] => raise_st IndexError
  | callback_return :: args =>
      if negb (return_known callback_return) then mret tt
      else if forallb parameter_known (callback_parameters args) then
        modify_st (λ g, (g.1, g.2 ++ [(class_name, class_text class_name callback_return args)]))
      else modify_st (λ g, (alter disable (callback_name nc.2) g.1, g.2))
  end.
Definition generate_callback_classes (callbacks : list (list string)) : stx generation exn unit :=
  for_st generate_callback_class (imap pair callbacks).

(** *** The classes that the wrappers use *)

Definition return_ok (ps : list string) : bool := match ps with [] => false | r :: _ => return_known r end.
Definition parameters_ok (ps : list string) : bool := forallb parameter_known (callback_parameters (tail ps)).
Definition blocked (ps : list string) : bool := return_ok ps && negb (parameters_ok ps).

Lemma str_of_N_inj n m : str_of_N n = str_of_N m → n = m.
Proof. intros E. pose proof (int_of_str_of_N n) as H1. rewrite E, int_of_str_of_N in H1. injection H1 as H1. lia. Qed.
Lemma impl_name_inj n m : impl_name n = impl_name m → n = m.
Proof. unfold impl_name. intros E. cbn in E. simplify_eq. apply str_of_N_inj in E. lia. Qed.

Lemma registered_lookup callbacks reg : NoDup (callback_name <$> callbacks) →
  ∀ i ps, callbacks !! i = Some ps →
    register_callback_classes callbacks reg !! callback_name ps = Some (Handler (impl_name i) ps false).
Proof.
  induction callbacks as [|ps0 callbacks IH] using rev_ind; intros Hnd i ps Hi; [done|].
  rewrite fmap_app in Hnd. apply NoDup_app in Hnd as (Hnd & Hn & _).
  unfold register_callback_classes. rewrite imap_app, foldl_app. cbn [imap foldl].
  unfold register_callback at 1. cbn [fst snd compose].
  apply lookup_app_Some in Hi as [Hi|[Hge Hi]].
  - rewrite lookup_insert_ne; [by apply IH|]. intros E. apply (Hn (callback_name ps)); [|rewrite <-E; by left].
    apply list_elem_of_fmap. exists ps. split; [done|]. by eapply list_elem_of_lookup_2.
  - apply list_lookup_singleton_Some in Hi as [Hi <-]. rewrite lookup_insert_eq. do 3 f_equal. lia.
Qed.
Lemma for_st_snoc {S A} (f : A → stx S exn unit) l x s s1 : for_st f l s = (Ok tt, s1) → for_st f (l ++ [x]) s = f x s1.
Proof.
  revert s. induction l as [|y l IH]; intros s; cbn [app for_st].
  - intros [= ->]. unfold mbind, stx_bind. destruct (f x s1) as [[[]|e] s2]; done.
  - unfold mbind, stx_bind. destruct (f y s) as [[[]|e] s2]; [|done]. apply IH.
Qed.

Definition disabled_by (callbacks : list (list string)) (k : string) : bool :=
  existsb (λ ps, blocked ps && bool_decide (callback_name ps = k)) callbacks.
(** The class of the [n]-th callback, if it is written. *)
Definition written (callbacks : list (list string)) (c t : string) : Prop :=
  ∃ n r args, c = impl_name n ∧ callbacks !! n = Some (r :: args) ∧ return_known r && parameters_ok (r :: args) = true ∧ t = class_text c r args.
Lemma written_snoc callbacks r args c t :
  written (callbacks ++ [r :: args]) c t ↔
  written callbacks c t ∨ (c = impl_name (length callbacks) ∧ t = class_text c r args ∧ return_known r && parameters_ok (r :: args) = true).
Proof.
  split.
  - intros (n & r' & args' & -> & Hn & Hok & ->).
    apply lookup_app_Some in Hn as [Hn|[Hge Hn]]; [left; by exists n, r', args'|].
    apply list_lookup_singleton_Some in Hn as [Hn [= <- <-]]. right. replace n with (length callbacks) by lia. done.
  - intros [(n & r' & args' & -> & Hn & Hok & ->)|(-> & -> & Hok)].
    + exists n, r', args'. by rewrite lookup_app_l by (by eapply lookup_lt_Some).
    + exists (length callbacks), r, args. by rewrite list_lookup_middle.
Qed.
Lemma generate_run callbacks reg : Forall (λ ps, ps ≠ []) callbacks →
  ∃ reg' out, generate_callback_classes callbacks (reg, []) = (Ok tt, (reg', out)) ∧
    (∀ k, reg' !! k = (λ h, if disabled_by callbacks k then disable h else h) <$> reg !! k) ∧
    NoDup out.*1 ∧ ∀ c t, (c, t) ∈ out ↔ written callbacks c t.
Proof.
  induction callbacks as [|ps callbacks IH] using rev_ind; intros Hne.
  - exists reg, []. split; [done|]. split; [intros k; cbn; by destruct (reg !! k)|]. split; [constructor|].
    intros c t. split; [by intros ?%elem_of_nil|]. by intros (n & r & args & _ & ? & _).
  - apply Forall_app in Hne as [Hne Hps]. destruct (IH Hne) as (reg1 & out & Hrun & Hreg & Hnd & Hout).
    unfold generate_callback_classes in *. rewrite imap_app. cbn [imap]. rewrite (for_st_snoc _ _ _ _ _ Hrun).
    cbn [compose].
    rewrite Nat.add_0_r. unfold generate_callback_class. cbn [fst snd].
    destruct ps as [|r args]; [by inversion_clear Hps|].
    assert (∀ k, disabled_by (callbacks ++ [r :: args]) k = disabled_by callbacks k || (blocked (r :: args) && bool_decide (callback_name (r :: args) = k))) as Hd.
    { intros k. unfold disabled_by. rewrite existsb_app. cbn [existsb]. by rewrite orb_false_r. }
    assert (impl_name (length callbacks) ∉ out.*1) as Hfresh.
    { intros ([c t] & E & Hin)%list_elem_of_fmap. cbn in E. subst c.
      apply Hout in Hin as (n & r' & args' & E%impl_name_inj & Hn & _).
      subst n. apply lookup_lt_Some in Hn. lia. }
    setoid_rewrite written_snoc. unfold blocked, parameters_ok in *. cbn [return_ok tail] in *.
    destruct (return_known r) eqn:Er; cbn [negb andb] in *; [destruct (forallb _ _) eqn:Ep|]; cbn [negb andb] in *;
      unfold modify_st, mret, stx_ret; cbn [fst snd]; do 2 eexists; (split; [reflexivity|]).
    + split; [intros k; by rewrite Hd, orb_false_r|]. rewrite fmap_app. cbn [fmap list_fmap fst].
      split; [apply NoDup_app; split_and!; [done|intros c Hin ->%list_elem_of_singleton;
        done|apply NoDup_singleton]|].
      intros c t. rewrite elem_of_app, list_elem_of_singleton, Hout. split; (intros [?|Hr]; [by left|right]).
      * by injection Hr as -> ->.
      * by destruct Hr as (-> & -> & _).
    + split; [|split; [done|intros c t; rewrite Hout; naive_solver]]. intros k. rewrite Hd.
      destruct (decide (callback_name (r :: args) = k)) as [<-|Hk].
      * rewrite lookup_alter_eq, Hreg, bool_decide_true, orb_true_r by done. destruct (reg !! _); cbn; [|done].
        by destruct (disabled_by _ _).
      * by rewrite lookup_alter_ne, bool_decide_false, orb_false_r by done.
    + split; [intros k; by rewrite Hd, orb_false_r|]. split; [done|]. intros c t. rewrite Hout. naive_solver.
Qed.
Lemma disabled_by_blocked callbacks i ps : NoDup (callback_name <$> callbacks) → callbacks !! i = Some ps →
  disabled_by callbacks (callback_name ps) = blocked ps.
Proof.
  intros Hnd Hi. apply eq_true_iff_eq. unfold disabled_by. rewrite existsb_exists. split.
  - intros (ps' & Hin'%list_elem_of_In & [Hb Hn%bool_decide_eq_true]%andb_true_iff).
    apply list_elem_of_lookup in Hin' as [j Hj].
    assert (j = i) as ->; [|by simplify_eq].
    apply (NoDup_lookup (callback_name <$> callbacks) j i (callback_name ps)); [done| |].
    + by rewrite list_lookup_fmap, Hj, <-Hn.
    + by rewrite list_lookup_fmap, Hi.
  - intros Hb. exists ps. split; [apply list_elem_of_In; by eapply list_elem_of_lookup_2|].
    by rewrite Hb, bool_decide_true.
Qed.

(** *** What is meant by the class of a callback and by code that uses it *)

(** [text] declares the class [c] for callbacks with the template arguments [ps], whose call is that of the
    return type and the parameters. *)
Definition declares_class (text c : string) (ps : list string) : Prop :=
  ∃ members r args, ps = r :: args ∧
    text = nl +:+ "class " +:+ c +:+ " : public ns3::CallbackImpl<" +:+ join ", " ps +:+ ">" +:+ nl +:+
           members +:+ proxy_method r (filter (λ a, a ≠ "ns3::empty") args) +:+ "};" +:+ nl +:+ nl.
(** The code that a wrapper gets makes an object of the class [c] from the Python object and passes it as a
    callback with the template arguments [ps]; with a default value [d] it does so only if there is an object,
    and passes [d] otherwise. *)
Definition uses_class (w : wrapper_code) (d : option string) (c : string) (ps : list string) : Prop :=
  let type := "ns3::Callback<" +:+ join ", " ps +:+ ">" in
  match d with
  | None => ∃ object cb,
      ("PyObject* " +:+ object) ∈ declarations w ∧ ("ns3::Ptr<" +:+ c +:+ "> " +:+ cb) ∈ declarations w ∧
      last (before_call w) = Some (cb +:+ " = ns3::Create<" +:+ c +:+ "> (" +:+ object +:+ ");") ∧
      call_params w = [type +:+ " (" +:+ cb +:+ ")"]
  | Some d => ∃ object value checks,
      ("PyObject* " +:+ object +:+ " = NULL") ∈ declarations w ∧ (type +:+ " " +:+ value +:+ " = " +:+ d) ∈ declarations w ∧
      before_call w = ("if (" +:+ object +:+ ") {") :: checks ++
        [value +:+ " = " +:+ type +:+ " (ns3::Create<" +:+ c +:+ "> (" +:+ object +:+ "));"; "}"] ∧
      call_params w = [value]
  end.
Lemma class_text_declares c r args : declares_class (class_text c r args) c (r :: args).
Proof.
  exists (concat_str ((λ l, l +:+ nl) <$> class_members c)), r, args. split; [done|].
  unfold class_text, class_head, callback_parameters. rewrite !fmap_cons. cbn [concat_str].
  set (members := concat_str _). set (call := proxy_method _ _). set (ps := join _ _). clearbody members call ps.
  rewrite <-!string_app_assoc. reflexivity.
Qed.
Lemma convert_uses c ps name d : ∃ w, convert_python_to_c (Handler c ps false) name d = Ok w ∧ uses_class w d c ps.
Proof.
  unfold convert_python_to_c. cbn [disabled handler_args callback_impl].
  destruct d as [d|]; eexists; (split; [reflexivity|]); unfold uses_class;
    cbn [declarations before_call call_params].
  - exists (declare_variable name), (declare_variable (name +:+ "_value")), (callable_check (declare_variable name) name).
    split_and!; [by left| |by rewrite <-!string_app_assoc|done]. apply elem_of_cons. right.
    apply list_elem_of_singleton. by rewrite <-!string_app_assoc.
  - exists (declare_variable name), (declare_variable (name +:+ "_cb_impl")).
    split_and!; [by left|by right; left|by rewrite last_snoc|by rewrite <-!string_app_assoc].
Qed.

(** C25: After the handlers of a list of different callback types are registered and their classes generated, no
    class is written twice, every type has its handler, numbered like its class, and the class is written
    exactly when all types are known: its text declares the class of that name with the template arguments of
    the callback.  The handler is disabled, and refuses to generate a wrapper, exactly when the return type is
    known and a parameter is not; otherwise the code it generates makes an object of the class of that name and
    passes it as a callback with the same template arguments.  So the code generated for a callback of a known
    return type refers to a class that is written for it. *)
Theorem callbacks_consistent (callbacks : list (list string)) (reg : gmap string handler) :
  NoDup (callback_name <$> callbacks) → Forall (λ ps, ps ≠ []) callbacks →
  ∃ reg' out, generate_callback_classes callbacks (register_callback_classes callbacks reg, []) = (Ok tt, (reg', out)) ∧
    NoDup out.*1 ∧
    ∀ i ps, callbacks !! i = Some ps →
      (if return_ok ps && parameters_ok ps then ∃ text, (impl_name i, text) ∈ out ∧ declares_class text (impl_name i) ps
       else impl_name i ∉ out.*1) ∧
      ∃ h, reg' !! callback_name ps = Some h ∧
        ∀ name d,
          if return_ok ps && negb (parameters_ok ps) then ∃ e, convert_python_to_c h name d = Raise e
          else ∃ w, convert_python_to_c h name d = Ok w ∧ uses_class w d (impl_name i) ps.
Proof.
  intros Hnd Hne. destruct (generate_run callbacks (register_callback_classes callbacks reg) Hne) as (reg' & out & Hrun & Hreg & Hnd' & Hout).
  exists reg', out. split; [done|]. split; [done|]. intros i ps Hi. split.
  - destruct ps as [|r args]; [rewrite Forall_forall in Hne; by destruct (Hne []);
      [eapply list_elem_of_lookup_2|]|]. cbn [return_ok].
    destruct (return_known r && parameters_ok (r :: args)) eqn:Hok.
    + exists (class_text (impl_name i) r args). split; [|apply class_text_declares]. apply Hout. by exists i, r, args.
    + intros ([c t] & E & Hin)%list_elem_of_fmap. cbn in E. subst c.
      apply Hout in Hin as (n & r' & args' & E%impl_name_inj & Hn & Hok' & _).
      subst n. simplify_eq. congruence.
  - exists (Handler (impl_name i) ps (blocked ps)). split.
    + rewrite Hreg, (registered_lookup callbacks reg Hnd i ps Hi), (disabled_by_blocked callbacks i ps) by done. by destruct (blocked ps).
    + intros name d. fold (blocked ps). destruct (blocked ps); [by eexists|apply convert_uses].
Qed.
End callbacks.

(** ** The other customizations *)

(** [Attribute_customizations] on one parameter: the class it refers to, its default value and the type of that. *)
Record cpp_param := CppParam { class_ref : option string; default_value : option string; default_value_type : option string }.
Definition attribute_customization (p : cpp_param) : cpp_param :=
  match class_ref p, default_value p, default_value_type p with
  | Some "AttributeValue", Some d, None => CppParam (class_ref p) (Some d) (Some "ns3::EmptyAttributeValue")
  | _, _, _ => p
  end.
(** The classes by their methods and these by their parameters. *)
Definition Attribute_customizations (classes : list (list (list cpp_param))) : list (list (list cpp_param)) :=
  map (map (map attribute_customization)) classes.
Lemma attribute_customization_type p : class_ref p = Some "AttributeValue" → is_Some (default_value p) →
  is_Some (default_value_type (attribute_customization p)) ∧ attribute_customization (attribute_customization p) = attribute_customization p.
Proof. destruct p as [? [d|] [t|]]; cbn; intros -> [? ?]; simplify_eq; cbn; split; eauto. Qed.

(** The creation of an instance of a class below [ns3::Object].  The message for a class that cannot be constructed has
    two places for texts and gets one. *)
Definition ns3_object_instance_creation_function (full_name : string) (cannot_be_constructed incomplete_type : bool)
    (lvalue parameters construct_type_name : string) : py exn (list string) :=
  if bool_decide (lvalue = "") || startswith lvalue "None" then Raise (Exception_ "AssertionError") else
  if cannot_be_constructed then Raise TypeError else
  if incomplete_type then Raise (Exception_ (full_name +:+ " cannot be constructed (incomplete type)")) else
  Ok [lvalue +:+ " = new " +:+ construct_type_name +:+ "(" +:+ parameters +:+ ");"; lvalue +:+ "->Ref ();"].
Lemma creation_error full_name incomplete lvalue parameters name :
  lvalue ≠ "" → startswith lvalue "None" = false →
  ns3_object_instance_creation_function full_name true incomplete lvalue parameters name = Raise TypeError.
Proof. intros Hl Hn. unfold ns3_object_instance_creation_function. by rewrite bool_decide_false, Hn. Qed.

(** ** The generator program *)

(** [ErrorHandler.handle_error] reports the innermost frame of the definition that lies in the file of the definitions;
    it reverses the list of frames in place. *)
Definition handle_error (apidefs_file : string) (stack : list (string * Z)) : option (string * Z) * list (string * Z) :=
  (head (filter (λ l, l.1 = apidefs_file) (reverse stack)), reverse stack).
(** A second error in the same wrapper is reported at the outermost frame. *)
Lemma handle_error_twice f stack :
  (handle_error f stack).1 = last (filter (λ l, l.1 = f) stack) ∧
  (handle_error f (handle_error f stack).2).1 = head (filter (λ l, l.1 = f) stack).
Proof.
  assert (∀ l : list (string * Z), filter (λ l, l.1 = f) (reverse l) = reverse (filter (λ l, l.1 = f) l)) as Hr.
  { induction l as [|x l IH]; [done|]. rewrite reverse_cons, filter_app, IH, !filter_cons.
    rewrite filter_nil. case_decide; [by rewrite reverse_cons|by rewrite app_nil_r]. }
  unfold handle_error. cbn [fst snd]. rewrite reverse_involutive, Hr. split; [|done].
  by rewrite <-last_reverse, reverse_involutive.
Qed.

(** The modules that the program imports, when they are there: the definitions, which of the three functions the
    customizations have, and the callbacks. *)
Class BindingFiles := {
  apidefs : option unit;
  customizations : option (bool * bool * bool);
  callbacks_list : option (list (list string))
}.
Inductive phase :=
| ModuleInit | AddStdIosOpenmode | RegisterTypes | PostRegisterTypes | RegisterCallbacks (cbs : list (list string))
| RegisterMethods | PostRegisterMethods | ObjectCustomizations | AttributeCustomizations
| GenerateCallbacks (cbs : list (list string)) | RegisterFunctions | PostRegisterFunctions | Generate.
(** [sys.path] and the phases run. *)
Definition gen_state : Type := list string * list phase.

Section generator.
Context `{!BindingFiles}.
Definition run_phase (p : phase) : stx gen_state exn unit := modify_st (λ s, (s.1, s.2 ++ [p])).
Definition import_all : stx gen_state exn (bool * bool * bool * list (list string)) :=
  match apidefs with
  | None => raise_st (Exception_ "ImportError")
  | Some _ => mret (default (false, false, false) customizations, default [] callbacks_list)
  end.
(** The [finally] clause: [sys.path.pop(0)] whatever happens. *)
Definition with_path {A} (dir : string) (m : stx gen_state exn A) : stx gen_state exn A := λ s,
  let '(r, s1) := m (dir :: s.1, s.2) in
  match s1.1 with [] => (Raise IndexError, s1) | _ :: p => (r, (p, s1.2)) end.
Definition gen_main (argv : list string) : stx gen_state exn unit :=
  match argv with
  | [_; module_abs_src_path; target; extension_name; output_cc_file_name] =>
      '(c1, c2, c3, callback_classes) ← with_path (module_abs_src_path +:+ "/bindings") import_all;
      _ ← run_phase ModuleInit;
      _ ← run_phase AddStdIosOpenmode;
      _ ← run_phase RegisterTypes;
      _ ← (if c1 : bool then run_phase PostRegisterTypes else mret tt);
      _ ← run_phase (RegisterCallbacks callback_classes);
      _ ← run_phase RegisterMethods;
      _ ← (if c2 : bool then run_phase PostRegisterMethods else mret tt);
      _ ← run_phase ObjectCustomizations;
      _ ← run_phase AttributeCustomizations;
      _ ← run_phase (GenerateCallbacks callback_classes);
      _ ← run_phase RegisterFunctions;
      _ ← (if c3 : bool then run_phase PostRegisterFunctions else mret tt);
      run_phase Generate
  | _ => raise_st (ValueError "not enough values to unpack")
  end.
(** The path for imports is restored in every case, and the callbacks whose classes are generated are those
    registered. *)
Lemma gen_main_path argv s : (gen_main argv s).2.1 = s.1.
Proof.
  destruct s as [path ps]. destruct argv as [|a [|b [|c [|d [|e [|]]]]]]; try done.
  unfold gen_main, with_path, import_all.
  destruct apidefs; [|done]. destruct (default (false, false, false) customizations) as [[[] []] []]; done.
Qed.
Lemma gen_main_callbacks argv s s' cbs : gen_main argv s = (Ok tt, s') → s.2 = [] →
  RegisterCallbacks cbs ∈ s'.2 ↔ GenerateCallbacks cbs ∈ s'.2.
Proof.
  destruct s as [path ps]. destruct argv as [|a [|b [|c [|d [|e [|]]]]]]; try done.
  unfold gen_main, with_path, import_all.
  destruct apidefs; [|done].
  destruct (default (false, false, false) customizations) as [[[] []] []]; cbn; intros [= <-] ->; cbn; set_solver.
Qed.
End generator.

(** ** Concrete runs *)

Module GenDemo.
#[export] Instance demo_handlers : TypeHandlers :=
  {| return_known := λ t, bool_decide (t = "void"); parameter_known := λ t, bool_decide (t = "int");
     proxy_method := λ _ _, ""; declare_variable := λ v, v |}.
Definition demo_callbacks : list (list string) := [["void"; "int"; "ns3::empty"]; ["Strange"; "int"]; ["void"; "Strange"]].
End GenDemo.
Import GenDemo.

Lemma plain_node : plain_type "ns3::Node".
Proof. by split. Qed.
Lemma smart_pointer_spec_witness :
  get_untransformed_type_traits "ns3::Ptr<  const ::ns3::Node >" = (Some "ns3::Node *", true).
Proof.
  destruct (proj2 (proj2 smart_pointer_spec) "ns3::Node" "ns3::" "::" "const ::ns3::Node" true "  " " " "") as [E _].
  - exact plain_node.
  - right. by left.
  - by right.
  - exact (spelled_front "::ns3::Node").
  - by repeat constructor.
  - by repeat constructor.
  - constructor.
  - exact E.
Defined.
Lemma callbacks_consistent_witness :
  ∃ reg' out, generate_callback_classes demo_callbacks (register_callback_classes demo_callbacks ∅, []) = (Ok tt, (reg', out)) ∧
    ∃ text, (impl_name 0, text) ∈ out ∧ declares_class text "PythonCallbackImpl0" ["void"; "int"; "ns3::empty"].
Proof.
  destruct (callbacks_consistent demo_callbacks ∅) as (reg' & out & Hrun & _ & H).
  - vm_compute. repeat constructor; set_solver.
  - repeat constructor; done.
  - exists reg', out. split; [exact Hrun|].
    destruct (H 0 ["void"; "int"; "ns3::empty"]) as [Hw _]; [reflexivity|]. exact Hw.
Defined.
(** With a return type that is not known the handler stays enabled, and the wrapper that it generates refers to a class
    that is not written. *)
Lemma unknown_return :
  let '(r, (reg, out)) := generate_callback_classes demo_callbacks (register_callback_classes demo_callbacks ∅, []) in
  (disabled <$> reg !! callback_name ["Strange"; "int"]) = Some false ∧ out.*1 = ["PythonCallbackImpl0"].
Proof. vm_compute. by split. Qed.
