(* ===== verification/VizConsole.v ===== *)
(** * VizConsole: the Python console of the visualizer

    [src/visualizer/visualizer/ipython_view.py]: [ConsoleView], a text view in which the last line can be edited
    and what is before it cannot, and the parts of [IterableIPShell] and [IPythonView] that do not belong to
    IPython: the history, the completion of a line and the handling of keys.

    The text buffer of GTK is the record [console]: its characters with their tags, and the positions of the
    marks [line_start], [insert] and [selection_bound].  The first keeps to the left of text inserted at it, the
    other two to the right, as GTK has it. *)

From stdpp Require Import base list strings gmap.
From Stdlib Require Import Ascii.
From S2P Require Import Prelude PyStr.
Open Scope nat_scope.

(** ** The text buffer *)

Record cell := Cell { ch : ascii; color : option string; notouch : bool }.
Record console := Console { cells : list cell; line_start : nat; insert_mark : nat; selection_bound : nat }.

Definition text_of (l : list cell) : string := implode (ch <$> l).
Definition colored (tag : option string) (nt : bool) (s : string) : list cell := (λ c, Cell c tag nt) <$> chars s.
(** Text at the end of the buffer; a cursor at the end moves along.  The tag [notouch] is among those a text can
    name. *)
Definition insert_end (tag : option string) (s : string) (v : console) : console :=
  let n := length (cells v) in
  let l := cells v ++ colored tag (bool_decide (tag = Some "notouch")) s in
  let move m := if decide (m = n) then length l else m in
  Console l (line_start v) (move (insert_mark v)) (move (selection_bound v)).
(** [apply_tag_by_name('notouch', ...)] from one position to another. *)
Definition protect (a b : nat) (v : console) : console :=
  Console (imap (λ i c, if (a <=? i) && (i <? b) then Cell (ch c) (color c) true else c) (cells v))
    (line_start v) (insert_mark v) (selection_bound v).
(** [text_buffer.delete] from one position to another. *)
Definition delete_text (a b : nat) (v : console) : console :=
  let move m := if m <=? a then m else if m <=? b then a else m - (b - a) in
  Console (take a (cells v) ++ drop b (cells v)) (move (line_start v)) (move (insert_mark v)) (move (selection_bound v)).
Definition set_line_start (p : nat) (v : console) : console := Console (cells v) p (insert_mark v) (selection_bound v).
Definition place_cursor (p : nat) (v : console) : console := Console (cells v) (line_start v) p p.

(** ** Colored output *)

(** The codes that have a tag; [insert_with_tags_by_name] raises ValueError for another one. *)
Definition ANSI_COLORS : list (string * string) :=
  [("0;30", "Black"); ("0;31", "Red"); ("0;32", "Green"); ("0;33", "Brown"); ("0;34", "Blue"); ("0;35", "Purple");
   ("0;36", "Cyan"); ("0;37", "LightGray"); ("1;30", "DarkGray"); ("1;31", "DarkRed"); ("1;32", "SeaGreen");
   ("1;33", "Yellow"); ("1;34", "LightBlue"); ("1;35", "MediumPurple"); ("1;36", "LightCyan"); ("1;37", "White")].
Definition color_tags : list string := ANSI_COLORS.*1 ++ ["0"].
Definition tag_table : list string := color_tags ++ ["notouch"].

Definition soh : ascii := "001"%char.
Definition stx_ : ascii := "002"%char.
Definition escape : ascii := "027"%char.
(** The regular expression [\x01?\x1b\[(.*?)m\x02?] at the front of a text: the code, and what follows. *)
Fixpoint scan_code (l : list ascii) : option (list ascii * list ascii) :=
  match l with
  | [] => None
  | c :: r => if decide (c = "m"%char) then Some ([], r) else if decide (c = nl_char) then None
              else match scan_code r with Some (t, r) => Some (c :: t, r) | None => None end
  end.
Definition after_escape (l : list ascii) : option (list ascii * list ascii) :=
  match l with c :: d :: r => if decide (c = escape ∧ d = "["%char) then scan_code r else None | _ => None end.
Definition match_code (l : list ascii) : option (string * list ascii) :=
  match after_escape (match l with c :: r => if decide (c = soh) then r else l | [] => [] end) with
  | Some (t, r) => Some (implode t, match r with c :: r' => if decide (c = stx_) then r' else r | [] => [] end)
  | None => None
  end.
(** The text before the first code, and each code with the text after it: what [split] gives with one group. *)
Fixpoint ansi_split (fuel : nat) (l : list ascii) : string * list (string * string) :=
  match fuel, l with
  | S fuel, c :: r =>
      match match_code l with
      | Some (t, rest) => let '(x, ps) := ansi_split fuel rest in ("", (t, x) :: ps)
      | None => let '(x, ps) := ansi_split fuel r in (String c x, ps)
      end
  | _, _ => ("", [])
  end.
Definition split_colors (text : string) : string * list (string * string) := ansi_split (String.length text) (chars text).

Fixpoint index_of (x : string) (l : list string) : option nat :=
  match l with [] => None | y :: l => if decide (y = x) then Some 0 else S <$> index_of x l end.
Definition segments_of (ps : list (string * string)) : list string := ps ≫= λ p, [p.1; p.2].
(** The loop over the codes: the code is looked up in the list of segments, and removed from it. *)
Fixpoint write_tags (tags segments : list string) : stx console exn unit :=
  match tags with
  | [] => mret tt
  | tag :: tags =>
      i ← lift_py (or_raise (ValueError "not in list") (index_of tag segments));
      s ← lift_py (or_raise IndexError (segments !! S i));
      _ ← lift_py (if decide (tag ∈ tag_table) then Ok tt else Raise (ValueError "unknown text tag"));
      _ ← modify_st (insert_end (Some tag) s);
      write_tags tags (take i segments ++ drop (S i) segments)
  end.
(** [_write]. *)
Definition write_ (text : string) (editable : bool) : stx console exn unit :=
  v ← get_st;
  let start := length (cells v) in
  let '(segment, ps) := split_colors text in
  _ ← modify_st (insert_end None segment);
  _ ← write_tags ps.*1 (segments_of ps);
  modify_st (λ v, if editable then v else protect start (length (cells v)) v).

(** ** The command line *)

(** [forward_to_line_end]: the next end of a line, not the one where the position is. *)
Fixpoint line_end (l : list cell) : nat :=
  match l with [] => 0 | c :: l => if decide (ch c = nl_char) then 0 else S (line_end l) end.
Definition forward_to_line_end (p : nat) (v : console) : nat :=
  match drop p (cells v) with
  | c :: l => if decide (ch c = nl_char) then S p + line_end l else p + line_end (c :: l)
  | [] => p
  end.
Definition getCurrentLine (v : console) : string := text_of (drop (line_start v) (cells v)).
Definition showPrompt_ (prompt : string) : stx console exn unit :=
  _ ← write_ prompt false; modify_st (λ v, set_line_start (length (cells v)) v).
Definition changeLine_ (text : string) : stx console exn unit :=
  _ ← modify_st (λ v, delete_text (line_start v) (forward_to_line_end (line_start v) v) v);
  write_ text true.
(** [_showReturned]; [indentation] is what IPython wants inserted at the cursor. *)
Definition showReturned_ (prompt text indentation : string) : stx console exn unit :=
  _ ← modify_st (λ v, protect (line_start v) (forward_to_line_end (line_start v) v) v);
  _ ← write_ (nl +:+ text) false;
  _ ← (if decide (text = "") then mret tt else write_ nl false);
  _ ← showPrompt_ prompt;
  _ ← modify_st (λ v, set_line_start (length (cells v)) v);
  _ ← modify_st (λ v, place_cursor (length (cells v)) v);
  modify_st (insert_end None indentation).

Example write_example :
  let v := (write_ (esc "a" +:+ String escape "[0;31mred" +:+ String escape "[0m!") false (Console [] 0 0 0)).2 in
  text_of (cells v) = "ared!" ∧ (color <$> cells v) = [None; Some "0;31"; Some "0;31"; Some "0;31"; Some "0"].
Proof. vm_compute. by split. Qed.
(** A colored text that is the name of the next code: the code is shown instead of what follows it. *)
Lemma color_code_shown :
  text_of (cells (write_ (String escape "[0;32m0" +:+ String escape "[0m]") false (Console [] 0 0 0)).2) = "00".
Proof. vm_compute. reflexivity. Qed.

(** ** Colored output is taken apart as it was put together *)

(** A text with colors: each code, with or without the marks that hide it from readline, and the text after it. *)
Definition code (marks : bool) (t : string) : string :=
  if marks then String soh (String escape ("[" +:+ t +:+ "m" +:+ String stx_ "")) else String escape ("[" +:+ t +:+ "m").
Definition render_codes (marks : bool) (ps : list (string * string)) : string := concat_str ((λ p, code marks p.1 +:+ p.2) <$> ps).
Definition clean_text (x : string) : Prop := Forall (λ c, c ≠ escape ∧ c ≠ soh ∧ c ≠ stx_) (chars x).
Definition clean_code (t : string) : Prop := Forall (λ c, c ≠ "m"%char ∧ c ≠ nl_char) (chars t).

Lemma scan_code_app t r : Forall (λ c, c ≠ "m"%char ∧ c ≠ nl_char) t → scan_code (t ++ "m"%char :: r) = Some (t, r).
Proof. induction 1 as [|c t [H1 H2] _ IH]; [done|]. cbn. rewrite !decide_False by done. by rewrite IH. Qed.
Lemma match_code_clean c r : c ≠ escape → c ≠ soh → match_code (c :: r) = None.
Proof.
  intros H1 H2. unfold match_code. rewrite decide_False by done. unfold after_escape. destruct r as [|d r]; [done|].
  by rewrite decide_False by naive_solver.
Qed.
Lemma ansi_split_text x l fuel : clean_text x → length (chars x ++ l) ≤ fuel →
  ansi_split fuel (chars x ++ l) = let '(a, ps) := ansi_split (fuel - length (chars x)) l in (x +:+ a, ps).
Proof.
  revert fuel. induction x as [|c x IH]; intros fuel Hx Hf; cbn [chars app length] in *.
  - rewrite Nat.sub_0_r. by destruct (ansi_split fuel l).
  - destruct fuel as [|fuel]; [lia|]. inversion_clear Hx as [|? ? (? & ? & ?) Hx']. cbn [ansi_split].
    rewrite match_code_clean by done. rewrite IH by (done || lia). cbn [Nat.sub]. by destruct (ansi_split _ l).
Qed.
(** What follows a code is not taken for its end mark. *)
Definition no_stx (l : list ascii) : Prop := match l with c :: _ => c ≠ stx_ | [] => True end.
Lemma match_code_code marks t l : clean_code t → no_stx l → match_code (chars (code marks t) ++ l) = Some (t, l).
Proof.
  intros Ht Hl. unfold match_code, code. destruct marks.
  - cbn [chars app]. rewrite decide_True by done. cbn [after_escape String.append chars app].
    rewrite decide_True by done.
    rewrite chars_app, <-app_assoc. cbn [chars app String.append]. rewrite scan_code_app by done.
    rewrite decide_True by done. by rewrite implode_chars.
  - cbn [chars app]. rewrite decide_False by done. cbn [after_escape String.append chars app].
    rewrite decide_True by done.
    rewrite chars_app, <-app_assoc. cbn [chars app String.append]. rewrite scan_code_app by done.
    rewrite implode_chars.
    destruct l as [|c l]; [done|]. by rewrite decide_False.
Qed.
Lemma render_no_stx marks x ps : clean_text x → no_stx (chars x ++ chars (render_codes marks ps)).
Proof.
  intros Hx. destruct x as [|c x]; cbn; [|by inversion_clear Hx as [|? ? (? & ? & ?) _]].
  destruct ps as [|p ps]; cbn; [done|]. by destruct marks.
Qed.
Lemma ansi_split_codes marks ps fuel : Forall (λ p, clean_code p.1 ∧ clean_text p.2) ps →
  length (chars (render_codes marks ps)) ≤ fuel → ansi_split fuel (chars (render_codes marks ps)) = ("", ps).
Proof.
  intros Hps. revert fuel. induction Hps as [|[t x] ps [Ht Hx] Hps IH]; intros fuel Hf; [by destruct fuel|].
  change (render_codes marks ((t, x) :: ps)) with ((code marks t +:+ x) +:+ render_codes marks ps) in *. cbn [fst snd] in *.
  rewrite !chars_app, <-app_assoc in *.
  assert (∃ c r, chars (code marks t) = c :: r) as (c & r & Ec) by (destruct marks; by do 2 eexists).
  destruct fuel as [|fuel]; [rewrite Ec in Hf; cbn in Hf; lia|].
  pose proof (match_code_code marks t (chars x ++ chars (render_codes marks ps)) Ht (render_no_stx marks x ps Hx)) as Em.
  rewrite Ec in *. cbn [app] in *. cbn [ansi_split]. rewrite Em.
  cbn [length] in Hf. rewrite !length_app in Hf.
  rewrite ansi_split_text by (done || (rewrite length_app; lia)). rewrite IH by lia. by rewrite string_app_nil_r.
Qed.
Lemma split_colors_render marks first ps : clean_text first → Forall (λ p, clean_code p.1 ∧ clean_text p.2) ps →
  split_colors (first +:+ render_codes marks ps) = (first, ps).
Proof.
  intros Hf Hps. unfold split_colors. rewrite chars_app.
  assert (String.length (first +:+ render_codes marks ps) = length (chars first ++ chars (render_codes marks ps))) as ->.
  { rewrite <-chars_app. clear. induction (first +:+ render_codes marks ps); cbn; auto. }
  rewrite ansi_split_text by done. rewrite ansi_split_codes by (done || (rewrite length_app; lia)).
  by rewrite string_app_nil_r.
Qed.

(** *** The loop over the codes *)

(** No text is the name of a code after it. *)
Fixpoint no_confusion (ps : list (string * string)) : Prop :=
  match ps with [] => True | p :: ps => p.2 ∉ ps.*1 ∧ no_confusion ps end.
Lemma index_of_app x l r : x ∉ l → index_of x (l ++ x :: r) = Some (length l).
Proof.
  induction l as [|y l IH]; intros Hx; cbn; [by rewrite decide_True|]. apply not_elem_of_cons in Hx as [Hy Hx].
  rewrite decide_False by done. by rewrite IH.
Qed.
Definition insert_all (ps : list (string * string)) (v : console) : console := foldl (λ v p, insert_end (Some p.1) p.2 v) v ps.
Lemma write_tags_run ps done_ v : no_confusion ps → Forall (λ p, p.1 ∈ tag_table) ps → (∀ t, t ∈ ps.*1 → t ∉ done_) →
  write_tags ps.*1 (done_ ++ segments_of ps) v = (Ok tt, insert_all ps v).
Proof.
  intros Hn Ht. revert done_ v. induction ps as [|[t x] ps IH]; intros done_ v Hd; [done|].
  cbn [no_confusion fst snd] in Hn. destruct Hn as [Hx Hn]. apply Forall_cons in Ht as [Htag Ht]. cbn [fst] in Htag.
  change (segments_of ((t, x) :: ps)) with (t :: x :: segments_of ps).
  set (rest := segments_of ps) in *. change (((t, x) :: ps).*1) with (t :: ps.*1). cbn [write_tags].
  assert (index_of t (done_ ++ t :: x :: rest) = Some (length done_)) as -> by (apply index_of_app, Hd; by left).
  assert ((done_ ++ t :: x :: rest) !! S (length done_) = Some x) as Ex.
  { rewrite lookup_app_r by lia. by replace (S (length done_) - length done_) with 1 by lia. }
  assert (take (length done_) (done_ ++ t :: x :: rest) ++ drop (S (length done_)) (done_ ++ t :: x :: rest) = (done_ ++ [x]) ++ rest) as E.
  { rewrite take_app_length, drop_app_ge by lia. replace (S (length done_) - length done_) with 1 by lia.
    by rewrite <-app_assoc. }
  unfold lift_py, modify_st, mbind, stx_bind. cbn [or_raise]. rewrite Ex. cbn [or_raise]. rewrite decide_True by done.
  rewrite E, IH; [done|done|done|].
  intros t' Ht'. apply not_elem_of_app. split; [apply Hd; by right|]. intros ->%list_elem_of_singleton. done.
Qed.

Lemma insert_end_cells tag s v : tag ≠ Some "notouch" → cells (insert_end tag s v) = cells v ++ colored tag false s.
Proof. intros H. unfold insert_end. cbn [cells]. by rewrite bool_decide_false. Qed.
Lemma color_not_notouch t : t ∈ color_tags → t ≠ "notouch".
Proof.
  assert (Forall (λ t, t ≠ "notouch") color_tags) as H by (vm_compute; by repeat constructor).
  rewrite Forall_forall in H. apply H.
Qed.
Lemma color_known t : t ∈ color_tags → t ∈ tag_table.
Proof. intros H. apply elem_of_app. by left. Qed.
Lemma insert_all_cells ps v : Forall (λ p, p.1 ∈ color_tags) ps →
  cells (insert_all ps v) = cells v ++ (ps ≫= λ p, colored (Some p.1) false p.2) ∧ line_start (insert_all ps v) = line_start v.
Proof.
  intros Hps. revert v. induction Hps as [|p ps Hp Hps IH]; intros v; [by rewrite app_nil_r|].
  change (insert_all (p :: ps) v) with (insert_all ps (insert_end (Some p.1) p.2 v)).
  destruct (IH (insert_end (Some p.1) p.2 v)) as [-> ->]. split; [|done].
  rewrite insert_end_cells by (intros [= E]; by apply color_not_notouch in Hp). by rewrite <-app_assoc.
Qed.
Definition protected (c : cell) : cell := Cell (ch c) (color c) true.
Lemma protect_end l r v : cells v = l ++ r → cells (protect (length l) (length (cells v)) v) = l ++ (protected <$> r).
Proof.
  intros E. unfold protect. cbn [cells]. apply list_eq. intros i. rewrite list_lookup_imap, E.
  destruct (decide (i < length l)) as [Hi|Hi].
  - rewrite !lookup_app_l by done. destruct (l !! i); cbn; [|done]. by rewrite (proj2 (Nat.leb_gt _ _)) by lia.
  - rewrite !lookup_app_r, list_lookup_fmap by lia.
    destruct (r !! (i - length l)) as [c|] eqn:Er; cbn [fmap option_fmap option_map]; [|done].
    apply lookup_lt_Some in Er. rewrite length_app. assert (length l <=? i = true) as -> by (apply Nat.leb_le; lia).
    by assert (i <? length l + length r = true) as -> by (apply Nat.ltb_lt; lia).
Qed.
Lemma protected_colored tag nt s : protected <$> colored tag nt s = colored tag true s.
Proof. unfold colored. rewrite <-list_fmap_compose. by apply list_fmap_ext. Qed.

(** The characters that a colored text should add. *)
Definition colored_text (nt : bool) (first : string) (ps : list (string * string)) : list cell :=
  colored None nt first ++ (ps ≫= λ p, colored (Some p.1) nt p.2).
Lemma known_code_clean t : t ∈ tag_table → clean_code t.
Proof.
  assert (Forall (λ t, forallb (λ c, bool_decide (c ≠ "m"%char ∧ c ≠ nl_char)) (chars t) = true) tag_table) as H
    by (vm_compute; by repeat constructor).
  intros Ht. rewrite Forall_forall in H. specialize (H t Ht). unfold clean_code. rewrite Forall_forall. intros c Hc.
  rewrite forallb_forall in H. specialize (H c (proj1 (list_elem_of_In _ _) Hc)). by apply bool_decide_eq_true in H.
Qed.

(** Output with colors appears as it should: for texts in known colors, with or without the marks for readline, of
    which none is the name of a code that follows it, exactly the texts are appended to the buffer, each in its
    color, and they can be edited exactly when that was asked for; the start of the command line stays. *)
Lemma write_run (marks editable : bool) (first : string) (ps : list (string * string)) (v : console) :
  clean_text first → Forall (λ p, p.1 ∈ color_tags ∧ clean_text p.2) ps → no_confusion ps →
  ∃ v', write_ (first +:+ render_codes marks ps) editable v = (Ok tt, v') ∧
    cells v' = cells v ++ colored_text (negb editable) first ps ∧ line_start v' = line_start v.
Proof.
  intros Hf Hps Hn. unfold write_. unfold mbind, stx_bind, get_st. rewrite split_colors_render; [|done|].
  2: { eapply Forall_impl; [exact Hps|]. intros p [? ?]. split; [by apply known_code_clean, color_known|done]. }
  unfold modify_st at 1. unfold mbind, stx_bind.
  pose proof (write_tags_run ps [] (insert_end None first v) Hn) as Hrun. cbn [app] in Hrun.
  rewrite Hrun; [|eapply Forall_impl; [exact Hps|]; intros p [? ?];
    by apply color_known|by intros t _ ?%elem_of_nil]. clear Hrun.
  destruct (insert_all_cells ps (insert_end None first v)) as [Hc Hl]; [eapply Forall_impl; [exact Hps|];
    by intros p [? ?]|].
  rewrite insert_end_cells, <-app_assoc in Hc by done.
  eexists. split; [reflexivity|]. destruct editable; [done|]. split; [|done].
  rewrite (protect_end (cells v) _ _ Hc). f_equal. unfold colored_text. rewrite fmap_app, protected_colored. f_equal.
  clear. induction ps as [|p ps IH]; [done|]. cbn. rewrite fmap_app, protected_colored. f_equal. apply IH.
Qed.

(** ** The shell and the view *)

(** What the console uses of IPython; [ip] is the state of an [InteractiveShellEmbed]. *)
Class Shell := {
  ip : Type;
  (** The prompt of a command, or of a line that continues one. *)
  generatePrompt : bool → ip → string;
  pre_prompt_hook : ip → ip;
  autoindent : ip → bool;
  (** [input_splitter]: [push], [push_accepts_more], [reset] and [indent_spaces]. *)
  push : string → ip → ip;
  push_accepts_more : ip → bool;
  reset : ip → ip;
  indent_spaces : ip → nat;
  (** [SyntaxTB.last_syntax_error and autoedit_syntax]. *)
  last_syntax_error : ip → bool;
  edit_syntax_error : ip → ip;
  (** [run_cell] of the lines pushed: what follows, and what is written to [cout]. *)
  run_cell : ip → ip * string;
  user_ns_In : ip → list string;
  ip_complete : string → ip → list string }.

Section view.
Context `{Shell}.

(** The calls that wait for the main loop to be idle. *)
Inductive idle_call := Write (text : string) (editable : bool) | ShowPrompt (prompt : string) | ChangeLine (text : string) | ShowReturned (text : string).
Record view := View {
  buffer : console; idle : list idle_call; interrupt : bool; history_level : Z; iter_more : bool; prompt : string;
  rl_do_indent : bool; cout : string; IP : ip }.

Definition with_buffer (b : console) (v : view) : view :=
  View b (idle v) (interrupt v) (history_level v) (iter_more v) (prompt v) (rl_do_indent v) (cout v) (IP v).
Definition idle_add (c : idle_call) (v : view) : view :=
  View (buffer v) (idle v ++ [c]) (interrupt v) (history_level v) (iter_more v) (prompt v) (rl_do_indent v) (cout v) (IP v).
Definition at_level (z : Z) (v : view) : view :=
  View (buffer v) (idle v) (interrupt v) z (iter_more v) (prompt v) (rl_do_indent v) (cout v) (IP v).
Definition set_interrupt (v : view) : view :=
  View (buffer v) (idle v) true (history_level v) (iter_more v) (prompt v) (rl_do_indent v) (cout v) (IP v).

(** One call from the main loop.  An exception ends the call, and is printed. *)
Definition spaces (n : nat) : string := implode (repeat " "%char n).
Definition run_call (c : idle_call) (v : view) : view :=
  let m := match c with
           | Write text editable => write_ text editable
           | ShowPrompt p => showPrompt_ p
           | ChangeLine text => changeLine_ text
           | ShowReturned text => showReturned_ (prompt v) text (if rl_do_indent v then spaces (indent_spaces (IP v)) else "")
           end in
  with_buffer (m (buffer v)).2 v.
Definition run_idle (v : view) : view :=
  foldl (λ v c, run_call c v)
    (View (buffer v) [] (interrupt v) (history_level v) (iter_more v) (prompt v) (rl_do_indent v) (cout v) (IP v)) (idle v).

(** *** Execution of a line *)

(** [raw_input]: the line, or KeyboardInterrupt. *)
Definition raw_input (v : view) : option string := if interrupt v then None else Some (getCurrentLine (buffer v)).
(** [execute].  Before a line that continues a command the prompt is made again after the hook. *)
Definition execute (v : view) : view :=
  let p := generatePrompt (iter_more v) (IP v) in
  let s := pre_prompt_hook (IP v) in
  let p := if iter_more v then generatePrompt true s else p in
  let indent := if iter_more v && autoindent s then true else rl_do_indent v in
  match raw_input v with
  | None => View (buffer v) (idle v) false 0 (iter_more v) p indent (cout v +:+ nl +:+ "KeyboardInterrupt" +:+ nl) (reset s)
  | Some line =>
      let s := push line s in
      let more := push_accepts_more s in
      let p := generatePrompt more s in
      let s := if last_syntax_error s then edit_syntax_error s else s in
      if more then View (buffer v) (idle v) (interrupt v) 0 true p true (cout v) s
      else let '(s, out) := run_cell s in View (buffer v) (idle v) (interrupt v) 0 false p false (cout v +:+ out) s
  end.
Fixpoint drop_nl (l : list ascii) : list ascii :=
  match l with c :: l' => if decide (c = nl_char) then drop_nl l' else l | [] => [] end.
Definition strip_nl (s : string) : string := implode (reverse (drop_nl (reverse (drop_nl (chars s))))).
(** [_processLine]. *)
Definition processLine_ (v : view) : view :=
  let v := execute v in
  let v := idle_add (ShowReturned (strip_nl (cout v))) v in
  View (buffer v) (idle v) (interrupt v) (history_level v) (iter_more v) (prompt v) (rl_do_indent v) "" (IP v).

(** *** The history *)

Definition getHistory_ (v : view) : string :=
  match py_nth (user_ns_In (IP v)) (history_level v) with Some s => strip_nl s | None => "" end.
Definition historyBack (v : view) : string * view :=
  let v := at_level (history_level v - 1) v in
  let v := if decide (getHistory_ v = "") then at_level (history_level v + 1) v else v in
  (getHistory_ v, v).
Definition historyForward (v : view) : string * view :=
  let v := if (history_level v <? 0)%Z then at_level (history_level v + 1) v else v in
  (getHistory_ v, v).

(** *** Completion *)

Definition complete_sep (c : ascii) : bool := is_space c || has_char c "{}[]()".
(** The last part of the line split at the separators. *)
Fixpoint take_word (l : list ascii) : list ascii :=
  match l with c :: l => if complete_sep c then [] else c :: take_word l | [] => [] end.
Definition last_word (line : string) : string := implode (reverse (take_word (reverse (chars line)))).
Definition str_take (n : nat) (s : string) : string := implode (take n (chars s)).
Fixpoint common_prefix_go (str1 str2 : string) (n : nat) (i : nat) : string :=
  match n with
  | 0 => str1
  | S n => if startswith str2 (str_take (S i) str1) then common_prefix_go str1 str2 n (S i) else str_take i str1
  end.
Definition commonPrefix (str1 str2 : string) : string := common_prefix_go str1 str2 (String.length str1) 0.
Definition last_char (s : string) : string := match reverse (chars s) with c :: _ => String c "" | [] => "" end.
(** [line[:-len(word)]], for a word that is not empty. *)
Definition cut_end (line : string) (n : nat) : string := str_take (String.length line - n) line.
Definition complete (line : string) (v : view) : string * list string :=
  let word := last_word line in
  let possibilities := if decide (word = "") then [] else ip_complete word (IP v) in
  match possibilities with
  | [] => (line, [])
  | p :: ps =>
      let common := foldl commonPrefix p ps in
      (cut_end line (String.length word) +:+ (if decide (common = "") then last_char line else common), possibilities)
  end.

(** *** Keys *)

Inductive keyval := Home | Left | Return | Up | Down | Tab | Key (n : Z).
#[global] Instance keyval_eq : EqDecision keyval.
Proof. solve_decision. Defined.
Record event := Event { keyval_of : keyval; control : bool; mod1 : bool; shift : bool; event_string : string }.

(** Whether the default handler is left out, and the view after.  The completed line is never empty ([complete_nonempty]
    below), so that the local variable [slice], which has no value for at most one possibility, is not needed. *)
Definition onKeyPressExtend (e : event) (v : view) : bool * view :=
  if control e && bool_decide (keyval_of e = Key 99) then (true, processLine_ (set_interrupt v))
  else match keyval_of e with
       | Return => (true, processLine_ v)
       | Up => let '(line, v) := historyBack v in (true, idle_add (ChangeLine line) v)
       | Down => let '(line, v) := historyForward v in (true, idle_add (ChangeLine line) v)
       | Tab =>
           let line := getCurrentLine (buffer v) in
           if decide (strip line = "") then (false, v)
           else
             let '(completed, possibilities) := complete line v in
             let v := if 1 <? length possibilities
                      then idle_add (ShowPrompt (prompt v))
                             (foldl (λ v symbol, idle_add (Write (symbol +:+ nl) false) v) (idle_add (Write nl false) v) possibilities)
                      else v in
             (true, idle_add (ChangeLine (if decide (completed = "") then line else completed)) v)
       | _ => (false, v)
       end.
Definition editable_at (p : nat) (b : console) : bool := match cells b !! p with Some c => negb (notouch c) | None => true end.
Definition move_insert (p : nat) (b : console) : console := Console (cells b) (line_start b) p (selection_bound b).
Definition move_selection (p : nat) (b : console) : console := Console (cells b) (line_start b) (insert_mark b) p.
Definition onKeyPress (e : event) (v : view) : bool * view :=
  let b := buffer v in
  let '(s, i, j) := (line_start b, insert_mark b, selection_bound b) in
  if decide (keyval_of e = Home) then
    if control e || mod1 e then onKeyPressExtend e v
    else if shift e then (true, with_buffer (move_insert s b) v)
    else (true, with_buffer (place_cursor s b) v)
  else if decide (keyval_of e = Left) then
    if editable_at (i - 1) b then onKeyPressExtend e v else (true, v)
  else if decide (event_string e = "") then onKeyPressExtend e v
  else
    let b' := if (s <=? i) && (s <=? j) then b
              else if (i <? s) && (j <? s) then place_cursor s b
              else if i <? j then move_insert s b
              else if j <? i then move_selection s b else b in
    onKeyPressExtend e (with_buffer b' v).
End view.

(** *** The text view *)

Definition console_ok (b : console) : Prop := line_start b ≤ length (cells b).
(** The characters above the command line that cannot be edited. *)
Definition transcript (b : console) : list ascii := ch <$> filter (λ c, notouch c = true) (take (line_start b) (cells b)).

(** What GTK does with a key that the handler does not stop: it may insert and delete text, also above the
    command line, but it changes no text that cannot be edited, and [line_start], a mark with left gravity,
    keeps its place in the text. *)
Class TextView := {
  default_key : event → console → console;
  default_keeps e b : console_ok b → console_ok (default_key e b) ∧ transcript b `sublist_of` transcript (default_key e b)
}.

(** A key, or the calls that wait.  [onKeyPress] stops a key by returning True; the default handler gets the others. *)
Inductive console_step := Press (e : event) | Idle.
Definition own_step `{Shell} (v : view) (s : console_step) : view := match s with Press e => (onKeyPress e v).2 | Idle => run_idle v end.
Definition run_step `{Shell, TextView} (v : view) (s : console_step) : view :=
  match s with
  | Press e => let '(stopped, v') := onKeyPress e v in if stopped then v' else with_buffer (default_key e (buffer v')) v'
  | Idle => run_idle v
  end.

Section proofs.
Context `{Shell}.

(** ** The history as a cursor *)

(** [true] for the key Up, [false] for Down: the text that is shown last, and the view. *)
Definition walk (moves : list bool) (v : view) : string * view :=
  foldl (λ '(_, v) (back : bool), if back then historyBack v else historyForward v) ("", v) moves.
(** How far back one is in a history of [n] commands. *)
Definition cursor (n : nat) (moves : list bool) : nat := foldl (λ k (back : bool), if back then S k `min` n else k - 1) 0 moves.
(** The commands start after the first entry of [In], which is empty; the empty line is at the front. *)
Definition history_entry (cmds : list string) (k : nat) : string :=
  match k with 0 => "" | S k => strip_nl (default "" (reverse cmds !! k)) end.

Lemma py_nth_back {A} (x : A) l (k : nat) : k < length l → py_nth (x :: l) (- S k) = reverse l !! k.
Proof.
  intros Hk. unfold py_nth. destruct (Z.ltb_spec (- S k) 0); [|lia]. cbn [length].
  destruct (Z.ltb_spec (- S k + S (length l)) 0); [lia|]. rewrite reverse_lookup by done.
  replace (Z.to_nat (- S k + S (length l))) with (S (length l - S k)) by lia. done.
Qed.
Lemma py_nth_oldest {A} (x : A) l : py_nth (x :: l) (- S (length l)) = Some x.
Proof.
  unfold py_nth. destruct (Z.ltb_spec (- S (length l)) 0); [|lia]. cbn [length].
  destruct (Z.ltb_spec (- S (length l) + S (length l)) 0); [lia|].
  by replace (Z.to_nat (- S (length l) + S (length l))) with 0 by lia.
Qed.
Lemma getHistory_at cmds (k : nat) v : user_ns_In (IP v) = "" :: cmds → history_level v = (- k)%Z → k ≤ length cmds →
  getHistory_ v = history_entry cmds k.
Proof.
  intros Hin Hk Hle. unfold getHistory_. rewrite Hin, Hk. destruct k as [|k]; [done|].
  rewrite py_nth_back by lia. unfold history_entry. destruct (reverse cmds !! k) eqn:E; [done|].
  apply lookup_ge_None in E. rewrite length_reverse in E. lia.
Qed.
Lemma historyBack_at cmds (k : nat) v : user_ns_In (IP v) = "" :: cmds → Forall (λ c, strip_nl c ≠ "") cmds →
  history_level v = (- k)%Z → k ≤ length cmds →
  historyBack v = (history_entry cmds (S k `min` length cmds), at_level (- (S k `min` length cmds)%nat) v).
Proof.
  intros Hin Hcmds Hk Hle. unfold historyBack. cbn [history_level at_level]. rewrite Hk.
  replace (- k - 1)%Z with (- S k)%Z by lia. destruct (decide (k = length cmds)) as [->|Hne].
  - assert (getHistory_ (at_level (- S (length cmds)) v) = "") as E.
    { unfold getHistory_. cbn [history_level at_level IP]. by rewrite Hin, py_nth_oldest. }
    rewrite decide_True by done. replace (S (length cmds) `min` length cmds) with (length cmds) by lia.
    assert (at_level (- S (length cmds) + 1) (at_level (- S (length cmds)) v) = at_level (- length cmds) v) as ->
      by (unfold at_level; cbn; f_equal; lia).
    by rewrite (getHistory_at cmds (length cmds)) by done.
  - pose proof (getHistory_at cmds (S k) (at_level (- S k) v) Hin eq_refl ltac:(lia)) as E.
    rewrite E. replace (S k `min` length cmds) with (S k) by lia. rewrite decide_False; [by rewrite E|].
    destruct (lookup_lt_is_Some_2 (reverse cmds) k) as [c Hc]; [rewrite length_reverse; lia|].
    cbn [history_entry]. rewrite Hc. rewrite Forall_forall in Hcmds. apply Hcmds.
    apply elem_of_reverse. by eapply list_elem_of_lookup_2.
Qed.
Lemma historyForward_at cmds (k : nat) v : user_ns_In (IP v) = "" :: cmds → history_level v = (- k)%Z → k ≤ length cmds →
  historyForward v = (history_entry cmds (k - 1), at_level (- (k - 1)%nat) v).
Proof.
  intros Hin Hk Hle. unfold historyForward. rewrite Hk. destruct (Z.ltb_spec (- k) 0).
  - replace (- k + 1)%Z with (- (k - 1)%nat)%Z by lia. by rewrite (getHistory_at cmds (k - 1)) by (done || lia).
  - assert (k = 0) as -> by lia. rewrite (getHistory_at cmds 0) by done. cbn. by destruct v; cbn in *; subst.
Qed.
Lemma cursor_snoc n moves back : cursor n (moves ++ [back]) = if back : bool then S (cursor n moves) `min` n else cursor n moves - 1.
Proof. unfold cursor. by rewrite foldl_app. Qed.
Lemma cursor_le n moves : cursor n moves ≤ n.
Proof. induction moves as [|back moves IH] using rev_ind; [cbn; lia|]. rewrite cursor_snoc. destruct back; lia. Qed.

(** Up and Down walk through the history: after any sequence of the two keys the line is the one that a cursor that
    starts at the empty line, goes one command back or forth with each key and stays within the history, is at;
    nothing but the level of the history changes. *)
Theorem history_walk (cmds : list string) (moves : list bool) (v : view) :
  user_ns_In (IP v) = "" :: cmds → Forall (λ c, strip_nl c ≠ "") cmds → history_level v = 0%Z →
  walk moves v = (history_entry cmds (cursor (length cmds) moves), at_level (- cursor (length cmds) moves) v).
Proof.
  intros Hin Hcmds H0. induction moves as [|back moves IH] using rev_ind.
  - cbn. by destruct v; cbn in *; subst.
  - unfold walk in *. rewrite foldl_app, IH. cbn [foldl]. rewrite cursor_snoc.
    pose proof (cursor_le (length cmds) moves) as Hle. destruct back.
    + by rewrite (historyBack_at cmds (cursor (length cmds) moves)).
    + by rewrite (historyForward_at cmds (cursor (length cmds) moves)).
Qed.

(** ** Completion *)

Definition str_prefix (q p : string) : Prop := ∃ r, p = q +:+ r.
Lemma str_prefix_chars q p : str_prefix q p ↔ chars q `prefix_of` chars p.
Proof.
  split; [intros [r ->]; rewrite chars_app; by eexists|]. intros [r Hr]. exists (implode r).
  by rewrite <-(implode_chars p), Hr, implode_app, implode_chars.
Qed.
Lemma str_length_chars s : String.length s = length (chars s).
Proof. induction s; cbn; auto. Qed.
Lemma startswith_take n a b : startswith b (str_take n a) = true ↔ take n (chars a) `prefix_of` chars b.
Proof. rewrite startswith_spec. fold (str_prefix (str_take n a) b). rewrite str_prefix_chars. unfold str_take. by rewrite chars_implode. Qed.
Lemma prefix_take_le {A} (q a : list A) n : q `prefix_of` a → length q ≤ n → q `prefix_of` take n a.
Proof. intros [r ->] Hn. rewrite take_app_ge by done. by eexists. Qed.
Lemma take_prefix_ge {A} (q a : list A) n : q `prefix_of` a → n ≤ length q → take n a `prefix_of` q.
Proof. intros [r ->] Hn. rewrite take_app_le by done. eexists. symmetry. apply take_drop. Qed.

Definition longest_common (common : string) (l : list string) : Prop :=
  (∀ p, p ∈ l → str_prefix common p) ∧ ∀ q, (∀ p, p ∈ l → str_prefix q p) → str_prefix q common.
Lemma common_prefix_go_spec a b n i : i + n = String.length a → take i (chars a) `prefix_of` chars b →
  str_prefix (common_prefix_go a b n i) a ∧ str_prefix (common_prefix_go a b n i) b ∧
  ∀ q, str_prefix q a → str_prefix q b → str_prefix q (common_prefix_go a b n i).
Proof.
  rewrite str_length_chars. revert i. induction n as [|n IH]; intros i Hi Hp; cbn [common_prefix_go].
  - rewrite take_ge in Hp by lia. rewrite !str_prefix_chars. split; [done|]. split; [done|]. done.
  - destruct (startswith b (str_take (S i) a)) eqn:E; [apply IH; [lia|by apply startswith_take]|].
    rewrite !str_prefix_chars. unfold str_take. rewrite chars_implode.
    split; [eexists; symmetry; apply take_drop|]. split; [done|]. intros q. rewrite !str_prefix_chars. intros Ha Hb.
    rewrite chars_implode. apply prefix_take_le; [done|]. destruct (decide (length (chars q) ≤ i)) as [|Hl]; [done|].
    apply not_true_iff_false in E. destruct E. apply startswith_take. etrans; [|exact Hb].
    apply take_prefix_ge; [done|lia].
Qed.
Lemma commonPrefix_spec a b : longest_common (commonPrefix a b) [a; b].
Proof.
  destruct (common_prefix_go_spec a b (String.length a) 0 eq_refl) as (Ha & Hb & Hq); [by apply prefix_nil|].
  split; [intros p; rewrite elem_of_cons, list_elem_of_singleton; by intros [->| ->]|].
  intros q Hp. apply Hq; apply Hp; set_solver.
Qed.
Lemma str_prefix_trans a b c : str_prefix a b → str_prefix b c → str_prefix a c.
Proof. rewrite !str_prefix_chars. apply transitivity. Qed.
Lemma foldl_commonPrefix p ps : longest_common (foldl commonPrefix p ps) (p :: ps).
Proof.
  revert p. induction ps as [|p' ps IH]; intros p; cbn.
  - split; [intros ? ->%list_elem_of_singleton; by apply str_prefix_chars|]. intros q Hq. apply Hq. set_solver.
  - destruct (IH (commonPrefix p p')) as [Hall Hmax]. destruct (commonPrefix_spec p p') as [Hc Hm]. split.
    + intros x Hx. assert (x ∈ [p; p'] ∨ x ∈ ps) as [Hx'|Hx'] by set_solver.
      * eapply str_prefix_trans; [|by apply Hc]. apply Hall. set_solver.
      * apply Hall. set_solver.
    + intros q Hq. apply Hmax. intros x Hx. apply elem_of_cons in Hx as [->|Hx]; [|apply Hq; set_solver].
      apply Hm. intros y Hy. apply Hq. set_solver.
Qed.
Lemma take_word_app l : ∃ r, l = take_word l ++ r.
Proof. induction l as [|c l [r IH]]; [by exists []|]. cbn. destruct (complete_sep c); [by eexists|]. exists r. by rewrite IH at 1. Qed.
Lemma cut_last_word line : line = cut_end line (String.length (last_word line)) +:+ last_word line.
Proof.
  destruct (take_word_app (reverse (chars line))) as [r Hr]. apply (f_equal reverse) in Hr.
  rewrite reverse_involutive, reverse_app in Hr.
  unfold cut_end, str_take. rewrite !str_length_chars. unfold last_word. rewrite chars_implode.
  set (w := reverse (take_word (reverse (chars line)))) in *. clearbody w.
  rewrite <-(implode_chars line) at 1. rewrite <-implode_app. f_equal. revert Hr. generalize (chars line).
  intros l ->.
  rewrite length_app, take_app_le, take_ge by lia. done.
Qed.
(** What the shell offers for the last word of the line. *)
Definition possibilities_for (line : string) (v : view) : list string :=
  if decide (last_word line = "") then [] else ip_complete (last_word line) (IP v).
Lemma complete_nonempty line v : line ≠ "" → (complete line v).1 ≠ "".
Proof.
  intros Hl. unfold complete. fold (possibilities_for line v).
  destruct (possibilities_for line v) as [|p ps]; [done|]. cbn [fst].
  set (common := foldl commonPrefix p ps). destruct (cut_end _ _) as [|c s]; [|done]. cbn.
  destruct (decide (common = "")); [|done].
  unfold last_char. destruct (reverse (chars line)) eqn:E; [|done]. apply (f_equal reverse) in E.
  rewrite reverse_involutive in E. by destruct line.
Qed.
(** What IPython offers need not have the word at its front, as a magic command offered for a plain name: when the names
    have nothing in common, all of the word but its last character is lost. *)
Lemma complete_loses_word line v p ps : possibilities_for line v = p :: ps → foldl commonPrefix p ps = "" →
  (complete line v).1 = cut_end line (String.length (last_word line)) +:+ last_char line.
Proof. intros E1 E2. unfold complete. fold (possibilities_for line v). rewrite E1. cbn. by rewrite decide_True. Qed.

(** Completion with Tab: when what the shell offers extends the last word, the completed line is the line with the
    longest text added that all the offers agree on, and the offers are returned; without an offer it is the line
    as it was. *)
Theorem complete_spec (line : string) (v : view) :
  (∀ p, p ∈ possibilities_for line v → str_prefix (last_word line) p) →
  ∃ before rest, line = before +:+ last_word line ∧
    complete line v = (line +:+ rest, possibilities_for line v) ∧
    match possibilities_for line v with
    | [] => rest = ""
    | _ => longest_common (last_word line +:+ rest) (possibilities_for line v)
    end.
Proof.
  intros Hp. exists (cut_end line (String.length (last_word line))). unfold complete. fold (possibilities_for line v).
  assert (possibilities_for line v ≠ [] → last_word line ≠ "") as Hw
    by (unfold possibilities_for; by destruct (decide _)).
  destruct (possibilities_for line v) as [|p ps] eqn:E.
  - exists "". rewrite string_app_nil_r. split; [apply cut_last_word|done].
  - pose proof (foldl_commonPrefix p ps) as Hlong. destruct (proj2 Hlong (last_word line) Hp) as [rest Hr].
    exists rest. split; [apply cut_last_word|]. rewrite Hr in *. rewrite decide_False.
    + rewrite string_app_assoc, <-cut_last_word. done.
    + intros E0. apply Hw; [done|]. by destruct (last_word line).
Qed.

(** ** What is above the command line stays *)

(** The text before the start of the command line is still before it, and what was protected still is. *)
Definition same_cell (c c' : cell) : Prop := ch c = ch c' ∧ (notouch c = true → notouch c' = true).
Definition kept (b b' : console) : Prop :=
  line_start b ≤ line_start b' ∧ console_ok b' ∧ Forall2 same_cell (take (line_start b) (cells b)) (take (line_start b) (cells b')).
Lemma same_cells l : Forall2 same_cell l l.
Proof. apply Forall_Forall2_diag, Forall_true. by split. Qed.
Lemma kept_refl b : console_ok b → kept b b.
Proof. repeat split; [done..|]. apply same_cells. Qed.
Lemma kept_trans a b c : kept a b → kept b c → kept a c.
Proof.
  intros (H1 & H2 & H3) (H4 & H5 & H6). split; [lia|]. split; [done|].
  apply (Forall2_take _ _ _ (line_start a)) in H6. rewrite !take_take in H6.
  replace (line_start a `min` line_start b) with (line_start a) in H6 by lia.
  eapply Forall2_trans; [|exact H3|exact H6]. intros x y z [E1 N1] [E2 N2]. split; [congruence|auto].
Qed.
Lemma kept_insert_end tag s b : console_ok b → kept b (insert_end tag s b).
Proof.
  intros Hb. unfold kept, console_ok in *. cbn. split; [done|]. split; [rewrite length_app; lia|].
  rewrite take_app_le by done. apply same_cells.
Qed.
Lemma same_protect a e b : Forall2 same_cell (cells b) (cells (protect a e b)).
Proof.
  unfold protect. cbn [cells]. apply Forall2_same_length_lookup_2; [by rewrite length_imap|].
  intros i x y Hx Hy. rewrite list_lookup_imap, Hx in Hy. injection Hy as <-. by destruct (_ && _).
Qed.
Lemma ch_protect a e b : ch <$> cells (protect a e b) = ch <$> cells b.
Proof. induction (same_protect a e b) as [|c c' l l' [Ec _] _ IH]; [done|]. rewrite !fmap_cons. by rewrite IH, Ec. Qed.
Lemma kept_protect a e b : console_ok b → kept b (protect a e b).
Proof.
  intros Hb. split; [done|]. pose proof (same_protect a e b) as Hc. split.
  - unfold console_ok in *. apply Forall2_length in Hc. cbn [line_start protect] in *. lia.
  - by apply Forall2_take.
Qed.
Lemma kept_delete e b : console_ok b → line_start b ≤ e → kept b (delete_text (line_start b) e b).
Proof.
  intros Hb He. unfold kept, console_ok in *. unfold delete_text. cbn [line_start cells]. rewrite Nat.leb_refl.
  rewrite take_app_le, take_take, Nat.min_id by (rewrite length_take; lia).
  split; [done|]. split; [rewrite length_app, length_take; lia|apply same_cells].
Qed.
Lemma kept_set_start b : console_ok b → kept b (set_line_start (length (cells b)) b).
Proof. intros Hb. unfold kept, console_ok in *. cbn. split_and!; [done..|]. apply same_cells. Qed.
Lemma line_end_bound p b : p ≤ forward_to_line_end p b.
Proof. unfold forward_to_line_end. destruct (drop p (cells b)) as [|c l]; [done|]. destruct (decide _); lia. Qed.

(** Every operation of the console keeps the text above. *)
Definition keeping {A} (m : stx console exn A) : Prop := ∀ b0, inv_run (kept b0) m (λ _, True).
Lemma keeping_modify f : (∀ b, console_ok b → kept b (f b)) → keeping (modify_st f).
Proof. intros Hf b0. apply inv_modify; [|done]. intros b Hb. eapply kept_trans; [exact Hb|]. apply Hf, Hb. Qed.
Lemma keeping_bind {A B} (m : stx console exn A) (f : A → stx console exn B) : keeping m → (∀ a, keeping (f a)) → keeping (m ≫= f).
Proof. intros Hm Hf b0. eapply inv_bind; [apply Hm|]. intros a _. apply Hf. Qed.
Lemma keeping_lift {A} (r : py exn A) : keeping (lift_py r).
Proof. intros b0. by apply inv_lift. Qed.
Lemma keeping_ret : keeping (mret tt).
Proof. intros b0. by apply inv_ret. Qed.
Create HintDb keeping.
#[local] Hint Resolve keeping_modify keeping_bind keeping_lift keeping_ret kept_insert_end kept_protect kept_set_start kept_delete line_end_bound : keeping.
Lemma write_tags_keeping tags segments : keeping (write_tags tags segments).
Proof.
  revert segments. induction tags as [|t tags IH]; intros segments; [apply keeping_ret|]. cbn [write_tags].
  do 4 (apply keeping_bind; [auto with keeping|intros ?]). apply IH.
Qed.
Lemma write_keeping text editable : keeping (write_ text editable).
Proof.
  apply keeping_bind; [intros b0; apply inv_get|]. intros b. destruct (split_colors text) as [x ps].
  apply keeping_bind; [auto with keeping|intros _]. apply keeping_bind; [apply write_tags_keeping|intros _].
  apply keeping_modify. intros b' Hb'. destruct editable; [by apply kept_refl|auto with keeping].
Qed.
#[local] Hint Resolve write_keeping : keeping.
Lemma showPrompt_keeping p : keeping (showPrompt_ p).
Proof. unfold showPrompt_. auto with keeping. Qed.
#[local] Hint Resolve showPrompt_keeping : keeping.
Lemma changeLine_keeping t : keeping (changeLine_ t).
Proof. unfold changeLine_. auto 6 with keeping. Qed.
Lemma showReturned_keeping p t i : keeping (showReturned_ p t i).
Proof.
  unfold showReturned_. apply keeping_bind; [auto with keeping|intros _].
  apply keeping_bind; [auto with keeping|intros _].
  apply keeping_bind; [destruct (decide (t = "")); auto with keeping|intros _].
  do 2 (apply keeping_bind; [auto with keeping|intros _]).
  apply keeping_bind; [apply keeping_modify; intros b Hb; exact (kept_refl b Hb)|intros _]. auto with keeping.
Qed.

Lemma run_call_kept c v : console_ok (buffer v) → kept (buffer v) (buffer (run_call c v)).
Proof.
  intros Hv. unfold run_call. cbn [buffer with_buffer].
  set (m := match c with Write _ _ => _ | _ => _ end). assert (keeping m) as Hm.
  { destruct c; [apply write_keeping|apply showPrompt_keeping|apply changeLine_keeping|apply showReturned_keeping]. }
  destruct (m (buffer v)) as [r b'] eqn:E. exact (proj1 (Hm (buffer v) _ _ _ (kept_refl _ Hv) E)).
Qed.
Lemma run_calls_kept cs v : console_ok (buffer v) → kept (buffer v) (buffer (foldl (λ v c, run_call c v) v cs)).
Proof.
  revert v. induction cs as [|c cs IH]; intros v Hv; [by apply kept_refl|]. cbn [foldl].
  pose proof (run_call_kept c v Hv) as Hk. eapply kept_trans; [exact Hk|]. apply IH, Hk.
Qed.
Lemma execute_buffer v : buffer (execute v) = buffer v.
Proof. unfold execute. destruct (raw_input v); [|done]. destruct (push_accepts_more _); [done|]. by destruct (run_cell _). Qed.
Lemma idle_writes_buffer l v : buffer (foldl (λ v symbol, idle_add (Write (symbol +:+ nl) false) v) v l) = buffer v.
Proof. revert v. induction l as [|x l IH]; intros v; [done|]. cbn [foldl]. by rewrite IH. Qed.
Lemma onKeyPressExtend_buffer e v : buffer (onKeyPressExtend e v).2 = buffer v.
Proof.
  unfold onKeyPressExtend. destruct (_ && _); [exact (execute_buffer (set_interrupt v))|].
  destruct (keyval_of e); try done; [exact (execute_buffer v)| | |].
  - unfold historyBack. by destruct (decide _).
  - unfold historyForward. by destruct (_ <? _)%Z.
  - destruct (decide _); [done|]. destruct (complete _ v) as [t ps]. destruct (1 <? _); [|done]. cbn.
    by rewrite idle_writes_buffer.
Qed.
(** A key only moves the cursor. *)
Lemma onKeyPress_text e v : cells (buffer (onKeyPress e v).2) = cells (buffer v) ∧ line_start (buffer (onKeyPress e v).2) = line_start (buffer v).
Proof.
  unfold onKeyPress. repeat case_match; simplify_eq; rewrite ?onKeyPressExtend_buffer; done.
Qed.
(** Where a character would go: to the command line, and a selection that would be replaced is within it. *)
Lemma typing_guard e v : event_string e ≠ "" → keyval_of e ≠ Home → keyval_of e ≠ Left →
  let b := buffer (onKeyPress e v).2 in line_start b ≤ insert_mark b ∧ line_start b ≤ selection_bound b.
Proof.
  intros Hs Hh Hl. unfold onKeyPress. rewrite !decide_False by done. rewrite onKeyPressExtend_buffer.
  cbn [buffer with_buffer]. destruct (buffer v) as [l s i j]. cbn [line_start insert_mark selection_bound].
  destruct (Nat.leb_spec s i), (Nat.leb_spec s j), (Nat.ltb_spec i s), (Nat.ltb_spec j s), (Nat.ltb_spec i j), (Nat.ltb_spec j i);
    cbn; lia.
Qed.

Lemma own_step_kept s v : console_ok (buffer v) → kept (buffer v) (buffer (own_step v s)).
Proof.
  intros Hv. destruct s as [e|]; [|unfold own_step, run_idle;
    by apply (run_calls_kept (idle v) (View _ [] _ _ _ _ _ _ _))].
  cbn [own_step]. destruct (onKeyPress_text e v) as [Hc Hl]. unfold kept, console_ok in *. rewrite Hc, Hl.
  split_and!; [done..|]. apply same_cells.
Qed.
Lemma kept_transcript b b' : kept b b' → transcript b `sublist_of` transcript b'.
Proof.
  intros (Hl & Hok & Hs). unfold transcript.
  replace (line_start b') with (line_start b + (line_start b' - line_start b)) by lia.
  rewrite <-take_take_drop, filter_app, fmap_app. apply sublist_inserts_r.
  induction Hs as [|c c' l l' [Ec Hn] _ IH]; [done|]. rewrite !filter_cons.
  destruct (decide (notouch c = true)) as [Ht|Ht].
  - rewrite decide_True by auto. cbn. rewrite Ec. by constructor.
  - case_decide; [by constructor|done].
Qed.

(** C33: What the console prints is never lost.  The code of the console removes nothing above the command line:
    after any sequence of keys and of the calls that wait for the main loop, whatever IPython answers and also
    when a call fails, the text before the start of the command line is still at the front of the buffer and
    before the start of the command line.  And when GTK handles the keys that the console lets through, and may
    then edit text above the command line that is not protected, all protected characters before the start of
    the command line stay, in their order, and before its start. *)
Theorem transcript_kept `{TextView} (steps : list console_step) (v : view) :
  console_ok (buffer v) →
  kept (buffer v) (buffer (foldl own_step v steps)) ∧
  transcript (buffer v) `sublist_of` transcript (buffer (foldl run_step v steps)).
Proof.
  intros Hv. split; revert v Hv; induction steps as [|s steps IH]; intros v Hv; [by apply kept_refl| |done|];
    cbn [foldl].
  { pose proof (own_step_kept s v Hv) as Hk. eapply kept_trans; [exact Hk|]. apply IH, Hk. }
  assert (console_ok (buffer (run_step v s)) ∧ transcript (buffer v) `sublist_of` transcript (buffer (run_step v s))) as [Hok Ht].
  { pose proof (own_step_kept s v Hv) as Hk. pose proof (kept_transcript _ _ Hk) as Ht. destruct Hk as (_ & Hok & _).
    destruct s as [e|]; [|done]. cbn [own_step run_step] in *. destruct (onKeyPress e v) as [[] v']; [done|].
    cbn [snd buffer with_buffer] in *.
    destruct (default_keeps e (buffer v') Hok) as [Hok' Ht']. split; [done|]. by etransitivity. }
  etransitivity; [exact Ht|by apply IH].
Qed.

(** ** A command and what it prints *)

(** The text [s] with its color codes shows the characters [plain]. *)
Definition displays (s plain : string) : Prop :=
  ∃ marks first ps, s = first +:+ render_codes marks ps ∧ plain = first +:+ concat_str ps.*2 ∧
    clean_text first ∧ Forall (λ p, p.1 ∈ color_tags ∧ clean_text p.2) ps ∧ no_confusion ps.
Lemma displays_nl s plain : displays s plain → displays (nl +:+ s) (nl +:+ plain).
Proof.
  intros (marks & first & ps & -> & -> & Hf & Hps & Hn). exists marks, (nl +:+ first), ps.
  rewrite <-!string_app_assoc.
  repeat split; [|done|done]. unfold clean_text. rewrite chars_app. apply Forall_app.
  split; [by repeat constructor|done].
Qed.
Lemma displays_empty : displays "" "".
Proof. exists false, "", []. by repeat constructor. Qed.
Lemma text_of_app l k : text_of (l ++ k) = text_of l +:+ text_of k.
Proof. unfold text_of. by rewrite fmap_app, implode_app. Qed.
Lemma text_of_colored tag nt s : text_of (colored tag nt s) = s.
Proof. unfold text_of, colored. rewrite <-list_fmap_compose. rewrite list_fmap_id. apply implode_chars. Qed.
Lemma text_of_colored_text nt first ps : text_of (colored_text nt first ps) = first +:+ concat_str ps.*2.
Proof.
  unfold colored_text. rewrite text_of_app, text_of_colored. f_equal. induction ps as [|p ps IH]; [done|].
  rewrite bind_cons, text_of_app, text_of_colored, IH. done.
Qed.
Lemma notouch_colored tag s : Forall (λ c, notouch c = true) (colored tag true s).
Proof. unfold colored. by rewrite Forall_fmap, Forall_forall. Qed.
Lemma notouch_colored_text first ps : Forall (λ c, notouch c = true) (colored_text true first ps).
Proof.
  unfold colored_text. apply Forall_app. split; [apply notouch_colored|].
  induction ps as [|p ps IH]; [constructor|]. rewrite bind_cons. apply Forall_app.
  split; [apply notouch_colored|done].
Qed.

(** The buffer [b] with the text [t] added to it, which cannot be edited. *)
Definition printed (b : console) (t : string) (b' : console) : Prop :=
  line_start b' = line_start b ∧ ∃ l, cells b' = cells b ++ l ∧ text_of l = t ∧ Forall (λ c, notouch c = true) l.
Lemma printed_refl b : printed b "" b.
Proof. split; [done|]. exists []. by rewrite app_nil_r. Qed.
Lemma printed_trans a t b u c : printed a t b → printed b u c → printed a (t +:+ u) c.
Proof.
  intros (E1 & l & El & <- & Hl) (E2 & k & Ek & <- & Hk). split; [congruence|]. exists (l ++ k).
  rewrite Ek, El, <-app_assoc, text_of_app. split; [done|]. split; [done|]. by apply Forall_app.
Qed.
Lemma write_printed s plain b : displays s plain → runs (write_ s false) b (λ _ b', printed b plain b').
Proof.
  intros (marks & first & ps & -> & -> & Hf & Hps & Hn).
  destruct (write_run marks false first ps b Hf Hps Hn) as (b' & E & Ec & El). exists tt, b'. split; [done|].
  split; [done|]. eexists. split; [exact Ec|]. split; [apply text_of_colored_text|apply notouch_colored_text].
Qed.
Lemma line_end_none l : (∀ c, c ∈ l → ch c ≠ nl_char) → line_end l = length l.
Proof. induction l as [|c l IH]; intros Hl; [done|]. cbn. rewrite decide_False by (apply Hl; left). f_equal. apply IH. intros; apply Hl; by right. Qed.
(** A command of one line is protected as a whole. *)
Lemma one_line_end b : console_ok b → nl_char ∉ chars (getCurrentLine b) → forward_to_line_end (line_start b) b = length (cells b).
Proof.
  intros Hb Hnl. unfold getCurrentLine, text_of in Hnl. rewrite chars_implode in Hnl.
  unfold forward_to_line_end, console_ok in *.
  assert (∀ c, c ∈ drop (line_start b) (cells b) → ch c ≠ nl_char) as Hd.
  { intros c Hc E. apply Hnl. rewrite <-E. by apply list_elem_of_fmap_2. }
  pose proof (length_drop (cells b) (line_start b)) as Hlen. destruct (drop _ _) as [|c l] eqn:E; [cbn in Hlen; lia|].
  rewrite decide_False by (apply Hd; left). rewrite line_end_none by done. lia.
Qed.
Lemma protect_line b : console_ok b → nl_char ∉ chars (getCurrentLine b) → Forall (λ c, notouch c = true) (take (line_start b) (cells b)) →
  let b' := protect (line_start b) (forward_to_line_end (line_start b) b) b in
  line_start b' = line_start b ∧ text_of (cells b') = text_of (cells b) ∧ Forall (λ c, notouch c = true) (cells b').
Proof.
  intros Hb Hnl Hnt. cbn zeta. rewrite one_line_end by done. split; [done|].
  split; [unfold text_of; by rewrite ch_protect|]. pose proof (take_drop (line_start b) (cells b)) as E.
  symmetry in E.
  pose proof (protect_end _ _ _ E) as Ep. rewrite length_take in Ep. unfold console_ok in Hb.
  rewrite Nat.min_l in Ep by done. rewrite Ep. apply Forall_app. split; [done|].
  by rewrite Forall_fmap, Forall_forall.
Qed.

(** The view after the output of a command is shown: the output, the prompt, and the indentation to edit. *)
Lemma showReturned_runs prompt text indentation out p b :
  console_ok b → nl_char ∉ chars (getCurrentLine b) → Forall (λ c, notouch c = true) (take (line_start b) (cells b)) →
  displays text out → displays prompt p →
  runs (showReturned_ prompt text indentation) b (λ _ b', ∃ above : list cell,
    cells b' = above ++ colored None false indentation ∧ line_start b' = length above ∧ Forall (λ c, notouch c = true) above ∧
    text_of above = text_of (cells b) +:+ nl +:+ out +:+ (if decide (text = "") then "" else nl) +:+ p ∧
    insert_mark b' = length (cells b') ∧ selection_bound b' = length (cells b')).
Proof.
  intros Hb Hnl Hnt Ho Hp. destruct (protect_line b Hb Hnl Hnt) as (_ & Et & Hall).
  set (b1 := protect _ _ _) in *. unfold showReturned_.
  eapply runs_bind; [by apply (runs_modify _ _ (λ _ b', b' = b1))|]. intros _ ? ->.
  eapply runs_bind; [by apply write_printed, displays_nl|]. intros [] b2 H2.
  eapply runs_bind with (Q := λ _ b3, printed b1 ((nl +:+ out) +:+ (if decide (text = "") then "" else nl)) b3).
  { destruct (decide (text = "")); [apply runs_ret; eapply printed_trans; [done|apply printed_refl]|].
    eapply runs_weaken; [apply (write_printed nl nl), (displays_nl "" ""), displays_empty|]. intros [] b3 H3.
    by eapply printed_trans. }
  intros [] b3 H3. eapply runs_bind with (Q := λ _ b4, ∃ b4', b4 = set_line_start (length (cells b4')) b4' ∧ printed b1 (((nl +:+ out) +:+ (if decide (text = "") then "" else nl)) +:+ p) b4').
  { eapply runs_bind; [by apply write_printed|]. intros [] b4 H4. apply runs_modify. exists b4. split; [done|].
    by eapply printed_trans. }
  intros [] ? (b4 & -> & _ & l & El & Etl & Hl).
  eapply runs_bind; [by apply (runs_modify _ _ (λ _ b', b' = set_line_start (length (cells b4)) b4))|intros _ ? ->].
  eapply runs_bind; [by apply (runs_modify _ _ (λ _ b', b' = place_cursor (length (cells b4)) (set_line_start (length (cells b4)) b4)))|intros _ ? ->].
  apply runs_modify.
  exists (cells b4). unfold insert_end, place_cursor, set_line_start.
  cbn [cells line_start insert_mark selection_bound].
  rewrite bool_decide_false by done. destruct (decide (length (cells b4) = length (cells b4))); [|done]. rewrite El.
  split; [done|]. split; [done|]. split; [by apply Forall_app|]. split; [|done].
  rewrite text_of_app, Et, Etl. by rewrite !string_app_assoc.
Qed.

Lemma execute_cursor b v : cells b = cells (buffer v) → line_start b = line_start (buffer v) →
  execute (with_buffer b v) = with_buffer b (execute v).
Proof.
  intros Hc Hl. unfold execute, raw_input, getCurrentLine. cbn [interrupt with_buffer buffer IP iter_more].
  rewrite Hc, Hl.
  destruct (interrupt v); [done|]. destruct (push_accepts_more _); [done|]. by destruct (run_cell _).
Qed.
Lemma execute_idle v : idle (execute v) = idle v.
Proof. unfold execute. destruct (raw_input v); [|done]. destruct (push_accepts_more _); [done|]. by destruct (run_cell _). Qed.
(** The line that is read is pushed, and the lines are run when they are complete. *)
Lemma execute_shell v : interrupt v = false →
  let pushed := push (getCurrentLine (buffer v)) (pre_prompt_hook (IP v)) in
  let edited := if last_syntax_error pushed then edit_syntax_error pushed else pushed in
  IP (execute v) = (if push_accepts_more pushed then edited else (run_cell edited).1) ∧ history_level (execute v) = 0%Z.
Proof. intros Hi. unfold execute, raw_input. rewrite Hi. cbn zeta. destruct (push_accepts_more _); [done|]. by destruct (run_cell _). Qed.
(** The key Return, up to the position of the cursor. *)
Lemma press_return e v : keyval_of e = Return →
  ∃ b, cells b = cells (buffer v) ∧ line_start b = line_start (buffer v) ∧ onKeyPress e v = (true, with_buffer b (processLine_ v)).
Proof.
  intros He. unfold onKeyPress. rewrite He, !decide_False by done.
  assert (∀ b, cells b = cells (buffer v) → line_start b = line_start (buffer v) →
    onKeyPressExtend e (with_buffer b v) = (true, with_buffer b (processLine_ v))) as Hext.
  { intros b Hc Hl. unfold onKeyPressExtend. rewrite He, andb_false_r. unfold processLine_.
    by rewrite execute_cursor. }
  destruct (decide _).
  - exists (buffer v). split; [done|]. split; [done|]. rewrite <-(Hext (buffer v)) by done. f_equal. by destruct v.
  - eexists. rewrite Hext; [split; [|split; [|done]]|..]; repeat case_match; done.
Qed.

(** C27: The console reads, runs and prints: when Return is pressed at a command of one line, the command is given to
    IPython, and when the main loop is idle again the buffer shows, after the text it had, the output of the command,
    on lines of its own, and the next prompt, all without their color codes; only the indentation that IPython asks for
    can be edited, the cursor is behind it, and the history starts at its end. *)
Theorem return_spec (e : event) (v : view) (out p : string) :
  keyval_of e = Return → interrupt v = false → idle v = [] → console_ok (buffer v) → nl_char ∉ chars (getCurrentLine (buffer v)) →
  Forall (λ c, notouch c = true) (take (line_start (buffer v)) (cells (buffer v))) →
  let pushed := push (getCurrentLine (buffer v)) (pre_prompt_hook (IP v)) in
  let edited := if last_syntax_error pushed then edit_syntax_error pushed else pushed in
  let ran := execute v in let text := strip_nl (cout ran) in
  displays text out → displays (prompt ran) p →
  let indentation := if rl_do_indent ran then spaces (indent_spaces (IP ran)) else "" in
  ∃ v1, onKeyPress e v = (true, v1) ∧
    let v2 := run_idle v1 in
    text_of (cells (buffer v2)) =
      text_of (cells (buffer v)) +:+ nl +:+ out +:+ (if decide (text = "") then "" else nl) +:+ p +:+ indentation ∧
    getCurrentLine (buffer v2) = indentation ∧
    Forall (λ c, notouch c = true) (take (line_start (buffer v2)) (cells (buffer v2))) ∧
    insert_mark (buffer v2) = length (cells (buffer v2)) ∧ selection_bound (buffer v2) = length (cells (buffer v2)) ∧
    IP v2 = (if push_accepts_more pushed then edited else (run_cell edited).1) ∧ history_level v2 = 0%Z ∧ cout v2 = "" ∧ idle v2 = [].
Proof.
  intros He Hint Hi Hok Hnl Hnt pushed edited ran text Ho Hp indentation.
  destruct (press_return e v He) as (b & Hc & Hl & Epress). eexists. split; [exact Epress|]. cbn zeta.
  assert (getCurrentLine b = getCurrentLine (buffer v)) as El by (unfold getCurrentLine; by rewrite Hc, Hl).
  destruct (showReturned_runs (prompt ran) text indentation out p b) as ([] & b2 & Erun & above & Ec & Els & Hab & Et & Hins & Hsel);
    [unfold console_ok in *; by rewrite Hc, Hl|by rewrite El|by rewrite Hc, Hl|done|done|].
  assert (buffer (run_idle (with_buffer b (processLine_ v))) = b2) as Eb.
  { unfold run_idle, processLine_. cbn [idle with_buffer idle_add]. rewrite execute_idle, Hi.
    change (((showReturned_ (prompt ran) text indentation b).2 = b2)). by rewrite Erun. }
  rewrite Eb, Hins, Hsel. unfold getCurrentLine.
  rewrite Els, Ec, take_app_length, drop_app_length, text_of_app, text_of_colored, Et, Hc.
  rewrite <-!string_app_assoc. do 5 (split; [done|]).
  destruct (execute_shell v Hint) as [E1 E2].
  unfold run_idle, processLine_. cbn [idle with_buffer idle_add]. rewrite execute_idle, Hi. by split.
Qed.

(** An interrupt within a command of several lines resets what IPython has read, but the console goes on with the prompt
    of a line that continues a command. *)
Lemma interrupt_keeps_more v : interrupt v = true →
  iter_more (execute v) = iter_more v ∧ IP (execute v) = reset (pre_prompt_hook (IP v)) ∧ interrupt (execute v) = false.
Proof. intros Hi. unfold execute, raw_input. by rewrite Hi. Qed.
End proofs.

(** ** Examples *)

(** A shell that runs each line at once, and prints it twice. *)
Module ConsoleDemo.
Definition state : Type := list string * string.
#[export] Instance echo_shell : Shell := {|
  ip := state;
  generatePrompt more s := code true "0;32" +:+ (if more then ".." else "In") +:+ code true "0" +:+ ": ";
  pre_prompt_hook s := s; autoindent s := false;
  push line s := (s.1, line); push_accepts_more s := false; reset s := (s.1, ""); indent_spaces s := 2;
  last_syntax_error s := false; edit_syntax_error s := s;
  run_cell s := ((s.1 ++ [s.2 +:+ nl], ""), s.2 +:+ s.2 +:+ nl);
  user_ns_In s := s.1;
  ip_complete w s := if decide (w = "al") then ["all"; "allow"] else ["%cd"; "close"] |}.
Definition start (cmds : list string) (line : string) : view :=
  View (Console (colored None true "> " ++ colored None false line) 2 0 0) [] false 0 false "> " false "" ("" :: cmds, "").
Definition press (k : keyval) : event := Event k false false false "".
Definition type_text (s : string) : event := Event (Key 0) false false false s.
(** A text view that inserts the text of a key at the cursor, if the character there can be edited. *)
Definition insert_text (s : string) (b : console) : console :=
  let '(p, n) := (insert_mark b, String.length s) in
  if editable_at p b
  then Console (take p (cells b) ++ colored None false s ++ drop p (cells b)) (if line_start b <=? p then line_start b else line_start b + n) (p + n) (p + n)
  else b.
Lemma insert_text_keeps s b : console_ok b → console_ok (insert_text s b) ∧ transcript b `sublist_of` transcript (insert_text s b).
Proof.
  intros Hb. unfold insert_text. destruct (editable_at _ b); [|done].
  unfold console_ok, transcript in *. cbn [line_start cells].
  assert (length (colored None false s) = String.length s) as Hn by (unfold colored;
    by rewrite length_fmap, str_length_chars).
  destruct (Nat.leb_spec (line_start b) (insert_mark b)).
  - split; [rewrite !length_app, length_take, length_drop; lia|]. rewrite take_app_le by (rewrite length_take; lia).
    rewrite take_take, Nat.min_l by lia. done.
  - split; [rewrite !length_app, length_take, length_drop; lia|].
    rewrite !take_app, take_take, length_take, Hn, Nat.min_r by lia.
    rewrite (take_ge (colored _ _ _)) by lia. rewrite !filter_app, !fmap_app.
    rewrite <-(take_drop (insert_mark b) (take (line_start b) (cells b))), filter_app, fmap_app.
    rewrite take_take, Nat.min_l by lia. apply sublist_app; [done|]. apply sublist_inserts_l.
    rewrite take_drop_commute.
    match goal with |- context [take (insert_mark b + ?k)] => replace (insert_mark b + k) with (line_start b) by lia end. done.
Qed.
#[export] Instance typing_view : TextView := {| default_key e b := insert_text (event_string e) b; default_keeps e b := insert_text_keeps (event_string e) b |}.
End ConsoleDemo.
Import ConsoleDemo.

Lemma history_walk_witness :
  walk [true; true; true; false] (start ["a"; "b"] "") = ("b", at_level (-1) (start ["a"; "b"] "")).
Proof. apply (history_walk ["a"; "b"] [true; true; true; false] (start ["a"; "b"] "")); [done|by repeat constructor|done]. Defined.
Lemma complete_spec_witness : ∃ before rest, "f(al" = before +:+ "al" ∧ complete "f(al" (start [] "") = ("f(al" +:+ rest, ["all"; "allow"]) ∧
  longest_common ("al" +:+ rest) ["all"; "allow"].
Proof.
  apply (complete_spec "f(al" (start [] "")). change (possibilities_for "f(al" (start [] "")) with ["all"; "allow"].
  intros p. rewrite elem_of_cons, list_elem_of_singleton. intros [->| ->]; [by exists "l"|by exists "low"].
Defined.
Definition demo_steps : list console_step := [Press (type_text "y"); Press (press Return); Idle; Press (press Up); Idle].
Lemma transcript_kept_witness :
  transcript (buffer (start [] "x")) = chars "> " ∧ text_of (cells (buffer (run_step (start [] "x") (Press (type_text "y"))))) = "> yx" ∧
  transcript (buffer (start [] "x")) `sublist_of` transcript (buffer (foldl run_step (start [] "x") demo_steps)).
Proof.
  split; [vm_compute; reflexivity|]. split; [vm_compute; reflexivity|].
  apply (transcript_kept demo_steps (start [] "x")). vm_compute. lia.
Defined.
Lemma return_spec_witness : ∃ v1, onKeyPress (press Return) (start [] "x") = (true, v1) ∧
  text_of (cells (buffer (run_idle v1))) = "> x" +:+ nl +:+ "xx" +:+ nl +:+ "In: ".
Proof.
  destruct (return_spec (press Return) (start [] "x") "xx" "In: ") as (v1 & E1 & E2 & _).
  - done.
  - done.
  - done.
  - vm_compute. lia.
  - change (chars (getCurrentLine (buffer (start [] "x")))) with ["x"%char]. by intros ?%list_elem_of_singleton.
  - vm_compute. by repeat constructor.
  - exists false, "xx", []. by repeat constructor.
  - exists true, "", [("0;32", "In"); ("0", ": ")]. split; [reflexivity|]. split; [reflexivity|].
    split; [constructor|]. split.
    + repeat apply Forall_cons_2; [split; [refine (bool_decide_eq_true_1 _ _);
        reflexivity|by repeat constructor]..|constructor].
    + cbn. repeat split; refine (bool_decide_eq_true_1 _ _); reflexivity.
  - exists v1. split; [exact E1|]. exact E2.
Defined.

(** Offers that have nothing in common: of the word [cd] only [d] is left. *)
Lemma completion_loses_word : complete "x c" (start [] "") = ("x c", ["%cd"; "close"]) ∧ complete "x cd" (start [] "") = ("x d", ["%cd"; "close"]).
Proof. by vm_compute. Qed.
(** The line that Tab leaves above the list of the offers can still be edited. *)
Lemma tab_leaves_editable :
  let b := buffer (run_idle (onKeyPress (press Tab) (start [] "al")).2) in
  text_of (cells b) = "> al" +:+ nl +:+ "all" +:+ nl +:+ "allow" +:+ nl +:+ "> all" ∧ notouch <$> (cells b !! 2) = Some false ∧ 2 < line_start b.
Proof. vm_compute. repeat split; lia. Qed.
(** A command of two lines is put back only in part: its second line is left when the line is changed again. *)
Lemma second_line_left :
  getCurrentLine (buffer (foldl run_step (start ["x"; "if x:" +:+ nl +:+ " y"] "") [Press (press Up); Idle; Press (press Up); Idle])) = nl +:+ " yx".
Proof. by vm_compute. Qed.
